(* ===== verification/_CoqProject ===== *)
-Q . S2P
Prelude.v
CString.v
CArray.v
Ring.v
Mem.v
Buffer.v
Service.v
Node.v
LineEdit.v
TimerHeap.v
Timer.v
Scheduler.v
RunLoop.v
Murmur.v
Kv.v
KvConc.v
KvLinear.v
Stats.v
Log.v
Refs.v
Shm.v
Ipc.v
Remote.v
Plugin.v
Post.v
Threads.v
NodeMgr.v
MgrMain.v
Cli.v
NodeMain.v
Api.v
Components.v
