(* ===== verification/Prelude.v ===== *)
(** * Codex-NOS: a verification development

    Codex-NOS is a small platform for network-node processes, written in C.
    A *node* is one process.  It loads *components* from shared libraries
    and runs them on *worker threads*; components exchange *messages*, which
    are addressed to a *service* and carried in reference-counted buffers,
    within the node through the queues of the threads and between nodes over
    UNIX sockets or shared memory.  A separate *manager* process starts and
    stops nodes.  This library models that program and proves what makes its
    parts correct.

    ** The parts and where they are

    - Foundations.  Prelude: status codes, machine integers, list lemmas, and
      the monad [outcome] of code that can run into undefined behaviour
      ([Undef]) or out of the model's fuel ([Fuel]).
      CString: the libc functions on strings that the program uses.  CArray:
      a static array with a count, the shape of most tables.  Ring: the
      head/tail queues, with the class [Fifo] their clients use.  Mem: bytes
      in memory and the message envelope (include/nos_service.h).
    - Buffers.  Buffer: the pool and the reply contexts
      (src/core/nos_buffer.c).  Refs: exact reference counting across the
      holders of a buffer, and the class [IpcLaws] the scheduler needs.
      Post: composing and posting a message.
    - Scheduler (src/core/nos_scheduler.c).  Node: the node context.
      TimerHeap and Timer: timers.
      Scheduler: threads, routing, delivery, descriptors.  RunLoop: the event
      loop and its senders, as interleaved steps.  Threads: what a running
      thread does to the node, as seen by the command line and the component
      manager.  Service: the service registry and the table of embedded services (src/core/nos_service.c).
    - Infrastructure (src/infra).  Murmur and Kv: the key-value database.
      KvConc and KvLinear: its operations by interleaved threads.  Stats: the
      statistics registry.  Log: the log ring.  Shm: channels in shared
      memory.  Ipc: connections between nodes.  Remote: two nodes connected
      by it, over a shared-memory channel or the socket alone.
    - Components.  Plugin: what the framework and a component promise each
      other ([Plugins], [PluginLaws]).  NodeMgr: loading, unloading,
      reloading and routing (src/core/nos_node_mgr.c).  Api: the tables of
      operations and the macros through which components call the engines
      (include/nos_api.h).  Components: the sample components
      (src/components).
    - The process.  LineEdit and Cli: the command line (src/core/nos_cli.c).
      NodeMain: start-up and shutdown (src/core/nos_node_main.c).
    - The manager.  MgrMain (src/mgr/nos_mgr_main.c).

    Definitions have the names of the C functions and types they translate.
    Objects that the program refers to by address (components, timers,
    threads, reply contexts, connections) are kept in stores and referred to
    by key, so sharing and dangling references can be expressed; an access
    through a key that is not in its store is [Undef] or does nothing, as
    stated at each place.  The state of a part is passed explicitly; the
    record [node] (Node.v) is [g_node_ctx] with all that hangs on it.

    ** How the parts rest on each other

    Scheduler uses IPC through the class [IpcTransport], whose laws are
    [IpcLaws]: Refs and Post are proved against the laws, and Ipc gives the
    instance and discharges them.  NodeMgr, Cli and NodeMain run the code of
    loaded libraries through the class [Plugins]; their theorems assume
    [PluginLaws], that this code acts on the node by API calls only
    ([Plugin.api_step]), and hold for every library that does.  Cli and
    NodeMain add [OthersLaws] and [joins] for the other threads: they take
    any number of [Threads.thread_step]s, which are the API calls of the
    components they run, the start of components, the sleep flag, the event
    descriptor and the timers taken from a heap and put back.  The functions
    of the loop are shown to be made of such steps ([process_timers_acts],
    [start_pending_acts], [process_messages_acts]).

    ** What is shown

    - Resources: the pool stays well formed and hands out disjoint chunks;
      reference counts are exactly the queue entries and held references in
      every run of a node with its IPC layer; the components' handlers give
      back what they take; statistics and tables stay within their arrays.
    - Delivery: draining a queue hands over the messages in order, also when
      handlers send to their own thread, a sent message reaches its handler, no wake-up is lost, the loop settles, a
      transmit pass sends a prefix of the queue in order, shared-memory rings
      are queues under every interleaving, stale replies are refused, a
      request and its reply cross two nodes and come back to who asked.
    - Time: a timer pass runs exactly the due timers in order and ends.
    - Storage and logging: a table refines a finite map under every sequence
      of operations, and under threads it is linearizable and free of deadlock
      as long as one thread at a time uses the free stack, which the code
      does not ensure ([KvConc.insert_race]); the concurrent log neither
      loses nor repeats records beyond those it counts as dropped, and prints
      them in order.
    - Components: no service table is used at a wrong type, the macros are
      the functions behind them, unloading and reloading leave nothing that
      refers to freed memory, start-up places the components of the manifest
      on their threads ([placement]) and gives each service the route the
      manifest asks for ([routes_to], stated without the code's own look-ups).
      The handlers of the sample components give back what they take, and the
      sweep of the remote ping sends its PINGs ([sends] describes the message
      handed to [nos_service_msg_send], not the code that does it).
    - The command line: the editor on raw memory implements an editor of
      text, a line runs the command whose name it starts with, a session of
      the lines [line_safe] allows keeps the manager's invariant; the whole
      life of a node's process ends with nothing left.
    - The manager: running nodes and unreaped children correspond in every
      session, stopping a node ends and reaps exactly its child.

    Places where the program does not do what it means to do are stated as
    closed lemmas next to the code they concern ("What goes wrong" in Cli,
    the ends of Timer, Scheduler, Ipc, NodeMgr, LineEdit, Components,
    KvConc, [purge_judges_by_service] in Scheduler).

    ** Bounds and fuel

    Loops that are not structural take fuel, and their theorems say how much
    is enough: more than the messages queued for draining a thread (at most
    1023) and for a transmit pass, more than the entries of the heap for a
    timer pass, the ring's size for the loops over a shared ring, one more
    than the loop's own bound for loading a thread's components (65) and the
    worker threads (9), one more than the characters of the input for a
    session of the command line or of the manager, 22 doublings for the
    sizing of a table (above 2^31 entries it does not end, which is stated).
    Counters and sizes have the width of the C types, with wrap-around
    written out ([u32], [u64]).  The bins of the pool have at most 2^31 chunks
    and less than 2^32 bytes each ([bin_def_ok]): above that [free_top], an
    [int], and the product that sizes the bin overflow in the code
    ([init_bin_chunks_disjoint]).

    ** Assumptions and limits

    Accesses of threads interleave sequentially; code under a lock is one
    step, except in KvConc, where the accesses under a bucket's lock are
    steps of their own.  There, subscribers are not called and no pointer is
    held between operations.  A push above the free stack or an index out of
    the table is no step there, so a thread that would make one is stuck, and
    [kv_threads_safe] says that none is.  Tables of the database are below
    4 GiB (the product idx * entry_size is taken without its wrap),
    [strdup] and the small allocations without a check succeed except where
    an argument says otherwise, input has no NUL characters.  A message whose
    [payload_len] is larger than its chunk is sent with the memory behind the
    chunk, which is a parameter ([k_beyond]); a handler that reads its payload
    behind the chunk is [Undef].  The event masks given to epoll are not kept,
    since events are inputs of the loop: theorems about sequences of events
    hold for those of an edge-triggered descriptor too.  The command line's
    tests are followed to services of this node only: a message it posts to
    another node enters a transmit queue, and Refs and Ipc cover those, but
    not through the calls of plug-in code.  Not modelled,
    because there is nothing of the program's own to state: what the kernel,
    libc, the dynamic loader and the code generated from the manifest do
    (they are parameters: [kernel], [loader], [resources], [platform], tables
    of constants), the text of printed tables, terminal modes, thread
    creation, the declarations of the headers and the macros that fix an
    argument of another, and the Python generator. *)

From stdpp Require Import base list gmap strings numbers.
Local Open Scope Z_scope.

(** ** Status codes (include/nos_types.h) *)

Inductive nos_status :=
  | NOS_OK
  | NOS_ERR
  | NOS_ERR_NOMEM
  | NOS_ERR_NOT_FOUND
  | NOS_ERR_BUSY
  | NOS_ERR_TIMEOUT.

#[global] Instance nos_status_eq_dec : EqDecision nos_status.
Proof. solve_decision. Defined.

(** The integer the C enum gives each code. *)
Definition status_code (s : nos_status) : Z :=
  match s with
  | NOS_OK => 0
  | NOS_ERR => -1
  | NOS_ERR_NOMEM => -2
  | NOS_ERR_NOT_FOUND => -3
  | NOS_ERR_BUSY => -4
  | NOS_ERR_TIMEOUT => -5
  end.

(** ** Machine-width integers *)

(** Conversion to [uint32_t] / [uint64_t]: reduction modulo 2^w. *)
Definition u32 (x : Z) : Z := x mod 2 ^ 32.
Definition u64 (x : Z) : Z := x mod 2 ^ 64.

(** Conversion of an integer to a 32-bit [int] (two's complement). *)
Definition i32 (x : Z) : Z :=
  let y := u32 x in if y <? 2 ^ 31 then y else y - 2 ^ 32.

Definition in_u32 (x : Z) : Prop := 0 <= x < 2 ^ 32.

Lemma u32_range x : 0 <= u32 x < 2 ^ 32.
Proof. unfold u32. apply Z.mod_pos_bound. lia. Qed.

Lemma u32_small x : 0 <= x < 2 ^ 32 -> u32 x = x.
Proof. apply Z.mod_small. Qed.

Lemma u64_range x : 0 <= u64 x < 2 ^ 64.
Proof. unfold u64. apply Z.mod_pos_bound. lia. Qed.

Lemma u64_small x : 0 <= x < 2 ^ 64 -> u64 x = x.
Proof. apply Z.mod_small. Qed.

Lemma u32_idem x : u32 (u32 x) = u32 x.
Proof. apply u32_small, u32_range. Qed.

Lemma i32_small x : 0 <= x < 2 ^ 31 -> i32 x = x.
Proof.
  intros Hx. unfold i32. rewrite u32_small by lia.
  destruct (Z.ltb_spec x (2 ^ 31)); lia.
Qed.

Lemma i32_neg x : 2 ^ 31 <= x < 2 ^ 32 -> i32 x = x - 2 ^ 32.
Proof.
  intros Hx. unfold i32. rewrite u32_small by lia.
  destruct (Z.ltb_spec x (2 ^ 31)); lia.
Qed.

(** Bitwise results of [uint32_t] operands stay in range. *)
Lemma lxor_u32 x y : in_u32 x -> in_u32 y -> in_u32 (Z.lxor x y).
Proof.
  unfold in_u32. intros [Hx Hx'] [Hy Hy'].
  assert (0 <= Z.lxor x y) by (apply Z.lxor_nonneg; lia). split; [done|].
  destruct (Z.eq_dec (Z.lxor x y) 0) as [->|]; [lia|].
  apply Z.log2_lt_pow2; [lia|].
  apply Z.le_lt_trans with (Z.max (Z.log2 x) (Z.log2 y)); [apply Z.log2_lxor; lia|].
  assert (∀ z, 0 <= z < 2 ^ 32 → Z.log2 z < 32).
  { intros z Hz. destruct (Z.eq_dec z 0) as [->|]; [done|]. apply Z.log2_lt_pow2; lia. }
  apply Z.max_lub_lt; auto.
Qed.

Lemma lor_u32 x y : in_u32 x -> in_u32 y -> in_u32 (Z.lor x y).
Proof.
  unfold in_u32. intros [Hx Hx'] [Hy Hy'].
  assert (0 <= Z.lor x y) by (apply Z.lor_nonneg; lia). split; [done|].
  destruct (Z.eq_dec (Z.lor x y) 0) as [->|]; [lia|].
  apply Z.log2_lt_pow2; [lia|]. rewrite Z.log2_lor by lia.
  assert (∀ z, 0 <= z < 2 ^ 32 → Z.log2 z < 32).
  { intros z Hz. destruct (Z.eq_dec z 0) as [->|]; [done|]. apply Z.log2_lt_pow2; lia. }
  apply Z.max_lub_lt; auto.
Qed.

(** ** C strings

    A C string is a Rocq [string] without its terminating NUL.
    [strncpy_field n s] is what [strncpy(field, s, n - 1)] leaves in a
    zero-initialised [char field[n]]: at most [n - 1] characters. *)
Definition strncpy_field (n : nat) (s : string) : string := String.substring 0 (n - 1) s.

(** [strncmp(p, s, strlen(p)) == 0] *)
Definition str_prefix (p s : string) : bool := String.prefix p s.

(** ** Tactics *)

(** Destruct the outermost test or match of the goal or of a hypothesis,
    keeping the equation; used to walk a handler branch by branch. *)
Ltac branch :=
  match goal with
  | |- context [match ?x with _ => _ end] => destruct x eqn:?
  | H : context [match ?x with _ => _ end] |- _ => destruct x eqn:?
  end.

(** Turn boolean tests in hypotheses into propositions. *)
Ltac bool_hyps :=
  repeat match goal with
  | H : (_ && _)%bool = true |- _ => apply andb_prop in H as [? ?]
  | H : (_ || _)%bool = false |- _ => apply orb_false_elim in H as [? ?]
  | H : negb _ = true |- _ => apply negb_true_iff in H
  | H : negb _ = false |- _ => apply negb_false_iff in H
  | H : (_ =? _)%nat = true |- _ => apply Nat.eqb_eq in H
  | H : (_ =? _)%nat = false |- _ => apply Nat.eqb_neq in H
  | H : (_ <? _)%nat = true |- _ => apply Nat.ltb_lt in H
  | H : (_ <? _)%nat = false |- _ => apply Nat.ltb_ge in H
  | H : (_ <=? _)%nat = true |- _ => apply Nat.leb_le in H
  | H : (_ <=? _)%nat = false |- _ => apply Nat.leb_gt in H
  | H : (_ =? _)%Z = true |- _ => apply Z.eqb_eq in H
  | H : (_ =? _)%Z = false |- _ => apply Z.eqb_neq in H
  | H : (_ <? _)%Z = true |- _ => apply Z.ltb_lt in H
  | H : (_ <? _)%Z = false |- _ => apply Z.ltb_ge in H
  | H : (_ <=? _)%Z = true |- _ => apply Z.leb_le in H
  | H : (_ <=? _)%Z = false |- _ => apply Z.leb_gt in H
  | H : String.eqb _ _ = true |- _ => apply String.eqb_eq in H
  | H : String.eqb _ _ = false |- _ => apply String.eqb_neq in H
  end.

Ltac zify_u32 := unfold in_u32 in *; rewrite ?u32_small in * by lia.

Create HintDb nos discriminated.
#[export] Hint Resolve u32_range u64_range lxor_u32 lor_u32 : nos.
#[export] Hint Rewrite u32_idem : nos.

(** ** Lists *)

(** The first index whose element satisfies the test: the C idiom
    [for (i = 0; i < n; i++) if (p(a[i])) return i;]. *)
Fixpoint find_idx {A} (p : A -> bool) (l : list A) : option nat :=
  match l with
  | [] => None
  | x :: l => if p x then Some 0%nat else S <$> find_idx p l
  end.

Lemma find_idx_Some {A} (p : A -> bool) (l : list A) i :
  find_idx p l = Some i ->
  exists x, l !! i = Some x /\ p x = true /\
    forall j y, (j < i)%nat -> l !! j = Some y -> p y = false.
Proof.
  revert i. induction l as [|x l IH]; intros i H; simpl in H; [done|].
  destruct (p x) eqn:Hp.
  - simplify_eq. exists x. split_and!; [done..|]. intros; lia.
  - apply fmap_Some in H as (j & Hj & ->).
    destruct (IH j Hj) as (y & Hy & Hpy & Hlt). exists y. split_and!; [done..|].
    intros [|k] z Hk Hz; simpl in *; [congruence|]. apply (Hlt k z); [lia|done].
Qed.

Lemma find_idx_None {A} (p : A -> bool) (l : list A) :
  find_idx p l = None <-> Forall (fun x => p x = false) l.
Proof.
  induction l as [|x l IH]; simpl; [by split; constructor|].
  rewrite Forall_cons_iff. destruct (p x); [naive_solver|].
  rewrite <-IH. destruct (find_idx p l); naive_solver.
Qed.

Lemma find_idx_lt {A} (p : A -> bool) (l : list A) i :
  find_idx p l = Some i -> (i < length l)%nat.
Proof. intros (x & Hx & _)%find_idx_Some. by eapply lookup_lt_Some. Qed.

Lemma find_idx_intro {A} (p : A -> bool) (l : list A) i x :
  l !! i = Some x -> p x = true ->
  (forall j y, (j < i)%nat -> l !! j = Some y -> p y = false) ->
  find_idx p l = Some i.
Proof.
  revert i. induction l as [|y l IH]; intros [|i] Hx Hp Hlt; simplify_eq/=.
  - by rewrite Hp.
  - rewrite (Hlt 0%nat y) by (done || lia). rewrite (IH i); [done..|].
    intros j z Hj Hz. apply (Hlt (S j) z); [lia|done].
Qed.

Lemma find_idx_app_l {A} (p : A -> bool) (l k : list A) i :
  find_idx p l = Some i -> find_idx p (l ++ k) = Some i.
Proof.
  revert i. induction l as [|x l IH]; intros i; simpl; [done|].
  destruct (p x); [done|]. intros (j & Hj & ->)%fmap_Some. by rewrite (IH j).
Qed.

Lemma find_idx_app_r {A} (p : A -> bool) (l k : list A) :
  find_idx p l = None -> find_idx p (l ++ k) = (Nat.add (length l)) <$> find_idx p k.
Proof.
  induction l as [|x l IH]; simpl; [by destruct (find_idx p k)|].
  destruct (p x); [done|]. intros H.
  rewrite IH by (by destruct (find_idx p l)). by destruct (find_idx p k).
Qed.

(** Updating the last element of a list. *)
Lemma take_insert_last {A} (l : list A) n x :
  (n < length l)%nat -> take (S n) (<[n:=x]> l) = take n l ++ [x].
Proof.
  intros Hn. rewrite (take_S_r _ _ x) by (by apply list_lookup_insert_eq).
  by rewrite take_insert_ge.
Qed.

#[export] Hint Resolve find_idx_lt : nos.

(** ** Outcomes

    [Undef] is undefined behaviour of the C program, such as dereferencing
    memory that was freed; [Fuel] is a loop that has not ended within the
    given number of iterations. *)
Inductive outcome (A : Type) :=
  | Done (a : A)
  | Fuel
  | Undef.
Arguments Done {A} _.
Arguments Fuel {A}.
Arguments Undef {A}.

#[export] Instance outcome_bind : MBind outcome := fun A B k o =>
  match o with Done a => k a | Fuel => Fuel | Undef => Undef end.

#[export] Instance outcome_fmap : FMap outcome := fun A B f o =>
  match o with Done a => Done (f a) | Fuel => Fuel | Undef => Undef end.

#[export] Instance outcome_ret : MRet outcome := fun A => Done.
