(* ===== verification/CString.v ===== *)
(** * C strings and the string functions of libc

    What the program uses of <string.h>, <stdlib.h> and <stdio.h>.  Text that
    stays inside a call is a [string]; a buffer that is edited in place is its
    memory, a list of characters whose text ends at the first NUL. *)

From Stdlib Require Import Ascii.
From stdpp Require Import base list strings.
From S2P Require Import Prelude.

Abbreviation chars := (list ascii).
Definition NUL : ascii := "000"%char.

#[export] Instance ascii_eq_dec : EqDecision ascii := Ascii.ascii_dec.

(** ** Text in memory *)

(** The string at the start of [m]; [None] when the memory ends first. *)
Fixpoint cstr (m : chars) : option chars :=
  match m with
  | [] => None
  | c :: m => if decide (c = NUL) then Some [] else (fun s => c :: s) <$> cstr m
  end.

(** Stores [l] at offset [off]. *)
Definition overwrite (off : nat) (l m : chars) : chars := take off m ++ l ++ drop (off + length l) m.

(** [strcpy(m + off, s)]; [None] when it writes past the end of [m]. *)
Definition strcpy (off : nat) (s m : chars) : option chars :=
  if off + length s <? length m then Some (overwrite off (s ++ [NUL]) m) else None.

(** [strncmp(a, b, n) == 0] *)
Fixpoint strncmp0 (n : nat) (a b : chars) : bool :=
  match n, a, b with
  | O, _, _ | _, [], [] => true
  | S n, x :: a, y :: b => bool_decide (x = y) && strncmp0 n a b
  | _, _, _ => false
  end.

(** [strrchr(s, c) - s] *)
Fixpoint strrchr (c : ascii) (s : chars) : option nat :=
  match s with
  | [] => None
  | x :: s =>
      match strrchr c s with
      | Some i => Some (S i)
      | None => if decide (x = c) then Some 0 else None
      end
  end.

(** [strcspn(s, "c")] *)
Fixpoint strcspn (c : ascii) (s : chars) : nat :=
  match s with
  | [] => 0
  | x :: s => if decide (x = c) then 0 else S (strcspn c s)
  end.

(** [strstr(s, p) != NULL] *)
Fixpoint strstr (s p : string) : bool :=
  str_prefix p s || match s with String _ s => strstr s p | EmptyString => false end.

Definition lower (c : ascii) : ascii :=
  let k := nat_of_ascii c in if (65 <=? k) && (k <=? 90) then ascii_of_nat (k + 32) else c.

(** [strcasecmp(a, b) == 0] *)
Definition strcaseeq (a b : chars) : bool := bool_decide (lower <$> a = lower <$> b).

(** [strncmp(s, p, strlen(p)) == 0], then [s + strlen(p)] *)
Fixpoint strip_prefix (p s : string) : option string :=
  match p, s with
  | EmptyString, _ => Some s
  | String a p, String b s => if decide (a = b) then strip_prefix p s else None
  | _, _ => None
  end.


(** [%-<n>s] *)
Fixpoint spaces (n : nat) : string := match n with O => "" | S n => String " "%char (spaces n) end.
Definition pad_right (n : nat) (s : string) : string := s +:+ spaces (n - String.length s).

(** [fgets(line, n + 1, stdin)]: the line read and the rest of the input. *)
Fixpoint fgets (n : nat) (input : string) : string * string :=
  match n, input with
  | O, _ => (EmptyString, input)
  | _, EmptyString => (EmptyString, EmptyString)
  | S n, String c s =>
      if decide (c = "010"%char) then (String c EmptyString, s)
      else let '(a, b) := fgets n s in (String c a, b)
  end.


(** ** Numbers *)

Definition is_space (c : ascii) : bool :=
  let k := nat_of_ascii c in (k =? 32) || ((9 <=? k) && (k <=? 13)).

Definition digit (c : ascii) : option Z :=
  let k := nat_of_ascii c in
  if (48 <=? k) && (k <=? 57) then Some (Z.of_nat (k - 48)) else None.

(** [strtoul] in base 10 on the characters after the sign: the value and
    what follows, [None] when there is no digit. *)
Fixpoint digits (acc : Z) (s : list ascii) : Z * list ascii :=
  match s with
  | c :: s' => match digit c with Some d => digits (acc * 10 + d) s' | None => (acc, s) end
  | [] => (acc, [])
  end.

Fixpoint skip_space (s : list ascii) : list ascii :=
  match s with
  | c :: s' => if is_space c then skip_space s' else s
  | [] => []
  end.

Definition sign (s : list ascii) : bool * list ascii :=
  match s with
  | c :: s' => if nat_of_ascii c =? 45 (* '-' *) then (true, s')
               else if nat_of_ascii c =? 43 (* '+' *) then (false, s') else (false, s)
  | [] => (false, [])
  end.

(** The value, the rest and whether [errno] is set; [None] for no
    conversion.  An [unsigned long] has 64 bits; a minus sign negates. *)
Definition strtoul10 (s : list ascii) : option (Z * list ascii * bool) :=
  let '(neg, s1) := sign (skip_space s) in
  match s1 with
  | c :: _ =>
      match digit c with
      | None => None
      | Some _ =>
          let '(v, rest) := digits 0 s1 in
          if (v <? 2 ^ 64)%Z then Some (if neg then u64 (- v) else v, rest, false)
          else Some (2 ^ 64 - 1, rest, true)%Z
      end
  | [] => None
  end.

(** [(int)strtol(s, NULL, 10)], which is what glibc's [atoi] computes. *)
Definition atoi (s : chars) : Z :=
  let '(neg, s1) := sign (skip_space s) in
  let v := (digits 0 s1).1 in
  i32 (if neg then Z.max (- 2 ^ 63) (- v) else Z.min (2 ^ 63 - 1) v).

(** [sscanf(s, "%u", &v)]: the value and what follows. *)
Definition scan_u (s : chars) : option (Z * chars) :=
  match strtoul10 s with Some (v, rest, _) => Some (u32 v, rest) | None => None end.

(** [sscanf(s, "%s", t)]: the next word and what follows. *)
Fixpoint span_word (s : chars) : chars * chars :=
  match s with
  | c :: s' => if is_space c then ([], s) else let '(w, r) := span_word s' in (c :: w, r)
  | [] => ([], [])
  end.

Definition scan_s (s : chars) : option (chars * chars) :=
  match skip_space s with [] => None | s1 => Some (span_word s1) end.

(** ** Lemmas *)

Lemma cstr_nul s rest : NUL ∉ s -> cstr (s ++ NUL :: rest) = Some s.
Proof.
  induction s as [|c s IH]; cbn; [by rewrite decide_True|].
  intros [Hc Hs]%not_elem_of_cons. rewrite decide_False by congruence. by rewrite IH.
Qed.

Lemma cstr_Some m s : cstr m = Some s -> NUL ∉ s /\ exists rest, m = s ++ NUL :: rest.
Proof.
  revert s. induction m as [|c m IH]; intros s; cbn; [done|]. case_decide as Hc.
  - intros [= <-]. subst. split; [apply not_elem_of_nil|]. by exists m.
  - intros (t & Ht & ->)%fmap_Some. destruct (IH t Ht) as [Hn [rest ->]].
    split; [|by exists rest]. apply not_elem_of_cons. split; [congruence|done].
Qed.

Lemma length_overwrite off l m : off + length l <= length m -> length (overwrite off l m) = length m.
Proof. intros. unfold overwrite. rewrite !length_app, length_take, length_drop. lia. Qed.

Lemma take_overwrite off l m k :
  off + length l <= length m -> k <= length l -> take (off + k) (overwrite off l m) = take off m ++ take k l.
Proof.
  intros. unfold overwrite. rewrite take_app, take_take, length_take.
  replace (Nat.min (off + k) off) with off by lia. f_equal.
  rewrite take_app_le by lia. f_equal. lia.
Qed.

Lemma drop_overwrite off l m :
  off <= length m -> drop off (overwrite off l m) = l ++ drop (off + length l) m.
Proof. intros. unfold overwrite. by rewrite drop_app_length' by (rewrite length_take; lia). Qed.

Lemma strcpy_Some off s m m' :
  strcpy off s m = Some m' -> NUL ∉ take off m -> NUL ∉ s ->
  length m' = length m /\ cstr m' = Some (take off m ++ s) /\ off + length s < length m /\
  take (off + length s) m' = take off m ++ s.
Proof.
  unfold strcpy. destruct (Nat.ltb_spec (off + length s) (length m)); [|done]. intros [= <-] Hm Hs.
  assert (length (s ++ [NUL]) = S (length s)) as E by (rewrite length_app; cbn; lia).
  split_and!; [apply length_overwrite; lia| |done|].
  - unfold overwrite. rewrite <-app_assoc. cbn [app]. rewrite app_assoc. apply cstr_nul.
    rewrite elem_of_app. tauto.
  - rewrite take_overwrite by lia. by rewrite take_app_le, (take_ge s) by lia.
Qed.

Lemma strncmp0_sym n a b : strncmp0 n a b = strncmp0 n b a.
Proof.
  revert a b. induction n as [|n IH]; intros [|x a] [|y b]; try done. cbn. rewrite IH.
  f_equal. apply bool_decide_ext. naive_solver.
Qed.

Lemma strncmp0_prefix a b : strncmp0 (length b) a b = bool_decide (b `prefix_of` a).
Proof.
  revert a. induction b as [|y b IH]; intros a.
  - cbn. symmetry. apply bool_decide_eq_true. apply prefix_nil.
  - destruct a as [|x a]; cbn [strncmp0 length].
    + symmetry. apply bool_decide_eq_false. intros H. by apply prefix_nil_inv in H.
    + rewrite IH. rewrite <-bool_decide_and. apply bool_decide_ext. split.
      * intros [-> H]. by apply prefix_cons.
      * intros H. split; [symmetry; by eapply prefix_cons_inv_1|by eapply prefix_cons_inv_2].
Qed.

Lemma strrchr_Some c s i :
  strrchr c s = Some i -> i < length s /\ s !! i = Some c /\ c ∉ drop (S i) s.
Proof.
  revert i. induction s as [|x s IH]; intros i; cbn [strrchr]; [done|].
  destruct (strrchr c s) as [j|] eqn:E.
  - intros [= <-]. destruct (IH j eq_refl) as (? & ? & ?). cbn. split_and!; [lia|done|done].
  - case_decide as Hx; [|done]. intros [= <-]. subst. cbn. split_and!; [lia|done|].
    rewrite drop_0. clear IH. induction s as [|y s IH]; [apply not_elem_of_nil|].
    cbn in E. destruct (strrchr c s); [done|]. case_decide; [done|].
    apply not_elem_of_cons. split; [congruence|by apply IH].
Qed.

Lemma fgets_le n s : (String.length (fgets n s).2 <= String.length s)%nat.
Proof.
  revert s. induction n as [|n IH]; intros [|c s]; try done. simpl.
  destruct (decide _); [simpl; lia|]. specialize (IH s). destruct (fgets n s). simpl in *. lia.
Qed.

Lemma fgets_shorter n c s : (String.length (fgets (S n) (String c s)).2 <= String.length s)%nat.
Proof.
  simpl. destruct (decide _); [done|]. pose proof (fgets_le n s) as H. by destruct (fgets n s).
Qed.

