(* ===== verification/CArray.v ===== *)
(** * Fixed-size C arrays with a live prefix

    The program keeps most of its tables as a static array and a count
    ([g_service_registry]/[g_service_count], [components]/[component_count],
    [fd_entries]/[fd_count], [g_stats]/[g_stats_count], ...).  A [carr] is
    such a pair; its [live] prefix is what the loops over [count] see, and
    the slots past it keep whatever they last held. *)

From stdpp Require Import base list.
From S2P Require Import Prelude.

Record carr (A : Type) := CArr {
  slots : list A;
  count : nat;
}.
Arguments CArr {A} _ _.
Arguments slots {A} _.
Arguments count {A} _.

Section carr.
Context {A : Type}.
Implicit Types (a : carr A) (x y : A) (p : A -> bool).

Definition live a : list A := take (count a) (slots a).

(** [a[count++] = x]; out of range the C code would write past the array,
    every caller guards it. *)
Definition carr_push x a : carr A :=
  CArr (<[count a := x]> (slots a)) (S (count a)).

(** [a[i] = x] *)
Definition carr_set i x a : carr A := CArr (<[i := x]> (slots a)) (count a).

(** [a[i] = a[--count]] *)
Definition carr_remove_swap i a : carr A :=
  CArr (match slots a !! (count a - 1) with
        | Some y => <[i := y]> (slots a)
        | None => slots a
        end) (count a - 1).

(** [for (i = 0; i < count; i++) if (p(a[i])) ...] *)
Definition carr_find p a : option nat := find_idx p (live a).

Definition carr_wf a : Prop := count a <= length (slots a).

Lemma length_live a : carr_wf a -> length (live a) = count a.
Proof. unfold live, carr_wf. intros. rewrite length_take. lia. Qed.

Lemma live_lookup_lt a i x : live a !! i = Some x -> i < count a.
Proof. unfold live. intros H. apply lookup_take_Some in H as [_ H]. done. Qed.

Lemma live_lookup a i : i < count a -> live a !! i = slots a !! i.
Proof. intros. unfold live. by rewrite lookup_take_lt. Qed.

Lemma live_push x a :
  count a < length (slots a) -> live (carr_push x a) = live a ++ [x].
Proof. intros. unfold live, carr_push. simpl. by apply take_insert_last. Qed.

Lemma carr_push_wf x a :
  count a < length (slots a) -> carr_wf (carr_push x a).
Proof. unfold carr_wf, carr_push. simpl. rewrite length_insert. lia. Qed.

Lemma live_set i x a : live (carr_set i x a) = <[i := x]> (live a).
Proof.
  unfold live, carr_set. simpl.
  destruct (decide (i < count a)).
  - by rewrite take_insert_lt.
  - rewrite take_insert_ge by lia. rewrite list_insert_ge; [done|].
    rewrite length_take. lia.
Qed.

Lemma carr_set_wf i x a : carr_wf a -> carr_wf (carr_set i x a).
Proof. unfold carr_wf, carr_set. simpl. by rewrite length_insert. Qed.

Lemma carr_remove_swap_wf i a : carr_wf a -> carr_wf (carr_remove_swap i a).
Proof.
  unfold carr_wf, carr_remove_swap. simpl. intros.
  destruct (slots a !! _); rewrite ?length_insert; lia.
Qed.

Lemma carr_remove_swap_length i a :
  length (slots (carr_remove_swap i a)) = length (slots a).
Proof. unfold carr_remove_swap. simpl. destruct (slots a !! _); by rewrite ?length_insert. Qed.

(** Removing by overwriting with the last element keeps the other
    elements, in another order. *)
Lemma live_remove_swap i a x :
  carr_wf a -> live a !! i = Some x ->
  live a ≡ₚ x :: live (carr_remove_swap i a).
Proof.
  intros Hwf Hi. pose proof (live_lookup_lt _ _ _ Hi) as Hlt.
  unfold carr_wf in Hwf.
  destruct (lookup_lt_is_Some_2 (slots a) (count a - 1)) as [y Hy]; [lia|].
  assert (live a = take (count a - 1) (slots a) ++ [y]) as Hsplit.
  { unfold live. replace (count a) with (S (count a - 1)) at 1 by lia.
    by apply take_S_r. }
  unfold carr_remove_swap. rewrite Hy. unfold live at 2. simpl.
  destruct (decide (i = count a - 1)) as [->|Hne].
  - rewrite take_insert_ge by lia.
    rewrite live_lookup in Hi by lia. simplify_eq.
    rewrite Hsplit. by rewrite (comm (++) _ [x]).
  - rewrite take_insert_lt by lia.
    assert (take (count a - 1) (slots a) !! i = Some x) as Hi'.
    { rewrite live_lookup in Hi by lia. by rewrite lookup_take_lt by lia. }
    rewrite Hsplit. rewrite (comm (++) _ [y]). simpl.
    rewrite insert_take_drop by (apply lookup_lt_Some in Hi'; lia).
    rewrite <-(take_drop_middle _ _ _ Hi') at 1.
    rewrite <-!Permutation_middle. by constructor.
Qed.

Lemma carr_find_Some p a i :
  carr_find p a = Some i ->
  i < count a /\ exists x, live a !! i = Some x /\ p x = true.
Proof.
  intros H. apply find_idx_Some in H as (x & Hx & Hp & _).
  split; [by eapply live_lookup_lt|eauto].
Qed.

Lemma carr_find_None p a :
  carr_find p a = None <-> Forall (fun x => p x = false) (live a).
Proof. apply find_idx_None. Qed.
End carr.

#[export] Hint Resolve carr_push_wf carr_set_wf carr_remove_swap_wf : nos.
