(* ===== verification/Ring.v ===== *)
(** * Ring buffers with head and tail indices

    Three queues of the program have the same shape: the message queue of a
    scheduler thread ([msg_queue], 1024 slots), the transmit queue of an IPC
    connection ([tx_queue], 1024 slots) and the shared-memory ring (256
    slots).  [head] is the next slot to read, [tail] the next to write, the
    queue is empty when they are equal and full when advancing [tail] would
    make them equal, so one slot stays unused.

    The contract clients use is the class [Fifo]: a queue is a bounded list. *)

From stdpp Require Import base list.
From S2P Require Import Prelude.

(** ** The contract *)

Class Fifo (Q A : Type) := {
  fifo_view : Q -> list A;
  fifo_cap : Q -> nat;
  fifo_ok : Q -> Prop;
  fifo_push : A -> Q -> option Q;
  fifo_pop : Q -> option (A * Q);
  fifo_push_spec q x : fifo_ok q ->
    match fifo_push x q with
    | Some q' => fifo_ok q' /\ fifo_cap q' = fifo_cap q /\
                 fifo_view q' = fifo_view q ++ [x] /\ length (fifo_view q) < fifo_cap q
    | None => length (fifo_view q) = fifo_cap q
    end;
  fifo_pop_spec q : fifo_ok q ->
    match fifo_pop q with
    | Some (x, q') => fifo_ok q' /\ fifo_cap q' = fifo_cap q /\
                      fifo_view q = x :: fifo_view q'
    | None => fifo_view q = []
    end;
}.

(** ** The representation *)

Record ring (A : Type) := Ring {
  r_slots : list (option A);
  r_head : nat;
  r_tail : nat;
}.
Arguments Ring {A} _ _ _.
Arguments r_slots {A} _.
Arguments r_head {A} _.
Arguments r_tail {A} _.

Section ring.
Context {A : Type}.
Implicit Types (r : ring A) (x : A) (l : list A).

Definition ring_size r : nat := length (r_slots r).

(** [(i + 1) % SIZE] *)
Definition ring_next r (i : nat) : nat := (i + 1) mod ring_size r.

Definition ring_init (n : nat) : ring A := Ring (replicate n None) 0 0.

Definition ring_empty r : bool := r_head r =? r_tail r.

Definition ring_full r : bool := ring_next r (r_tail r) =? r_head r.

(** [q[tail] = x; tail = (tail + 1) % SIZE] *)
Definition ring_put x r : ring A :=
  Ring (<[r_tail r := Some x]> (r_slots r)) (r_head r) (ring_next r (r_tail r)).

(** [head = (head + 1) % SIZE] *)
Definition ring_advance r : ring A :=
  Ring (r_slots r) (ring_next r (r_head r)) (r_tail r).

(** [q[head]] *)
Definition ring_front r : option A := mjoin (r_slots r !! r_head r).

Definition ring_push x r : option (ring A) :=
  if ring_full r then None else Some (ring_put x r).

Definition ring_pop r : option (A * ring A) :=
  if ring_empty r then None
  else match ring_front r with
       | Some x => Some (x, ring_advance r)
       | None => None
       end.

(** Number of queued elements ([ipc_queue_len]). *)
Definition ring_len r : nat :=
  if r_head r <=? r_tail r then r_tail r - r_head r
  else ring_size r - r_head r + r_tail r.

(** The queued elements, oldest first. *)
Fixpoint ring_walk r (n i : nat) : list A :=
  match n with
  | O => []
  | S n =>
      match mjoin (r_slots r !! i) with
      | Some x => x :: ring_walk r n (ring_next r i)
      | None => ring_walk r n (ring_next r i)
      end
  end.

Definition ring_view r : list A := ring_walk r (ring_len r) (r_head r).

(** [r] holds the list [l]. *)
Definition wrap (n i : nat) : nat := if i <? n then i else i - n.

Definition ring_rep r l : Prop :=
  r_head r < ring_size r /\ length l < ring_size r /\
  r_tail r = wrap (ring_size r) (r_head r + length l) /\
  forall k x, l !! k = Some x ->
    r_slots r !! wrap (ring_size r) (r_head r + k) = Some (Some x).

Definition ring_ok r : Prop := exists l, ring_rep r l.

Lemma wrap_mod n i : i < n -> (i + 1) mod n = wrap n (i + 1).
Proof.
  intros. unfold wrap. destruct (Nat.ltb_spec (i + 1) n).
  - by apply Nat.mod_small.
  - replace (i + 1) with n by lia. rewrite Nat.Div0.mod_same. lia.
Qed.

Lemma wrap_lt n i : i < 2 * n -> wrap n i < n.
Proof. unfold wrap. destruct (Nat.ltb_spec i n); lia. Qed.

Lemma wrap_wrap n i j : i < n -> i + j < 2 * n -> wrap n (wrap n (i + 1) + j) = wrap n (i + S j) \/ n <= j.
Proof. unfold wrap. repeat case_match; bool_hyps; lia. Qed.

Lemma ring_rep_len r l : ring_rep r l -> ring_len r = length l.
Proof.
  intros (Hh & Hl & Ht & _). unfold ring_len. rewrite Ht. unfold wrap.
  repeat case_match; bool_hyps; lia.
Qed.

Lemma ring_walk_rep r l i :
  i < ring_size r -> length l < ring_size r ->
  (forall k x, l !! k = Some x -> r_slots r !! wrap (ring_size r) (i + k) = Some (Some x)) ->
  ring_walk r (length l) i = l.
Proof.
  revert i. induction l as [|x l IH]; intros i Hi Hl Hk; simpl; [done|].
  pose proof (Hk 0 x eq_refl) as H0. rewrite Nat.add_0_r in H0.
  unfold wrap in H0. destruct (Nat.ltb_spec i (ring_size r)); [|lia].
  rewrite H0. simpl. f_equal. unfold ring_next. rewrite wrap_mod by done.
  apply IH; [apply wrap_lt; lia|simpl in Hl; lia|].
  intros k y Hy. pose proof (Hk (S k) y Hy) as Hs.
  pose proof (lookup_lt_Some _ _ _ Hy). simpl in Hl.
  destruct (wrap_wrap (ring_size r) i k) as [->|]; [lia..|done|lia].
Qed.

Lemma ring_rep_view r l : ring_rep r l -> ring_view r = l.
Proof.
  intros Hr. unfold ring_view. rewrite (ring_rep_len _ _ Hr).
  destruct Hr as (? & ? & _ & ?). by apply ring_walk_rep.
Qed.

Lemma ring_ok_rep r : ring_ok r -> ring_rep r (ring_view r).
Proof. intros [l Hl]. by rewrite (ring_rep_view _ _ Hl). Qed.

Lemma ring_init_rep n : 0 < n -> ring_rep (ring_init n) [].
Proof.
  intros Hn. unfold ring_rep, ring_size. simpl. rewrite length_replicate.
  split_and!; [lia|lia|unfold wrap; by case_match|done].
Qed.

Lemma ring_full_rep r l :
  ring_rep r l -> ring_full r = true <-> length l = ring_size r - 1.
Proof.
  intros (Hh & Hl & Ht & _). unfold ring_full, ring_next. rewrite Nat.eqb_eq.
  rewrite wrap_mod by (rewrite Ht; apply wrap_lt; lia).
  rewrite Ht. unfold wrap. repeat case_match; bool_hyps; lia.
Qed.

Lemma ring_empty_rep r l : ring_rep r l -> ring_empty r = true <-> l = [].
Proof.
  intros (Hh & Hl & Ht & _). unfold ring_empty. rewrite Nat.eqb_eq, Ht.
  rewrite <-length_zero_iff_nil. unfold wrap. case_match; bool_hyps; lia.
Qed.

Lemma ring_size_put x r : ring_size (ring_put x r) = ring_size r.
Proof. unfold ring_size, ring_put. simpl. by rewrite length_insert. Qed.

Lemma ring_not_full_rep r l :
  ring_rep r l -> ring_full r = false -> length l < ring_size r - 1.
Proof.
  intros Hr Hf. pose proof (ring_full_rep _ _ Hr) as [_ H].
  destruct Hr as (_ & Hl & _). destruct (decide (length l = ring_size r - 1)) as [E|]; [|lia].
  rewrite (H E) in Hf. done.
Qed.

Lemma ring_put_rep x r l :
  ring_rep r l -> ring_full r = false -> ring_rep (ring_put x r) (l ++ [x]).
Proof.
  intros Hr Hf. pose proof (ring_not_full_rep _ _ Hr Hf).
  destruct Hr as (Hh & Hl & Ht & Hk).
  assert (r_tail r < ring_size r) by (rewrite Ht; apply wrap_lt; lia).
  unfold ring_rep. rewrite ring_size_put, length_app. simpl.
  split_and!; [done|lia|..].
  - unfold ring_next. rewrite wrap_mod by done. rewrite Ht.
    unfold wrap. repeat case_match; bool_hyps; lia.
  - intros k y Hy. apply lookup_app_Some in Hy as [Hy|[Hge Hy]].
    + pose proof (lookup_lt_Some _ _ _ Hy).
      rewrite list_lookup_insert_ne; [by apply Hk|].
      rewrite Ht. unfold wrap. repeat case_match; bool_hyps; lia.
    + apply list_lookup_singleton_Some in Hy as [? ->].
      replace k with (length l) by lia. rewrite <-Ht.
      by apply list_lookup_insert_eq.
Qed.

Lemma ring_advance_rep x r l : ring_rep r (x :: l) -> ring_rep (ring_advance r) l.
Proof.
  intros (Hh & Hl & Ht & Hk). unfold ring_rep, ring_advance, ring_next, ring_size in *.
  simpl in *. rewrite wrap_mod by done. split_and!.
  - apply wrap_lt; lia.
  - lia.
  - rewrite Ht. unfold wrap. repeat case_match; bool_hyps; lia.
  - intros k y Hy. pose proof (lookup_lt_Some _ _ _ Hy).
    destruct (wrap_wrap (length (r_slots r)) (r_head r) k) as [->|]; [lia..| |lia].
    by apply Hk.
Qed.

Lemma ring_front_rep x r l : ring_rep r (x :: l) -> ring_front r = Some x.
Proof.
  intros (Hh & Hl & Ht & Hk). unfold ring_front.
  pose proof (Hk 0 x eq_refl) as H0. rewrite Nat.add_0_r in H0.
  unfold wrap in H0. case_match; bool_hyps; [|lia]. by rewrite H0.
Qed.

Lemma ring_push_spec x r :
  ring_ok r ->
  match ring_push x r with
  | Some r' => ring_ok r' /\ ring_size r' - 1 = ring_size r - 1 /\
               ring_view r' = ring_view r ++ [x] /\ length (ring_view r) < ring_size r - 1
  | None => length (ring_view r) = ring_size r - 1
  end.
Proof.
  intros Hr%ring_ok_rep. unfold ring_push. destruct (ring_full r) eqn:Hf.
  - by apply (ring_full_rep r).
  - pose proof (ring_put_rep x _ _ Hr Hf) as Hp. split_and!.
    + by eexists.
    + by rewrite ring_size_put.
    + by apply ring_rep_view.
    + by apply ring_not_full_rep.
Qed.

Lemma ring_pop_spec r :
  ring_ok r ->
  match ring_pop r with
  | Some (x, r') => ring_ok r' /\ ring_size r' - 1 = ring_size r - 1 /\
                    ring_view r = x :: ring_view r'
  | None => ring_view r = []
  end.
Proof.
  intros Hr%ring_ok_rep. unfold ring_pop. destruct (ring_empty r) eqn:He.
  - by apply (ring_empty_rep r).
  - destruct (ring_view r) as [|x l] eqn:Hv.
    + assert (ring_empty r = true); [|congruence]. by apply (ring_empty_rep r []).
    + rewrite (ring_front_rep _ _ _ Hr). pose proof (ring_advance_rep _ _ _ Hr) as Ha.
      split_and!; [by eexists|done|]. f_equal. symmetry. by apply ring_rep_view.
Qed.

Lemma ring_init_ok n : 0 < n -> ring_ok (ring_init n).
Proof. intros. eexists. by apply ring_init_rep. Qed.

Lemma ring_init_view n : 0 < n -> ring_view (ring_init n) = [].
Proof. intros. by apply ring_rep_view, ring_init_rep. Qed.
End ring.

#[export] Instance ring_fifo (A : Type) : Fifo (ring A) A := {|
  fifo_view := ring_view;
  fifo_cap := fun r => ring_size r - 1;
  fifo_ok := ring_ok;
  fifo_push := ring_push;
  fifo_pop := ring_pop;
  fifo_push_spec := fun q x => ring_push_spec x q;
  fifo_pop_spec := ring_pop_spec;
|}.

(** ** Draining against the contract

    [while ((x = pop(q))) handle(x);] with a handler that does not touch the
    queue: the handler sees the elements oldest first, and a queue of [n]
    elements is drained in [n] iterations. *)
Section drain.
Context {Q A S : Type} `{!Fifo Q A} (handle : A -> S -> S).

Fixpoint drain (fuel : nat) (q : Q) (s : S) : option (Q * S) :=
  match fuel with
  | O => None
  | Datatypes.S fuel =>
      match fifo_pop q with
      | None => Some (q, s)
      | Some (x, q') => drain fuel q' (handle x s)
      end
  end.

Lemma drain_spec fuel q s :
  fifo_ok q -> length (fifo_view q) < fuel ->
  exists q', drain fuel q s = Some (q', fold_left (fun s x => handle x s) (fifo_view q) s) /\
    fifo_ok q' /\ fifo_cap q' = fifo_cap q /\ fifo_view q' = [].
Proof.
  revert q s. induction fuel as [|fuel IH]; intros q s Hok Hlt; [lia|]. simpl.
  pose proof (fifo_pop_spec q Hok) as Hpop.
  destruct (fifo_pop q) as [[x q1]|].
  - destruct Hpop as (Hok1 & Hcap & Hv). rewrite Hv in Hlt |- *. simpl in *.
    destruct (IH q1 (handle x s) Hok1 ltac:(lia)) as (q2 & Hd & ? & ? & ?).
    exists q2. split_and!; [done..|congruence|done].
  - rewrite Hpop. simpl. by exists q.
Qed.
End drain.
