(* ===== verification/Mem.v ===== *)
(** * Byte memory and the message envelope (include/nos_service.h)

    Buffers, shared-memory slots and socket datagrams are byte arrays whose
    first 32 bytes are a [nos_service_msg_t].  The program reads and writes
    the envelope's fields in place, so fields that are not assigned keep the
    bytes that were there.  Integers are little endian (the scheduler's
    [pause] instruction fixes the target to x86). *)

From stdpp Require Import base list.
From S2P Require Import Prelude.
Local Open Scope Z_scope.

(** ** Little-endian integers in a byte list *)

Fixpoint le_bytes (n : nat) (v : Z) : list Z :=
  match n with
  | O => []
  | S n => v mod 256 :: le_bytes n (v / 256)
  end.

Fixpoint le_val (bs : list Z) : Z :=
  match bs with
  | [] => 0
  | b :: bs => b + 256 * le_val bs
  end.

Definition mem_read (n off : nat) (m : list Z) : Z :=
  le_val (map (fun k => default 0 (m !! (off + k)%nat)) (seq 0 n)).

Definition mem_write (n off : nat) (v : Z) (m : list Z) : list Z :=
  list_inserts off (le_bytes n v) m.

Lemma length_le_bytes n v : length (le_bytes n v) = n.
Proof. revert v. induction n; simpl; auto. Qed.

Lemma le_val_bytes n v : 0 <= v < 256 ^ Z.of_nat n -> le_val (le_bytes n v) = v.
Proof.
  revert v. induction n as [|n IH]; intros v Hv; simpl in *; [lia|].
  rewrite Nat2Z.inj_succ, Z.pow_succ_r in Hv by lia.
  rewrite IH by (split; [apply Z.div_pos|apply Z.div_lt_upper_bound]; lia).
  pose proof (Z.div_mod v 256). lia.
Qed.

Lemma length_mem_write n off v m : length (mem_write n off v m) = length m.
Proof. apply length_inserts. Qed.

Lemma map_seq_lookup (bs m : list Z) off k :
  (forall j, (j < length bs)%nat -> m !! (off + (k + j))%nat = bs !! j) ->
  map (fun k => default 0 (m !! (off + k)%nat)) (seq k (length bs)) = bs.
Proof.
  revert k. induction bs as [|b bs IH]; intros k H; simpl; [done|].
  f_equal.
  - specialize (H 0%nat ltac:(simpl; lia)). rewrite Nat.add_0_r in H. by rewrite H.
  - apply IH. intros j Hj. specialize (H (S j) ltac:(simpl; lia)).
    rewrite <-Nat.add_succ_comm in H. done.
Qed.

Lemma mem_read_write_same n off v m :
  (off + n <= length m)%nat -> 0 <= v < 256 ^ Z.of_nat n ->
  mem_read n off (mem_write n off v m) = v.
Proof.
  intros Hoff Hv. unfold mem_read.
  rewrite <-(length_le_bytes n v) at 1. rewrite map_seq_lookup; [by apply le_val_bytes|].
  intros j Hj. rewrite length_le_bytes in Hj. unfold mem_write.
  rewrite list_lookup_inserts by (rewrite ?length_le_bytes; lia). f_equal. lia.
Qed.

Lemma mem_read_write_disj n1 off1 n2 off2 v m :
  (off1 + n1 <= off2 \/ off2 + n2 <= off1)%nat ->
  mem_read n1 off1 (mem_write n2 off2 v m) = mem_read n1 off1 m.
Proof.
  intros Hd. unfold mem_read. f_equal. apply map_ext_in. intros k Hk%in_seq.
  f_equal. unfold mem_write. destruct Hd.
  - apply list_lookup_inserts_lt. lia.
  - apply list_lookup_inserts_ge. rewrite length_le_bytes. lia.
Qed.

(** ** The message envelope *)

Definition NOS_IPC_MAGIC : Z := 0x4E4F.
Definition NOS_IPC_VERSION : Z := 0x01.
Definition NOS_MSG_F_NEED_REPLY : Z := 0x00000001.
Definition NOS_MSG_F_REPLY : Z := 0x00000002.
Definition NOS_MSG_F_IPC_CTRL : Z := 0x80000000.

Record nos_service_msg := Msg {
  magic : Z;
  version : Z;
  dst_service : Z;
  src_component : Z;
  dst_component : Z;
  msg_code : Z;
  seq_no : Z;
  flags : Z;
  payload_len : Z;
}.

(** [sizeof(nos_service_msg_t)] and the offsets of its fields. *)
Definition MSG_SIZE : nat := 32.

Inductive msg_field :=
  | F_magic | F_version | F_dst_service | F_src_component | F_dst_component
  | F_msg_code | F_seq | F_flags | F_payload_len.

Definition field_off (f : msg_field) : nat :=
  match f with
  | F_magic => 0 | F_version => 2 | F_dst_service => 4 | F_src_component => 8
  | F_dst_component => 12 | F_msg_code => 16 | F_seq => 20 | F_flags => 24
  | F_payload_len => 28
  end.

Definition field_size (f : msg_field) : nat :=
  match f with F_magic | F_version => 2 | _ => 4 end.

(** [((nos_service_msg_t * )p)->f] and [((nos_service_msg_t * )p)->f = v]
    for [p] at offset [off] of the memory [m]; the store truncates to the
    field's width. *)
Definition get_field (f : msg_field) (off : nat) (m : list Z) : Z :=
  mem_read (field_size f) (off + field_off f) m.

Definition set_field (f : msg_field) (v : Z) (off : nat) (m : list Z) : list Z :=
  mem_write (field_size f) (off + field_off f) v m.

Definition msg_read (off : nat) (m : list Z) : nos_service_msg :=
  Msg (get_field F_magic off m) (get_field F_version off m)
      (get_field F_dst_service off m) (get_field F_src_component off m)
      (get_field F_dst_component off m) (get_field F_msg_code off m)
      (get_field F_seq off m) (get_field F_flags off m)
      (get_field F_payload_len off m).

Definition msg_write (h : nos_service_msg) (off : nat) (m : list Z) : list Z :=
  set_field F_payload_len (payload_len h) off
  (set_field F_flags (flags h) off
  (set_field F_seq (seq_no h) off
  (set_field F_msg_code (msg_code h) off
  (set_field F_dst_component (dst_component h) off
  (set_field F_src_component (src_component h) off
  (set_field F_dst_service (dst_service h) off
  (set_field F_version (version h) off
  (set_field F_magic (magic h) off m)))))))).

(** The bytes of an envelope on the wire. *)
Definition msg_encode (h : nos_service_msg) : list Z :=
  msg_write h 0 (replicate MSG_SIZE 0).

Definition msg_field_of (f : msg_field) (h : nos_service_msg) : Z :=
  match f with
  | F_magic => magic h | F_version => version h | F_dst_service => dst_service h
  | F_src_component => src_component h | F_dst_component => dst_component h
  | F_msg_code => msg_code h | F_seq => seq_no h | F_flags => flags h
  | F_payload_len => payload_len h
  end.

Definition msg_wf (h : nos_service_msg) : Prop :=
  forall f, 0 <= msg_field_of f h < 256 ^ Z.of_nat (field_size f).

#[export] Instance msg_field_eq_dec : EqDecision msg_field.
Proof. solve_decision. Defined.

Lemma length_set_field f v off m : length (set_field f v off m) = length m.
Proof. apply length_mem_write. Qed.

Lemma length_msg_write h off m : length (msg_write h off m) = length m.
Proof. unfold msg_write. by rewrite !length_set_field. Qed.

Lemma get_set_field_same f v off m :
  (off + MSG_SIZE <= length m)%nat -> 0 <= v < 256 ^ Z.of_nat (field_size f) ->
  get_field f off (set_field f v off m) = v.
Proof.
  intros Hl Hv. apply mem_read_write_same; [|done].
  unfold MSG_SIZE in Hl. destruct f; simpl; lia.
Qed.

Lemma get_set_field_ne f g v off m :
  f <> g -> get_field f off (set_field g v off m) = get_field f off m.
Proof.
  intros Hne. apply mem_read_write_disj. destruct f, g; simpl; (lia || done).
Qed.

Lemma get_field_range f off m :
  Forall (fun b => 0 <= b < 256) m -> 0 <= get_field f off m < 256 ^ Z.of_nat (field_size f).
Proof.
  intros Hm. unfold get_field, mem_read. generalize (off + field_off f)%nat as o. intros o.
  generalize 0%nat as k. induction (field_size f) as [|n IH]; intros k; simpl; [lia|].
  specialize (IH (S k)). rewrite Nat2Z.inj_succ, Z.pow_succ_r by lia.
  assert (0 <= default 0 (m !! (o + k)%nat) < 256); [|lia].
  destruct (m !! (o + k)%nat) eqn:E; simpl; [|lia]. by apply (Forall_lookup_1 _ _ _ _ Hm E).
Qed.

(** Reading a field after assigning other fields or the same field. *)
Ltac fields :=
  repeat (rewrite get_set_field_ne by done);
  rewrite ?get_set_field_same by (rewrite ?length_set_field; (done || lia)).

Lemma msg_read_write h off m :
  msg_wf h -> (off + MSG_SIZE <= length m)%nat -> msg_read off (msg_write h off m) = h.
Proof.
  intros Hwf Hl. destruct h as [a b c d e f g i j].
  pose proof (Hwf F_magic); pose proof (Hwf F_version); pose proof (Hwf F_dst_service);
  pose proof (Hwf F_src_component); pose proof (Hwf F_dst_component);
  pose proof (Hwf F_msg_code); pose proof (Hwf F_seq); pose proof (Hwf F_flags);
  pose proof (Hwf F_payload_len). simpl msg_field_of in *.
  unfold msg_read, msg_write. simpl. f_equal; fields; done.
Qed.

(** [fl & bit] as a truth value *)
Definition has_flag (fl bit : Z) : bool := negb (Z.land fl bit =? 0).

#[export] Hint Rewrite length_set_field length_msg_write length_mem_write : nos.
