(* ===== verification/Buffer.v ===== *)
(** * Buffer pool (src/core/nos_buffer.c) and reply contexts

    The pool holds up to eight bins of equally sized chunks; a bin hands out
    chunk indices from a stack.  A buffer is shared by reference counting:
    the queue of a scheduler thread, the transmit queue of a connection and
    the code that builds a message each hold a reference.  A request that
    came over IPC carries a reply context, itself reference counted
    ([nos_reply_ctx_*] of src/core/nos_scheduler.c). *)

From stdpp Require Import base list gmap.
From S2P Require Import Prelude Mem.
Local Open Scope Z_scope.

(** ** Reply contexts (nos_scheduler.c) *)

Record nos_reply_ctx := ReplyCtx {
  rc_ref_cnt : Z;
  rc_ipc_conn : option nat;
  rc_ipc_generation : Z;
  rc_corr_id : Z;
  rc_requester_component : Z;
}.

(** The live reply contexts by address. *)
Abbreviation ctx_store := (gmap nat nos_reply_ctx).

(** [calloc_ok] is whether [calloc] returned memory. *)
Definition nos_reply_ctx_create (calloc_ok : bool) (ipc_conn : option nat)
    (ipc_generation corr_id requester_component : Z) (cs : ctx_store)
    : ctx_store * option nat :=
  if negb calloc_ok then (cs, None)
  else let a := fresh (dom cs) in
       (<[a := ReplyCtx 1 ipc_conn ipc_generation corr_id requester_component]> cs, Some a).

Definition rc_set_ref (n : Z) (c : nos_reply_ctx) : nos_reply_ctx :=
  ReplyCtx n (rc_ipc_conn c) (rc_ipc_generation c) (rc_corr_id c) (rc_requester_component c).

Definition nos_reply_ctx_retain (ctx : option nat) (cs : ctx_store) : ctx_store :=
  match ctx with
  | None => cs
  | Some a => alter (fun c => rc_set_ref (rc_ref_cnt c + 1) c) a cs
  end.

Definition nos_reply_ctx_release (ctx : option nat) (cs : ctx_store) : ctx_store :=
  match ctx with
  | None => cs
  | Some a =>
      match cs !! a with
      | None => cs
      | Some c => if rc_ref_cnt c =? 1 then delete a cs
                  else <[a := rc_set_ref (rc_ref_cnt c - 1) c]> cs
      end
  end.

(** ** Buffers and bins *)

(** [b_raw] is the chunk [raw_data .. raw_data + capacity), [b_data] is
    [data - raw_data]. *)
Record nos_buffer := Buf {
  b_raw : list Z;
  b_data : Z;
  b_capacity : Z;
  b_len : Z;
  b_headroom : Z;
  b_tailroom : Z;
  b_ref_cnt : Z;
  b_bin_idx : nat;
  b_pool_idx : nat;
  b_reply_ctx : option nat;
}.

Record nos_buffer_bin := Bin {
  chunk_size : Z;
  chunk_count : Z;
  buffers : list nos_buffer;
  raw_mem_bytes : Z;         (* the size [posix_memalign] was asked for *)
  free_stack : list nat;
  free_top : Z;
  used_count : Z;
  peak_count : Z;
}.

(** A [nos_buffer_t *] is the pair of its bin and its index in the bin. *)
Record buf_ref := BRef { ref_bin : nat; ref_idx : nat }.

#[export] Instance buf_ref_eq_dec : EqDecision buf_ref.
Proof. solve_decision. Defined.

#[export] Instance buf_ref_countable : Countable buf_ref.
Proof.
  apply (inj_countable' (fun r => (ref_bin r, ref_idx r)) (fun p => BRef p.1 p.2)).
  by intros [].
Defined.

Definition MAX_BINS : nat := 8.
Definition CACHE_LINE_SIZE : Z := 64.

Record pool := Pool {
  g_bins : list nos_buffer_bin;
  g_bin_count : nat;
  reply_ctxs : ctx_store;
}.

Definition zero_bin : nos_buffer_bin := Bin 0 0 [] 0 [] 0 0 0.

(** The static initial state. *)
Definition pool_static : pool := Pool (replicate MAX_BINS zero_bin) 0 ∅.

(** [(n + 63) & ~63] on [uint32_t] *)
Definition align_chunk (n : Z) : Z :=
  u32 (Z.land (u32 (n + CACHE_LINE_SIZE - 1)) (Z.lnot (CACHE_LINE_SIZE - 1))).

Definition init_buffer (cs : Z) (i j : nat) : nos_buffer :=
  Buf (replicate (Z.to_nat cs) 0) 0 cs 0 0 cs 0 i j None.

Definition init_bin (i : nat) (size n : Z) : nos_buffer_bin :=
  let cs := align_chunk size in
  let idx := seq 0 (Z.to_nat n) in
  Bin cs n (init_buffer cs i <$> idx) (u32 (cs * n)) idx (n - 1) 0 0.

(** [j * bin->chunk_size], the offset of chunk [j] in [raw_mem]. *)
Definition chunk_off (b : nos_buffer_bin) (j : nat) : Z := u32 (Z.of_nat j * chunk_size b).

(** The loop of [nos_buffer_init_pool]; a failing [posix_memalign] exits the
    process ([None]).  [free_top] is an [int]: more than [2^31] chunks overflow
    it. *)
Fixpoint init_bins (memalign_ok : nat -> bool) (fuel i : nat) (config : list (Z * Z))
    (p : pool) : outcome (option pool) :=
  match fuel with
  | O => Fuel
  | S fuel =>
      let '(size, n) := default (0, 0) (config !! i) in
      if (size >? 0) && (i <? MAX_BINS)%nat then
        if memalign_ok i then
          if n <=? 2 ^ 31 then
            init_bins memalign_ok fuel (S i) config
              (Pool (<[i := init_bin i size n]> (g_bins p)) (S (g_bin_count p)) (reply_ctxs p))
          else Undef
        else Done None
      else Done (Some p)
  end.

Definition nos_buffer_init_pool (memalign_ok : nat -> bool) (config : option (list (Z * Z)))
    (p : pool) : outcome (option (nos_status * pool)) :=
  match config with
  | None => Done (Some (NOS_ERR, p))
  | Some config =>
      if (0 <? g_bin_count p)%nat then Done (Some (NOS_OK, p))
      else match init_bins memalign_ok (S MAX_BINS) 0 config p with
           | Done o => Done ((fun p' => (NOS_OK, p')) <$> o)
           | Fuel => Fuel
           | Undef => Undef
           end
  end.

Definition nos_buffer_deinit_pool (p : pool) : pool :=
  Pool (imap (fun i b => if (i <? g_bin_count p)%nat then zero_bin else b) (g_bins p)) 0
       (reply_ctxs p).

Definition get_buf (r : buf_ref) (p : pool) : option nos_buffer :=
  g_bins p !! ref_bin r ≫= fun b => buffers b !! ref_idx r.

Definition set_buffers (l : list nos_buffer) (b : nos_buffer_bin) : nos_buffer_bin :=
  Bin (chunk_size b) (chunk_count b) l (raw_mem_bytes b) (free_stack b) (free_top b)
      (used_count b) (peak_count b).

Definition upd_bin (i : nat) (f : nos_buffer_bin -> nos_buffer_bin) (p : pool) : pool :=
  Pool (alter f i (g_bins p)) (g_bin_count p) (reply_ctxs p).

Definition upd_buf (r : buf_ref) (f : nos_buffer -> nos_buffer) (p : pool) : pool :=
  upd_bin (ref_bin r) (fun b => set_buffers (alter f (ref_idx r) (buffers b)) b) p.

(** ** Allocation *)

Definition bin_fits (total : Z) (b : nos_buffer_bin) : bool :=
  (chunk_size b >=? total) && (free_top b >=? 0).

Definition take_buf (size headroom : Z) (b : nos_buffer) : nos_buffer :=
  Buf (b_raw b) headroom (b_capacity b) size headroom
      (u32 (b_capacity b - headroom - size)) 1 (b_bin_idx b) (b_pool_idx b) None.

Definition bin_alloc (size headroom : Z) (idx : nat) (b : nos_buffer_bin) : nos_buffer_bin :=
  let used := u32 (used_count b + 1) in
  Bin (chunk_size b) (chunk_count b) (alter (take_buf size headroom) idx (buffers b))
      (raw_mem_bytes b) (free_stack b) (free_top b - 1) used
      (if used >? peak_count b then used else peak_count b).

Definition nos_buffer_alloc (size headroom : Z) (p : pool) : pool * option buf_ref :=
  let total_needed := u32 (size + headroom) in
  match find_idx (bin_fits total_needed) (take (g_bin_count p) (g_bins p)) with
  | None => (p, None)
  | Some i =>
      match g_bins p !! i with
      | None => (p, None)
      | Some b =>
          let idx := default 0%nat (free_stack b !! Z.to_nat (free_top b)) in
          (upd_bin i (bin_alloc size headroom idx) p, Some (BRef i idx))
      end
  end.

(** ** Reference counting *)

Definition set_ref (n : Z) (b : nos_buffer) : nos_buffer :=
  Buf (b_raw b) (b_data b) (b_capacity b) (b_len b) (b_headroom b) (b_tailroom b) n
      (b_bin_idx b) (b_pool_idx b) (b_reply_ctx b).

Definition nos_buffer_retain (r : option buf_ref) (p : pool) : pool :=
  match r with
  | None => p
  | Some r => upd_buf r (fun b => set_ref (b_ref_cnt b + 1) b) p
  end.

Definition bin_free (pool_idx : nat) (b : nos_buffer_bin) : nos_buffer_bin :=
  Bin (chunk_size b) (chunk_count b) (buffers b) (raw_mem_bytes b)
      (<[Z.to_nat (free_top b + 1) := pool_idx]> (free_stack b)) (free_top b + 1)
      (u32 (used_count b - 1)) (peak_count b).

Definition reset_buf (b : nos_buffer) : nos_buffer :=
  Buf (b_raw b) 0 (b_capacity b) 0 0 (b_capacity b) (b_ref_cnt b) (b_bin_idx b)
      (b_pool_idx b) None.

Definition nos_buffer_release (r : option buf_ref) (p : pool) : pool :=
  match r with
  | None => p
  | Some r =>
      match get_buf r p with
      | None => p
      | Some b =>
          let p1 := upd_buf r (fun b => set_ref (b_ref_cnt b - 1) b) p in
          if b_ref_cnt b =? 1 then
            let p2 := upd_buf r reset_buf (upd_bin (b_bin_idx b) (bin_free (b_pool_idx b)) p1) in
            Pool (g_bins p2) (g_bin_count p2)
                 (nos_reply_ctx_release (b_reply_ctx b) (reply_ctxs p2))
          else p1
      end
  end.

(** ** Header room *)

Definition shift_data (d : Z) (b : nos_buffer) : nos_buffer :=
  Buf (b_raw b) (b_data b - d) (b_capacity b) (u32 (b_len b + d)) (u32 (b_headroom b - d))
      (b_tailroom b) (b_ref_cnt b) (b_bin_idx b) (b_pool_idx b) (b_reply_ctx b).

(** Both return the new [data] offset, [None] for NULL. *)
Definition nos_buffer_push (b : nos_buffer) (size : Z) : nos_buffer * option Z :=
  if b_headroom b <? size then (b, None)
  else let b' := shift_data size b in (b', Some (b_data b')).

Definition nos_buffer_pull (b : nos_buffer) (size : Z) : nos_buffer * option Z :=
  if b_len b <? size then (b, None)
  else let b' := shift_data (- size) b in (b', Some (b_data b')).

(** ** Accounting *)

Definition SIZEOF_BIN : Z := 48.
Definition SIZEOF_BUFFER : Z := 56.

Definition bin_mem_usage (b : nos_buffer_bin) : Z :=
  SIZEOF_BIN + chunk_count b * (chunk_size b + SIZEOF_BUFFER) + chunk_count b * 4.

Definition nos_buffer_get_total_mem_usage (p : pool) : Z :=
  fold_left (fun t b => t + bin_mem_usage b) (take (g_bin_count p) (g_bins p)) 0.

(** What [nos_buffer_dump_stats] prints for each bin. *)
Definition nos_buffer_dump_stats (p : pool) : list (nat * Z * Z * Z * Z) :=
  imap (fun i b => (i, chunk_size b, chunk_count b, used_count b, peak_count b))
       (take (g_bin_count p) (g_bins p)).

(** ** Access to the message in a buffer *)

(** [(nos_service_msg_t * )buf->data] *)
Definition buf_msg (r : buf_ref) (p : pool) : option nos_service_msg :=
  (fun b => msg_read (Z.to_nat (b_data b)) (b_raw b)) <$> get_buf r p.

Definition write_raw (f : nat -> list Z -> list Z) (b : nos_buffer) : nos_buffer :=
  Buf (f (Z.to_nat (b_data b)) (b_raw b)) (b_data b) (b_capacity b) (b_len b)
      (b_headroom b) (b_tailroom b) (b_ref_cnt b) (b_bin_idx b) (b_pool_idx b) (b_reply_ctx b).

(** [msg->f = v] for the message of a buffer. *)
Definition buf_set_field (f : msg_field) (v : Z) (r : buf_ref) (p : pool) : pool :=
  upd_buf r (write_raw (set_field f v)) p.

Definition set_reply_ctx (c : option nat) (b : nos_buffer) : nos_buffer :=
  Buf (b_raw b) (b_data b) (b_capacity b) (b_len b) (b_headroom b) (b_tailroom b)
      (b_ref_cnt b) (b_bin_idx b) (b_pool_idx b) c.

Definition nos_service_get_reply_ctx (r : option buf_ref) (p : pool) : option nat :=
  r ≫= fun r => get_buf r p ≫= b_reply_ctx.

(** ** Invariant *)

(** The free chunk indices, bottom of the stack first. *)
Definition free_list (b : nos_buffer_bin) : list nat :=
  take (Z.to_nat (free_top b + 1)) (free_stack b).

(** Head room, data and tail room partition the chunk. *)
Record room_ok (x : nos_buffer) : Prop := {
  ro_head : 0 <= b_headroom x;
  ro_len : 0 <= b_len x;
  ro_tail : 0 <= b_tailroom x;
  ro_sum : b_headroom x + b_len x + b_tailroom x = b_capacity x;
  ro_data : b_data x = b_headroom x;
}.

Record buf_wf (i j : nat) (cs : Z) (free : Prop) (x : nos_buffer) : Prop := {
  bf_cap : b_capacity x = cs;
  bf_raw : length (b_raw x) = Z.to_nat cs;
  bf_bin : b_bin_idx x = i;
  bf_pool : b_pool_idx x = j;
  bf_ref : 0 <= b_ref_cnt x;
  bf_free : b_ref_cnt x = 0 <-> free;
  bf_room : room_ok x;
}.

Record bin_wf (i : nat) (b : nos_buffer_bin) : Prop := {
  bw_count : 0 <= chunk_count b <= 2 ^ 31;
  bw_mem : raw_mem_bytes b = chunk_size b * chunk_count b;
  bw_size : 0 < chunk_size b < 2 ^ 32;
  bw_bufs : length (buffers b) = Z.to_nat (chunk_count b);
  bw_stack : length (free_stack b) = Z.to_nat (chunk_count b);
  bw_top : -1 <= free_top b < chunk_count b;
  bw_nodup : NoDup (free_list b);
  bw_idx : Forall (fun j => (j < Z.to_nat (chunk_count b))%nat) (free_list b);
  bw_used : used_count b = chunk_count b - (free_top b + 1);
  bw_peak : used_count b <= peak_count b <= chunk_count b;
  bw_buf : forall j x, buffers b !! j = Some x ->
    buf_wf i j (chunk_size b) (j ∈ free_list b) x;
}.

Record pool_wf (p : pool) : Prop := {
  pw_bins : length (g_bins p) = MAX_BINS;
  pw_count : (g_bin_count p <= MAX_BINS)%nat;
  pw_bin : forall i b, (i < g_bin_count p)%nat -> g_bins p !! i = Some b -> bin_wf i b;
}.

(** A buffer somebody holds. *)
Definition buf_live (r : buf_ref) (p : pool) : Prop :=
  (ref_bin r < g_bin_count p)%nat /\
  exists b, get_buf r p = Some b /\ 1 <= b_ref_cnt b.

(** A request whose total size does not wrap around. *)
Definition req_ok (size headroom : Z) : Prop :=
  0 <= size /\ 0 <= headroom /\ size + headroom < 2 ^ 32.

(** The ways the pool changes while the program runs: the operations of
    nos_buffer.c, called on buffers the caller holds, plus in-place writes
    to the chunk and to [reply_ctx]. *)
Inductive pool_step : pool -> pool -> Prop :=
  | ps_alloc p size hr :
      req_ok size hr -> pool_step p (nos_buffer_alloc size hr p).1
  | ps_retain p r : buf_live r p -> pool_step p (nos_buffer_retain (Some r) p)
  | ps_release p r : buf_live r p -> pool_step p (nos_buffer_release (Some r) p)
  | ps_push p r n :
      buf_live r p -> in_u32 n -> pool_step p (upd_buf r (fun b => (nos_buffer_push b n).1) p)
  | ps_pull p r n :
      buf_live r p -> in_u32 n -> pool_step p (upd_buf r (fun b => (nos_buffer_pull b n).1) p)
  | ps_write p r f :
      buf_live r p -> (forall off m, length (f off m) = length m) ->
      pool_step p (upd_buf r (write_raw f) p)
  | ps_reply p r c : buf_live r p -> pool_step p (upd_buf r (set_reply_ctx c) p).

(** ** Lemmas *)

Lemma get_buf_upd_eq r f p :
  get_buf r (upd_buf r f p) = f <$> get_buf r p.
Proof.
  unfold get_buf, upd_buf, upd_bin. simpl. rewrite list_lookup_alter_eq.
  destruct (g_bins p !! ref_bin r) as [b|]; simpl; [|done]. by rewrite list_lookup_alter_eq.
Qed.

Lemma get_buf_upd_ne r s f p : r <> s -> get_buf s (upd_buf r f p) = get_buf s p.
Proof.
  intros Hne. unfold get_buf, upd_buf, upd_bin. simpl.
  destruct (decide (ref_bin r = ref_bin s)) as [E|E].
  - rewrite E, list_lookup_alter_eq. destruct (g_bins p !! ref_bin s) as [b|]; simpl; [|done].
    rewrite list_lookup_alter_ne; [done|]. intros E'. destruct r, s. simpl in *. congruence.
  - by rewrite list_lookup_alter_ne.
Qed.

Lemma pool_wf_upd_bin i f p :
  pool_wf p -> (forall b, g_bins p !! i = Some b -> bin_wf i b -> bin_wf i (f b)) ->
  pool_wf (upd_bin i f p).
Proof.
  intros [Hl Hc Hb] Hf. split; simpl; [by rewrite length_alter|done|].
  intros k b Hk Hb'. destruct (decide (k = i)) as [->|].
  - rewrite list_lookup_alter_eq in Hb'. apply fmap_Some in Hb' as (b0 & Hb0 & ->). auto.
  - rewrite list_lookup_alter_ne in Hb' by done. auto.
Qed.

(** In-place changes of one buffer that keep what the bin relies on. *)
Lemma bin_wf_upd_buffer i j f b :
  bin_wf i b ->
  (forall x fr, buffers b !! j = Some x -> buf_wf i j (chunk_size b) fr x ->
     buf_wf i j (chunk_size b) fr (f x)) ->
  bin_wf i (set_buffers (alter f j (buffers b)) b).
Proof.
  intros Hw Hf. destruct Hw. split; simpl; rewrite ?length_alter; try done.
  intros k x Hk. destruct (decide (k = j)) as [->|].
  - rewrite list_lookup_alter_eq in Hk. apply fmap_Some in Hk as (y & Hy & ->). by apply Hf; auto.
  - rewrite list_lookup_alter_ne in Hk by done. by apply bw_buf0.
Qed.

Lemma pool_wf_upd_buf r f p :
  pool_wf p ->
  (forall x cs fr, get_buf r p = Some x -> buf_wf (ref_bin r) (ref_idx r) cs fr x ->
     buf_wf (ref_bin r) (ref_idx r) cs fr (f x)) ->
  pool_wf (upd_buf r f p).
Proof.
  intros Hw Hf. apply pool_wf_upd_bin; [done|]. intros b Hb Hbw.
  apply bin_wf_upd_buffer; [done|]. intros x fr Hx Hxw. apply Hf; [|done].
  unfold get_buf. by rewrite Hb.
Qed.

Lemma free_list_alloc b :
  -1 <= free_top b -> free_top b >= 0 -> (Z.to_nat (free_top b) < length (free_stack b))%nat ->
  free_list b = take (Z.to_nat (free_top b - 1 + 1)) (free_stack b) ++
                [default 0%nat (free_stack b !! Z.to_nat (free_top b))].
Proof.
  intros H1 H2 H3. unfold free_list.
  destruct (lookup_lt_is_Some_2 _ _ H3) as [j Hj]. rewrite Hj. simpl.
  replace (Z.to_nat (free_top b + 1)) with (S (Z.to_nat (free_top b))) by lia.
  replace (Z.to_nat (free_top b - 1 + 1)) with (Z.to_nat (free_top b)) by lia.
  by apply take_S_r.
Qed.

Lemma free_list_free b j :
  -1 <= free_top b -> (Z.to_nat (free_top b + 1) < length (free_stack b))%nat ->
  free_list (bin_free j b) = free_list b ++ [j].
Proof.
  intros H1 H2. unfold free_list, bin_free. simpl.
  replace (Z.to_nat (free_top b + 1 + 1)) with (S (Z.to_nat (free_top b + 1))) by lia.
  by apply take_insert_last.
Qed.

Lemma length_free_list i b : bin_wf i b -> length (free_list b) = Z.to_nat (free_top b + 1).
Proof. intros []. unfold free_list. rewrite length_take. lia. Qed.

Lemma bin_wf_alloc i b size hr :
  bin_wf i b -> req_ok size hr -> bin_fits (size + hr) b = true ->
  bin_wf i (bin_alloc size hr (default 0%nat (free_stack b !! Z.to_nat (free_top b))) b).
Proof.
  intros Hw [Hs [Hh Ht]] Hfit. unfold bin_fits in Hfit. bool_hyps.
  destruct Hw.
  pose proof (free_list_alloc b ltac:(lia) ltac:(lia) ltac:(lia)) as Hfl.
  set (idx := default 0%nat _) in *.
  set (b' := bin_alloc size hr idx b).
  assert (free_list b' = take (Z.to_nat (free_top b - 1 + 1)) (free_stack b)) as Hfl' by done.
  rewrite <-Hfl' in Hfl. rewrite Hfl in bw_nodup0, bw_idx0.
  apply NoDup_app in bw_nodup0 as (Hnd & Hdisj & _).
  assert (idx ∉ free_list b') as Hni by (intros Hin; apply (Hdisj idx Hin); by left).
  apply Forall_app in bw_idx0 as [Hidx _].
  assert (u32 (used_count b + 1) = used_count b + 1) as Hu by (apply u32_small; lia).
  split; try done; unfold b'; simpl; rewrite ?length_alter; try lia; try done.
  - by destruct (Z.gtb_spec (u32 (used_count b + 1)) (peak_count b)); lia.
  - intros j x Hj. destruct (decide (j = idx)) as [->|Hne].
    + rewrite list_lookup_alter_eq in Hj. apply fmap_Some in Hj as (y & Hy & ->).
      destruct (bw_buf0 _ _ Hy). unfold take_buf. split; simpl; try done.
      rewrite u32_small by lia. split; simpl; lia.
    + rewrite list_lookup_alter_ne in Hj by done. destruct (bw_buf0 _ _ Hj).
      split; try done. rewrite bf_free0, Hfl, elem_of_app, list_elem_of_singleton. tauto.
Qed.

(** Distinct indices below [n] that miss one of them are fewer than [n]. *)
Lemma nodup_lt_length (l : list nat) (n j : nat) :
  NoDup l -> Forall (fun k => (k < n)%nat) l -> j ∉ l -> (j < n)%nat -> (length l < n)%nat.
Proof.
  intros Hnd Hlt Hni Hj.
  assert (length (j :: l) <= length (seq 0 n))%nat as Hle.
  { apply submseteq_length, NoDup_submseteq; [by constructor|].
    intros k [->|Hk]%elem_of_cons; apply elem_of_seq; [lia|].
    apply list_elem_of_In in Hk. rewrite List.Forall_forall in Hlt. apply Hlt in Hk. lia. }
  rewrite length_seq in Hle. simpl in Hle. lia.
Qed.

Lemma bin_wf_free i b j x :
  bin_wf i b -> buffers b !! j = Some x -> b_ref_cnt x = 1 ->
  bin_wf i (set_buffers (alter reset_buf j (alter (fun x => set_ref (b_ref_cnt x - 1) x) j (buffers b)))
                        (bin_free j b)).
Proof.
  intros Hw Hx Hr. pose proof (length_free_list _ _ Hw) as Hlen. destruct Hw.
  pose proof (lookup_lt_Some _ _ _ Hx) as Hlt.
  destruct (bw_buf0 _ _ Hx) as [Hcap _ _ _ _ Hfree _].
  assert (j ∉ free_list b) as Hni by (rewrite <-Hfree; lia).
  pose proof (nodup_lt_length _ _ _ bw_nodup0 bw_idx0 Hni ltac:(lia)) as Hroom.
  pose proof (free_list_free b j ltac:(lia) ltac:(lia)) as Hfl.
  assert (free_list (set_buffers (alter reset_buf j (alter (λ x, set_ref (b_ref_cnt x - 1) x) j (buffers b))) (bin_free j b))
    = free_list b ++ [j]) as Hfl' by (rewrite <-Hfl; done).
  split; rewrite ?Hfl'; simpl; rewrite ?length_alter, ?length_insert; try lia; try done.
  - apply NoDup_app. split_and!; [done| |apply NoDup_singleton].
    intros k Hk ->%list_elem_of_singleton. done.
  - apply Forall_app; split; [done|]. constructor; [lia|done].
  - rewrite u32_small; lia.
  - rewrite u32_small; lia.
  - intros k y Hk. destruct (decide (k = j)) as [->|Hne].
    + rewrite !list_lookup_alter_eq, Hx in Hk. simplify_eq/=.
      destruct (bw_buf0 _ _ Hx). split; simpl; try done; try lia.
      * split; [intros _; set_solver|lia].
      * split; simpl; lia.
    + rewrite !list_lookup_alter_ne in Hk by done. destruct (bw_buf0 _ _ Hk).
      split; try done. rewrite bf_free0, elem_of_app, list_elem_of_singleton. tauto.
Qed.

(** A configured bin whose memory has less than [2^32] bytes, so that its
    chunks are apart ([init_bin_chunks_disjoint]), and whose count fits the
    [int] that indexes the free stack. *)
Definition bin_def_ok (size n : Z) : Prop :=
  0 <= size <= 2 ^ 32 - CACHE_LINE_SIZE /\ 0 <= n <= 2 ^ 31 /\ align_chunk size * n < 2 ^ 32.

Lemma bin_wf_init i size n :
  0 < align_chunk size < 2 ^ 32 -> bin_def_ok size n -> bin_wf i (init_bin i size n).
Proof.
  intros Hs (_ & Hn & Hm). unfold init_bin.
  assert (forall j, j ∈ seq 0 (Z.to_nat n) <-> (j < Z.to_nat n)%nat) as Hin.
  { intros j. rewrite elem_of_seq. lia. }
  assert (free_list (init_bin i size n) = seq 0 (Z.to_nat n)) as Hfl.
  { unfold free_list, init_bin. simpl. rewrite take_ge; [done|]. rewrite length_seq. lia. }
  unfold init_bin in Hfl.
  split; rewrite ?Hfl; simpl; rewrite ?length_fmap, ?length_seq; try lia.
  - rewrite u32_small; nia.
  - apply NoDup_seq.
  - apply List.Forall_forall. intros j Hj%list_elem_of_In. by apply Hin.
  - intros j x Hj. apply list_lookup_fmap_Some in Hj as (k & -> & Hk).
    apply lookup_seq in Hk as [-> Hlt]. simpl in *.
    split; simpl; rewrite ?length_replicate; try done.
    + split; [intros _; by apply Hin|done].
    + split; simpl; lia.
Qed.

Lemma align_chunk_spec n :
  0 < n <= 2 ^ 32 - CACHE_LINE_SIZE ->
  n <= align_chunk n < n + CACHE_LINE_SIZE /\ align_chunk n mod CACHE_LINE_SIZE = 0 /\
  align_chunk n < 2 ^ 32.
Proof.
  unfold align_chunk, CACHE_LINE_SIZE. intros Hn.
  rewrite (u32_small (n + 64 - 1)) by lia.
  replace (Z.lnot (64 - 1)) with (Z.lnot (Z.ones 6)) by done.
  rewrite <-Z.ldiff_land, Z.ldiff_ones_r by lia.
  rewrite Z.shiftl_mul_pow2, Z.shiftr_div_pow2 by lia. change (2 ^ 6) with 64.
  pose proof (Z.div_mod (n + 64 - 1) 64 ltac:(lia)).
  pose proof (Z.mod_pos_bound (n + 64 - 1) 64 ltac:(lia)).
  rewrite u32_small by lia.
  split_and!; [lia|lia|by apply Z.mod_mul|lia].
Qed.

Lemma init_bins_wf ok fuel i config p p' :
  pool_wf p -> i = g_bin_count p ->
  Forall (fun '(s, n) => bin_def_ok s n) config ->
  init_bins ok fuel i config p = Done (Some p') -> pool_wf p'.
Proof.
  intros Hw Hi Hcfg. revert i p Hw Hi. induction fuel as [|fuel IH]; intros i p Hw Hi H; simpl in H.
  { done. }
  destruct (config !! i) as [[size n]|] eqn:Hci; simpl in H; [|by simplify_eq].
  destruct ((size >? 0) && (i <? MAX_BINS)%nat) eqn:Hg; [|by simplify_eq].
  destruct (ok i); [|done]. destruct (n <=? 2 ^ 31); [|done].
  apply (IH (S i) _) in H; [done| |simpl; congruence].
  apply andb_prop in Hg as [Hsz Hlt]. apply Z.gtb_lt in Hsz. bool_hyps.
  pose proof (Forall_lookup_1 _ _ _ _ Hcfg Hci) as Hn. simpl in Hn. pose proof Hn as [Hr _].
  pose proof (align_chunk_spec size ltac:(lia)) as (? & _ & ?).
  destruct Hw as [Hl Hc Hb]. split; simpl.
  - by rewrite length_insert.
  - lia.
  - intros k b Hk Hb'. destruct (decide (k = i)) as [->|Hne].
    + rewrite list_lookup_insert_eq in Hb' by lia. simplify_eq. apply bin_wf_init; [lia|done].
    + rewrite list_lookup_insert_ne in Hb' by done. apply Hb; [lia|done].
Qed.

Lemma pool_static_wf : pool_wf pool_static.
Proof. split; simpl; [done|lia|lia]. Qed.

Lemma buf_live_lookup r p :
  pool_wf p -> buf_live r p ->
  exists bn b, g_bins p !! ref_bin r = Some bn /\ buffers bn !! ref_idx r = Some b /\
    get_buf r p = Some b /\ 1 <= b_ref_cnt b /\ bin_wf (ref_bin r) bn /\
    b_bin_idx b = ref_bin r /\ b_pool_idx b = ref_idx r.
Proof.
  intros Hw (Hlt & b & Hb & Hr). pose proof Hb as Hb'. unfold get_buf in Hb'.
  destruct (g_bins p !! ref_bin r) as [bn|] eqn:Hbn; simpl in Hb'; [|done].
  pose proof (pw_bin p Hw _ _ Hlt Hbn) as Hbw.
  destruct (bw_buf _ _ Hbw _ _ Hb') as [].
  exists bn, b. by split_and!.
Qed.

(** The two updates of a release that drops the last reference, on the bin. *)
Lemma release_last_bins r p b :
  pool_wf p -> buf_live r p -> get_buf r p = Some b -> b_ref_cnt b = 1 ->
  nos_buffer_release (Some r) p =
  Pool (alter (fun bn => set_buffers (alter reset_buf (ref_idx r)
                 (alter (fun x => set_ref (b_ref_cnt x - 1) x) (ref_idx r) (buffers bn)))
                 (bin_free (ref_idx r) bn)) (ref_bin r) (g_bins p))
       (g_bin_count p) (nos_reply_ctx_release (b_reply_ctx b) (reply_ctxs p)).
Proof.
  intros Hw Hl Hb Hr. destruct (buf_live_lookup r p Hw Hl) as (bn & b' & Hbn & _ & Hb' & _ & _ & Hi & Hj).
  assert (b' = b) as -> by congruence.
  unfold nos_buffer_release. rewrite Hb, Hr, Hi, Hj. simpl. f_equal.
  unfold upd_bin. simpl. by rewrite !list_alter_alter_eq.
Qed.

Lemma pool_wf_release r p : pool_wf p -> buf_live r p -> pool_wf (nos_buffer_release (Some r) p).
Proof.
  intros Hw Hl. destruct (buf_live_lookup r p Hw Hl) as (bn & b & Hbn & Hbb & Hb & Hr & Hbw & _).
  destruct (Z.eq_dec (b_ref_cnt b) 1) as [E|E].
  - rewrite (release_last_bins r p b) by done.
    pose proof (pool_wf_upd_bin (ref_bin r) (fun bn => set_buffers (alter reset_buf (ref_idx r)
                 (alter (fun x => set_ref (b_ref_cnt x - 1) x) (ref_idx r) (buffers bn)))
                 (bin_free (ref_idx r) bn)) p Hw) as Hu.
    destruct Hu as [? ? ?].
    { intros bn' Hbn' Hbw'. assert (bn' = bn) as -> by congruence. by eapply bin_wf_free. }
    by split.
  - unfold nos_buffer_release. rewrite Hb.
    destruct (Z.eqb_spec (b_ref_cnt b) 1); [done|].
    apply pool_wf_upd_buf; [done|]. intros x cs fr Hx [? ? ? ? ? Hfr Hrm].
    assert (x = b) as -> by congruence. split; simpl; try done; [lia| |by destruct Hrm].
    rewrite <-Hfr. lia.
Qed.

Lemma pool_wf_alloc size hr p :
  pool_wf p -> req_ok size hr -> pool_wf (nos_buffer_alloc size hr p).1.
Proof.
  intros Hw Hreq. unfold nos_buffer_alloc. destruct Hreq as (Hs & Hh & Ht).
  rewrite u32_small by lia.
  destruct (find_idx _ _) as [i|] eqn:Hf; [|done].
  destruct (g_bins p !! i) as [b|] eqn:Hb; [|done]. simpl.
  apply find_idx_Some in Hf as (b' & Hb' & Hfit & _).
  apply lookup_take_Some in Hb' as [Hb' Hi]. simplify_eq.
  apply pool_wf_upd_bin; [done|]. intros b0 Hb0 Hbw. simplify_eq. by apply bin_wf_alloc.
Qed.

Lemma room_ok_push b n : room_ok b -> b_capacity b < 2 ^ 32 -> 0 <= n -> room_ok (nos_buffer_push b n).1.
Proof.
  intros [] Hc Hn. unfold nos_buffer_push. destruct (Z.ltb_spec (b_headroom b) n); [by split|].
  split; simpl; rewrite ?u32_small; lia.
Qed.

Lemma room_ok_pull b n : room_ok b -> b_capacity b < 2 ^ 32 -> 0 <= n -> room_ok (nos_buffer_pull b n).1.
Proof.
  intros [] Hc Hn. unfold nos_buffer_pull. destruct (Z.ltb_spec (b_len b) n); [by split|].
  split; simpl; rewrite ?u32_small; lia.
Qed.

Lemma get_buf_cap r p b :
  pool_wf p -> (ref_bin r < g_bin_count p)%nat -> get_buf r p = Some b -> 0 < b_capacity b < 2 ^ 32.
Proof.
  intros Hw Hlt Hb. unfold get_buf in Hb.
  destruct (g_bins p !! ref_bin r) as [bn|] eqn:Hbn; simpl in Hb; [|done].
  pose proof (pw_bin p Hw _ _ Hlt Hbn) as Hbw. destruct (bw_buf _ _ Hbw _ _ Hb). destruct Hbw. lia.
Qed.

Lemma pool_step_wf p p' : pool_step p p' -> pool_wf p -> pool_wf p'.
Proof.
  intros Hs Hw. destruct Hs as [p size hr Hr|p r Hl|p r Hl|p r n Hl Hn|p r n Hl Hn|p r f Hl Hf|p r c Hl].
  - by apply pool_wf_alloc.
  - apply pool_wf_upd_buf; [done|]. intros x cs fr Hx [? ? ? ? ? Hfr Hrm].
    destruct Hl as (_ & b & Hb & Hb1). simplify_eq.
    split; simpl; try done; [lia|rewrite <-Hfr; lia|by destruct Hrm].
  - by apply pool_wf_release.
  - apply pool_wf_upd_buf; [done|]. intros x cs fr Hx [? ? ? ? ? Hfr Hrm].
    pose proof (get_buf_cap _ _ _ Hw (proj1 Hl) Hx) as Hcap.
    pose proof (room_ok_push x n Hrm ltac:(lia) ltac:(apply Hn)).
    unfold nos_buffer_push in *. destruct (b_headroom x <? n); by split.
  - apply pool_wf_upd_buf; [done|]. intros x cs fr Hx [? ? ? ? ? Hfr Hrm].
    pose proof (get_buf_cap _ _ _ Hw (proj1 Hl) Hx) as Hcap.
    pose proof (room_ok_pull x n Hrm ltac:(lia) ltac:(apply Hn)).
    unfold nos_buffer_pull in *. destruct (b_len x <? n); by split.
  - apply pool_wf_upd_buf; [done|]. intros x cs fr Hx [? Hraw ? ? ? Hfr Hrm].
    split; simpl; try done; [by rewrite Hf|by destruct Hrm].
  - apply pool_wf_upd_buf; [done|]. intros x cs fr Hx [? ? ? ? ? Hfr Hrm].
    split; simpl; try done. by destruct Hrm.
Qed.

Lemma get_buf_upd_bin_alloc size hr idx i b p :
  g_bins p !! i = Some b ->
  get_buf (BRef i idx) (upd_bin i (bin_alloc size hr idx) p) =
  take_buf size hr <$> get_buf (BRef i idx) p.
Proof.
  intros Hb. unfold get_buf, upd_bin. simpl. rewrite list_lookup_alter_eq, Hb. simpl.
  by rewrite list_lookup_alter_eq.
Qed.

Lemma get_buf_upd_bin_alloc_ne size hr idx i s p :
  s <> BRef i idx -> get_buf s (upd_bin i (bin_alloc size hr idx) p) = get_buf s p.
Proof.
  intros Hne. unfold get_buf, upd_bin. simpl. destruct (decide (i = ref_bin s)) as [->|].
  - rewrite list_lookup_alter_eq. destruct (g_bins p !! ref_bin s); simpl; [|done].
    rewrite list_lookup_alter_ne; [done|]. intros ->. by destruct s.
  - by rewrite list_lookup_alter_ne.
Qed.

(** A bin with no free chunk has every buffer in use, and conversely. *)
Lemma bin_full i b :
  bin_wf i b -> free_top b < 0 -> forall j x, buffers b !! j = Some x -> 1 <= b_ref_cnt x.
Proof.
  intros Hw Ht j x Hx. destruct (bw_buf _ _ Hw _ _ Hx).
  assert (free_list b = []) as Hnil.
  { unfold free_list. by replace (Z.to_nat (free_top b + 1)) with 0%nat by (destruct Hw; lia). }
  rewrite Hnil in bf_free0. destruct (Z.eq_dec (b_ref_cnt x) 0) as [E|E]; [|lia].
  apply bf_free0 in E. by apply not_elem_of_nil in E.
Qed.

Lemma bin_top_free i b :
  bin_wf i b -> 0 <= free_top b ->
  exists x, buffers b !! default 0%nat (free_stack b !! Z.to_nat (free_top b)) = Some x /\
    b_ref_cnt x = 0.
Proof.
  intros Hw Ht. pose proof (free_list_alloc b ltac:(lia) ltac:(lia)
    ltac:(destruct Hw; lia)) as Hfl.
  set (idx := default 0%nat _) in *.
  assert (idx ∈ free_list b) as Hin by (rewrite Hfl; set_solver).
  pose proof (bw_idx _ _ Hw) as Hlt. rewrite List.Forall_forall in Hlt.
  pose proof (Hlt idx (proj1 (list_elem_of_In _ _) Hin)) as Hlt'.
  destruct (lookup_lt_is_Some_2 (buffers b) idx) as [x Hx]; [destruct Hw; lia|].
  exists x. split; [done|]. by apply (bf_free _ _ _ _ _ (bw_buf _ _ Hw _ _ Hx)).
Qed.

(** *** Properties *)

(** [nos_buffer_alloc], both outcomes: a returned buffer was free, now has one
    reference and exactly the requested layout, nothing else changed, every
    earlier bin is too small or exhausted and, when the bins are configured by
    increasing size, so is every bin of smaller chunks: the size matches best.
    NULL is returned exactly when all bins are too small or exhausted. *)
Definition bin_cannot_serve (total : Z) (b : nos_buffer_bin) : Prop :=
  chunk_size b < total \/ forall j x, buffers b !! j = Some x -> 1 <= b_ref_cnt x.

(** The bins are configured by increasing size, as in every buffer profile
    of the repository (conf/resources/buffer_profiles.yaml). *)
Definition sizes_sorted (p : pool) : Prop :=
  forall i j b b', (i <= j < g_bin_count p)%nat -> g_bins p !! i = Some b -> g_bins p !! j = Some b' ->
    chunk_size b <= chunk_size b'.

Definition alloc_post (p : pool) (size hr : Z) (res : pool * option buf_ref) : Prop :=
  match res with
  | (p', None) =>
      p' = p /\ forall i b, (i < g_bin_count p)%nat -> g_bins p !! i = Some b ->
                            bin_cannot_serve (size + hr) b
  | (p', Some r) =>
      (exists x, get_buf r p = Some x /\ b_ref_cnt x = 0 /\
         get_buf r p' = Some (Buf (b_raw x) hr (b_capacity x) size hr
           (b_capacity x - hr - size) 1 (b_bin_idx x) (b_pool_idx x) None) /\
         size + hr <= b_capacity x) /\
      (forall s, s <> r -> get_buf s p' = get_buf s p) /\
      (forall i b, (i < ref_bin r)%nat -> g_bins p !! i = Some b ->
                   bin_cannot_serve (size + hr) b) /\
      (sizes_sorted p -> forall i b b', (i < g_bin_count p)%nat -> g_bins p !! i = Some b ->
         g_bins p !! ref_bin r = Some b' -> chunk_size b < chunk_size b' ->
         bin_cannot_serve (size + hr) b)
  end.

Lemma bin_not_fits i b total :
  bin_wf i b -> bin_fits total b = false -> bin_cannot_serve total b.
Proof.
  intros Hw Hf. unfold bin_fits in Hf. apply andb_false_iff in Hf as [Hf|Hf].
  - left. rewrite Z.geb_leb in Hf. bool_hyps. lia.
  - right. apply (bin_full i); [done|]. rewrite Z.geb_leb in Hf. bool_hyps. lia.
Qed.

(** C18. Whatever sequence of pool operations runs after the initialisation
    from a configuration whose bins have at most [2^31] chunks and less than
    [2^32] bytes each ([bin_def_ok]), every bin keeps its invariant: the size
    product of its memory has not wrapped, the free stack
    holds exactly the chunks with reference count 0, without duplicates, the
    used and peak counters agree with it, and head room, data and tail room
    of every buffer partition its chunk. *)
Theorem pool_invariant (ok : nat -> bool) (config : list (Z * Z)) (p0 p : pool)
    (Hcfg : Forall (fun '(s, n) => bin_def_ok s n) config)
    (Hinit : nos_buffer_init_pool ok (Some config) pool_static = Done (Some (NOS_OK, p0)))
    (Hrun : rtc pool_step p0 p) :
  pool_wf p.
Proof.
  assert (pool_wf p0) as Hw0.
  { unfold nos_buffer_init_pool in Hinit. cbn [pool_static g_bin_count Nat.ltb Nat.leb] in Hinit.
    destruct (init_bins _ _ _ _ _) as [[q|]| |] eqn:Hq; cbn in Hinit; simplify_eq.
    by apply (init_bins_wf ok (S MAX_BINS) 0 config pool_static p0 pool_static_wf). }
  clear Hinit. induction Hrun as [|p p' p'' Hs _ IH]; [done|].
  apply IH. by eapply pool_step_wf.
Qed.

Lemma alloc_post_holds (p : pool) (size hr : Z) :
  pool_wf p -> req_ok size hr -> alloc_post p size hr (nos_buffer_alloc size hr p).
Proof.
  intros Hw (Hs & Hh & Ht). unfold nos_buffer_alloc. rewrite u32_small by lia.
  assert (forall i b, find_idx (bin_fits (size + hr)) (take (g_bin_count p) (g_bins p)) = Some i ->
    g_bins p !! i = Some b -> bin_wf i b /\ bin_fits (size + hr) b = true) as Hsome.
  { intros i b (b' & Hb' & Hfit & _)%find_idx_Some Hb.
    apply lookup_take_Some in Hb' as [Hb' Hi]. simplify_eq. split; [by apply pw_bin with p|done]. }
  destruct (find_idx _ _) as [i|] eqn:Hf; simpl.
  - pose proof Hf as (b & Hb & _ & Hbefore)%find_idx_Some.
    apply lookup_take_Some in Hb as [Hb Hi]. rewrite Hb.
    destruct (Hsome i b eq_refl Hb) as [Hbw Hfit]. unfold bin_fits in Hfit.
    rewrite !Z.geb_leb in Hfit. bool_hyps.
    destruct (bin_top_free i b Hbw ltac:(lia)) as (x & Hx & Hx0).
    pose proof (bw_buf _ _ Hbw _ _ Hx) as [Hcap _ _ _ _ _ _]. split_and!.
    + exists x. unfold get_buf at 1. simpl. rewrite Hb. simpl. split_and!; [done..| |lia].
      rewrite (get_buf_upd_bin_alloc _ _ _ _ b) by done. unfold get_buf. simpl. rewrite Hb. simpl.
      rewrite Hx. simpl. unfold take_buf. f_equal. f_equal. apply u32_small. destruct Hbw; lia.
    + intros s Hne. by apply get_buf_upd_bin_alloc_ne.
    + intros k bk Hk Hbk. simpl in Hk. apply (bin_not_fits k).
      * apply pw_bin with p; [done|lia|done].
      * apply (Hbefore k bk Hk). rewrite lookup_take_lt by lia. done.
    + intros Hsort k bk b' Hk Hbk Hb' Hlt. simpl in Hb'. simplify_eq.
      destruct (decide (i <= k)%nat) as [Hik|Hik]; [pose proof (Hsort i k _ bk ltac:(lia) Hb Hbk); lia|].
      apply (bin_not_fits k).
      * apply pw_bin with p; [done|lia|done].
      * apply (Hbefore k bk ltac:(lia)). rewrite lookup_take_lt by lia. done.
  - split; [done|]. intros k bk Hk Hbk. apply (bin_not_fits k); [by apply pw_bin with p|].
    apply find_idx_None in Hf. apply (Forall_lookup_1 _ _ k bk Hf).
    by rewrite lookup_take_lt by lia.
Qed.

(** C33. Allocation returns a chunk nobody holds, laid out as asked, changing
    no other buffer.  With bins configured by increasing size, as the profiles
    of the repository are, it is of the best matching size nos_buffer.h:48
    promises: every bin of smaller chunks is too small or exhausted.  In
    general it is from the first bin in configuration order that is large
    enough and not exhausted, which on an unsorted configuration need not be
    the best match.  It fails only when no bin can serve the request. *)
Theorem nos_buffer_alloc_spec (p : pool) (size hr : Z)
    (Hw : pool_wf p) (Hreq : req_ok size hr) :
  alloc_post p size hr (nos_buffer_alloc size hr p).
Proof. by apply alloc_post_holds. Qed.

(** What a release does to the holder's bin and buffer. *)
Definition release_post (p : pool) (r : buf_ref) (b : nos_buffer) (p' : pool) : Prop :=
  (forall s, s <> r -> get_buf s p' = get_buf s p) /\
  if b_ref_cnt b =? 1 then
    get_buf r p' = Some (reset_buf (set_ref 0 b)) /\
    reply_ctxs p' = nos_reply_ctx_release (b_reply_ctx b) (reply_ctxs p) /\
    (forall bn, g_bins p !! ref_bin r = Some bn ->
       exists bn', g_bins p' !! ref_bin r = Some bn' /\
         free_list bn' = free_list bn ++ [ref_idx r] /\ used_count bn' = used_count bn - 1)
  else
    get_buf r p' = Some (set_ref (b_ref_cnt b - 1) b) /\
    reply_ctxs p' = reply_ctxs p /\
    (forall bn, g_bins p !! ref_bin r = Some bn ->
       exists bn', g_bins p' !! ref_bin r = Some bn' /\
         free_list bn' = free_list bn /\ used_count bn' = used_count bn).

Lemma release_post_holds (p : pool) (r : buf_ref) (b : nos_buffer) :
  pool_wf p -> buf_live r p -> get_buf r p = Some b ->
  release_post p r b (nos_buffer_release (Some r) p).
Proof.
  intros Hw Hl Hb. unfold release_post.
  destruct (buf_live_lookup r p Hw Hl) as (bn & b' & Hbn & Hbb & Hb' & Hr & Hbw & _).
  assert (b' = b) as -> by congruence.
  destruct (Z.eqb_spec (b_ref_cnt b) 1) as [E|E].
  - rewrite (release_last_bins r p b) by done.
    pose proof (length_free_list _ _ Hbw) as Hlen.
    assert (ref_idx r ∉ free_list bn) as Hni.
    { rewrite <-(bf_free _ _ _ _ _ (bw_buf _ _ Hbw _ _ Hbb)). lia. }
    pose proof (nodup_lt_length _ _ _ (bw_nodup _ _ Hbw) (bw_idx _ _ Hbw) Hni
      ltac:(apply lookup_lt_Some in Hbb; destruct Hbw; lia)).
    unfold get_buf. simpl. split_and!; [|by rewrite list_lookup_alter_eq, Hbn; simpl;
      rewrite !list_lookup_alter_eq, Hbb; simpl; rewrite E|done|].
    + intros s Hne. destruct (decide (ref_bin r = ref_bin s)) as [Es|Es];
        [|by rewrite list_lookup_alter_ne].
      rewrite <-Es, list_lookup_alter_eq, Hbn. simpl.
      rewrite !list_lookup_alter_ne; [done|..]; intros ?; destruct r, s; simpl in *; congruence.
    + intros bn' Hbn'. simplify_eq. rewrite list_lookup_alter_eq, Hbn. simpl. eexists. split; [done|].
      split; simpl.
      * rewrite <-(free_list_free bn (ref_idx r)) by (destruct Hbw; lia). done.
      * apply u32_small. destruct Hbw. lia.
  - unfold nos_buffer_release. rewrite Hb. destruct (Z.eqb_spec (b_ref_cnt b) 1); [done|].
    split_and!.
    + intros s Hne. by apply get_buf_upd_ne.
    + by rewrite get_buf_upd_eq, Hb.
    + done.
    + intros bn' Hbn'. simplify_eq. unfold upd_buf, upd_bin. simpl.
      rewrite list_lookup_alter_eq, Hbn. simpl. eexists. by split.
Qed.

(** Releasing a held buffer: the last reference resets it, returns its
    chunk to the stack of its own bin and drops the reply context; an earlier
    release only decrements the count; no other buffer changes. *)
Theorem nos_buffer_release_spec (p : pool) (r : buf_ref) (b : nos_buffer)
    (Hw : pool_wf p) (Hl : buf_live r p) (Hb : get_buf r p = Some b) :
  release_post p r b (nos_buffer_release (Some r) p).
Proof. by apply release_post_holds. Qed.

(** Allocating and releasing is neutral: every bin has the free chunks,
    in the same order, and the use count it had before. *)
Theorem alloc_release_roundtrip (p p' : pool) (size hr : Z) (r : buf_ref)
    (Hw : pool_wf p) (Hreq : req_ok size hr)
    (Ha : nos_buffer_alloc size hr p = (p', Some r)) :
  forall i b, g_bins p !! i = Some b ->
    exists b', g_bins (nos_buffer_release (Some r) p') !! i = Some b' /\
      free_list b' = free_list b /\ used_count b' = used_count b.
Proof.
  intros i b Hb.
  pose proof (alloc_post_holds p size hr Hw Hreq) as Hpost.
  pose proof (pool_wf_alloc size hr p Hw Hreq) as Hw'. rewrite Ha in Hpost, Hw'. simpl in Hpost, Hw'.
  destruct Hpost as ((x & _ & _ & Hx & _) & _ & _).
  unfold nos_buffer_alloc in Ha. destruct (find_idx _ _) as [k|] eqn:Hf; [|done].
  destruct (g_bins p !! k) as [bk|] eqn:Hbk; [|done]. simplify_eq.
  apply find_idx_Some in Hf as (b0 & Hb0 & Hfit & _).
  apply lookup_take_Some in Hb0 as [Hb0 Hk]. assert (b0 = bk) as -> by congruence. clear Hb0.
  pose proof (pw_bin p Hw _ _ Hk Hbk) as Hbw.
  unfold bin_fits in Hfit. rewrite !Z.geb_leb in Hfit. bool_hyps.
  set (idx := default 0%nat _) in *.
  assert (buf_live (BRef k idx) (upd_bin k (bin_alloc size hr idx) p)) as Hlive.
  { split; [done|]. eexists. split; [exact Hx|simpl; lia]. }
  pose proof (release_post_holds _ (BRef k idx) _ Hw' Hlive Hx) as Hrel.
  unfold release_post in Hrel. simpl b_ref_cnt in Hrel. change (1 =? 1) with true in Hrel.
  cbv iota in Hrel. destruct Hrel as (_ & _ & _ & Hrel). simpl ref_bin in Hrel.
  destruct (decide (i = k)) as [->|Hne].
  - assert (bk = b) as -> by congruence. destruct (Hrel (bin_alloc size hr idx b)) as (b' & Hb' & Hfl & Hu).
    { unfold upd_bin. simpl. by rewrite list_lookup_alter_eq, Hbk. }
    exists b'. split; [done|]. rewrite Hfl, Hu. split.
    + symmetry. by apply free_list_alloc; destruct Hbw; lia.
    + simpl. rewrite u32_small by (destruct Hbw; lia). lia.
  - exists b. split; [|done].
    rewrite (release_last_bins _ _ _ Hw' Hlive Hx eq_refl).
    unfold upd_bin. simpl. by rewrite !list_lookup_alter_ne by done.
Qed.

(** A request whose size and head room sum to 2^32 or more wraps around
    and is served from a chunk that cannot hold it: the data and head room of
    the returned buffer exceed its capacity. *)
Theorem nos_buffer_alloc_wraps (p : pool) (size hr : Z) (p' : pool) (r : buf_ref) (b : nos_buffer)
    (Hw : pool_wf p) (Hs : in_u32 size) (Hh : in_u32 hr) (Hover : 2 ^ 32 <= size + hr)
    (Ha : nos_buffer_alloc size hr p = (p', Some r)) (Hb : get_buf r p' = Some b) :
  b_len b = size /\ b_headroom b = hr /\ b_capacity b < b_headroom b + b_len b.
Proof.
  unfold nos_buffer_alloc in Ha. destruct (find_idx _ _) as [k|] eqn:Hf; [|done].
  destruct (g_bins p !! k) as [bk|] eqn:Hbk; [|done]. simplify_eq.
  apply find_idx_Some in Hf as (b0 & Hb0 & _ & _).
  apply lookup_take_Some in Hb0 as [_ Hk].
  rewrite (get_buf_upd_bin_alloc _ _ _ _ bk) in Hb by done.
  apply fmap_Some in Hb as (x & Hx & ->).
  pose proof (get_buf_cap (BRef k _) p x Hw Hk Hx). simpl. split_and!; [done..|lia].
Qed.

(** C37. Chunks as slices of the bin's memory: when [chunk_size * chunk_count]
    does not wrap, chunk [j] starts at [j * chunk_size], the chunks are
    disjoint and the last one ends inside the memory that was requested. *)
Theorem init_bin_chunks_disjoint (i : nat) (size n : Z)
    (Hn : 0 <= n) (Hs : 0 < align_chunk size) (Hfit : align_chunk size * n < 2 ^ 32) :
  let b := init_bin i size n in
  (forall j, (j < Z.to_nat n)%nat ->
     chunk_off b j = Z.of_nat j * chunk_size b /\
     chunk_off b j + chunk_size b <= raw_mem_bytes b) /\
  (forall j k, (j < k)%nat -> (k < Z.to_nat n)%nat ->
     chunk_off b j + chunk_size b <= chunk_off b k).
Proof.
  simpl. unfold chunk_off. simpl. rewrite (u32_small (_ * n)) by nia.
  assert (forall j, (j < Z.to_nat n)%nat -> u32 (Z.of_nat j * align_chunk size) = Z.of_nat j * align_chunk size) as Hj.
  { intros j Hj. apply u32_small. nia. }
  split.
  - intros j Hjn. rewrite Hj by done. split; [done|nia].
  - intros j k Hjk Hk. rewrite !Hj by lia. nia.
Qed.

(** Pushing a header and pulling it back, in either order, restores the
    buffer; a push needs head room and a pull needs data, and otherwise
    nothing changes and NULL is returned. *)
Theorem push_pull_roundtrip (b : nos_buffer) (n : Z)
    (Hr : room_ok b) (Hcap : b_capacity b < 2 ^ 32) (Hn : 0 <= n) :
  (n <= b_headroom b ->
     nos_buffer_push b n = (shift_data n b, Some (b_data b - n)) /\
     nos_buffer_pull (nos_buffer_push b n).1 n = (b, Some (b_data b))) /\
  (n <= b_len b ->
     nos_buffer_pull b n = (shift_data (- n) b, Some (b_data b + n)) /\
     nos_buffer_push (nos_buffer_pull b n).1 n = (b, Some (b_data b))) /\
  (b_headroom b < n -> nos_buffer_push b n = (b, None)) /\
  (b_len b < n -> nos_buffer_pull b n = (b, None)).
Proof.
  destruct b as [raw d cap len hd tl rf bi pi rc], Hr; simpl in *.
  unfold nos_buffer_push, nos_buffer_pull, shift_data; simpl. split_and!; intros Hle.
  - destruct (Z.ltb_spec hd n); [lia|]. simpl. rewrite (u32_small (len + n)) by lia.
    destruct (Z.ltb_spec (len + n) n); [lia|]. split; [done|].
    rewrite !u32_small by (rewrite ?u32_small; lia).
    repeat (f_equal; try lia).
  - destruct (Z.ltb_spec len n); [lia|]. simpl. rewrite (u32_small (hd - - n)) by lia.
    destruct (Z.ltb_spec (hd - - n) n); [lia|]. split; [by repeat (f_equal; try lia)|].
    rewrite !u32_small by (rewrite ?u32_small; lia).
    repeat (f_equal; try lia).
  - by destruct (Z.ltb_spec hd n); [|lia].
  - by destruct (Z.ltb_spec len n); [|lia].
Qed.

(** ** Concrete inputs *)

(** Two bins, of 64 and 256 bytes. *)
Definition demo_config : list (Z * Z) := [(60, 2); (200, 1)].

Definition demo_pool : pool :=
  match nos_buffer_init_pool (fun _ => true) (Some demo_config) pool_static with
  | Done (Some (_, p)) => p
  | _ => pool_static
  end.

Lemma demo_config_ok : Forall (fun '(s, n) => bin_def_ok s n) demo_config.
Proof. unfold demo_config, bin_def_ok, CACHE_LINE_SIZE. repeat constructor; vm_compute; congruence. Qed.

Lemma demo_pool_wf : pool_wf demo_pool.
Proof.
  apply (init_bins_wf (fun _ => true) (S MAX_BINS) 0 demo_config pool_static demo_pool pool_static_wf);
    [done| |by vm_compute]. exact demo_config_ok.
Qed.

Lemma pool_invariant_witness :
  pool_wf (nos_buffer_release (Some (BRef 0 1)) (nos_buffer_alloc 40 8 demo_pool).1).
Proof.
  apply (pool_invariant (fun _ => true) demo_config demo_pool).
  - exact demo_config_ok.
  - by vm_compute.
  - eapply rtc_l; [apply (ps_alloc _ 40 8); unfold req_ok; lia|]. apply rtc_once, ps_release.
    split; [vm_compute; lia|]. eexists. split; [by vm_compute|simpl; lia].
Defined.

Lemma nos_buffer_alloc_spec_witness :
  alloc_post demo_pool 100 28 (nos_buffer_alloc 100 28 demo_pool) /\
  (nos_buffer_alloc 100 28 demo_pool).2 = Some (BRef 1 0).
Proof.
  split; [|by vm_compute].
  apply nos_buffer_alloc_spec; [exact demo_pool_wf|unfold req_ok; lia].
Defined.

Definition demo_held : pool := (nos_buffer_alloc 40 8 demo_pool).1.

Lemma demo_held_wf : pool_wf demo_held.
Proof. apply pool_wf_alloc; [exact demo_pool_wf|unfold req_ok; lia]. Qed.

Definition demo_buf : nos_buffer :=
  default (init_buffer 0 0 0) (get_buf (BRef 0 1) demo_held).

Lemma nos_buffer_release_spec_witness :
  release_post demo_held (BRef 0 1) demo_buf (nos_buffer_release (Some (BRef 0 1)) demo_held).
Proof.
  apply nos_buffer_release_spec; [exact demo_held_wf| |by vm_compute].
  split; [vm_compute; lia|]. exists demo_buf. split; [by vm_compute|vm_compute; done].
Defined.

Lemma alloc_release_roundtrip_witness :
  exists b', g_bins (nos_buffer_release (Some (BRef 0 1)) demo_held) !! 0%nat = Some b' /\
    free_list b' = [0; 1]%nat /\ used_count b' = 0.
Proof.
  destruct (alloc_release_roundtrip demo_pool demo_held 40 8 (BRef 0 1) demo_pool_wf
    ltac:(unfold req_ok; lia) ltac:(by vm_compute) 0%nat (init_bin 0 60 2) ltac:(by vm_compute))
    as (b' & Hb & Hf & Hu).
  exists b'. rewrite Hf, Hu. split; [exact Hb|by vm_compute].
Defined.

(** A 4 GiB request with one byte of head room is served by a 64-byte chunk. *)
Lemma nos_buffer_alloc_wraps_witness :
  exists p' r b, nos_buffer_alloc (2 ^ 32 - 1) 1 demo_pool = (p', Some r) /\
    get_buf r p' = Some b /\ b_capacity b < b_headroom b + b_len b.
Proof.
  exists (nos_buffer_alloc (2 ^ 32 - 1) 1 demo_pool).1, (BRef 0 1).
  eexists. split; [by vm_compute|]. split; [by vm_compute|].
  eapply (nos_buffer_alloc_wraps demo_pool (2 ^ 32 - 1) 1 _ (BRef 0 1));
    [exact demo_pool_wf|split; lia|split; lia|lia|by vm_compute|by vm_compute].
Defined.

Lemma init_bin_chunks_disjoint_witness :
  chunk_off (init_bin 0 60 2) 0 + 64 <= chunk_off (init_bin 0 60 2) 1.
Proof.
  apply (init_bin_chunks_disjoint 0 60 2 ltac:(lia) ltac:(by vm_compute) ltac:(by vm_compute));
    vm_compute; lia.
Defined.

Lemma push_pull_roundtrip_witness :
  nos_buffer_pull (nos_buffer_push demo_buf 8).1 8 = (demo_buf, Some (b_data demo_buf)).
Proof.
  apply (push_pull_roundtrip demo_buf 8).
  - split; vm_compute; done.
  - by vm_compute.
  - lia.
  - by vm_compute.
Defined.
