(* ===== verification/Service.v ===== *)
(** * Service registries

    [Embedded] models the table of embedded services
    (src/core/nos_service.c) with the cached accessors of include/nos_api.h;
    [Registry] the table that routes messages to a local provider or a
    remote node (the registry part of src/core/nos_scheduler.c). *)

From stdpp Require Import base list sets gmap strings.
From S2P Require Import Prelude CArray.

(** ** Embedded services *)

Module Embedded.

Definition MAX_EMBEDDED_SERVICES : nat := 32.

Section embedded.
(** Addresses of operation tables; [None] is NULL. *)
Context {Ops : Type}.

Record nos_embedded_service := ESvc {
  service_name : string;
  ops : option Ops;
}.

Abbreviation registry := (carr nos_embedded_service).

Definition registry_static : registry :=
  CArr (replicate MAX_EMBEDDED_SERVICES (ESvc "" None)) 0.

Definition nos_embedded_service_register (name : string) (o : option Ops) (r : registry)
    : nos_status * registry :=
  if MAX_EMBEDDED_SERVICES <=? count r then (NOS_ERR, r)
  else (NOS_OK, carr_push (ESvc name o) r).

Definition nos_embedded_service_get (name : string) (r : registry) : option Ops :=
  carr_find (fun e => String.eqb (service_name e) name) r
    ≫= fun i => live r !! i ≫= ops.

(** [_nos_get_log_ops], [_nos_get_timer_ops], [_nos_get_kv_ops]: a static
    cache in front of the table. *)
Definition cached_get (name : string) (cache : option Ops) (r : registry)
    : option Ops * option Ops :=
  match cache with
  | Some o => (Some o, cache)
  | None =>
      match nos_embedded_service_get name r with
      | Some o => (Some o, Some o)
      | None => (None, None)
      end
  end.

Definition registry_ok (r : registry) : Prop :=
  length (slots r) = MAX_EMBEDDED_SERVICES /\ count r <= MAX_EMBEDDED_SERVICES.

Lemma embedded_static_ok : registry_ok registry_static.
Proof. split; simpl; [done|unfold MAX_EMBEDDED_SERVICES; lia]. Qed.

Lemma get_unfold name r :
  nos_embedded_service_get name r =
  find_idx (fun e => String.eqb (service_name e) name) (live r) ≫= fun i => live r !! i ≫= ops.
Proof. done. Qed.

Lemma register_live name o r :
  registry_ok r -> count r < MAX_EMBEDDED_SERVICES ->
  nos_embedded_service_register name o r = (NOS_OK, carr_push (ESvc name o) r) /\
  live (carr_push (ESvc name o) r) = live r ++ [ESvc name o].
Proof.
  intros [Hl Hc] Hlt. unfold nos_embedded_service_register.
  destruct (Nat.leb_spec MAX_EMBEDDED_SERVICES (count r)); [lia|].
  split; [done|]. apply live_push. lia.
Qed.

(** A name that is already there keeps its operations; a new one becomes
    visible; every other name is unaffected; a full table refuses. *)
Definition register_post name (o : option Ops) r (res : nos_status * registry) : Prop :=
  match res with
  | (NOS_OK, r') =>
      registry_ok r' /\
      (forall n, n <> name -> nos_embedded_service_get n r' = nos_embedded_service_get n r) /\
      (if decide (Exists (fun e => service_name e = name) (live r))
       then nos_embedded_service_get name r' = nos_embedded_service_get name r
       else nos_embedded_service_get name r' = o)
  | (st, r') => st = NOS_ERR /\ r' = r /\ count r = MAX_EMBEDDED_SERVICES
  end.

Lemma find_app_other n e (l : list nos_embedded_service) :
  (service_name e =? n)%string = false ->
  find_idx (fun x => String.eqb (service_name x) n) (l ++ [e]) =
  find_idx (fun x => String.eqb (service_name x) n) l.
Proof.
  intros He. destruct (find_idx _ l) as [i|] eqn:Hf; [by apply find_idx_app_l|].
  rewrite find_idx_app_r by done. simpl. by rewrite He.
Qed.

(** Embedded registration is first come, first served: it adds a new
    name, never changes what an existing name resolves to, and refuses
    only when the table is full. *)
Theorem nos_embedded_service_register_spec (name : string) (o : option Ops) (r : registry)
    (Hr : registry_ok r) :
  register_post name o r (nos_embedded_service_register name o r).
Proof.
  destruct (decide (count r < MAX_EMBEDDED_SERVICES)) as [Hlt|Hge].
  2: { destruct Hr as [Hl Hc]. unfold nos_embedded_service_register.
       destruct (Nat.leb_spec MAX_EMBEDDED_SERVICES (count r)); [|lia]. simpl. split_and!; [done..|lia]. }
  destruct (register_live name o r Hr Hlt) as [-> Hv]. simpl. split_and!.
  - destruct Hr as [Hl Hc]. split; simpl; [by rewrite length_insert|lia].
  - intros n Hn. rewrite !get_unfold, Hv, find_app_other.
    + destruct (find_idx _ (live r)) as [i|] eqn:Hf; simpl; [|done].
      rewrite lookup_app_l; [done|]. by eapply find_idx_lt.
    + by apply String.eqb_neq.
  - rewrite !get_unfold, Hv. case_decide as He.
    + destruct (find_idx _ (live r)) as [i|] eqn:Hf.
      * rewrite (find_idx_app_l _ _ _ i Hf). simpl. rewrite lookup_app_l; [done|].
        by eapply find_idx_lt.
      * apply find_idx_None in Hf. apply Exists_exists in He as (e & Hin & He).
        apply list_elem_of_In in Hin. rewrite List.Forall_forall in Hf.
        specialize (Hf e Hin). simpl in Hf. bool_hyps. done.
    + rewrite find_idx_app_r.
      * simpl. rewrite String.eqb_refl. simpl. by rewrite Nat.add_0_r, list_lookup_middle.
      * apply find_idx_None. apply List.Forall_forall. intros e Hin. apply String.eqb_neq.
        intros E. apply He, Exists_exists. exists e. split; [by apply list_elem_of_In|done].
Qed.
End embedded.

Arguments nos_embedded_service : clear implicits.

Lemma nos_embedded_service_register_spec_witness :
  register_post "SVC_LOG" (Some 7) registry_static
    (nos_embedded_service_register "SVC_LOG" (Some 7) registry_static) /\
  nos_embedded_service_get "SVC_LOG"
    (nos_embedded_service_register "SVC_LOG" (Some 7) registry_static).2 = Some 7.
Proof.
  split; [|reflexivity].
  apply nos_embedded_service_register_spec, embedded_static_ok.
Defined.

End Embedded.

(** ** Message routing *)

Module Registry.

(** Addresses of components and threads. *)
Abbreviation comp_ptr := nat.
Abbreviation thread_ptr := nat.

Record service_entry := SvcEntry {
  service_id : Z;
  local_provider : option comp_ptr;
  local_thread : option thread_ptr;
  remote_node : string;        (* char[32] *)
  remote_uds_path : string;    (* char[108] *)
  is_remote : bool;
}.

Abbreviation registry := (carr service_entry).

Definition MAX_SERVICES : nat := 64.

Definition zero_entry : service_entry := SvcEntry 0 None None "" "" false.

Definition registry_static : registry := CArr (replicate MAX_SERVICES zero_entry) 0.

(** The index of the entry, where the C code returns its address. *)
Definition find_service_entry (id : Z) (r : registry) : option nat :=
  carr_find (fun e => (service_id e =? id)%Z) r.

Definition svc_lookup (id : Z) (r : registry) : option service_entry :=
  find_service_entry id r ≫= fun i => live r !! i.

(** The entry an update goes to: the existing one, else a fresh slot, whose
    old bytes are still there. *)
Definition entry_slot (id : Z) (r : registry) : option (nat * registry) :=
  match find_service_entry id r with
  | Some i => Some (i, r)
  | None => if MAX_SERVICES <=? count r then None
            else Some (count r, CArr (slots r) (S (count r)))
  end.

Definition upd_entry (f : service_entry -> service_entry) (i : nat) (r : registry) : registry :=
  CArr (alter f i (slots r)) (count r).

Definition bind_entry (id : Z) (provider : option comp_ptr) (thread : option thread_ptr)
    (e : service_entry) : service_entry :=
  SvcEntry id provider thread (remote_node e) (remote_uds_path e) false.

Definition nos_service_register_provider_bind (id : Z) (provider : option comp_ptr)
    (thread : option thread_ptr) (r : registry) : nos_status * registry :=
  match entry_slot id r with
  | None => (NOS_ERR, r)
  | Some (i, r') => (NOS_OK, upd_entry (bind_entry id provider thread) i r')
  end.

Definition remote_entry (id : Z) (node_name : option string) (uds_path : string)
    (e : service_entry) : service_entry :=
  SvcEntry id (local_provider e) (local_thread e)
    (match node_name with Some n => strncpy_field 32 n | None => remote_node e end)
    (strncpy_field 108 uds_path) true.

Definition nos_service_register_remote (id : Z) (node_name : option string)
    (uds_path : string) (r : registry) : nos_status * registry :=
  match entry_slot id r with
  | None => (NOS_ERR, r)
  | Some (i, r') => (NOS_OK, upd_entry (remote_entry id node_name uds_path) i r')
  end.

Definition nos_service_unregister_provider (id : Z) (r : registry) : nos_status * registry :=
  match find_service_entry id r with
  | Some i => (NOS_OK, carr_remove_swap i r)
  | None => (NOS_ERR, r)
  end.

(** *** Invariant *)

Record registry_ok (r : registry) : Prop := {
  ro_slots : length (slots r) = MAX_SERVICES;
  ro_count : count r <= MAX_SERVICES;
  ro_ids : NoDup (service_id <$> live r);
}.

Lemma registry_ok_wf r : registry_ok r -> carr_wf r.
Proof. intros []. unfold carr_wf. lia. Qed.

Lemma registry_static_ok : registry_ok registry_static.
Proof. split; simpl; [done|unfold MAX_SERVICES; lia|constructor]. Qed.

(** With unique ids, looking up is membership. *)
Lemma svc_lookup_elem id r e :
  registry_ok r -> svc_lookup id r = Some e <-> e ∈ live r /\ service_id e = id.
Proof.
  intros Hr. unfold svc_lookup, find_service_entry, carr_find. split.
  - intros H. apply bind_Some in H as (i & Hi & He).
    apply find_idx_Some in Hi as (x & Hx & Hp & _). simplify_eq. bool_hyps.
    split; [by eapply list_elem_of_lookup_2|done].
  - intros [Hin <-]. destruct (find_idx _ (live r)) as [i|] eqn:Hf; simpl.
    + apply find_idx_Some in Hf as (x & Hx & Hp & _). bool_hyps. rewrite Hx. f_equal.
      apply list_elem_of_lookup in Hin as [j Hj].
      assert (i = j) as ->; [|congruence].
      eapply NoDup_lookup; [apply (ro_ids r Hr)|by rewrite list_lookup_fmap, Hx|].
      rewrite list_lookup_fmap, Hj. simpl. congruence.
    + apply find_idx_None in Hf. rewrite List.Forall_forall in Hf.
      apply list_elem_of_In, Hf in Hin. bool_hyps. done.
Qed.

Lemma svc_lookup_in id r e : svc_lookup id r = Some e -> e ∈ live r.
Proof.
  unfold svc_lookup. destruct (find_service_entry id r) as [i|]; [|done].
  intros Hi. by eapply list_elem_of_lookup_2.
Qed.

Lemma svc_lookup_None id r :
  svc_lookup id r = None <-> find_service_entry id r = None.
Proof.
  unfold svc_lookup. split; intros H; [|by rewrite H].
  destruct (find_service_entry id r) as [i|] eqn:Hf; [|done]. simpl in H.
  apply carr_find_Some in Hf as (_ & x & Hx & _). congruence.
Qed.

Lemma find_entry_id id r i e :
  find_service_entry id r = Some i -> live r !! i = Some e -> service_id e = id.
Proof. intros (x & Hx & Hp & _)%find_idx_Some He. simplify_eq. by bool_hyps. Qed.

Lemma live_upd_entry f i r : i < count r -> live (upd_entry f i r) = alter f i (live r).
Proof.
  intros Hi. unfold live, upd_entry. simpl. apply list_eq. intros j.
  destruct (decide (j < count r)).
  - rewrite lookup_take_lt by done. destruct (decide (i = j)) as [->|].
    + by rewrite !list_lookup_alter_eq, lookup_take_lt.
    + by rewrite !list_lookup_alter_ne, lookup_take_lt.
  - rewrite lookup_take_ge by lia. symmetry. rewrite list_lookup_alter_ne by lia.
    apply lookup_take_ge. lia.
Qed.

(** Both kinds of registration, described once. *)
Section register.
Context (id : Z) (f : service_entry -> service_entry).
Hypothesis f_id : forall e, service_id (f e) = id.

Definition register_at (r : registry) : nos_status * registry :=
  match entry_slot id r with
  | None => (NOS_ERR, r)
  | Some (i, r') => (NOS_OK, upd_entry f i r')
  end.

Definition register_post (r : registry) (res : nos_status * registry) : Prop :=
  match res with
  | (NOS_OK, r') =>
      registry_ok r' /\
      (exists old, (svc_lookup id r = Some old \/
                    svc_lookup id r = None /\ slots r !! count r = Some old) /\
                   svc_lookup id r' = Some (f old)) /\
      (forall k, k <> id -> svc_lookup k r' = svc_lookup k r)
  | (st, r') => st = NOS_ERR /\ r' = r /\ svc_lookup id r = None /\ count r = MAX_SERVICES
  end.

Lemma register_existing r i e :
  registry_ok r -> find_service_entry id r = Some i -> live r !! i = Some e ->
  register_post r (NOS_OK, upd_entry f i r).
Proof.
  intros Hr Hf He. pose proof (find_entry_id _ _ _ _ Hf He) as Hid.
  pose proof (live_lookup_lt _ _ _ He) as Hi.
  assert (registry_ok (upd_entry f i r)) as Hr'.
  { destruct Hr as [Hs Hc Hn]. split; simpl; [by rewrite length_alter|done|].
    rewrite live_upd_entry by done. replace (service_id <$> alter f i (live r)) with (service_id <$> live r); [done|].
    apply list_eq. intros j. rewrite !list_lookup_fmap. destruct (decide (i = j)) as [->|].
    - rewrite list_lookup_alter_eq, He. simpl. by rewrite f_id, Hid.
    - by rewrite list_lookup_alter_ne. }
  assert (forall k x, svc_lookup k (upd_entry f i r) = Some x <->
    (k = id /\ x = f e) \/ (k <> id /\ svc_lookup k r = Some x)) as Hlk.
  { intros k x. rewrite !svc_lookup_elem by done. rewrite live_upd_entry by done. split.
    - intros [Hin <-]. apply list_elem_of_lookup in Hin as [j Hj].
      destruct (decide (i = j)) as [<-|Hne].
      + rewrite list_lookup_alter_eq, He in Hj. simplify_eq/=. left. by rewrite f_id.
      + rewrite list_lookup_alter_ne in Hj by done. right. split.
        * intros E. apply Hne. eapply NoDup_lookup; [apply (ro_ids r Hr)|..];
            rewrite list_lookup_fmap; [by rewrite He|rewrite Hj; simpl; congruence].
        * split; [by eapply list_elem_of_lookup_2|done].
    - intros [[-> ->]|[Hk [Hin <-]]].
      + split; [|apply f_id]. apply (list_elem_of_lookup_2 _ i). by rewrite list_lookup_alter_eq, He.
      + split; [|done]. apply list_elem_of_lookup in Hin as [j Hj].
        apply (list_elem_of_lookup_2 _ j). rewrite list_lookup_alter_ne; [done|].
        intros ->. congruence. }
  simpl. split_and!; [done| |].
  - exists e. split; [left|apply Hlk; by left]. by apply svc_lookup_elem; [|split; [eapply list_elem_of_lookup_2|]].
  - intros k Hk. apply option_eq. intros x. rewrite Hlk. naive_solver.
Qed.

Lemma register_new r :
  registry_ok r -> find_service_entry id r = None -> count r < MAX_SERVICES ->
  register_post r (NOS_OK, upd_entry f (count r) (CArr (slots r) (S (count r)))).
Proof.
  intros Hr Hf Hc.
  destruct (lookup_lt_is_Some_2 (slots r) (count r)) as [old Hold]; [destruct Hr; lia|].
  set (r' := upd_entry f (count r) _).
  assert (live r' = live r ++ [f old]) as Hl.
  { unfold live, r', upd_entry. simpl. rewrite (take_S_r _ _ (f old)).
    - f_equal. apply take_alter_ge. lia.
    - by rewrite list_lookup_alter_eq, Hold. }
  assert (forall e, e ∈ live r -> service_id e <> id) as Hnew.
  { intros e Hin E. apply find_idx_None in Hf. rewrite List.Forall_forall in Hf.
    apply list_elem_of_In, Hf in Hin. bool_hyps. done. }
  assert (registry_ok r') as Hr'.
  { destruct Hr as [Hs Hcnt Hn]. split; [simpl; by rewrite length_alter|simpl; lia|].
    rewrite Hl, fmap_app. apply NoDup_app. split_and!; [done| |apply NoDup_singleton].
    intros x Hin Hx. apply list_elem_of_fmap in Hin as (e & -> & Hin).
    apply list_elem_of_singleton in Hx. rewrite f_id in Hx. by apply (Hnew e). }
  simpl. split_and!; [done| |].
  - exists old. split; [right; split; [by apply svc_lookup_None|done]|].
    apply svc_lookup_elem; [done|]. rewrite Hl. split; [set_solver|apply f_id].
  - intros k Hk. apply option_eq. intros x. rewrite !svc_lookup_elem by done.
    rewrite Hl, elem_of_app, list_elem_of_singleton. split; [|tauto].
    intros [[?| ->] E]; [done|]. rewrite f_id in E. congruence.
Qed.

Lemma register_at_post r : registry_ok r -> register_post r (register_at r).
Proof.
  intros Hr. unfold register_at, entry_slot.
  destruct (find_service_entry id r) as [i|] eqn:Hf.
  - pose proof (carr_find_Some _ _ _ Hf) as (_ & e & He & _). by eapply register_existing.
  - destruct (Nat.leb_spec MAX_SERVICES (count r)).
    + simpl. split_and!; [done..|by apply svc_lookup_None|destruct Hr; lia].
    + by apply register_new.
Qed.
End register.

(** Binding a service to a local provider: afterwards the id resolves to
    that provider and thread, every other id resolves as before, ids stay
    unique, and the call fails only for a new id in a full table. *)
Theorem register_provider_bind_spec (id : Z) (p : option comp_ptr) (t : option thread_ptr)
    (r : registry) (Hr : registry_ok r) :
  register_post id (bind_entry id p t) r (nos_service_register_provider_bind id p t r).
Proof. by apply (register_at_post id (bind_entry id p t)). Qed.

(** Registering a remote route behaves the same way, and keeps the local
    provider and thread of the entry it overwrites. *)
Theorem register_remote_spec (id : Z) (n : option string) (u : string)
    (r : registry) (Hr : registry_ok r) :
  register_post id (remote_entry id n u) r (nos_service_register_remote id n u r).
Proof. by apply (register_at_post id (remote_entry id n u)). Qed.

Lemma unregister_ok id r :
  registry_ok r -> registry_ok (nos_service_unregister_provider id r).2.
Proof.
  intros Hr. unfold nos_service_unregister_provider.
  destruct (find_service_entry id r) as [i|] eqn:Hf; [|done].
  pose proof (carr_find_Some _ _ _ Hf) as (Hi & e & He & _).
  pose proof (live_remove_swap i r e (registry_ok_wf r Hr) He) as Hp.
  destruct Hr as [Hs Hc Hn]. split; simpl.
  - by rewrite <-Hs; apply (carr_remove_swap_length i r).
  - lia.
  - change (CArr _ _) with (carr_remove_swap i r).
    rewrite Hp in Hn. simpl in Hn. by apply NoDup_cons in Hn as [_ Hn].
Qed.

(** Unregistering removes exactly the given id (the last entry of the
    table moves into its place) and fails without effect when the id is
    unknown. *)
Theorem unregister_provider_spec (id : Z) (r : registry) (Hr : registry_ok r) :
  let (st, r') := nos_service_unregister_provider id r in
  registry_ok r' /\ svc_lookup id r' = None /\
  (forall k, k <> id -> svc_lookup k r' = svc_lookup k r) /\
  (st = NOS_OK <-> is_Some (svc_lookup id r)) /\ (st <> NOS_OK -> st = NOS_ERR /\ r' = r).
Proof.
  pose proof (unregister_ok id r Hr) as Hr'.
  unfold nos_service_unregister_provider in *.
  destruct (find_service_entry id r) as [i|] eqn:Hf.
  - pose proof (carr_find_Some _ _ _ Hf) as (Hi & e & He & _).
    pose proof (find_entry_id _ _ _ _ Hf He) as Hid. simpl in Hr'.
    pose proof (live_remove_swap i r e (registry_ok_wf r Hr) He) as Hp.
    set (r' := carr_remove_swap i r) in *.
    assert (e ∉ live r' /\ forall x, x ∈ live r' -> service_id x <> id) as [Hout Hne].
    { pose proof (ro_ids r Hr) as Hn. rewrite Hp in Hn. simpl in Hn.
      apply NoDup_cons in Hn as [Hn _]. split.
      - intros Hin. apply Hn. apply list_elem_of_fmap. eauto.
      - intros x Hin E. apply Hn. apply list_elem_of_fmap. exists x. split; [congruence|done]. }
    split_and!; [done| | | |done].
    + destruct (svc_lookup id r') as [x|] eqn:Hx; [|done].
      apply svc_lookup_elem in Hx as [Hin E]; [|done]. by apply Hne in E.
    + intros k Hk. apply option_eq. intros x. rewrite !svc_lookup_elem by done.
      rewrite Hp, elem_of_cons. split; [tauto|]. intros [[->|?] E]; [congruence|done].
    + split; [intros _|done]. exists e. apply svc_lookup_elem; [done|].
      split; [by eapply list_elem_of_lookup_2|done].
  - split_and!; [done|by apply svc_lookup_None|done| |done].
    split; [done|]. intros [x Hx]. apply svc_lookup_None in Hf. congruence.
Qed.

(** *** Concrete inputs *)

Definition demo_registry : registry :=
  (nos_service_register_remote 114 (Some "ProcB") "/tmp/nos_proc_B.sock"
    (nos_service_register_provider_bind 101 (Some 1) (Some 0) registry_static).2).2.

Lemma demo_registry_ok : registry_ok demo_registry.
Proof.
  split; [by vm_compute|vm_compute; lia|].
  change (NoDup [101; 114]%Z). repeat constructor; set_solver.
Qed.

Lemma register_provider_bind_spec_witness :
  register_post 102 (bind_entry 102 (Some 2) (Some 1)) demo_registry
    (nos_service_register_provider_bind 102 (Some 2) (Some 1) demo_registry).
Proof. apply register_provider_bind_spec, demo_registry_ok. Defined.

Lemma register_remote_spec_witness :
  register_post 101 (remote_entry 101 None "/tmp/x") demo_registry
    (nos_service_register_remote 101 None "/tmp/x" demo_registry).
Proof. apply register_remote_spec, demo_registry_ok. Defined.

Lemma unregister_provider_spec_witness :
  svc_lookup 101 (nos_service_unregister_provider 101 demo_registry).2 = None /\
  svc_lookup 114 (nos_service_unregister_provider 101 demo_registry).2 = svc_lookup 114 demo_registry.
Proof.
  pose proof (unregister_provider_spec 101 demo_registry demo_registry_ok) as H.
  destruct (nos_service_unregister_provider 101 demo_registry) as [st r'].
  destruct H as (_ & Hn & Ho & _). split; [exact Hn|apply Ho; done].
Defined.

End Registry.
