(* ===== verification/Node.v ===== *)
(** * The node context: components, timers, threads

    The data that the scheduler (src/core/nos_scheduler.c) and the component
    manager (src/core/nos_node_mgr.c) share: component, timer and thread
    objects live in stores indexed by address, the node context
    ([g_node_ctx]) and the service registry refer to them by address. *)

From stdpp Require Import base list gmap strings.
From S2P Require Import Prelude CArray Ring Mem Buffer Service.
Local Open Scope Z_scope.

Abbreviation comp_ptr := nat.
Abbreviation timer_ptr := nat.
Abbreviation thread_ptr := nat.

(** ** Components (include/nos_component.h) *)

Inductive nos_comp_status :=
  | NOS_COMP_ST_LOADED
  | NOS_COMP_ST_INITED
  | NOS_COMP_ST_ACTIVE
  | NOS_COMP_ST_STOPPED
  | NOS_COMP_ST_ERROR.

#[export] Instance nos_comp_status_eq_dec : EqDecision nos_comp_status.
Proof. solve_decision. Defined.

(** The callbacks a component's library exports, [None] for NULL.  Their code
    is identified by a number; what running it does is a parameter of the
    operations that call it. *)
Record nos_component := Comp {
  c_id : Z;
  c_name : string;
  c_status : nos_comp_status;
  c_init : option nat;
  c_start : option nat;
  c_stop : option nat;
  c_on_msg : option nat;
}.

Definition set_status (s : nos_comp_status) (c : nos_component) : nos_component :=
  Comp (c_id c) (c_name c) s (c_init c) (c_start c) (c_stop c) (c_on_msg c).

(** ** Timers *)

Record nos_timer := Timer {
  expire_at_ms : Z;
  interval_ms : Z;
  is_periodic : bool;
  tm_callback : option nat;
  tm_free_arg : option nat;
  tm_arg : nat;
  is_running : bool;
  tm_owner : option comp_ptr;
  tm_owner_thread : option thread_ptr;
}.

Definition tm_stopped (t : nos_timer) : nos_timer :=
  Timer (expire_at_ms t) (interval_ms t) (is_periodic t) (tm_callback t) (tm_free_arg t)
        (tm_arg t) false (tm_owner t) (tm_owner_thread t).

(** [is_running = 0; owner = NULL; owner_thread = NULL] *)
Definition tm_detached (t : nos_timer) : nos_timer :=
  Timer (expire_at_ms t) (interval_ms t) (is_periodic t) (tm_callback t) (tm_free_arg t)
        (tm_arg t) false None None.

Definition tm_set_expire (e : Z) (t : nos_timer) : nos_timer :=
  Timer e (interval_ms t) (is_periodic t) (tm_callback t) (tm_free_arg t)
        (tm_arg t) (is_running t) (tm_owner t) (tm_owner_thread t).

Definition tm_set_running (b : bool) (t : nos_timer) : nos_timer :=
  Timer (expire_at_ms t) (interval_ms t) (is_periodic t) (tm_callback t) (tm_free_arg t)
        (tm_arg t) b (tm_owner t) (tm_owner_thread t).

Definition tm_started (interval expire : Z) (periodic : bool) (owner : comp_ptr)
    (thread : thread_ptr) (t : nos_timer) : nos_timer :=
  Timer expire interval periodic (tm_callback t) (tm_free_arg t) (tm_arg t) true
        (Some owner) (Some thread).

(** ** Threads (include/nos_scheduler.h) *)

Record nos_fd_entry := FdEntry {
  fe_fd : Z;
  fe_callback : option nat;
  fe_arg : nat;
}.

(** [t_epoll] is the interest set of the thread's epoll instance: each
    registered descriptor with the slot of [fd_entries] its [data.ptr] points
    to.  [t_notify] is the counter of the eventfd. *)
Record nos_thread := Thread {
  t_id : Z;
  t_name : string;
  stop_requested : bool;
  is_sleeping : bool;
  msg_queue : ring buf_ref;
  components : carr (option comp_ptr);
  fd_entries : carr nos_fd_entry;
  t_epoll : list (Z * nat);
  t_notify : Z;
  timer_heap : carr timer_ptr;
}.

Definition MAX_QUEUE_SIZE : nat := 1024.
Definition MAX_COMP_PER_THREAD : nat := 32.
Definition MAX_FDS : nat := 32.
Definition TIMER_CAPACITY : nat := 128.
#[global] Arguments MAX_QUEUE_SIZE : simpl never.
#[global] Arguments MAX_COMP_PER_THREAD : simpl never.
#[global] Arguments MAX_FDS : simpl never.
#[global] Arguments TIMER_CAPACITY : simpl never.

Definition set_heap (h : carr timer_ptr) (t : nos_thread) : nos_thread :=
  Thread (t_id t) (t_name t) (stop_requested t) (is_sleeping t) (msg_queue t) (components t)
         (fd_entries t) (t_epoll t) (t_notify t) h.
Definition set_queue (q : ring buf_ref) (t : nos_thread) : nos_thread :=
  Thread (t_id t) (t_name t) (stop_requested t) (is_sleeping t) q (components t)
         (fd_entries t) (t_epoll t) (t_notify t) (timer_heap t).
Definition set_components (c : carr (option comp_ptr)) (t : nos_thread) : nos_thread :=
  Thread (t_id t) (t_name t) (stop_requested t) (is_sleeping t) (msg_queue t) c
         (fd_entries t) (t_epoll t) (t_notify t) (timer_heap t).
Definition set_fds (f : carr nos_fd_entry) (e : list (Z * nat)) (t : nos_thread) : nos_thread :=
  Thread (t_id t) (t_name t) (stop_requested t) (is_sleeping t) (msg_queue t) (components t)
         f e (t_notify t) (timer_heap t).
Definition set_stop (b : bool) (t : nos_thread) : nos_thread :=
  Thread (t_id t) (t_name t) b (is_sleeping t) (msg_queue t) (components t)
         (fd_entries t) (t_epoll t) (t_notify t) (timer_heap t).
Definition set_sleeping (b : bool) (t : nos_thread) : nos_thread :=
  Thread (t_id t) (t_name t) (stop_requested t) b (msg_queue t) (components t)
         (fd_entries t) (t_epoll t) (t_notify t) (timer_heap t).
Definition set_notify (n : Z) (t : nos_thread) : nos_thread :=
  Thread (t_id t) (t_name t) (stop_requested t) (is_sleeping t) (msg_queue t) (components t)
         (fd_entries t) (t_epoll t) n (timer_heap t).

(** [write(notify_fd, &one, 8)]: adds 1 to the eventfd counter, which
    saturates at 2^64 - 2 (the failing write is ignored by the callers). *)
Definition notify (t : nos_thread) : nos_thread :=
  set_notify (if t_notify t + 1 <=? 2 ^ 64 - 2 then t_notify t + 1 else t_notify t) t.

(** ** Manifest (include/nos_manifest.h) *)

Record nos_service_def := SvcDef {
  sd_service_name : string;
  sd_service_id : Z;
  sd_node_name : string;
  sd_provider_comp_id : Z;
  sd_remote_uds_path : option string;
}.

Record nos_thread_def := ThreadDef {
  td_name : option string;
  td_comp_ids : list Z;
  td_comp_names : list string;
  td_comp_models : list string;
}.

Record nos_node_def := NodeDef {
  nd_name : string;
  nd_uds_path : string;
  nd_buffer_pools : list (Z * Z);
  nd_threads : list nos_thread_def;
  nd_services : list nos_service_def;   (* [services] with [service_count] *)
  nd_busy_poll_cycles : Z;
}.

(** ** Node context (include/nos_node_priv.h) *)

Definition MAX_WORKERS : nat := 8.
Definition MAX_COMPONENTS_PER_NODE : nat := 64.

Record loaded_comp_info := Loaded {
  li_comp : option comp_ptr;
  li_handle : option nat;
  li_lib_name : string;
  li_owner_thread : option thread_ptr;
}.

Record node := Node {
  n_comps : gmap nat nos_component;
  n_timers : gmap nat nos_timer;
  n_threads : gmap nat nos_thread;
  n_def : option nos_node_def;
  n_loaded : carr loaded_comp_info;
  n_mgmt : option thread_ptr;
  n_workers : list thread_ptr;       (* the array [worker_threads], [] for NULL *)
  n_worker_count : nat;
  n_registry : carr Registry.service_entry;
  n_pool : pool;
}.

Definition upd_comps (f : gmap nat nos_component -> gmap nat nos_component) (n : node) : node :=
  Node (f (n_comps n)) (n_timers n) (n_threads n) (n_def n) (n_loaded n) (n_mgmt n) (n_workers n)
       (n_worker_count n) (n_registry n) (n_pool n).
Definition upd_timers (f : gmap nat nos_timer -> gmap nat nos_timer) (n : node) : node :=
  Node (n_comps n) (f (n_timers n)) (n_threads n) (n_def n) (n_loaded n) (n_mgmt n) (n_workers n)
       (n_worker_count n) (n_registry n) (n_pool n).
Definition upd_threads (f : gmap nat nos_thread -> gmap nat nos_thread) (n : node) : node :=
  Node (n_comps n) (n_timers n) (f (n_threads n)) (n_def n) (n_loaded n) (n_mgmt n) (n_workers n)
       (n_worker_count n) (n_registry n) (n_pool n).
Definition upd_loaded (f : carr loaded_comp_info -> carr loaded_comp_info) (n : node) : node :=
  Node (n_comps n) (n_timers n) (n_threads n) (n_def n) (f (n_loaded n)) (n_mgmt n) (n_workers n)
       (n_worker_count n) (n_registry n) (n_pool n).
Definition upd_registry (f : carr Registry.service_entry -> carr Registry.service_entry)
    (n : node) : node :=
  Node (n_comps n) (n_timers n) (n_threads n) (n_def n) (n_loaded n) (n_mgmt n) (n_workers n)
       (n_worker_count n) (f (n_registry n)) (n_pool n).
Definition upd_pool (f : pool -> pool) (n : node) : node :=
  Node (n_comps n) (n_timers n) (n_threads n) (n_def n) (n_loaded n) (n_mgmt n) (n_workers n)
       (n_worker_count n) (n_registry n) (f (n_pool n)).
Definition set_workers (ws : list thread_ptr) (c : nat) (n : node) : node :=
  Node (n_comps n) (n_timers n) (n_threads n) (n_def n) (n_loaded n) (n_mgmt n) ws
       c (n_registry n) (n_pool n).
Definition set_mgmt (m : option thread_ptr) (n : node) : node :=
  Node (n_comps n) (n_timers n) (n_threads n) (n_def n) (n_loaded n) m (n_workers n)
       (n_worker_count n) (n_registry n) (n_pool n).

Definition upd_thread (t : thread_ptr) (f : nos_thread -> nos_thread) (n : node) : node :=
  upd_threads (alter f t) n.
Definition upd_timer (t : timer_ptr) (f : nos_timer -> nos_timer) (n : node) : node :=
  upd_timers (alter f t) n.
Definition upd_comp (c : comp_ptr) (f : nos_component -> nos_component) (n : node) : node :=
  upd_comps (alter f c) n.

Definition comp_active (n : node) (c : comp_ptr) : bool :=
  match n_comps n !! c with
  | Some c => bool_decide (c_status c = NOS_COMP_ST_ACTIVE)
  | None => false
  end.

(** ** Lookup lemmas shared by the modules that work on a node *)

Lemma upd_thread_eq t f n : n_threads (upd_thread t f n) !! t = f <$> n_threads n !! t.
Proof. apply lookup_alter_eq. Qed.

Lemma upd_thread_ne t u f n : t <> u -> n_threads (upd_thread t f n) !! u = n_threads n !! u.
Proof. apply lookup_alter_ne. Qed.

Lemma upd_timer_eq t f n : n_timers (upd_timer t f n) !! t = f <$> n_timers n !! t.
Proof. apply lookup_alter_eq. Qed.

Lemma upd_timer_ne t u f n : t <> u -> n_timers (upd_timer t f n) !! u = n_timers n !! u.
Proof. apply lookup_alter_ne. Qed.

Lemma upd_comp_eq t f n : n_comps (upd_comp t f n) !! t = f <$> n_comps n !! t.
Proof. apply lookup_alter_eq. Qed.

Lemma upd_comp_ne t u f n : t <> u -> n_comps (upd_comp t f n) !! u = n_comps n !! u.
Proof. apply lookup_alter_ne. Qed.

#[export] Hint Rewrite upd_thread_eq upd_timer_eq upd_comp_eq : node.
#[export] Hint Rewrite upd_thread_ne upd_timer_ne upd_comp_ne using done : node.

(** ** Pointers *)

(** A pointer that is followed without a test. *)
Definition deref {A} (o : option A) : outcome A := match o with Some a => Done a | None => Undef end.

Lemma bind_Done {A B} (o : outcome A) (f : A -> outcome B) b :
  o ≫= f = Done b -> exists a, o = Done a /\ f a = Done b.
Proof. destruct o as [a| |]; [|done..]. by exists a. Qed.

Lemma deref_Done {A} (o : option A) a : deref o = Done a -> o = Some a.
Proof. destruct o; [|done]. by intros [= ->]. Qed.

(** Take a computation that succeeded apart. *)
Ltac inv_done :=
  repeat match goal with
  | H : _ ≫= _ = Done _ |- _ => apply bind_Done in H as (? & ? & H)
  | H : deref _ = Done _ |- _ => apply deref_Done in H
  | H : Done _ = Done _ |- _ => injection H as H
  | H : Undef = Done _ |- _ => discriminate H
  | H : Fuel = Done _ |- _ => discriminate H
  | H : context [let '(_, _) := ?p in _] |- _ => destruct p
  | H : (_, _) = (_, _) |- _ => injection H as H
  end; subst.
