(* ===== verification/LineEdit.v ===== *)
(** * The line editor of the command line (src/core/nos_cli.c)

    On a terminal the command line reads character by character into a
    256-byte buffer: editing, recall of earlier lines, completion of command
    words.  The buffer is modelled as its memory, so bytes of earlier lines
    and missing terminators show.  The second half is the editor as its user
    sees it, a function on the text of the line; the code implements it as
    long as the line fits. *)

From Stdlib Require Import Ascii.
From stdpp Require Import base list sets strings.
From S2P Require Import Prelude CString Node.

Abbreviation chars_of := String.list_ascii_of_string.
Abbreviation text_of := String.string_of_list_ascii.

(** ** History *)

Definition MAX_HISTORY : nat := 3.
Definition LINE_SIZE : nat := 256.

Record history := Hist {
  h_lines : list chars;        (* g_history *)
  h_count : nat;               (* g_history_count *)
}.

Definition history_static : history := Hist (replicate MAX_HISTORY []) 0.

(** [for (i = MAX_HISTORY - 1; i > 0; i--) strcpy(h[i], h[i - 1])] *)
Definition shift_lines (l : list chars) : list chars :=
  fold_left (fun l i => <[i := default [] (l !! (i - 1))]> l) (rev (seq 1 (MAX_HISTORY - 1))) l.

Definition history_add (cmd : chars) (h : history) : history :=
  if length cmd =? 0 then h
  else if (0 <? h_count h) && bool_decide (h_lines h !! 0 = Some cmd) then h
  else Hist (<[0 := take (LINE_SIZE - 1) cmd]> (shift_lines (h_lines h)))
            (if h_count h <? MAX_HISTORY then S (h_count h) else h_count h).

(** ** Completion *)

Record editor := Editor {
  ed_buf : chars;
  ed_pos : nat;
  ed_hidx : Z;
  ed_out : list string;
}.

Definition set_line (buf : chars) (pos : nat) (e : editor) : editor := Editor buf pos (ed_hidx e) (ed_out e).
Definition echo (s : string) (e : editor) : editor := Editor (ed_buf e) (ed_pos e) (ed_hidx e) (ed_out e ++ [s]).

(** Control characters of the terminal. *)
Definition LF : string := String "010" "".
Definition CR : string := String "013" "".
Definition BS : string := String "008" "".
Definition CLEAR : string := String "027" "[K".

Section editor.
(** The names of [g_cli_cmds] and of the loaded components; [None] when an
    entry of the component table refers to freed memory. *)
Context (cmds : list string) (comps : option (list string)) (h : history) (prompt : string).

(** [strncmp(buf, p, strlen(p)) == 0] *)
Definition starts (p : string) (line : chars) : bool := strncmp0 (String.length p) line (chars_of p).

(** The words with [strncmp(word, pat, n) == 0]. *)
Definition matching (n : nat) (pat : chars) (l : list string) : list string :=
  List.filter (fun w => strncmp0 n (chars_of w) pat) l.

(** The words that may follow, by the words before the last space. *)
Definition argument_words (line : chars) (last_space : nat) : option (list string) :=
  if starts "log " line then
    if starts "log level " line then Some ["DEBUG"; "INFO"; "WARN"; "ERROR"]
    else if last_space =? 3 then Some ["stats"; "level"; "spam"]
    else Some []
  else if starts "perf " line then Some ["start"; "remote"]
  else if starts "show stats " line then Some ["ipc"; "log"; "buffer"; "scheduler"]
  else if starts "show " line then Some ["components"; "services"; "db"; "memory"; "ipc"; "stats"]
  else if starts "load " line || starts "unload " line || starts "reload " line then comps
  else Some [].

(** [match_start - buf] and the suggestions; there are never more than the
    64 [suggestions] has room for. *)
Definition suggest (line : chars) (pos : nat) : outcome (nat * list string) :=
  match matching pos line cmds, strrchr " " line with
  | [], Some sp =>
      match argument_words line sp with
      | Some words => Done (S sp, matching (pos - S sp) (drop (S sp) line) words)
      | None => Undef
      end
  | top, _ => Done (0, top)
  end.

(** What is done with the suggestions [sugs] for the word at [start] of
    [line], the text of [buf]. *)
Definition use_suggestions (start : nat) (sugs : list string) (line : chars) (e : editor) : outcome editor :=
  match sugs with
  | [] => Done e
  | [w] =>
      if String.length w <? ed_pos e - start then Undef
      else
        let rest := drop (ed_pos e - start) (chars_of w) in
        match strcpy (ed_pos e) rest (ed_buf e) with
        | None => Undef
        | Some buf =>
            match cstr buf with
            | None => Undef
            | Some line => Done (echo (text_of rest) (set_line buf (length line) e))
            end
        end
  | _ => Done (echo (LF +:+ prompt +:+ text_of line)
           (foldl (fun e w => echo (w +:+ "  ") e) (echo LF e) sugs))
  end.

Definition handle_tab_completion (e : editor) : outcome editor :=
  let e := set_line (<[ed_pos e := NUL]> (ed_buf e)) (ed_pos e) e in
  match cstr (ed_buf e) with
  | None => Undef
  | Some line => '(start, sugs) ← suggest line (ed_pos e); use_suggestions start sugs line e
  end.

(** ** Reading a line *)

(** The key Up. *)
Definition recall (e : editor) : outcome editor :=
  if (0 <? h_count h) && (ed_hidx e <? Z.of_nat (h_count h) - 1)%Z then
    let i := (ed_hidx e + 1)%Z in
    let line := default [] (h_lines h !! Z.to_nat i) in
    match strcpy 0 line (ed_buf e) with
    | None => Undef
    | Some buf => Done (echo (CR +:+ prompt +:+ CLEAR +:+ text_of line) (Editor buf (length line) i (ed_out e)))
    end
  else Done e.

Definition backspace (e : editor) : editor :=
  if 0 <? ed_pos e then echo (BS +:+ " " +:+ BS) (set_line (ed_buf e) (ed_pos e - 1) e) else e.

Definition insert_char (c : ascii) (e : editor) : editor :=
  echo (String c "") (set_line (<[ed_pos e := c]> (ed_buf e)) (S (ed_pos e)) e).

Definition is_newline (c : ascii) : bool := bool_decide (c = "010"%char) || bool_decide (c = "013"%char).
Definition is_escape (c : ascii) : bool := bool_decide (c = "027"%char).
Definition is_rubout (c : ascii) : bool := bool_decide (c = "127"%char) || bool_decide (c = "008"%char).
Definition is_tab (c : ascii) : bool := bool_decide (c = "009"%char).
Definition is_up (a b : ascii) : bool := bool_decide (a = "["%char) && bool_decide (b = "A"%char).

(** The loop: what [pos] is at its end, the input that is left and the
    editor's state.  The end of the input stands for a failing [read]. *)
Fixpoint edit_loop (input : chars) (e : editor) : outcome (Z * chars * editor) :=
  if ed_pos e <? LINE_SIZE - 1 then
    match input with
    | [] => Done (-1, [], e)%Z
    | c :: rest =>
        if is_newline c then
          Done (Z.of_nat (ed_pos e), rest, echo LF (set_line (<[ed_pos e := NUL]> (ed_buf e)) (ed_pos e) e))
        else if is_escape c then
          match rest with
          | a :: b :: rest =>
              if is_up a b then e ← recall e; edit_loop rest e else edit_loop rest e
          | _ => Done (Z.of_nat (ed_pos e), [], e)
          end
        else if is_rubout c then edit_loop rest (backspace e)
        else if is_tab c then e ← handle_tab_completion e; edit_loop rest e
        else edit_loop rest (insert_char c e)
    end
  else Done (Z.of_nat (ed_pos e), input, e).

Definition advanced_get_line (buf input : chars) : outcome (Z * chars * editor) :=
  edit_loop input (Editor buf 0 (-1) [prompt]).

(** ** The editor as its user sees it *)

(** The line after the key Tab: the one word that can be meant is completed,
    otherwise nothing changes. *)
Definition complete (line : chars) : option chars :=
  match filter (fun w => line `prefix_of` chars_of w) cmds, strrchr " " line with
  | [w], _ => Some (chars_of w)
  | [], Some sp =>
      words ← argument_words line sp;
      Some (match filter (fun w => drop (S sp) line `prefix_of` chars_of w) words with
            | [w] => take (S sp) line ++ chars_of w
            | _ => line
            end)
  | _, _ => Some line
  end.

(** How reading a line ends: Enter, the end of the input, a full line, the
    end of the input inside an escape sequence, or a completion that does
    not fit. *)
Inductive typed :=
  | T_line (l rest : chars)
  | T_eof
  | T_full (l rest : chars)
  | T_cut (l : chars)
  | T_overflow.

Fixpoint type_line (input line : chars) (hidx : Z) : typed :=
  if length line <? LINE_SIZE - 1 then
    match input with
    | [] => T_eof
    | c :: rest =>
        if is_newline c then T_line line rest
        else if is_escape c then
          match rest with
          | a :: b :: rest =>
              if is_up a b && (hidx <? Z.of_nat (h_count h) - 1)%Z then
                type_line rest (default [] (h_lines h !! Z.to_nat (hidx + 1))) (hidx + 1)
              else type_line rest line hidx
          | _ => T_cut line
          end
        else if is_rubout c then type_line rest (take (length line - 1) line) hidx
        else if is_tab c then
          match complete line with
          | Some line' => if length line' <? LINE_SIZE then type_line rest line' hidx else T_overflow
          | None => T_overflow
          end
        else type_line rest (line ++ [c]) hidx
    end
  else T_full line input.
End editor.

(** ** Invariant *)

(** The history holds strings that fit their rows. *)
Record history_ok (h : history) : Prop := {
  ho_len : length (h_lines h) = MAX_HISTORY;
  ho_count : h_count h <= MAX_HISTORY;
  ho_lines l : l ∈ h_lines h -> NUL ∉ l /\ length l < LINE_SIZE;
}.

(** The editor's memory holds the text [line] before the cursor. *)
Record shows (e : editor) (line : chars) : Prop := {
  sh_size : length (ed_buf e) = LINE_SIZE;
  sh_pos : ed_pos e = length line;
  sh_fits : length line < LINE_SIZE;
  sh_text : take (length line) (ed_buf e) = line;
  sh_nul : NUL ∉ line;
}.

Lemma list_filter_bool {A} (f : A -> bool) (P : A -> Prop) `{!forall x, Decision (P x)} (l : list A) :
  (forall x, f x = bool_decide (P x)) -> List.filter f l = filter P l.
Proof.
  intros Hf. induction l as [|x l IH]; [done|]. cbn [List.filter]. rewrite Hf, IH.
  case_bool_decide; [by rewrite filter_cons_True|by rewrite filter_cons_False].
Qed.

(** Words that are C strings. *)
Definition words_ok (l : list string) : Prop := Forall (fun w => NUL ∉ chars_of w) l.

Section proofs.
Context (cmds : list string) (comps : option (list string)) (h : history) (prompt : string).
Context (Hcmds : words_ok cmds) (Hcomps : forall l, comps = Some l -> words_ok l) (Hh : history_ok h).

Lemma length_chars_of w : String.length w = length (chars_of w).
Proof. induction w; cbn; congruence. Qed.

Lemma matching_prefix pat l :
  matching (length pat) pat l = filter (fun w => pat `prefix_of` chars_of w) l.
Proof. apply list_filter_bool. intros w. apply strncmp0_prefix. Qed.

Lemma argument_words_ok line sp l : argument_words comps line sp = Some l -> words_ok l.
Proof.
  assert (forall k, forallb (fun w => bool_decide (NUL ∉ chars_of w)) k = true -> words_ok k) as Hk.
  { intros k H. apply Forall_forall. intros w Hw. rewrite forallb_forall in H.
    apply list_elem_of_In, H in Hw. by apply bool_decide_eq_true in Hw. }
  unfold argument_words. repeat case_match; try (by apply Hcomps); intros [= <-]; by apply Hk.
Qed.

(** The editor's text is terminated. *)
Definition terminated (e : editor) (line : chars) : Prop := shows e line /\ cstr (ed_buf e) = Some line.

Lemma terminate_ok e line :
  shows e line -> terminated (set_line (<[ed_pos e := NUL]> (ed_buf e)) (ed_pos e) e) line.
Proof.
  intros [Hs Hp Hf Ht Hn].
  assert (<[ed_pos e := NUL]> (ed_buf e) = line ++ NUL :: drop (S (length line)) (ed_buf e)) as E.
  { rewrite insert_take_drop, Hp by lia. by rewrite Ht. }
  split; [|cbn; rewrite E; by apply cstr_nul].
  split; cbn; [by rewrite length_insert|done..| |done]. by rewrite E, take_app_length.
Qed.

(** Completing the word [w] after [before]. *)
Lemma complete_word e before tok w :
  shows e (before ++ tok) -> NUL ∉ chars_of w -> tok `prefix_of` chars_of w ->
  let rest := drop (length tok) (chars_of w) in
  if length (before ++ chars_of w) <? LINE_SIZE then
    exists buf, strcpy (ed_pos e) rest (ed_buf e) = Some buf /\ cstr buf = Some (before ++ chars_of w) /\
      forall hi out, shows (Editor buf (length (before ++ chars_of w)) hi out) (before ++ chars_of w)
  else strcpy (ed_pos e) rest (ed_buf e) = None.
Proof.
  intros [Hs Hp Hf Ht Hn] Hw [r Hr]. cbv zeta.
  assert (drop (length tok) (chars_of w) = r) as -> by (by rewrite Hr, drop_app_length).
  assert (before ++ chars_of w = (before ++ tok) ++ r) as -> by (by rewrite Hr, app_assoc).
  set (line := before ++ tok) in *.
  assert (NUL ∉ r) as Hnr by (rewrite Hr in Hw; intros ?; apply Hw, elem_of_app; by right).
  rewrite length_app. destruct (Nat.ltb_spec (length line + length r) LINE_SIZE) as [Hl|Hl].
  - assert (strcpy (ed_pos e) r (ed_buf e) = Some (overwrite (ed_pos e) (r ++ [NUL]) (ed_buf e))) as E.
    { unfold strcpy. rewrite Hp, Hs. by destruct (Nat.ltb_spec (length line + length r) LINE_SIZE); [|lia]. }
    rewrite E. eexists. split; [done|]. rewrite Hp in E |- *.
    destruct (strcpy_Some _ _ _ _ E) as (H1 & H2 & _ & H4); [by rewrite Ht|done|]. rewrite Ht in H2, H4.
    split; [done|]. intros hi out. split; cbn; rewrite ?length_app; [congruence|done|lia|done|].
    rewrite elem_of_app. tauto.
  - unfold strcpy. rewrite Hp, Hs. by destruct (Nat.ltb_spec (length line + length r) LINE_SIZE); [lia|].
Qed.

Lemma shows_echo s e line : shows e line -> shows (echo s e) line.
Proof. by intros []; split. Qed.

Lemma echo_all_shows l e line :
  shows e line -> let e' := foldl (fun e w => echo (w +:+ "  ") e) e l in shows e' line /\ ed_hidx e' = ed_hidx e.
Proof. revert e. induction l as [|w l IH]; intros e He; cbn; [done|]. by apply (IH (echo _ e)), shows_echo. Qed.

(** The effect of the suggestions for the word [tok]. *)
Lemma use_suggestions_ok e before tok words :
  shows e (before ++ tok) -> words_ok words ->
  let sugs := filter (fun w => tok `prefix_of` chars_of w) words in
  let line' := match sugs with [w] => before ++ chars_of w | _ => before ++ tok end in
  if length line' <? LINE_SIZE then
    exists e', use_suggestions prompt (length before) sugs (before ++ tok) e = Done e' /\
      shows e' line' /\ ed_hidx e' = ed_hidx e
  else use_suggestions prompt (length before) sugs (before ++ tok) e = Undef.
Proof.
  intros He Hw. cbv zeta. pose proof (sh_fits _ _ He) as Hf. apply Nat.ltb_lt in Hf.
  destruct (filter _ words) as [|w [|w2 l]] eqn:Hl.
  - rewrite Hf. by exists e.
  - assert (w ∈ filter (fun w => tok `prefix_of` chars_of w) words) as Hin by (rewrite Hl; by left).
    apply list_elem_of_filter in Hin as [Hpre Hin].
    assert (NUL ∉ chars_of w) as Hnw by (by eapply Forall_forall in Hw).
    pose proof (complete_word e before tok w He Hnw Hpre) as Hc. cbv zeta in Hc.
    unfold use_suggestions. rewrite length_chars_of.
    assert (ed_pos e - length before = length tok) as -> by (rewrite (sh_pos _ _ He), length_app; lia).
    apply prefix_length in Hpre. destruct (Nat.ltb_spec (length (chars_of w)) (length tok)); [lia|].
    destruct (length (before ++ chars_of w) <? LINE_SIZE); [|by rewrite Hc].
    destruct Hc as (buf & -> & -> & Hs). eexists. split; [done|]. split; [apply Hs|done].
  - rewrite Hf. unfold use_suggestions. eexists. split; [done|].
    destruct (echo_all_shows (w :: w2 :: l) (echo LF e) (before ++ tok) (shows_echo _ _ _ He)) as [He' Hi].
    split; [by apply shows_echo|exact Hi].
Qed.

Lemma tab_ok e line :
  shows e line ->
  match complete cmds comps line with
  | Some line' =>
      if length line' <? LINE_SIZE then
        exists e', handle_tab_completion cmds comps prompt e = Done e' /\ shows e' line' /\ ed_hidx e' = ed_hidx e
      else handle_tab_completion cmds comps prompt e = Undef
  | None => handle_tab_completion cmds comps prompt e = Undef
  end.
Proof.
  intros [He Hc]%terminate_ok. unfold handle_tab_completion. set (e1 := set_line _ _ e) in *.
  change (ed_hidx e) with (ed_hidx e1). rewrite Hc, (sh_pos _ _ He).
  unfold suggest, complete. rewrite matching_prefix.
  pose proof (use_suggestions_ok e1 [] line cmds He Hcmds) as Htop. cbv zeta in Htop.
  destruct (filter _ cmds) as [|w [|w2 l]]; [|exact Htop|destruct (strrchr " " line); exact Htop].
  destruct (strrchr " " line) as [sp|] eqn:Hsp; [|exact Htop].
  apply strrchr_Some in Hsp as (Hlt & _ & _). cbn [mbind option_bind].
  destruct (argument_words comps line sp) as [words|] eqn:Hw; [|done].
  pose proof (use_suggestions_ok e1 (take (S sp) line) (drop (S sp) line) words) as Hu.
  rewrite take_drop in Hu. specialize (Hu He (argument_words_ok _ _ _ Hw)). cbv zeta in Hu.
  rewrite length_take, Nat.min_l in Hu by lia. cbn [mbind outcome_bind].
  replace (length line - S sp) with (length (drop (S sp) line)) by (by rewrite length_drop).
  by rewrite matching_prefix.
Qed.

Lemma insert_shows e line c :
  shows e line -> length line < LINE_SIZE - 1 -> c <> NUL -> shows (insert_char c e) (line ++ [c]).
Proof.
  intros [Hs Hp Hf Ht Hn] Hl Hc. unfold LINE_SIZE in *. unfold insert_char.
  split; cbn [ed_buf ed_pos set_line echo]; rewrite ?length_insert, ?length_app; [done|cbn [length]; lia|cbn [length]; unfold LINE_SIZE; lia| |].
  - cbn [length]. rewrite Hp, Nat.add_comm. cbn [Nat.add]. rewrite (take_insert_last _ (length line)) by lia. by rewrite Ht.
  - rewrite elem_of_app, list_elem_of_singleton. intros [?|?]; congruence.
Qed.

Lemma backspace_shows e line : shows e line -> shows (backspace e) (take (length line - 1) line).
Proof.
  intros [Hs Hp Hf Ht Hn]. unfold backspace. rewrite Hp.
  assert (NUL ∉ take (length line - 1) line) as Hn'.
  { intros Hin. apply Hn. rewrite <-(take_drop (length line - 1) line). apply elem_of_app. by left. }
  destruct (Nat.ltb_spec 0 (length line)); split; cbn; rewrite ?length_take; try done; try lia.
  - trans (take (length line - 1) (take (length line) (ed_buf e))); [by rewrite take_take, Nat.min_l by lia|by rewrite Ht].
  - destruct line; [done|cbn in *; lia].
Qed.

(** Recalling the line with index [hidx + 1]. *)
Lemma recall_shows e line :
  shows e line -> (-1 <= ed_hidx e)%Z ->
  exists e', recall h prompt e = Done e' /\
    if (ed_hidx e <? Z.of_nat (h_count h) - 1)%Z then
      shows e' (default [] (h_lines h !! Z.to_nat (ed_hidx e + 1))) /\ ed_hidx e' = (ed_hidx e + 1)%Z
    else e' = e.
Proof.
  intros [Hs Hp Hf Ht Hn] Hi. unfold recall.
  destruct (Z.ltb_spec (ed_hidx e) (Z.of_nat (h_count h) - 1)) as [Hlt|]; [|rewrite andb_false_r; by exists e].
  destruct (Nat.ltb_spec 0 (h_count h)); [|lia]. cbn [andb]. set (line' := default [] _).
  assert (NUL ∉ line' /\ length line' < LINE_SIZE) as [Hn' Hf'].
  { unfold line'. destruct (h_lines h !! _) as [l|] eqn:E; cbn; [|split; [apply not_elem_of_nil|unfold LINE_SIZE; lia]].
    by eapply ho_lines, list_elem_of_lookup_2. }
  assert (strcpy 0 line' (ed_buf e) = Some (overwrite 0 (line' ++ [NUL]) (ed_buf e))) as E.
  { unfold strcpy. rewrite Hs. by destruct (Nat.ltb_spec (0 + length line') LINE_SIZE); [|lia]. }
  rewrite E. eexists. split; [done|]. split; [|done].
  destruct (strcpy_Some _ _ _ _ E) as (H1 & _ & _ & H4); [apply not_elem_of_nil|done|].
  split; cbn; [congruence|done..].
Qed.

(** What the code does for each way of ending a line. *)
Definition editor_result (t : typed) (r : outcome (Z * chars * editor)) : Prop :=
  match t with
  | T_line l rest => exists e, r = Done (Z.of_nat (length l), rest, e) /\ shows e l /\ cstr (ed_buf e) = Some l
  | T_eof => exists e, r = Done (-1, [], e)%Z /\ length (ed_buf e) = LINE_SIZE
  | T_full l rest => exists e, r = Done (255, rest, e)%Z /\ shows e l /\ length l = 255
  | T_cut l => exists e, r = Done (Z.of_nat (length l), [], e) /\ shows e l
  | T_overflow => r = Undef
  end.

Lemma edit_loop_ok n input e line :
  length input <= n -> NUL ∉ input -> shows e line -> (-1 <= ed_hidx e)%Z ->
  editor_result (type_line cmds comps h input line (ed_hidx e)) (edit_loop cmds comps h prompt input e).
Proof.
  revert input e line. induction n as [|n IH]; intros input e line Hlen Hin He Hi.
  all: destruct input as [|c rest]; cbn [edit_loop type_line length] in *; try lia.
  all: pose proof (sh_pos _ _ He) as Hp; pose proof (sh_fits _ _ He) as Hf; rewrite Hp.
  all: destruct (Nat.ltb_spec (length line) (LINE_SIZE - 1)) as [Hl|Hl];
    [|exists e; unfold LINE_SIZE in *; split_and!; [do 3 f_equal; lia|done|lia]].
  1,2: exists e; split; [done|apply He].
  apply not_elem_of_cons in Hin as [Hc Hrest].
  destruct (is_newline c).
  { eexists. split; [done|]. rewrite <-Hp. apply terminate_ok in He as [Hs Ht].
    split; [by apply shows_echo|exact Ht]. }
  destruct (is_escape c).
  { destruct rest as [|a [|b rest]]; [by exists e..|].
    assert (NUL ∉ rest) as Hr by (intros ?; apply Hrest; by do 2 right).
    cbn [length] in Hlen. destruct (is_up a b); cbn [andb]; [|apply IH; auto; lia].
    destruct (recall_shows e line He Hi) as (e' & -> & H'). cbn [mbind outcome_bind].
    destruct (ed_hidx e <? Z.of_nat (h_count h) - 1)%Z; [|subst e'; apply IH; auto; lia].
    destruct H' as [He' Hi']. rewrite <-Hi' in He' |- *. apply IH; auto; lia. }
  destruct (is_rubout c).
  { assert (ed_hidx (backspace e) = ed_hidx e) as Hb by (unfold backspace; by destruct (0 <? ed_pos e)).
    rewrite <-Hb in Hi |- *. apply IH; [lia|done|by apply backspace_shows|done]. }
  destruct (is_tab c).
  { pose proof (tab_ok e line He) as Ht. destruct (complete cmds comps line) as [line'|]; [|by rewrite Ht].
    destruct (length line' <? LINE_SIZE); [|by rewrite Ht].
    destruct Ht as (e' & -> & He' & Hi'). cbn [mbind outcome_bind]. rewrite <-Hi'. apply IH; auto; lia. }
  change (ed_hidx e) with (ed_hidx (insert_char c e)). apply IH; [lia|done|by apply insert_shows|done].
Qed.
End proofs.

(** ** Properties *)

(** Lines that are added to the history keep it well formed. *)
Lemma history_add_ok cmd h : NUL ∉ cmd -> history_ok h -> history_ok (history_add cmd h).
Proof.
  intros Hc [Hl Hn Hs]. unfold history_add. destruct (length cmd =? 0); [done|].
  destruct (_ && _); [done|]. destruct (h_lines h) as [|a [|b [|c [|]]]] eqn:E; try done. cbn in Hn |- *.
  split; [done|cbn [h_count]; unfold MAX_HISTORY in *; destruct (Nat.leb_spec (h_count h) 2); lia|].
  intros l [->|Hin]%elem_of_cons.
  - split; [|rewrite length_take; unfold LINE_SIZE; lia].
    intros Hin. apply Hc. rewrite <-(take_drop (LINE_SIZE - 1) cmd). apply elem_of_app. by left.
  - apply Hs. set_solver.
Qed.

Lemma history_static_ok : history_ok history_static.
Proof.
  split; [done|cbn; lia|]. intros l Hl. apply elem_of_replicate in Hl as [-> _].
  split; [apply not_elem_of_nil|cbn; unfold LINE_SIZE; lia].
Qed.

(** C14. The line editor implements the editor its user sees, whatever the
    buffer held before: typing, rubout, recall and completion act on the
    text of the line, Enter gives that text as a terminated string, a word
    is completed exactly when it is the only one that can be meant, and
    memory past the buffer is written only when a completion does not fit.
    A line that fills the buffer, or that the end of the input cuts, is
    returned with its length and without a terminator of its own. *)
Theorem editor_refines cmds comps h prompt buf input :
  words_ok cmds -> (forall l, comps = Some l -> words_ok l) -> history_ok h ->
  length buf = LINE_SIZE -> NUL ∉ input ->
  editor_result (type_line cmds comps h input [] (-1)) (advanced_get_line cmds comps h prompt buf input).
Proof.
  intros Hw Hc Hh Hb Hi. unfold advanced_get_line.
  apply (edit_loop_ok cmds comps h prompt Hw Hc Hh (length input) input (Editor buf 0 (-1) [prompt]) []); [done|done| |done].
  split; cbn; [done|done|unfold LINE_SIZE; lia|done|apply not_elem_of_nil].
Qed.

(** ** Concrete lines *)

Definition demo_cmds : list string := ["help"; "log"; "show stats"; "show db"; "quit"].

Definition demo_history : history := history_add (chars_of "help") history_static.

(** "sh" Tab "x" Rubout "st" Tab " lo" Tab Enter, in a buffer full of "z". *)
Definition demo_keys : chars :=
  chars_of ("sh" +:+ String "009" "x" +:+ String "127" "ow st" +:+ String "009" " lo" +:+ String "009" (String "010" "rest")).

Lemma editor_refines_witness :
  words_ok demo_cmds /\ history_ok demo_history /\
  exists e, advanced_get_line demo_cmds (Some ["ping"]) demo_history "> " (replicate LINE_SIZE "z"%char) demo_keys
    = Done (14%Z, chars_of "rest", e) /\ cstr (ed_buf e) = Some (chars_of "show stats log").
Proof.
  assert (words_ok demo_cmds) as Hw
    by (apply Forall_forall; intros w Hw; repeat (apply elem_of_cons in Hw as [->|Hw]; [by vm_compute; set_solver|]);
        by apply elem_of_nil in Hw).
  assert (history_ok demo_history) as Hh by (apply history_add_ok; [set_solver|apply history_static_ok]).
  split; [done|]. split; [done|].
  assert (forall l, Some ["ping"%string] = Some l -> words_ok l) as Hc by (intros l [= <-]; constructor; set_solver).
  assert (NUL ∉ demo_keys) as Hk by (apply (bool_decide_unpack _); vm_compute; exact I).
  destruct (editor_refines demo_cmds (Some ["ping"%string]) demo_history "> " (replicate LINE_SIZE "z"%char) demo_keys
    Hw Hc Hh (length_replicate _ _) Hk) as (e & H1 & _ & H2). by exists e.
Defined.

(** A line of 255 characters has no terminator: the string functions that
    are applied to it read past the buffer. *)
Lemma full_line_unterminated :
  match advanced_get_line demo_cmds (Some []) history_static "> " (replicate LINE_SIZE "z"%char)
          (replicate 255 "a"%char) with
  | Done (len, _, e) => len = 255%Z /\ cstr (ed_buf e) = None
  | _ => False
  end.
Proof. vm_compute. done. Qed.

(** A completion can write past the end of the buffer. *)
Lemma completion_overflows :
  advanced_get_line demo_cmds (Some []) history_static "> " (replicate LINE_SIZE "z"%char)
    (chars_of "show stats x" ++ replicate 236 "y"%char ++ chars_of " sched" ++ ["009"%char]) = Undef.
Proof. vm_compute. reflexivity. Qed.
