(* ===== verification/TimerHeap.v ===== *)
(** * The timer heap (heapify_up, heapify_down of src/core/nos_scheduler.c)

    A binary min-heap of timer addresses ordered by expiry time, in the first
    [size] slots of an array.  This file treats the array algorithmically,
    with the expiry time as a key function; Timer.v uses it with the keys of
    the timer store. *)

From stdpp Require Import base list.
From S2P Require Import Prelude.

Section heap.
Context (key : nat -> Z).
Implicit Types (l : list nat) (i j n : nat).

Definition parent i : nat := (i - 1) / 2.

(** [tmp = l[i]; l[i] = l[j]; l[j] = tmp] *)
Definition swap i j l : list nat :=
  match l !! i, l !! j with
  | Some a, Some b => <[j := a]> (<[i := b]> l)
  | _, _ => l
  end.

(** [nodes[i]->expire_at_ms] *)
Definition kat l i : Z := match l !! i with Some t => key t | None => 0 end.

Fixpoint heapify_up_loop (fuel : nat) l i : list nat :=
  match fuel with
  | O => l
  | S fuel =>
      if i =? 0 then l
      else if (kat l (parent i) <=? kat l i)%Z then l
      else heapify_up_loop fuel (swap i (parent i) l) (parent i)
  end.

(** The loop strictly decreases the index. *)
Definition heapify_up l i : list nat := heapify_up_loop (S i) l i.

Definition smallest_child l n i : nat :=
  let left := i * 2 + 1 in
  let right := i * 2 + 2 in
  if (right <? n) && (kat l right <? kat l left)%Z then right else left.

Fixpoint heapify_down_loop (fuel : nat) l n i : list nat :=
  match fuel with
  | O => l
  | S fuel =>
      if i * 2 + 1 <? n then
        let s := smallest_child l n i in
        if (kat l i <=? kat l s)%Z then l
        else heapify_down_loop fuel (swap i s l) n s
      else l
  end.

(** The loop strictly increases the index, which stays below [n]. *)
Definition heapify_down l n i : list nat := heapify_down_loop (S n) l n i.

(** [for (i = size / 2 - 1; i >= 0; i--) heapify_down(i)] *)
Definition build_heap l n : list nat :=
  fold_left (fun l i => heapify_down l n i) (rev (seq 0 (n / 2))) l.

(** ** Heap order *)

(** Every element at or below [lo] is ordered with respect to its parent. *)
Definition heap_from (lo n : nat) l : Prop :=
  forall i, 0 < i < n -> lo <= parent i -> (kat l (parent i) <= kat l i)%Z.

Definition heap n l : Prop := heap_from 0 n l.

(** ** Index arithmetic *)

Lemma parent_lt i : 0 < i -> parent i < i.
Proof. unfold parent. intros. apply Nat.Div0.div_lt_upper_bound; lia. Qed.

Lemma parent_child c i : 0 < c -> parent c = i <-> c = i * 2 + 1 \/ c = i * 2 + 2.
Proof.
  unfold parent. intros. pose proof (Nat.div_mod (c - 1) 2 ltac:(lia)).
  pose proof (Nat.mod_upper_bound (c - 1) 2 ltac:(lia)). lia.
Qed.

(** ** Swapping *)

Lemma length_swap i j l : length (swap i j l) = length l.
Proof. unfold swap. repeat case_match; by rewrite ?length_insert. Qed.

Lemma lookup_swap i j k l :
  i < length l -> j < length l ->
  swap i j l !! k = if decide (k = i) then l !! j else if decide (k = j) then l !! i else l !! k.
Proof.
  intros Hi Hj. unfold swap.
  destruct (lookup_lt_is_Some_2 _ _ Hi) as [a Ha], (lookup_lt_is_Some_2 _ _ Hj) as [b Hb].
  rewrite Ha, Hb. destruct (decide (k = i)) as [->|].
  - destruct (decide (i = j)) as [->|].
    + rewrite list_lookup_insert_eq by (rewrite length_insert; lia). congruence.
    + rewrite list_lookup_insert_ne by done. by rewrite list_lookup_insert_eq.
  - destruct (decide (k = j)) as [->|].
    + by rewrite list_lookup_insert_eq by (rewrite length_insert; lia).
    + by rewrite !list_lookup_insert_ne.
Qed.

Lemma kat_swap i j k l :
  i < length l -> j < length l ->
  kat (swap i j l) k = if decide (k = i) then kat l j else if decide (k = j) then kat l i else kat l k.
Proof.
  intros. unfold kat. rewrite lookup_swap by done. by repeat case_decide.
Qed.

Lemma swap_perm i j l : i < length l -> j < length l -> swap i j l ≡ₚ l.
Proof.
  intros Hi Hj. apply Permutation_inj. split; [apply length_swap|].
  exists (fun k => if decide (k = i) then j else if decide (k = j) then i else k). split.
  - intros a b. repeat case_decide; congruence.
  - intros k. rewrite lookup_swap by done. by repeat case_decide.
Qed.

Lemma take_swap i j n l : i < n -> j < n -> take n (swap i j l) = swap i j (take n l).
Proof.
  intros Hi Hj. unfold swap. rewrite !lookup_take_lt by done.
  repeat case_match; rewrite ?take_insert_lt by done; done.
Qed.

Lemma drop_swap i j n l : i < n -> j < n -> drop n (swap i j l) = drop n l.
Proof.
  intros Hi Hj. unfold swap. repeat case_match; rewrite ?drop_insert_lt by lia; done.
Qed.

Lemma take_swap_perm i j n l :
  i < n -> j < n -> n <= length l -> take n (swap i j l) ≡ₚ take n l.
Proof.
  intros. rewrite take_swap by done. apply swap_perm; rewrite length_take; lia.
Qed.

(** ** heapify_up *)

(** Ordered except between [i] and its parent. *)
Definition up_ok n i l : Prop :=
  (forall k, 0 < k < n -> k <> i -> (kat l (parent k) <= kat l k)%Z) /\
  (0 < i -> forall c, 0 < c < n -> parent c = i -> (kat l (parent i) <= kat l c)%Z).

Lemma up_ok_swap n i l :
  n <= length l -> 0 < i < n -> up_ok n i l -> (kat l i < kat l (parent i))%Z ->
  up_ok n (parent i) (swap i (parent i) l).
Proof.
  intros Hn Hi [H1 H2] Hlt. pose proof (parent_lt i ltac:(lia)).
  split.
  - intros k Hk Hne. rewrite !kat_swap by lia.
    rewrite (decide_False _ _ Hne). destruct (decide (k = i)) as [->|Hki].
    { rewrite decide_False by lia. rewrite decide_True by done. lia. }
    destruct (decide (parent k = i)) as [E|E]; [by apply H2; lia || done|].
    pose proof (H1 k Hk Hki). destruct (decide (parent k = parent i)) as [E'|E']; [|done].
    rewrite E' in *. lia.
  - intros Hp c Hc Hpc. rewrite !kat_swap by lia.
    pose proof (parent_lt (parent i) ltac:(lia)).
    pose proof (H1 (parent i) ltac:(lia) ltac:(lia)).
    repeat case_decide; subst; try lia.
    pose proof (H1 c ltac:(lia) ltac:(done)) as HH. rewrite Hpc in HH. lia.
Qed.

Lemma heapify_up_loop_heap fuel n i l :
  n <= length l -> i < n -> i < fuel -> up_ok n i l -> heap n (heapify_up_loop fuel l i).
Proof.
  revert l i. induction fuel as [|fuel IH]; intros l i Hn Hi Hf Hok; [lia|]. simpl.
  destruct (Nat.eqb_spec i 0) as [->|Hi0].
  - intros k Hk _. apply Hok; lia.
  - destruct (Z.leb_spec (kat l (parent i)) (kat l i)).
    + intros k Hk _. destruct (decide (k = i)) as [->|]; [done|]. apply Hok; lia.
    + pose proof (parent_lt i ltac:(lia)).
      apply IH; [by rewrite length_swap|lia|lia|]. apply up_ok_swap; [done|lia|done|lia].
Qed.

Lemma heapify_up_loop_perm fuel n i l :
  n <= length l -> i < n ->
  take n (heapify_up_loop fuel l i) ≡ₚ take n l /\
  drop n (heapify_up_loop fuel l i) = drop n l /\
  length (heapify_up_loop fuel l i) = length l.
Proof.
  revert l i. induction fuel as [|fuel IH]; intros l i Hn Hi; simpl; [done|].
  destruct (Nat.eqb_spec i 0); [done|]. destruct (Z.leb_spec (kat l (parent i)) (kat l i)); [done|].
  pose proof (parent_lt i ltac:(lia)).
  destruct (IH (swap i (parent i) l) (parent i)) as (Hp & Hd & Hl); [by rewrite length_swap|lia|].
  rewrite Hp, Hd, Hl, length_swap, drop_swap by lia. rewrite take_swap_perm by lia. done.
Qed.

(** ** heapify_down *)

(** Ordered from [lo] on, except between [i] and its children. *)
Definition down_ok lo n i l : Prop :=
  (forall k, 0 < k < n -> lo <= parent k -> parent k <> i -> (kat l (parent k) <= kat l k)%Z) /\
  (0 < i -> lo <= parent i -> forall c, 0 < c < n -> parent c = i -> (kat l (parent i) <= kat l c)%Z).

Lemma smallest_child_spec l n i :
  i * 2 + 1 < n ->
  let s := smallest_child l n i in
  s < n /\ 0 < s /\ parent s = i /\ i < s /\
  forall c, 0 < c < n -> parent c = i -> (kat l s <= kat l c)%Z.
Proof.
  intros Hl. unfold smallest_child.
  destruct (Nat.ltb_spec (i * 2 + 2) n); simpl;
    [destruct (Z.ltb_spec (kat l (i * 2 + 2)) (kat l (i * 2 + 1)))|];
    (split_and!; [lia|lia|apply parent_child; lia|lia|]);
    intros c Hc Hp; apply parent_child in Hp; try lia; destruct Hp as [->| ->]; lia.
Qed.

Lemma down_ok_swap lo n i l s :
  n <= length l -> lo <= i -> down_ok lo n i l -> i * 2 + 1 < n ->
  s = smallest_child l n i -> (kat l s < kat l i)%Z ->
  down_ok lo n s (swap i s l).
Proof.
  intros Hn Hlo [H1 H2] Hl Hs Hlt.
  destruct (smallest_child_spec l n i Hl) as (Hsn & Hs0 & Hps & His & Hmin). rewrite <-Hs in *. clear Hs.
  split.
  - intros k Hk Hlk Hne. rewrite !kat_swap by lia.
    pose proof (parent_lt k ltac:(lia)). repeat case_decide; subst; try lia; try congruence.
    + apply Hmin; [lia|done].
    + apply H2; lia || done.
    + by apply H1.
  - intros _ Hlp c Hc Hpc. rewrite Hps. rewrite !kat_swap by lia.
    pose proof (parent_lt c ltac:(lia)). pose proof (H1 c Hc ltac:(lia) ltac:(lia)) as HH.
    rewrite Hpc in HH. repeat case_decide; subst; try lia.
Qed.

Lemma heapify_down_loop_heap fuel lo n i l :
  n <= length l -> lo <= i -> n < fuel + i -> down_ok lo n i l ->
  heap_from lo n (heapify_down_loop fuel l n i).
Proof.
  revert l i. induction fuel as [|fuel IH]; intros l i Hn Hlo Hf Hok.
  { simpl. intros k Hk Hlk. apply Hok; [done..|]. pose proof (parent_lt k). lia. }
  simpl. destruct (Nat.ltb_spec (i * 2 + 1) n) as [Hl|Hl].
  - pose proof (smallest_child_spec l n i Hl) as (Hsn & Hs0 & Hps & His & Hmin).
    destruct (Z.leb_spec (kat l i) (kat l (smallest_child l n i))) as [Hle|Hlt].
    + intros k Hk Hlk. destruct (decide (parent k = i)) as [E|].
      * rewrite E. specialize (Hmin k Hk E). lia.
      * by apply Hok.
    + apply IH; [by rewrite length_swap|lia|lia|]. by apply down_ok_swap.
  - intros k Hk Hlk. apply Hok; [done..|]. intros E. apply parent_child in E; lia.
Qed.

Lemma heapify_down_loop_perm fuel n i l :
  n <= length l ->
  take n (heapify_down_loop fuel l n i) ≡ₚ take n l /\
  drop n (heapify_down_loop fuel l n i) = drop n l /\
  length (heapify_down_loop fuel l n i) = length l.
Proof.
  revert l i. induction fuel as [|fuel IH]; intros l i Hn; simpl; [done|].
  destruct (Nat.ltb_spec (i * 2 + 1) n) as [Hl|Hl]; [|done].
  destruct (smallest_child_spec l n i Hl) as (Hsn & Hs0 & Hps & His & _).
  destruct (Z.leb_spec (kat l i) (kat l (smallest_child l n i))); [done|].
  destruct (IH (swap i (smallest_child l n i) l) (smallest_child l n i)) as (Hp & Hd & Hlen);
    [by rewrite length_swap|].
  rewrite Hp, Hd, Hlen, length_swap, drop_swap by lia. rewrite take_swap_perm by lia. done.
Qed.

(** ** The operations the timer code builds from them *)

Lemma heapify_down_heap lo n i l :
  n <= length l -> lo <= i -> down_ok lo n i l -> heap_from lo n (heapify_down l n i).
Proof. intros. unfold heapify_down. apply heapify_down_loop_heap; lia || done. Qed.

Lemma heapify_down_perm n i l :
  n <= length l ->
  take n (heapify_down l n i) ≡ₚ take n l /\ drop n (heapify_down l n i) = drop n l /\
  length (heapify_down l n i) = length l.
Proof. apply heapify_down_loop_perm. Qed.

Lemma heapify_up_perm n i l :
  n <= length l -> i < n ->
  take n (heapify_up l i) ≡ₚ take n l /\ drop n (heapify_up l i) = drop n l /\
  length (heapify_up l i) = length l.
Proof. apply heapify_up_loop_perm. Qed.

(** The root is a minimum. *)
Lemma heap_root_min n l i : heap n l -> i < n -> (kat l 0 <= kat l i)%Z.
Proof.
  intros Hh. induction i as [i IH] using lt_wf_ind. intros Hi.
  destruct (decide (i = 0)) as [->|]; [lia|].
  pose proof (parent_lt i ltac:(lia)). pose proof (IH (parent i) ltac:(lia) ltac:(lia)).
  pose proof (Hh i ltac:(lia) ltac:(lia)). lia.
Qed.

(** Appending an element and sifting it up. *)
Lemma heap_insert n l t :
  heap n l -> n < length l -> heap (S n) (heapify_up (<[n := t]> l) n).
Proof.
  intros Hh Hn. apply heapify_up_loop_heap; [rewrite length_insert; lia|lia|lia|].
  assert (forall k, k < n -> kat (<[n:=t]> l) k = kat l k) as Hk.
  { intros k Hk. unfold kat. by rewrite list_lookup_insert_ne by lia. }
  split.
  - intros k Hk' Hne. pose proof (parent_lt k ltac:(lia)). rewrite !Hk by lia. apply Hh; lia.
  - intros _ c Hc Hp. pose proof (parent_lt c ltac:(lia)). lia.
Qed.

(** Replacing element [i] by the last one and sifting it down: this
    restores the order provided the replacement is not smaller than the
    parent of [i]. *)
Lemma heap_remove n l i t :
  heap (S n) l -> S n <= length l -> i < n -> l !! n = Some t ->
  (0 < i -> (kat l (parent i) <= key t)%Z) ->
  heap n (heapify_down (<[i := t]> l) n i).
Proof.
  intros Hh Hl Hi Ht Hp.
  apply heapify_down_heap; [rewrite length_insert; lia|lia|].
  assert (forall k, k <> i -> kat (<[i:=t]> l) k = kat l k) as Hk.
  { intros k Hk. unfold kat. by rewrite list_lookup_insert_ne. }
  assert (kat (<[i:=t]> l) i = key t) as Hki.
  { unfold kat. by rewrite list_lookup_insert_eq by lia. }
  split.
  - intros k Hk' _ Hne. rewrite (Hk (parent k)) by done. destruct (decide (k = i)) as [->|].
    + rewrite Hki. apply Hp. lia.
    + rewrite Hk by done. apply Hh; lia.
  - intros Hi0 _ c Hc Hpc. pose proof (parent_lt c ltac:(lia)). pose proof (parent_lt i ltac:(lia)).
    rewrite !Hk by lia. pose proof (Hh i ltac:(lia) ltac:(lia)).
    pose proof (Hh c ltac:(lia) ltac:(lia)) as HH. rewrite Hpc in HH. lia.
Qed.

Lemma build_heap_spec n l :
  n <= length l ->
  heap n (build_heap l n) /\ take n (build_heap l n) ≡ₚ take n l /\
  drop n (build_heap l n) = drop n l /\ length (build_heap l n) = length l.
Proof.
  intros Hn. unfold build_heap.
  assert (heap_from (n / 2) n l) as Hstart.
  { intros k Hk Hp. pose proof (Nat.div_mod n 2 ltac:(lia)).
    pose proof (Nat.mod_upper_bound n 2 ltac:(lia)).
    pose proof (proj1 (parent_child k _ (proj1 Hk)) eq_refl). lia. }
  revert l Hn Hstart. induction (n / 2) as [|m IH]; intros l Hn Hstart.
  { simpl. done. }
  rewrite seq_S, rev_app_distr. simpl.
  destruct (heapify_down_perm n m l Hn) as (Hp & Hd & Hl).
  destruct (IH (heapify_down l n m)) as (Hh & Hp' & Hd' & Hl'); [lia| |].
  - apply heapify_down_heap; [done..|]. split.
    + intros k Hk Hlo Hne. apply Hstart; lia.
    + intros Hm Hlo. pose proof (parent_lt m Hm). lia.
  - split_and!; [done|by rewrite Hp'|congruence|congruence].
Qed.
End heap.

(** The algorithms read keys only of array elements. *)
Lemma kat_ext key1 key2 l i :
  (forall t, t ∈ l -> key1 t = key2 t) -> kat key1 l i = kat key2 l i.
Proof.
  intros H. unfold kat. destruct (l !! i) as [t|] eqn:E; [|done].
  apply H. by eapply list_elem_of_lookup_2.
Qed.
