(* ===== verification/Timer.v ===== *)
(** * Timers (src/core/nos_scheduler.c)

    A timer is an object with its own life cycle: created by a component,
    started on the thread that hosts the component, and run from that
    thread's loop by [process_timers].  The heap of a thread holds the
    addresses of its running timers.

    What a callback does is a parameter ([run_cb]), as is the behaviour of a
    [free_arg] function ([run_free]) and the sequence of readings of the
    monotonic clock ([clk]). *)

From stdpp Require Import base list sets gmap strings sorting.
From S2P Require Import Prelude CArray Ring Mem Buffer Service Node TimerHeap.

Definition timer_key (n : node) (t : timer_ptr) : Z :=
  match n_timers n !! t with Some x => expire_at_ms x | None => 0%Z end.

(** [&g_node_ctx.worker_threads[0 .. worker_count)] *)
Definition node_threads (n : node) : list thread_ptr :=
  option_list (n_mgmt n) ++ take (n_worker_count n) (n_workers n).

Definition hosts (n : node) (c : comp_ptr) (t : thread_ptr) : bool :=
  match n_threads n !! t with
  | Some th => existsb (fun x => bool_decide (x = Some c)) (live (components th))
  | None => false
  end.

(** The management thread is searched first, then the workers in order. *)
Definition find_thread_of_component (n : node) (c : comp_ptr) : option thread_ptr :=
  find_idx (hosts n c) (node_threads n) ≫= fun i => node_threads n !! i.

Definition nos_timer_create (calloc_ok : bool) (cb : option nat) (arg : nat) (free_arg : option nat)
    (n : node) : node * option timer_ptr :=
  if calloc_ok then
    let t := fresh (dom (n_timers n)) in
    (upd_timers <[t := Timer 0 0 false cb free_arg arg false None None]> n, Some t)
  else (n, None).

(** [nodes[size] = timer; heapify_up(thread, size++)] *)
Definition heap_push (n : node) (t : timer_ptr) (h : carr timer_ptr) : carr timer_ptr :=
  CArr (heapify_up (timer_key n) (<[count h := t]> (slots h)) (count h)) (S (count h)).

(** [nodes[i] = nodes[--size]; heapify_down(thread, i)] *)
Definition heap_delete (n : node) (i : nat) (h : carr timer_ptr) : carr timer_ptr :=
  let h' := carr_remove_swap i h in
  CArr (heapify_down (timer_key n) (slots h') (count h') i) (count h').

Definition heap_full (h : carr timer_ptr) : bool := length (slots h) <=? count h.

Definition heap_find (t : timer_ptr) (h : carr timer_ptr) : option nat :=
  carr_find (Nat.eqb t) h.

Definition nos_timer_start (now : Z) (self : comp_ptr) (timer : option timer_ptr)
    (interval : Z) (periodic : bool) (n : node) : nos_status * node :=
  match find_thread_of_component n self, timer with
  | Some th, Some t =>
      match n_timers n !! t, n_threads n !! th with
      | Some x, Some T =>
          if is_running x then (NOS_ERR, n)
          else if heap_full (timer_heap T) then (NOS_ERR, n)
          else
            let n1 := upd_timer t (tm_started interval (u64 (now + interval)) periodic self th) n in
            (NOS_OK, upd_thread th (fun T => notify (set_heap (heap_push n1 t (timer_heap T)) T)) n1)
      | _, _ => (NOS_ERR, n)
      end
  | _, _ => (NOS_ERR, n)
  end.

(** The thread a stop looks at: the one the timer remembers, else the one
    hosting the caller. *)
Definition stop_thread (n : node) (self : comp_ptr) (x : nos_timer) : option thread_ptr :=
  match tm_owner_thread x with
  | Some th => Some th
  | None => find_thread_of_component n self
  end.

Definition nos_timer_stop (self : comp_ptr) (timer : option timer_ptr) (n : node)
    : nos_status * node :=
  match timer with
  | None => (NOS_ERR, n)
  | Some t =>
      match n_timers n !! t with
      | None => (NOS_ERR, n)
      | Some x =>
          match stop_thread n self x with
          | None => (NOS_ERR, n)
          | Some th =>
              if negb (is_running x) then (NOS_ERR, n)
              else
                match n_threads n !! th ≫= fun T => heap_find t (timer_heap T) with
                | Some i =>
                    (NOS_OK, upd_timer t tm_detached
                       (upd_thread th (fun T => set_heap (heap_delete n i (timer_heap T)) T) n))
                | None => (NOS_ERR, n)
                end
          end
      end
  end.

Definition nos_timer_delete (run_free : nat -> nat -> node -> node) (timer : option timer_ptr)
    (n : node) : node :=
  match timer with
  | None => n
  | Some t =>
      match n_timers n !! t with
      | None => n
      | Some x =>
          let n1 :=
            match is_running x, tm_owner_thread x with
            | true, Some th =>
                match n_threads n !! th ≫= fun T => heap_find t (timer_heap T) with
                | Some i => upd_thread th (fun T => set_heap (heap_delete n i (timer_heap T)) T) n
                | None => n
                end
            | _, _ => n
            end in
          let n2 := upd_timer t tm_detached n1 in
          let n3 := match tm_free_arg x with Some f => run_free f (tm_arg x) n2 | None => n2 end in
          upd_timers (delete t) n3
      end
  end.

(** The loop of [nos_scheduler_cancel_timers_by_owner] over the live slots:
    detach the owner's timers, compact the others. *)
Definition owned_by (n : node) (owner : comp_ptr) (t : timer_ptr) : bool :=
  match n_timers n !! t with
  | Some x => bool_decide (tm_owner x = Some owner)
  | None => false
  end.

Definition cancel_step (owner : comp_ptr) (s : node * carr timer_ptr) (t : timer_ptr)
    : node * carr timer_ptr :=
  let '(n, h) := s in
  if owned_by n owner t then (upd_timer t tm_detached n, h) else (n, carr_push t h).

Definition nos_scheduler_cancel_timers_by_owner (thread : option thread_ptr)
    (owner : option comp_ptr) (n : node) : node :=
  match thread, owner with
  | Some th, Some o =>
      match n_threads n !! th with
      | None => n
      | Some T =>
          let '(n1, h) := fold_left (cancel_step o) (live (timer_heap T))
                            (n, CArr (slots (timer_heap T)) 0) in
          let h' := CArr (build_heap (timer_key n1) (slots h) (count h)) (count h) in
          upd_thread th (set_heap h') n1
      end
  | _, _ => n
  end.

(** ** process_timers *)

(** [owner && owner->status == ACTIVE]; [None] when [owner] was freed. *)
Definition owner_active (n : node) (x : nos_timer) : option bool :=
  match tm_owner x with
  | None => Some false
  | Some o => (fun c => bool_decide (c_status c = NOS_COMP_ST_ACTIVE)) <$> n_comps n !! o
  end.

Section process.
Context (clk : nat -> Z) (run_cb : nat -> nat -> node -> node).

(** [if (owner && owner->status == ACTIVE && callback) callback(arg)] *)
Definition fire_timer (t : timer_ptr) (x : nos_timer) (act : bool) (n : node)
    (trace : list timer_ptr) : node * list timer_ptr :=
  match tm_callback x with
  | Some cb => if act then (run_cb cb (tm_arg x) n, trace ++ [t]) else (n, trace)
  | None => (n, trace)
  end.

(** Putting a periodic timer back, with expiry time [e]. *)
Definition rearm (self : thread_ptr) (t : timer_ptr) (e : Z) (n : node) : outcome node :=
  let n3 := upd_timer t (tm_set_expire e) n in
  match n_threads n3 !! self with
  | None => Undef
  | Some T =>
      if heap_full (timer_heap T) then Done (upd_timer t (tm_set_running false) n3)
      else
        let n4 := upd_timer t (tm_set_running true) n3 in
        Done (upd_thread self (fun T => set_heap (heap_push n4 t (timer_heap T)) T) n4)
  end.

(** [nodes[0] = nodes[--size]; heapify_down(0); timer->is_running = 0] *)
Definition pop_timer (self : thread_ptr) (t : timer_ptr) (n : node) : node :=
  upd_timer t tm_stopped
    (upd_thread self (fun T => set_heap (heap_delete n 0 (timer_heap T)) T) n).

(** [k] counts the clock readings made so far; the trace is the list of
    timers whose callback ran. *)
Fixpoint process_timers (fuel : nat) (self : thread_ptr) (k : nat) (trace : list timer_ptr)
    (n : node) : outcome (node * nat * list timer_ptr) :=
  match fuel with
  | O => Fuel
  | S fuel =>
      match n_threads n !! self with
      | None => Undef
      | Some T =>
          match live (timer_heap T) with
          | [] => Done (n, S k, trace)
          | t :: _ =>
              match n_timers n !! t with
              | None => Undef
              | Some x0 =>
                  if (clk k <? expire_at_ms x0)%Z then Done (n, S k, trace)
                  else
                    let n1 := pop_timer self t n in
                    let x := tm_stopped x0 in
                    match owner_active n1 x with
                    | None => Undef
                    | Some act =>
                        let '(n2, trace) := fire_timer t x act n1 trace in
                        match n_timers n2 !! t with
                        | None => Undef        (* the callback freed the timer *)
                        | Some y =>
                            match (if is_periodic y then owner_active n2 y else Some false) with
                            | None => Undef
                            | Some true =>
                                match rearm self t (u64 (clk (S k) + interval_ms y)) n2 with
                                | Done n3 => process_timers fuel self (S (S k)) trace n3
                                | Fuel => Fuel
                                | Undef => Undef
                                end
                            | Some false => process_timers fuel self (S k) trace n2
                            end
                        end
                    end
              end
          end
      end
  end.
End process.

(** ** Invariants *)

(** The heap of [th] holds, once each, the running timers that belong to it. *)
Record heap_struct (n : node) (th : thread_ptr) (h : carr timer_ptr) : Prop := {
  hs_len : length (slots h) = TIMER_CAPACITY;
  hs_count : count h <= TIMER_CAPACITY;
  hs_nodup : NoDup (live h);
  hs_mem : forall t, t ∈ live h <->
    exists x, n_timers n !! t = Some x /\ is_running x = true /\ tm_owner_thread x = Some th;
}.

Record timers_wf (n : node) : Prop := {
  tw_heap : forall th T, n_threads n !! th = Some T -> heap_struct n th (timer_heap T);
  tw_running : forall t x, n_timers n !! t = Some x -> is_running x = true ->
    exists th o, tm_owner_thread x = Some th /\ is_Some (n_threads n !! th) /\ tm_owner x = Some o;
}.

(** Heap order of a thread's heap. *)
Definition heap_ordered (n : node) (h : carr timer_ptr) : Prop :=
  heap (timer_key n) (count h) (slots h).

(** ** Lemmas *)

Lemma heap_ext key1 key2 n l :
  (forall t, t ∈ take n l -> key1 t = key2 t) -> n <= length l -> heap key1 n l -> heap key2 n l.
Proof.
  intros Hk Hn Hh i Hi Hp. pose proof (parent_lt i ltac:(lia)).
  assert (forall j, j < n -> kat key1 l j = kat key2 l j) as E.
  { intros j Hj. unfold kat. destruct (l !! j) as [t|] eqn:Ht; [|done].
    apply Hk. apply (list_elem_of_lookup_2 _ j). by rewrite lookup_take_lt. }
  rewrite <-!E by lia. by apply Hh.
Qed.

Lemma live_heap_push n t h :
  count h < length (slots h) -> live (heap_push n t h) ≡ₚ t :: live h.
Proof.
  intros Hc. unfold live, heap_push. simpl.
  destruct (heapify_up_perm (timer_key n) (S (count h)) (count h) (<[count h:=t]> (slots h)))
    as (Hp & _ & _); [rewrite length_insert; lia|lia|].
  rewrite Hp, take_insert_last by done. by rewrite (comm (++)).
Qed.

Lemma heap_push_slots n t h :
  count h < length (slots h) -> length (slots (heap_push n t h)) = length (slots h).
Proof.
  intros Hc. unfold heap_push. simpl.
  destruct (heapify_up_perm (timer_key n) (S (count h)) (count h) (<[count h:=t]> (slots h)))
    as (_ & _ & ->); [rewrite length_insert; lia|lia|]. by rewrite length_insert.
Qed.

Lemma heap_push_ordered n t h :
  count h < length (slots h) -> heap_ordered n h -> heap_ordered n (heap_push n t h).
Proof. intros Hc Ho. unfold heap_ordered, heap_push. simpl. by apply heap_insert. Qed.

Lemma live_heap_delete n i t h :
  carr_wf h -> live h !! i = Some t -> live h ≡ₚ t :: live (heap_delete n i h).
Proof.
  intros Hw Hi. rewrite (live_remove_swap i h t Hw Hi) at 1. constructor.
  unfold live at 2, heap_delete. simpl.
  destruct (heapify_down_perm (timer_key n) (count h - 1) i (slots (carr_remove_swap i h)))
    as (Hp & _ & _).
  { pose proof (carr_remove_swap_wf i h Hw) as H. unfold carr_wf in H. simpl in *. lia. }
  simpl in Hp. by rewrite Hp.
Qed.

Lemma heap_delete_slots n i h : carr_wf h -> length (slots (heap_delete n i h)) = length (slots h).
Proof.
  intros Hw. unfold heap_delete. simpl.
  destruct (heapify_down_perm (timer_key n) (count h - 1) i (slots (carr_remove_swap i h)))
    as (_ & _ & Hl).
  { pose proof (carr_remove_swap_wf i h Hw) as H. unfold carr_wf in H. simpl in *. lia. }
  simpl in Hl. rewrite Hl. apply (carr_remove_swap_length i h).
Qed.

(** The last timer, which takes the place of the removed one, is not earlier
    than the parent of that place. *)
Definition replacement_fits (n : node) (i : nat) (h : carr timer_ptr) : Prop :=
  0 < i -> i < count h - 1 ->
  (kat (timer_key n) (slots h) (parent i) <= kat (timer_key n) (slots h) (count h - 1))%Z.

Lemma heap_delete_ordered n i h :
  carr_wf h -> i < count h -> heap_ordered n h -> replacement_fits n i h ->
  heap_ordered n (heap_delete n i h).
Proof.
  intros Hw Hi Ho Hr. unfold carr_wf in Hw.
  unfold heap_ordered, heap_delete, carr_remove_swap. simpl.
  destruct (lookup_lt_is_Some_2 (slots h) (count h - 1)) as [y Hy]; [lia|]. rewrite Hy.
  unfold heap_ordered in Ho. replace (count h) with (S (count h - 1)) in Ho by lia.
  destruct (decide (i = count h - 1)) as [->|Hne].
  - assert (heapify_down (timer_key n) (<[count h - 1:=y]> (slots h)) (count h - 1) (count h - 1) = slots h) as ->.
    { unfold heapify_down. simpl. destruct (Nat.ltb_spec ((count h - 1) * 2 + 1) (count h - 1)); [lia|].
      by apply list_insert_id. }
    intros k Hk Hp. apply Ho; lia.
  - apply heap_remove; [done|lia|lia|done|]. intros H0. specialize (Hr H0 ltac:(lia)).
    unfold kat at 2 in Hr. by rewrite Hy in Hr.
Qed.

(** The root can always be removed. *)
Lemma heap_pop_ordered n h :
  carr_wf h -> 0 < count h -> heap_ordered n h -> heap_ordered n (heap_delete n 0 h).
Proof. intros. apply heap_delete_ordered; [done..|]. intros ?. lia. Qed.

Lemma heap_struct_wf n th h : heap_struct n th h -> carr_wf h.
Proof. intros []. unfold carr_wf. lia. Qed.

Lemma heap_find_spec t h i : heap_find t h = Some i -> i < count h /\ live h !! i = Some t.
Proof.
  intros Hf. apply carr_find_Some in Hf as (Hi & x & Hx & Ht). apply Nat.eqb_eq in Ht. by subst.
Qed.

Lemma heap_find_in t h : t ∈ live h -> exists i, heap_find t h = Some i.
Proof.
  intros Hin. unfold heap_find, carr_find. destruct (find_idx _ _) as [i|] eqn:E; [by exists i|].
  apply find_idx_None in E. rewrite List.Forall_forall in E.
  apply list_elem_of_In, E in Hin. by rewrite Nat.eqb_refl in Hin.
Qed.

(** Changing one timer and the heap of one thread. *)
Lemma timers_wf_change n th T t x g f :
  timers_wf n -> n_threads n !! th = Some T -> n_timers n !! t = Some x ->
  (is_running x = true -> tm_owner_thread x = Some th) ->
  (is_running (g x) = true -> tm_owner_thread (g x) = Some th /\ is_Some (tm_owner (g x))) ->
  length (slots (timer_heap (f T))) = TIMER_CAPACITY ->
  count (timer_heap (f T)) <= TIMER_CAPACITY ->
  NoDup (live (timer_heap (f T))) ->
  (forall u, u ∈ live (timer_heap (f T)) <->
     (u = t /\ is_running (g x) = true) \/ (u <> t /\ u ∈ live (timer_heap T))) ->
  timers_wf (upd_timer t g (upd_thread th f n)).
Proof.
  intros [Hh Hr] HT Hx Hxr Hgr Hl Hc Hnd Hm. split.
  - intros th' T' HT'. simpl in HT'. destruct (decide (th' = th)) as [->|Hne].
    + rewrite lookup_alter_eq, HT in HT'. simplify_eq/=. split; [done..|].
      intros u. rewrite Hm. simpl. destruct (decide (u = t)) as [->|Hu].
      * rewrite lookup_alter_eq, Hx. simpl. split.
        -- intros [[_ Hg]|[? _]]; [|done]. eexists. split; [done|]. split; [done|]. by apply Hgr.
        -- intros (y & Hy & Hyr & _). simplify_eq. by left.
      * rewrite lookup_alter_ne by done. rewrite (hs_mem _ _ _ (Hh th T HT) u). naive_solver.
    + rewrite lookup_alter_ne in HT' by done. destruct (Hh th' T' HT') as [? ? ? Hm'].
      split; [done..|]. intros u. rewrite Hm'. simpl. destruct (decide (u = t)) as [->|Hu].
      * rewrite lookup_alter_eq, Hx. simpl. split.
        -- intros (y & Hy & Hyr & Hyt). simplify_eq. specialize (Hxr Hyr). congruence.
        -- intros (y & Hy & Hyr & Hyt). simplify_eq. destruct (Hgr Hyr). congruence.
      * by rewrite lookup_alter_ne by done.
  - intros u y Hu Hy. simpl in Hu. assert (forall k, is_Some (n_threads n !! k) ->
      is_Some (n_threads (upd_timer t g (upd_thread th f n)) !! k)) as Hth.
    { intros k Hk. simpl. rewrite lookup_alter. case_decide; subst; by rewrite ?fmap_is_Some. }
    destruct (decide (u = t)) as [->|Hne].
    + rewrite lookup_alter_eq, Hx in Hu. simplify_eq/=. destruct (Hgr Hy) as [Ht [o Ho]].
      exists th, o. split_and!; [done|apply Hth; by eexists|done].
    + rewrite lookup_alter_ne in Hu by done. destruct (Hr u y Hu Hy) as (th' & o & ? & ? & ?).
      exists th', o. split_and!; [done|by apply Hth|done].
Qed.

Lemma timer_key_upd_ne t u g n : t <> u -> timer_key (upd_timer t g n) u = timer_key n u.
Proof. intros. unfold timer_key. by rewrite upd_timer_ne. Qed.

Lemma timer_key_upd_same t g n u :
  (forall x, expire_at_ms (g x) = expire_at_ms x) -> timer_key (upd_timer t g n) u = timer_key n u.
Proof.
  intros Hg. unfold timer_key. destruct (decide (t = u)) as [->|].
  - rewrite upd_timer_eq. destruct (n_timers n !! u); simpl; [apply Hg|done].
  - by rewrite upd_timer_ne.
Qed.

Lemma timers_wf_create ok cb arg fa n :
  timers_wf n -> timers_wf (nos_timer_create ok cb arg fa n).1.
Proof.
  intros [Hh Hr]. unfold nos_timer_create. destruct ok; [|done]. simpl.
  pose proof (is_fresh (dom (n_timers n))) as Hf. set (t := fresh _) in *.
  apply not_elem_of_dom in Hf. split; simpl.
  - intros th T HT. destruct (Hh th T HT) as [? ? ? Hm]. split; [done..|].
    intros u. rewrite Hm. simpl. destruct (decide (u = t)) as [->|].
    + rewrite lookup_insert_eq, Hf. split; intros (y & Hy & Hyr & _); simplify_eq/=.
    + by rewrite lookup_insert_ne.
  - intros u x Hu Hx. destruct (decide (u = t)) as [->|].
    + rewrite lookup_insert_eq in Hu. by simplify_eq.
    + rewrite lookup_insert_ne in Hu by done. by eapply Hr.
Qed.

(** Adding a stopped timer to a heap with room. *)
Lemma timers_wf_add n th T t x g f :
  timers_wf n -> n_threads n !! th = Some T -> n_timers n !! t = Some x ->
  is_running x = false -> heap_full (timer_heap T) = false ->
  is_running (g x) = true -> tm_owner_thread (g x) = Some th -> is_Some (tm_owner (g x)) ->
  timer_heap (f T) = heap_push (upd_timer t g n) t (timer_heap T) ->
  timers_wf (upd_timer t g (upd_thread th f n)).
Proof.
  intros Hw HT Hx Hxr Hfull Hg1 Hg2 Hg3 Hf.
  destruct (tw_heap n Hw th T HT) as [Hl Hc Hnd Hm].
  unfold heap_full in Hfull. bool_hyps.
  assert (t ∉ live (timer_heap T)) as Hni.
  { rewrite Hm. intros (y & Hy & Hyr & _). congruence. }
  eapply timers_wf_change; try done; rewrite ?Hf.
  - congruence.
  - by rewrite heap_push_slots.
  - simpl. lia.
  - rewrite live_heap_push by done. by constructor.
  - intros u. rewrite live_heap_push by done. rewrite elem_of_cons, Hg1.
    destruct (decide (u = t)); naive_solver.
Qed.

(** Taking a timer out of its heap. *)
Lemma timers_wf_remove n th T t x g f i :
  timers_wf n -> n_threads n !! th = Some T -> n_timers n !! t = Some x ->
  live (timer_heap T) !! i = Some t -> is_running (g x) = false ->
  timer_heap (f T) = heap_delete n i (timer_heap T) ->
  timers_wf (upd_timer t g (upd_thread th f n)).
Proof.
  intros Hw HT Hx Hi Hg Hf.
  pose proof (tw_heap n Hw th T HT) as Hs. destruct Hs as [Hl Hc Hnd Hm] eqn:E. clear E.
  pose proof (heap_struct_wf _ _ _ Hs) as Hcw.
  pose proof (live_heap_delete n i t _ Hcw Hi) as Hp.
  pose proof Hnd as Hnd'. rewrite Hp in Hnd'. apply NoDup_cons in Hnd' as [Hni Hnd'].
  eapply timers_wf_change; try done; rewrite ?Hf.
  - intros _. assert (t ∈ live (timer_heap T)) as Hin by (by eapply list_elem_of_lookup_2).
    apply Hm in Hin as (y & ? & ? & ?). congruence.
  - congruence.
  - by rewrite heap_delete_slots.
  - simpl. lia.
  - done.
  - intros u. rewrite Hg, Hp, elem_of_cons.
    split; [|naive_solver]. intros Hu. right. split; [by intros ->|by right].
Qed.

Lemma timers_wf_start now self t iv p n :
  timers_wf n -> timers_wf (nos_timer_start now self t iv p n).2.
Proof.
  intros Hw. unfold nos_timer_start.
  destruct (find_thread_of_component n self) as [th|] eqn:Hth; [|done].
  destruct t as [t|]; [|done]. destruct (n_timers n !! t) as [x|] eqn:Hx; [|done].
  destruct (n_threads n !! th) as [T|] eqn:HT; [|done].
  destruct (is_running x) eqn:Hr; [done|]. destruct (heap_full (timer_heap T)) eqn:Hf; [done|].
  simpl.
  apply (timers_wf_add n th T t x (tm_started iv (u64 (now + iv)) p self th)
    (fun T => notify (set_heap (heap_push (upd_timer t (tm_started iv (u64 (now + iv)) p self th) n) t (timer_heap T)) T)));
    done.
Qed.

Lemma timers_wf_stop self t n : timers_wf n -> timers_wf (nos_timer_stop self t n).2.
Proof.
  intros Hw. unfold nos_timer_stop. destruct t as [t|]; [|done].
  destruct (n_timers n !! t) as [x|] eqn:Hx; [|done].
  destruct (stop_thread n self x) as [th|]; [|done].
  destruct (is_running x) eqn:Hr; [|done]. simpl.
  destruct (n_threads n !! th) as [T|] eqn:HT; [|done]. simpl.
  destruct (heap_find t (timer_heap T)) as [i|] eqn:Hi; [|done]. simpl.
  apply heap_find_spec in Hi as [_ Hi].
  by eapply timers_wf_remove; [done|apply HT|apply Hx|apply Hi|..].
Qed.

Section delete.
Context (run_free : nat -> nat -> node -> node).
(** The [free_arg] function of a timer releases component memory; it does
    not touch timers or threads. *)
Hypothesis free_frame : forall f a n,
  n_timers (run_free f a n) = n_timers n /\ n_threads (run_free f a n) = n_threads n.

Lemma timers_wf_frame n n' :
  n_timers n' = n_timers n -> n_threads n' = n_threads n -> timers_wf n -> timers_wf n'.
Proof.
  intros Ht Hth [Hh Hr]. split.
  - intros th T HT. rewrite Hth in HT. destruct (Hh th T HT) as [? ? ? Hm].
    split; [done..|]. intros u. by rewrite Hm, Ht.
  - intros u x. rewrite Ht, Hth. apply Hr.
Qed.

Lemma timers_wf_free t x n :
  timers_wf n -> n_timers n !! t = Some x -> is_running x = false ->
  timers_wf (upd_timers (delete t) n).
Proof.
  intros [Hh Hr] Hx Hxr. split; simpl.
  - intros th T HT. destruct (Hh th T HT) as [? ? ? Hm]. split; [done..|].
    intros u. rewrite Hm. simpl. destruct (decide (u = t)) as [->|].
    + rewrite lookup_delete_eq, Hx. split; intros (y & Hy & Hyr & _); congruence.
    + by rewrite lookup_delete_ne.
  - intros u y Hu. apply lookup_delete_Some in Hu as [? Hu]. intros; by eapply Hr.
Qed.

Lemma timers_wf_delete t n : timers_wf n -> timers_wf (nos_timer_delete run_free t n).
Proof.
  intros Hw. unfold nos_timer_delete. destruct t as [t|]; [|done].
  destruct (n_timers n !! t) as [x|] eqn:Hx; [|done].
  set (n2 := upd_timer t tm_detached _).
  assert (timers_wf n2 /\ n_timers n2 !! t = Some (tm_detached x)) as [Hw2 Hx2].
  { unfold n2. destruct (is_running x) eqn:Hr.
    - destruct (tw_running n Hw t x Hx Hr) as (th & o & Hth & [T HT] & _).
      rewrite Hth, HT. simpl.
      assert (t ∈ live (timer_heap T)) as Hin.
      { apply (hs_mem _ _ _ (tw_heap n Hw th T HT)). by exists x. }
      destruct (heap_find_in _ _ Hin) as [i Hi]. rewrite Hi. apply heap_find_spec in Hi as [_ Hi].
      split; [by eapply timers_wf_remove; [done|apply HT|apply Hx|apply Hi|..]|].
      rewrite lookup_alter_eq. simpl. by rewrite Hx.
    - split; [|by rewrite upd_timer_eq, Hx]. split; simpl.
      + intros th T HT. destruct (tw_heap n Hw th T HT) as [? ? ? Hm]. split; [done..|].
        intros u. rewrite Hm. simpl. destruct (decide (u = t)) as [->|].
        * rewrite lookup_alter_eq, Hx. simpl.
          split; intros (y & Hy & Hyr & _); simplify_eq/=; congruence.
        * by rewrite lookup_alter_ne.
      + intros u y Hu Hy. destruct (decide (u = t)) as [->|].
        * rewrite lookup_alter_eq, Hx in Hu. by simplify_eq/=.
        * rewrite lookup_alter_ne in Hu by done. by eapply (tw_running n Hw). }
  set (n3 := match tm_free_arg x with Some f => run_free f (tm_arg x) n2 | None => n2 end).
  assert (n_timers n3 = n_timers n2 /\ n_threads n3 = n_threads n2) as [E1 E2].
  { unfold n3. destruct (tm_free_arg x); [apply free_frame|done]. }
  apply (timers_wf_free t (tm_detached x)); [|by rewrite E1|done].
  by apply (timers_wf_frame n2).
Qed.
End delete.

Lemma filter_ext_in {A} (P Q : A -> Prop) `{!forall x, Decision (P x)} `{!forall x, Decision (Q x)}
    (l : list A) :
  (forall x, x ∈ l -> P x <-> Q x) -> filter P l = filter Q l.
Proof.
  induction l as [|a l IH]; intros Hpq; [done|]. rewrite !filter_cons.
  rewrite IH by (intros x Hx; apply Hpq; by right). specialize (Hpq a ltac:(by left)).
  by rewrite (decide_ext _ _ _ _ Hpq).
Qed.

(** Scanning the heap: the owner's timers are detached, the others are kept
    in order. *)
Lemma cancel_fold o l n h :
  NoDup l -> count h + length l <= length (slots h) ->
  exists m h', fold_left (cancel_step o) l (n, h) = (upd_timers (fun _ => m) n, h') /\
    (forall t, m !! t = if decide (t ∈ l /\ owned_by n o t = true)
                        then tm_detached <$> n_timers n !! t else n_timers n !! t) /\
    live h' = live h ++ filter (fun t => owned_by n o t = false) l /\
    length (slots h') = length (slots h) /\ count h' <= count h + length l.
Proof.
  revert n h. induction l as [|t l IH]; intros n h Hnd Hc; cbn [fold_left length cancel_step].
  { exists (n_timers n), h. split_and!; [by destruct n|..|done|lia].
    - intros t. rewrite decide_False; [done|]. intros [Hin _]. by apply not_elem_of_nil in Hin.
    - by rewrite app_nil_r. }
  apply NoDup_cons in Hnd as [Hni Hnd]. simpl in Hc.
  destruct (owned_by n o t) eqn:Ho.
  - destruct (IH (upd_timer t tm_detached n) h Hnd ltac:(lia)) as (m & h' & Hf & Hm & Hl & Hs & Hcnt).
    assert (forall u, u <> t -> owned_by (upd_timer t tm_detached n) o u = owned_by n o u) as Hou.
    { intros u Hu. unfold owned_by. by rewrite upd_timer_ne. }
    exists m, h'. rewrite filter_cons_False by (by rewrite Ho). split_and!; [exact Hf|..|done|lia].
    + intros u. rewrite Hm. destruct (decide (u = t)) as [->|Hu].
      * rewrite decide_False by tauto. rewrite decide_True by (split; [by left|done]).
        by rewrite upd_timer_eq.
      * rewrite Hou, upd_timer_ne by done. apply decide_ext. rewrite elem_of_cons. tauto.
    + rewrite Hl. f_equal. apply filter_ext_in. intros u Hin. rewrite Hou; [done|]. by intros ->.
  - destruct (IH n (carr_push t h) Hnd) as (m & h' & Hf & Hm & Hl & Hs & Hcnt).
    { simpl. rewrite length_insert. lia. }
    exists m, h'. rewrite filter_cons_True by done. split_and!; [exact Hf|..].
    + intros u. rewrite Hm. apply decide_ext. rewrite elem_of_cons.
      split; [tauto|]. intros [[->|] Hu]; [congruence|done].
    + rewrite Hl, live_push by lia. by rewrite <-(assoc (++)).
    + rewrite Hs. simpl. by rewrite length_insert.
    + simpl in Hcnt. lia.
Qed.

(** What cancelling leaves behind. *)
Definition cancel_post (th : thread_ptr) (o : comp_ptr) (T : nos_thread) (n n' : node) : Prop :=
  (forall t, n_timers n' !! t =
     if decide (t ∈ live (timer_heap T) /\ owned_by n o t = true)
     then tm_detached <$> n_timers n !! t else n_timers n !! t) /\
  (forall th', th' <> th -> n_threads n' !! th' = n_threads n !! th') /\
  (exists h', n_threads n' !! th = Some (set_heap h' T) /\
     live h' ≡ₚ filter (fun t => owned_by n o t = false) (live (timer_heap T)) /\
     length (slots h') = length (slots (timer_heap T)) /\
     count h' <= count (timer_heap T) /\ heap_ordered n' h').

Lemma cancel_post_holds th o T n :
  n_threads n !! th = Some T -> heap_struct n th (timer_heap T) ->
  cancel_post th o T n (nos_scheduler_cancel_timers_by_owner (Some th) (Some o) n).
Proof.
  intros HT [Hl Hc Hnd Hm]. unfold nos_scheduler_cancel_timers_by_owner. rewrite HT.
  pose proof (length_live (timer_heap T) ltac:(unfold carr_wf; lia)) as Hlen.
  destruct (cancel_fold o (live (timer_heap T)) n (CArr (slots (timer_heap T)) 0) Hnd)
    as (m & h & Hf & Hmt & Hlv & Hs & Hcnt); [simpl; lia|].
  rewrite Hf. simpl in Hlv, Hs, Hcnt.
  set (n1 := upd_timers (fun _ => m) n).
  destruct (build_heap_spec (timer_key n1) (count h) (slots h) ltac:(lia)) as (Hh & Hp & Hd & Hlb).
  unfold cancel_post. split_and!.
  - intros t. simpl. apply Hmt.
  - intros th' Hne. simpl. by rewrite lookup_alter_ne.
  - eexists. split_and!; [simpl; by rewrite lookup_alter_eq, HT|..].
    + unfold live. simpl. rewrite Hp. fold (live h). by rewrite Hlv.
    + simpl. by rewrite Hlb.
    + simpl. lia.
    + exact Hh.
Qed.

Lemma timers_wf_cancel th o n :
  timers_wf n -> timers_wf (nos_scheduler_cancel_timers_by_owner th o n).
Proof.
  intros Hw. destruct th as [th|]; [|done]. destruct o as [o|]; [|done].
  destruct (n_threads n !! th) as [T|] eqn:HT; [|by unfold nos_scheduler_cancel_timers_by_owner; rewrite HT].
  pose proof (tw_heap n Hw th T HT) as Hs.
  pose proof (cancel_post_holds th o T n HT Hs) as (Hm & Hthr & h' & Hth & Hp & Hl & Hc & _).
  set (n' := nos_scheduler_cancel_timers_by_owner _ _ n) in *.
  assert (forall u y, n_timers n' !! u = Some y -> is_running y = true ->
    n_timers n !! u = Some y /\ ~ (u ∈ live (timer_heap T) /\ owned_by n o u = true)) as Hrun.
  { intros u y Hu Hy. rewrite Hm in Hu. case_decide; [|done].
    apply fmap_Some in Hu as (z & _ & ->). done. }
  split.
  - intros th2 T2 HT2. destruct (decide (th2 = th)) as [->|Hne].
    + rewrite Hth in HT2. simplify_eq. simpl. split; [destruct Hs; congruence|destruct Hs; lia|..].
      * rewrite Hp. apply NoDup_filter. by destruct Hs.
      * intros u. rewrite Hp, list_elem_of_filter, (hs_mem _ _ _ Hs). split.
        -- intros [Ho (y & Hy & Hyr & Hyt)]. exists y. split_and!; [|done..]. rewrite Hm.
           rewrite decide_False; [done|]. intros [_ E]. congruence.
        -- intros (y & Hy & Hyr & Hyt). destruct (Hrun u y Hy Hyr) as [Hy' Hno].
           split; [|eauto]. destruct (owned_by n o u) eqn:E; [|done]. destruct Hno. split; [|done].
           apply (hs_mem _ _ _ Hs). eauto.
    + rewrite Hthr in HT2 by done. destruct (tw_heap n Hw th2 T2 HT2) as [? ? ? Hm2].
      split; [done..|]. intros u. rewrite Hm2. split; intros (y & Hy & Hyr & Hyt).
      * exists y. split_and!; [|done..]. rewrite Hm. rewrite decide_False; [done|].
        intros [Hin _]. apply (hs_mem _ _ _ Hs) in Hin as (z & ? & ? & ?). congruence.
      * destruct (Hrun u y Hy Hyr) as [? _]. eauto.
  - intros u y Hy Hyr. destruct (Hrun u y Hy Hyr) as [Hy' _].
    destruct (tw_running n Hw u y Hy' Hyr) as (th2 & o2 & Ht2 & Hs2 & Ho2).
    exists th2, o2. split_and!; [done| |done]. destruct (decide (th2 = th)) as [->|].
    + rewrite Hth. by eexists.
    + by rewrite Hthr.
Qed.

(** ** One pass of [process_timers] *)

Definition due (now : Z) (n : node) (t : timer_ptr) : bool := (timer_key n t <=? now)%Z.

Definition owner_up (n : node) (x : nos_timer) : bool :=
  match owner_active n x with Some b => b | None => false end.

(** Its callback runs when it is due, and it is put back afterwards. *)
Definition fires (n : node) (t : timer_ptr) : bool :=
  match n_timers n !! t with
  | Some x => owner_up n x && match tm_callback x with Some _ => true | None => false end
  | None => false
  end.

Definition again (n : node) (t : timer_ptr) : bool :=
  match n_timers n !! t with Some x => is_periodic x && owner_up n x | None => false end.

(** The timer's owner exists, and a periodic timer has an interval longer than
    the pass, whose readings of the clock are from [lo] to [hi], and that does
    not wrap the 64-bit clock. *)
Definition timer_sane (lo hi : Z) (n : node) (t : timer_ptr) : Prop :=
  exists x o, n_timers n !! t = Some x /\ tm_owner x = Some o /\ is_Some (n_comps n !! o) /\
    (is_periodic x = true -> (0 <= lo /\ hi < lo + interval_ms x /\ hi + interval_ms x < 2 ^ 64)%Z).

Lemma timer_sane_frame lo hi n n' t :
  n_timers n' !! t = n_timers n !! t -> n_comps n' = n_comps n ->
  timer_sane lo hi n t -> timer_sane lo hi n' t.
Proof. intros Ht Hc (x & o & ?). exists x, o. by rewrite Ht, Hc. Qed.

(** The heap [process_timers] works on. *)
Record ready (lo hi : Z) (n : node) (h : carr timer_ptr) : Prop := {
  rd_wf : carr_wf h;
  rd_nodup : NoDup (live h);
  rd_order : heap_ordered n h;
  rd_sane : forall t, t ∈ live h -> timer_sane lo hi n t;
}.

Definition heap_of (n : node) (th : thread_ptr) : option (carr timer_ptr) :=
  timer_heap <$> n_threads n !! th.

Lemma heap_ordered_frame n n' h :
  carr_wf h -> (forall t, t ∈ live h -> n_timers n' !! t = n_timers n !! t) ->
  heap_ordered n h -> heap_ordered n' h.
Proof.
  intros Hw Ht. apply heap_ext; [|exact Hw]. intros t Hin. unfold timer_key. by rewrite Ht.
Qed.

(** What one iteration on a due timer [t] does. *)
Record fired (lo hi : Z) (t : timer_ptr) (n n' : node) (h h' : carr timer_ptr) : Prop := {
  fd_ready : ready lo hi n' h';
  fd_comps : n_comps n' = n_comps n;
  fd_other : forall u, u <> t -> n_timers n' !! u = n_timers n !! u;
  fd_mem : forall u, u ∈ live h' <-> (u = t /\ again n t = true) \/ (u <> t /\ u ∈ live h);
  fd_late : again n t = true -> (hi < timer_key n' t)%Z;
}.

Lemma fired_stopped lo hi t n n' h h' x :
  ready lo hi n h -> carr_wf h' -> live h ≡ₚ t :: live h' -> heap_ordered n h' ->
  n_comps n' = n_comps n -> (forall u, u <> t -> n_timers n' !! u = n_timers n !! u) ->
  n_timers n !! t = Some x -> again n t = false -> fired lo hi t n n' h h'.
Proof.
  intros [Hw Hnd Ho Hs] Hw' Hp Ho' Hc Ht Hx Ha. rewrite Hp in Hnd. apply NoDup_cons in Hnd as [Hni Hnd].
  assert (forall u, u ∈ live h' -> u <> t) as Hne by (by intros u Hu ->).
  split; [split|..]; try done.
  - apply (heap_ordered_frame n); auto.
  - intros u Hu. apply (timer_sane_frame lo hi n); [auto..|]. apply Hs. rewrite Hp. by right.
  - intros u. rewrite Hp, elem_of_cons, Ha. split; [intros Hu|].
    + right. auto.
    + by intros [[_ ?]|[? [?|?]]].
  - by rewrite Ha.
Qed.

Lemma fired_rearmed lo hi e t n n' h h1 x y :
  ready lo hi n h -> (lo <= e <= hi)%Z -> carr_wf h1 -> count h1 < length (slots h1) ->
  live h ≡ₚ t :: live h1 -> heap_ordered n h1 ->
  n_comps n' = n_comps n -> (forall u, u <> t -> n_timers n' !! u = n_timers n !! u) ->
  n_timers n !! t = Some x -> again n t = true ->
  n_timers n' !! t = Some y -> is_periodic y = is_periodic x -> interval_ms y = interval_ms x ->
  tm_owner y = tm_owner x -> expire_at_ms y = u64 (e + interval_ms x) ->
  fired lo hi t n n' h (heap_push n' t h1).
Proof.
  intros [Hw Hnd Ho Hs] He Hw1 Hlt Hp Ho1 Hc Ht Hx Ha Hy Hyp Hyi Hyo Hye.
  rewrite Hp in Hnd. pose proof Hnd as Hnd1. apply NoDup_cons in Hnd as [Hni Hnd].
  assert (forall u, u ∈ live h1 -> u <> t) as Hne by (by intros u Hu ->).
  destruct (Hs t) as (x' & o & Hx' & Hxo & Hco & Hi); [rewrite Hp; by left|].
  simplify_eq. unfold again in Ha. rewrite Hx in Ha. bool_hyps.
  destruct (Hi H) as (Hi1 & Hi2 & Hi3).
  split; [split|..]; try done.
  - unfold carr_wf. rewrite heap_push_slots by done. simpl. lia.
  - by rewrite live_heap_push.
  - apply heap_push_ordered; [done|]. apply (heap_ordered_frame n); auto.
  - intros u. rewrite live_heap_push, elem_of_cons by done. intros [->|Hu].
    + exists y, o. rewrite Hy, Hc, Hyp, Hyi, Hyo. done.
    + apply (timer_sane_frame lo hi n); [auto..|]. apply Hs. rewrite Hp. by right.
  - intros u. rewrite live_heap_push, elem_of_cons by done. unfold again. rewrite Hx, Hp, elem_of_cons.
    rewrite H, H0. simpl. split; [intros [->|Hu]; auto|].
    intros [[-> _]|[? [?|?]]]; auto.
  - intros _. unfold timer_key. rewrite Hy, Hye, u64_small by lia. lia.
Qed.

(** What a pass leaves behind: the callbacks of the due timers that can fire
    have run, once each and in the order of their expiry; the due timers that
    are not periodic are gone, and nothing in the heap is due any more. *)
Record pass_post (now : Z) (n n' : node) (h h' : carr timer_ptr) (ran : list timer_ptr) : Prop := {
  pp_ran_nodup : NoDup ran;
  pp_ran : forall t, t ∈ ran <-> t ∈ live h /\ due now n t = true /\ fires n t = true;
  pp_sorted : StronglySorted (fun a b => timer_key n a <= timer_key n b)%Z ran;
  pp_nodup : NoDup (live h');
  pp_live : forall t, t ∈ live h' <-> t ∈ live h /\ (due now n t = true -> again n t = true);
  pp_later : forall t, t ∈ live h' -> (now < timer_key n' t)%Z;
  pp_order : heap_ordered n' h';
}.

Lemma pass_nothing_due lo hi now n h :
  ready lo hi n h -> (forall t, t ∈ live h -> due now n t = false) -> pass_post now n n h h [].
Proof.
  intros [Hw Hnd Ho Hs] Hd. split; try done; [constructor| |constructor| |].
  - intros t. split; [by intros ?%not_elem_of_nil|]. intros (Hin & Hdt & _). by rewrite Hd in Hdt.
  - intros t. split; [|tauto]. intros Hin. split; [done|]. by rewrite Hd.
  - intros t Hin. specialize (Hd t Hin). unfold due in Hd. by bool_hyps.
Qed.

Lemma root_key n h t l u :
  carr_wf h -> heap_ordered n h -> live h = t :: l -> u ∈ live h ->
  (timer_key n t <= timer_key n u)%Z.
Proof.
  intros Hw Ho Hl Hu. apply list_elem_of_lookup in Hu as [i Hi].
  pose proof (live_lookup_lt _ _ _ Hi) as Hlt.
  pose proof (heap_root_min (timer_key n) (count h) (slots h) i Ho Hlt) as Hm.
  unfold kat in Hm. rewrite <-!live_lookup in Hm by lia. by rewrite Hi, Hl in Hm.
Qed.

(** One iteration followed by a pass over what it left is a pass. *)
Lemma pass_step lo hi now t l n n1 n' h h1 h' ran :
  ready lo hi n h -> (now <= hi)%Z -> live h = t :: l -> due now n t = true ->
  fired lo hi t n n1 h h1 -> pass_post now n1 n' h1 h' ran ->
  pass_post now n n' h h' ((if fires n t then [t] else []) ++ ran).
Proof.
  intros Hr Hnow Hl Hd [_ Hc Ho Hm Hlate] [Hnd Hran Hsort Hnd' Hlive Hlater Hord].
  assert (t ∈ live h) as Hin by (rewrite Hl; by left).
  assert (forall u, u <> t -> timer_key n1 u = timer_key n u) as Hk
    by (intros u Hu; unfold timer_key; by rewrite Ho).
  assert (forall u, u <> t -> fires n1 u = fires n u /\ again n1 u = again n u) as Hfa.
  { intros u Hu. unfold fires, again, owner_up, owner_active. by rewrite Ho, Hc by done. }
  assert (forall u, u <> t -> due now n1 u = due now n u) as Hdu
    by (intros u Hu; unfold due; by rewrite Hk).
  assert (again n t = true -> due now n1 t = false) as Ht.
  { intros Ha. specialize (Hlate Ha). unfold due. apply Z.leb_gt. lia. }
  assert (forall u, u ∈ ran -> u <> t /\ u ∈ live h) as Hne.
  { intros u [Hu1 [Hu2 _]]%Hran. apply Hm in Hu1 as [[-> Ha]|Hu1]; [|done].
    rewrite Ht in Hu2 by done. done. }
  split; try done.
  - destruct (fires n t); [|done]. simpl. constructor; [|done]. intros Hu. by apply Hne in Hu as [].
  - intros u. rewrite elem_of_app, Hran, Hm. destruct (decide (u = t)) as [->|Hu].
    + destruct (fires n t) eqn:Hf.
      * rewrite list_elem_of_singleton. tauto.
      * split; [|intros (_ & _ & ?); done].
        intros [?%not_elem_of_nil|([[_ Ha]|[? _]] & Hdt & _)]; [done|by rewrite Ht in Hdt|done].
    + destruct (Hfa u Hu) as [-> _]. rewrite (Hdu u Hu).
      destruct (fires n t); rewrite ?list_elem_of_singleton, ?elem_of_nil; tauto.
  - assert (StronglySorted (fun a b => timer_key n a <= timer_key n b)%Z ran) as Hs2.
    { clear -Hsort Hne Hk. induction Hsort as [|a k Hk1 IH Hk2]; constructor.
      - apply IH. intros u Hu. apply Hne. by right.
      - rewrite List.Forall_forall in *. intros u Hu%list_elem_of_In. rewrite <-!Hk.
        + by apply Hk2, list_elem_of_In.
        + apply Hne. by right.
        + apply Hne. by left. }
    destruct (fires n t); [|done]. simpl. constructor; [done|].
    apply List.Forall_forall. intros u Hu%list_elem_of_In.
    destruct Hr as [Hw _ Hor _]. eapply root_key; [done..|]. by apply Hne.
  - intros u. rewrite Hlive, Hm. destruct (decide (u = t)) as [->|Hu].
    + split; [intros [[[_ Ha]|[? _]] _]; done|]. intros [_ Ha]. specialize (Ha Hd).
      split; [by left|]. by rewrite Ht.
    + destruct (Hfa u Hu) as [_ ->]. rewrite (Hdu u Hu). tauto.
Qed.

Section process_spec.
Context (clk : nat -> Z) (run_cb : nat -> nat -> node -> node) .
(** The clock does not go back. *)
Hypothesis clk_mono : forall i j, i <= j -> (clk i <= clk j)%Z.
(** Callbacks send messages and work on their own state; they leave timers,
    components and timer heaps alone. *)
Hypothesis cb_frame : forall cb a n,
  n_timers (run_cb cb a n) = n_timers n /\ n_comps (run_cb cb a n) = n_comps n /\
  forall th, heap_of (run_cb cb a n) th = heap_of n th.

Lemma fire_frame t x act n tr :
  let r := fire_timer run_cb t x act n tr in
  n_timers r.1 = n_timers n /\ n_comps r.1 = n_comps n /\
  (forall th, heap_of r.1 th = heap_of n th) /\
  r.2 = (if act && match tm_callback x with Some _ => true | None => false end
         then tr ++ [t] else tr).
Proof.
  unfold fire_timer. destruct (tm_callback x) as [cb|], act; simpl; try done.
  destruct (cb_frame cb (tm_arg x) n) as (? & ? & ?). done.
Qed.

Lemma pop_timer_facts lo hi self t T l n x :
  n_threads n !! self = Some T -> ready lo hi n (timer_heap T) ->
  live (timer_heap T) = t :: l -> n_timers n !! t = Some x ->
  let n1 := pop_timer self t n in
  let h1 := heap_delete n 0 (timer_heap T) in
  heap_of n1 self = Some h1 /\ n_timers n1 !! t = Some (tm_stopped x) /\
  n_comps n1 = n_comps n /\ (forall u, u <> t -> n_timers n1 !! u = n_timers n !! u) /\
  live (timer_heap T) ≡ₚ t :: live h1 /\ heap_ordered n h1 /\
  carr_wf h1 /\ count h1 < length (slots h1).
Proof.
  intros HT [Hw Hnd Ho Hs] Hl Hx n1 h1. subst n1 h1.
  assert (live (timer_heap T) !! 0 = Some t) as H0 by (by rewrite Hl).
  pose proof (live_lookup_lt _ _ _ H0) as Hc.
  pose proof (heap_delete_slots n 0 _ Hw) as Hsl. unfold carr_wf in *.
  assert (count (heap_delete n 0 (timer_heap T)) = count (timer_heap T) - 1) as Hcnt by done.
  split_and!; try lia.
  - unfold heap_of. simpl. by rewrite lookup_alter_eq, HT.
  - simpl. by rewrite lookup_alter_eq, Hx.
  - done.
  - intros u Hu. simpl. by rewrite lookup_alter_ne.
  - by apply live_heap_delete.
  - by apply heap_pop_ordered.
Qed.

Lemma owner_active_stopped n x o :
  tm_owner x = Some o -> is_Some (n_comps n !! o) -> owner_active n x = Some (owner_up n x).
Proof. intros Ho [c Hc]. unfold owner_up, owner_active. by rewrite Ho, Hc. Qed.

Lemma owner_active_ext n n' x y :
  n_comps n' = n_comps n -> tm_owner x = tm_owner y -> owner_active n' x = owner_active n y.
Proof. intros Hc Ho. unfold owner_active. by rewrite Hc, Ho. Qed.

Lemma rearm_done self t e n T y :
  n_threads n !! self = Some T -> n_timers n !! t = Some y ->
  count (timer_heap T) < length (slots (timer_heap T)) ->
  exists n' , rearm self t e n = Done n' /\ n_comps n' = n_comps n /\
    (forall u, u <> t -> n_timers n' !! u = n_timers n !! u) /\
    n_timers n' !! t = Some (tm_set_running true (tm_set_expire e y)) /\
    heap_of n' self = Some (heap_push n' t (timer_heap T)).
Proof.
  intros HT Hy Hc. unfold rearm. simpl. rewrite HT. unfold heap_full.
  destruct (Nat.leb_spec (length (slots (timer_heap T))) (count (timer_heap T))); [lia|].
  eexists. split_and!; [done|done|..].
  - intros u Hu. simpl. by rewrite !lookup_alter_ne.
  - simpl. by rewrite !lookup_alter_eq, Hy.
  - unfold heap_of. simpl. by rewrite lookup_alter_eq, HT.
Qed.

Lemma process_step lo hi fuel self k tr T t l n :
  n_threads n !! self = Some T -> ready lo hi n (timer_heap T) -> (lo <= clk k)%Z -> (clk (S k) <= hi)%Z ->
  live (timer_heap T) = t :: l -> due (clk k) n t = true ->
  exists k' n' T', k < k' <= S (S k) /\ n_threads n' !! self = Some T' /\
    fired lo hi t n n' (timer_heap T) (timer_heap T') /\
    process_timers clk run_cb (S fuel) self k tr n =
    process_timers clk run_cb fuel self k' (if fires n t then tr ++ [t] else tr) n'.
Proof.
  intros HT Hr Hlo Hhi Hl Hd. pose proof Hr as [_ _ _ Hs].
  destruct (Hs t) as (x & o & Hx & Ho & Hco & _); [rewrite Hl; by left|].
  destruct (pop_timer_facts lo hi self t T l n x HT Hr Hl Hx) as (Hh1 & Hx1 & Hc1 & Ht1 & Hp & Ho1 & Hw1 & Hlt1).
  set (h1 := heap_delete n 0 (timer_heap T)) in *.
  cbn [process_timers]. rewrite HT, Hl, Hx.
  unfold due, timer_key in Hd. rewrite Hx in Hd. bool_hyps.
  destruct (Z.ltb_spec (clk k) (expire_at_ms x)); [lia|]. cbv zeta.
  set (n1 := pop_timer self t n) in *.
  rewrite (owner_active_ext n n1 (tm_stopped x) x), (owner_active_stopped n x o) by done.
  pose proof (fire_frame t (tm_stopped x) (owner_up n x) n1 tr) as (Ht2 & Hc2 & Hh2 & Htr).
  destruct (fire_timer _ t _ _ n1 tr) as [n2 tr2]. cbn [fst snd tm_callback tm_stopped] in Ht2, Hc2, Hh2, Htr.
  rewrite Ht2, Hx1. cbn [is_periodic interval_ms tm_stopped]. specialize (Hh2 self). rewrite Hh1 in Hh2.
  apply fmap_Some in Hh2 as (T2 & HT2 & Hh2).
  assert (tr2 = if fires n t then tr ++ [t] else tr) as -> by (unfold fires; by rewrite Hx).
  assert (forall u, u <> t -> n_timers n2 !! u = n_timers n !! u) as Ho2
    by (intros; rewrite Ht2; auto).
  rewrite (owner_active_ext n n2 (tm_stopped x) x) by (try done; congruence).
  rewrite (owner_active_stopped n x o) by done.
  destruct (is_periodic x && owner_up n x) eqn:Ha.
  - apply andb_prop in Ha as [Hper Hup]. rewrite Hper, Hup.
    destruct (rearm_done self t (u64 (clk (S k) + interval_ms x)) n2 T2 (tm_stopped x) HT2)
      as (n3 & -> & Hc3 & Ho3 & Hx3 & Hh3); [congruence|by rewrite <-Hh2|].
    apply fmap_Some in Hh3 as (T3 & HT3 & Hh3). rewrite <-Hh2 in Hh3.
    do 3 eexists. split; [|split; [exact HT3|]; split; [|done]]; [lia|]. rewrite <-Hh3.
    pose proof (clk_mono k (S k) ltac:(lia)).
    eapply (fired_rearmed lo hi (clk (S k))); try done; [lia|congruence| |].
    + intros u Hu. rewrite Ho3; auto.
    + unfold again. by rewrite Hx, Hper, Hup.
  - assert ((if is_periodic x then Some (owner_up n x) else Some false) = Some false) as ->.
    { destruct (is_periodic x); [|done]. simpl in Ha. by rewrite Ha. }
    do 3 eexists. split; [|split; [exact HT2|]; split; [|done]]; [lia|]. rewrite <-Hh2.
    apply (fired_stopped lo hi t n n2 _ _ x); try done.
    unfold again. by rewrite Hx.
Qed.

Lemma process_pass lo hi fuel self k tr T D n :
  n_threads n !! self = Some T -> ready lo hi n (timer_heap T) ->
  (lo <= clk k)%Z -> (clk (k + 2 * length D) <= hi)%Z ->
  (forall u, u ∈ live (timer_heap T) -> due hi n u = true -> u ∈ D) -> length D < fuel ->
  exists k' n' T' ran,
    process_timers clk run_cb fuel self k tr n = Done (n', S k', tr ++ ran) /\
    k <= k' <= k + 2 * length D /\ n_threads n' !! self = Some T' /\
    pass_post (clk k') n n' (timer_heap T) (timer_heap T') ran.
Proof.
  revert k tr T D n. induction fuel as [|fuel IH]; intros k tr T D n HT Hr Hlo Hhi HD Hlen; [lia|].
  destruct (live (timer_heap T)) as [|t l] eqn:Hl.
  { exists k, n, T, []. cbn [process_timers]. rewrite HT, Hl, app_nil_r. split_and!; [done|lia..|done|].
    apply (pass_nothing_due lo hi); [done|]. rewrite Hl. by intros ? ?%not_elem_of_nil. }
  rewrite <-Hl in HD. destruct (due (clk k) n t) eqn:Hd.
  - assert (t ∈ D) as Hin.
    { apply HD; [rewrite Hl; by left|]. pose proof (clk_mono k (k + 2 * length D) ltac:(lia)).
      unfold due in *. bool_hyps. apply Z.leb_le. lia. }
    pose proof (length_filter_lt (fun u => u <> t) D t Hin ltac:(tauto)) as Hlt.
    pose proof (clk_mono (S k) (k + 2 * length D) ltac:(lia)).
    destruct (process_step lo hi fuel self k tr T t l n HT Hr Hlo ltac:(lia) Hl Hd) as (k1 & n1 & T1 & Hk1 & HT1 & Hf & ->).
    set (D1 := filter (fun u => u <> t) D) in *.
    pose proof (clk_mono k k1 ltac:(lia)). pose proof (clk_mono (k1 + 2 * length D1) (k + 2 * length D) ltac:(lia)).
    destruct (IH k1 (if fires n t then tr ++ [t] else tr) T1 D1 n1 HT1)
      as (k' & n' & T' & ran & -> & Hk' & HT' & Hpost); [apply Hf|lia..| |lia|].
    + intros u Hu Hdu. apply (fd_mem _ _ _ _ _ _ _ Hf) in Hu as [[-> Ha]|[Hne Hu]].
      * pose proof (fd_late _ _ _ _ _ _ _ Hf Ha). unfold due in Hdu. bool_hyps. lia.
      * apply list_elem_of_filter. split; [done|]. apply HD; [done|].
        unfold due, timer_key in *. by rewrite (fd_other _ _ _ _ _ _ _ Hf) in Hdu.
    + pose proof (clk_mono k k' ltac:(lia)). pose proof (clk_mono k' (k + 2 * length D) ltac:(lia)).
      exists k', n', T', ((if fires n t then [t] else []) ++ ran). split_and!; [|lia..|done|].
      * destruct (fires n t); simpl; by rewrite <-?app_assoc.
      * apply (pass_step lo hi _ t l n n1 n' _ (timer_heap T1)); try done; [lia|].
        unfold due in *. bool_hyps. apply Z.leb_le. lia.
  - exists k, n, T, []. pose proof Hr as [Hw _ Ho Hs].
    destruct (Hs t) as (x & o & Hx & _); [rewrite Hl; by left|].
    cbn [process_timers]. rewrite HT, Hl, Hx, app_nil_r.
    pose proof Hd as Hd'. unfold due, timer_key in Hd'. rewrite Hx in Hd'. bool_hyps.
    destruct (Z.ltb_spec (clk k) (expire_at_ms x)); [|lia]. split_and!; [done|lia..|done|].
    apply (pass_nothing_due lo hi); [done|]. intros u Hu.
    pose proof (root_key n _ t l u Hw Ho Hl Hu). unfold due, timer_key in *.
    rewrite Hx in *. apply Z.leb_gt. lia.
Qed.

(** C19. One pass of [process_timers], with a clock that goes on during the
    pass but less than the interval of any periodic timer, and with callbacks
    that leave timers, components and heaps alone ([cb_frame]; the callbacks
    of the repository send messages and log): the pass ends after at most one
    iteration per timer in the heap plus one and two readings of the clock
    per iteration.  By its last reading [clk k'] it has run exactly the
    callbacks of the timers due by then whose owner is active, once each and
    in the order of their expiry, has put the periodic ones back, and leaves
    a heap in order with nothing due in it. *)
Theorem process_timers_spec fuel self k hi T n :
  n_threads n !! self = Some T -> ready (clk k) hi n (timer_heap T) ->
  (clk (k + 2 * count (timer_heap T)) <= hi)%Z -> count (timer_heap T) < fuel ->
  exists k' n' T' ran,
    process_timers clk run_cb fuel self k [] n = Done (n', S k', ran) /\
    k <= k' <= k + 2 * count (timer_heap T) /\ n_threads n' !! self = Some T' /\
    pass_post (clk k') n n' (timer_heap T) (timer_heap T') ran.
Proof.
  intros HT Hr Hhi Hf. pose proof (length_live (timer_heap T) (rd_wf _ _ _ _ Hr)) as Hlen.
  destruct (process_pass (clk k) hi fuel self k [] T (live (timer_heap T)) n HT Hr)
    as (k' & n' & T' & ran & H); rewrite ?Hlen in *; [done..|].
  by exists k', n', T', ran.
Qed.
End process_spec.

(** ** Properties of the timer operations *)

(** The operations on timers, and the two halves of an iteration of
    [process_timers]. *)
Inductive timer_step (run_free : nat -> nat -> node -> node) : node -> node -> Prop :=
  | ts_create ok cb arg fa n : timer_step run_free n (nos_timer_create ok cb arg fa n).1
  | ts_start now self t iv p n : timer_step run_free n (nos_timer_start now self t iv p n).2
  | ts_stop self t n : timer_step run_free n (nos_timer_stop self t n).2
  | ts_delete t n : timer_step run_free n (nos_timer_delete run_free t n)
  | ts_cancel th o n : timer_step run_free n (nos_scheduler_cancel_timers_by_owner th o n)
  | ts_pop th T t l n :
      n_threads n !! th = Some T -> live (timer_heap T) = t :: l ->
      timer_step run_free n (pop_timer th t n)
  | ts_rearm th t x o e n n' :
      n_timers n !! t = Some x -> is_running x = false ->
      tm_owner_thread x = Some th -> tm_owner x = Some o ->
      rearm th t e n = Done n' -> timer_step run_free n n'.

Lemma timers_wf_pop th T t l n :
  timers_wf n -> n_threads n !! th = Some T -> live (timer_heap T) = t :: l ->
  timers_wf (pop_timer th t n).
Proof.
  intros Hw HT Hl. pose proof (tw_heap n Hw th T HT) as Hs.
  assert (t ∈ live (timer_heap T)) as Hin by (rewrite Hl; by left).
  apply (hs_mem _ _ _ Hs) in Hin as (x & Hx & _).
  eapply (timers_wf_remove n th T t x tm_stopped _ 0); try done. by rewrite Hl.
Qed.

Lemma upd_timer_twice t f g n : upd_timer t f (upd_timer t g n) = upd_timer t (f ∘ g) n.
Proof.
  unfold upd_timer, upd_timers. simpl. f_equal. apply map_eq. intros k.
  destruct (decide (t = k)) as [<-|Hne]; [|by rewrite !lookup_alter_ne].
  rewrite !lookup_alter_eq. by destruct (n_timers n !! t).
Qed.

Lemma timers_wf_stopped t g n x :
  timers_wf n -> n_timers n !! t = Some x -> is_running x = false -> is_running (g x) = false ->
  timers_wf (upd_timer t g n).
Proof.
  intros [Hh Hr] Hx Hxr Hg. split; simpl.
  - intros th T HT. destruct (Hh th T HT) as [? ? ? Hm]. split; [done..|].
    intros u. rewrite Hm. simpl. destruct (decide (u = t)) as [->|].
    + rewrite lookup_alter_eq, Hx. simpl. split; intros (y & Hy & Hyr & _); simplify_eq/=; congruence.
    + by rewrite lookup_alter_ne.
  - intros u y Hu Hy. destruct (decide (u = t)) as [->|].
    + rewrite lookup_alter_eq, Hx in Hu. simplify_eq/=. congruence.
    + rewrite lookup_alter_ne in Hu by done. by eapply Hr.
Qed.

Lemma timers_wf_rearm th t x o e n n' :
  timers_wf n -> n_timers n !! t = Some x -> is_running x = false ->
  tm_owner_thread x = Some th -> tm_owner x = Some o -> rearm th t e n = Done n' -> timers_wf n'.
Proof.
  intros Hw Hx Hxr Hth Ho. unfold rearm. cbn [n_threads upd_timer upd_timers].
  destruct (n_threads n !! th) as [T|] eqn:HT; [|done].
  destruct (heap_full (timer_heap T)) eqn:Hf; intros [= <-].
  - rewrite upd_timer_twice. by apply (timers_wf_stopped t _ n x).
  - change (upd_timers (alter (tm_set_running true) t) (upd_timers (alter (tm_set_expire e) t) n))
      with (upd_timer t (tm_set_running true) (upd_timer t (tm_set_expire e) n)).
    rewrite !upd_timer_twice.
    apply (timers_wf_add n th T t x (tm_set_running true ∘ tm_set_expire e)
      (fun T => set_heap (heap_push (upd_timer t (tm_set_running true ∘ tm_set_expire e) n) t (timer_heap T)) T));
      done.
Qed.


(** What a successful start of [t] on [th] does. *)
Definition start_post (now : Z) (self : comp_ptr) (t : timer_ptr) (iv : Z) (p : bool)
    (th : thread_ptr) (T : nos_thread) (x : nos_timer) (n n' : node) : Prop :=
  n_timers n' !! t = Some (tm_started iv (u64 (now + iv)) p self th x) /\
  (forall u, u <> t -> n_timers n' !! u = n_timers n !! u) /\
  (forall th', th' <> th -> n_threads n' !! th' = n_threads n !! th') /\
  (exists h, n_threads n' !! th = Some (notify (set_heap h T)) /\
     live h ≡ₚ t :: live (timer_heap T) /\
     (heap_ordered n (timer_heap T) -> heap_ordered n' h)).

(** C34. [nos_timer_start] on a well-formed node: it fails without a change
    when the caller is on no thread, the timer is running or the heap is
    full; otherwise the timer runs on the caller's thread, joins that heap,
    which keeps its order, the thread is woken and nothing else changes. *)
Theorem nos_timer_start_spec now self t x iv p n :
  timers_wf n -> n_timers n !! t = Some x ->
  let res := nos_timer_start now self (Some t) iv p n in
  match find_thread_of_component n self ≫= fun th => pair th <$> n_threads n !! th with
  | None => res = (NOS_ERR, n)
  | Some (th, T) =>
      if is_running x || (TIMER_CAPACITY <=? count (timer_heap T)) then res = (NOS_ERR, n)
      else res.1 = NOS_OK /\ start_post now self t iv p th T x n res.2
  end.
Proof.
  intros Hw Hx. unfold nos_timer_start.
  destruct (find_thread_of_component n self) as [th|] eqn:Hth; cbn [mbind option_bind]; [|done]. rewrite Hx.
  destruct (n_threads n !! th) as [T|] eqn:HT; cbn [fmap option_fmap option_map]; [|done].
  pose proof (tw_heap n Hw th T HT) as Hs. unfold heap_full. rewrite (hs_len _ _ _ Hs).
  destruct (is_running x) eqn:Hr; cbn [orb]; [done|].
  destruct (Nat.leb_spec TIMER_CAPACITY (count (timer_heap T))); [done|].
  set (n1 := upd_timer t _ n). split; [done|].
  assert (count (timer_heap T) < length (slots (timer_heap T))) as Hlt by (rewrite (hs_len _ _ _ Hs); lia).
  split_and!.
  - simpl. by rewrite lookup_alter_eq, Hx.
  - intros u Hu. simpl. by rewrite lookup_alter_ne.
  - intros th' Hne. simpl. by rewrite lookup_alter_ne.
  - exists (heap_push n1 t (timer_heap T)). split_and!.
    + simpl. by rewrite lookup_alter_eq, HT.
    + by apply live_heap_push.
    + intros Ho. change (heap_ordered n1 (heap_push n1 t (timer_heap T))).
      apply heap_push_ordered; [done|]. apply (heap_ordered_frame n); [by apply (heap_struct_wf n th)| |done].
      intros u Hu. simpl. rewrite lookup_alter_ne; [done|]. intros ->.
      apply (hs_mem _ _ _ Hs) in Hu as (y & ? & ? & _). congruence.
Qed.

(** C36. [nos_scheduler_cancel_timers_by_owner] detaches exactly the owner's
    timers in the thread's heap, keeps the others, and rebuilds the heap so
    that it is in order whatever it was before. *)
Theorem cancel_timers_by_owner_spec th o T n :
  timers_wf n -> n_threads n !! th = Some T ->
  cancel_post th o T n (nos_scheduler_cancel_timers_by_owner (Some th) (Some o) n).
Proof. intros Hw HT. apply cancel_post_holds; [done|]. by apply (tw_heap n Hw). Qed.

(** C35. [nos_timer_stop] on a running timer takes it out of the heap it is
    in; the heap keeps its order when the last timer, which takes the freed
    place, is not earlier than that place's parent. *)
Theorem nos_timer_stop_spec self t x th T n :
  timers_wf n -> n_timers n !! t = Some x -> is_running x = true ->
  tm_owner_thread x = Some th -> n_threads n !! th = Some T ->
  exists i h, heap_find t (timer_heap T) = Some i /\
    nos_timer_stop self (Some t) n =
      (NOS_OK, upd_timer t tm_detached (upd_thread th (set_heap h) n)) /\
    live (timer_heap T) ≡ₚ t :: live h /\
    (heap_ordered n (timer_heap T) -> replacement_fits n i (timer_heap T) -> heap_ordered n h).
Proof.
  intros Hw Hx Hr Hth HT. pose proof (tw_heap n Hw th T HT) as Hs.
  pose proof (heap_struct_wf _ _ _ Hs) as Hcw.
  assert (t ∈ live (timer_heap T)) as Hin by (apply (hs_mem _ _ _ Hs); eauto).
  destruct (heap_find_in _ _ Hin) as [i Hi]. pose proof (heap_find_spec _ _ _ Hi) as [Hlt Hl].
  exists i, (heap_delete n i (timer_heap T)). split_and!; [done|..].
  - unfold nos_timer_stop, stop_thread. rewrite Hx, Hth, Hr. simpl. rewrite HT. simpl. rewrite Hi.
    f_equal. f_equal. unfold upd_thread, upd_threads. f_equal.
    apply map_eq. intros k. rewrite !lookup_alter. case_decide; [subst|done]. by rewrite HT.
  - by apply live_heap_delete.
  - intros. by apply heap_delete_ordered.
Qed.

(** A periodic timer cannot be stopped from its own callback: while the
    callback runs the timer counts as stopped, [nos_timer_stop] answers
    NOS_ERR without a change, and the loop puts the timer back. *)
Theorem self_stop_ignored clk run_cb fuel self th T t x l o cb k tr n :
  n_threads n !! th = Some T -> live (timer_heap T) = t :: l -> timers_wf n ->
  n_timers n !! t = Some x -> (expire_at_ms x <= clk k)%Z ->
  tm_owner x = Some o -> comp_active n o = true -> is_periodic x = true ->
  tm_callback x = Some cb -> (forall a m, run_cb cb a m = (nos_timer_stop self (Some t) m).2) ->
  exists n', process_timers clk run_cb (S fuel) th k tr n =
             process_timers clk run_cb fuel th (S (S k)) (tr ++ [t]) n' /\
    n_timers n' !! t = Some (tm_set_expire (u64 (clk (S k) + interval_ms x)) x).
Proof.
  intros HT Hl Hw Hx Hd Ho Ha Hp Hcb Hrun. pose proof (tw_heap n Hw th T HT) as Hs.
  pose proof (heap_struct_wf _ _ _ Hs) as Hcw.
  assert (is_running x = true) as Hxr.
  { assert (t ∈ live (timer_heap T)) as Hin by (rewrite Hl; by left).
    apply (hs_mem _ _ _ Hs) in Hin as (y & ? & ? & _). congruence. }
  cbn [process_timers]. rewrite HT, Hl, Hx. destruct (Z.ltb_spec (clk k) (expire_at_ms x)); [lia|].
  cbv zeta. set (n1 := pop_timer th t n).
  assert (n_timers n1 !! t = Some (tm_stopped x)) as Hx1 by (simpl; by rewrite lookup_alter_eq, Hx).
  assert (owner_active n1 (tm_stopped x) = Some true) as Hoa.
  { unfold comp_active in Ha. unfold owner_active. simpl. rewrite Ho. simpl.
    destruct (n_comps n !! o); [simpl; by rewrite Ha|done]. }
  rewrite Hoa. unfold fire_timer. simpl tm_callback. rewrite Hcb, Hrun.
  assert ((nos_timer_stop self (Some t) n1).2 = n1) as ->.
  { unfold nos_timer_stop. rewrite Hx1. by destruct (stop_thread n1 self (tm_stopped x)). }
  rewrite Hx1. cbn [is_periodic interval_ms tm_stopped]. rewrite Hp, Hoa.
  assert (n_threads n1 !! th = Some (set_heap (heap_delete n 0 (timer_heap T)) T)) as HT1
    by (simpl; by rewrite lookup_alter_eq, HT).
  assert (live (timer_heap T) !! 0 = Some t) as H0 by (by rewrite Hl).
  pose proof (live_lookup_lt _ _ _ H0) as Hc.
  destruct (rearm_done th t (u64 (clk (S k) + interval_ms x)) n1 _ (tm_stopped x) HT1 Hx1)
    as (n2 & -> & _ & _ & Hx2 & _).
  { cbn [timer_heap set_heap]. rewrite heap_delete_slots by done.
    unfold carr_wf in Hcw. simpl. lia. }
  exists n2. split; [done|]. rewrite Hx2. f_equal. by destruct x; simpl in *; subst.
Qed.

(** A periodic timer started with interval 0 keeps [process_timers]
    running for ever: however the clock advances and however many iterations
    are allowed, the loop has not ended. *)
Theorem zero_interval_never_ends clk run_cb fuel self h t x o k tr n :
  (forall cb a m, n_timers (run_cb cb a m) = n_timers m /\ n_comps (run_cb cb a m) = n_comps m /\
     forall th, heap_of (run_cb cb a m) th = heap_of m th) ->
  (forall k, 0 <= clk k <= clk (S k) /\ clk k < 2 ^ 64)%Z ->
  heap_of n self = Some h -> live h = [t] -> carr_wf h ->
  n_timers n !! t = Some x -> is_periodic x = true -> interval_ms x = 0%Z ->
  tm_owner x = Some o -> comp_active n o = true -> (expire_at_ms x <= clk k)%Z ->
  process_timers clk run_cb fuel self k tr n = Fuel.
Proof.
  intros Hcb Hclk. revert h x k tr n.
  induction fuel as [|fuel IH]; intros h x k tr n Hh Hl Hw Hx Hp Hi Ho Ha Hd; [done|].
  apply fmap_Some in Hh as (T & HT & ->).
  cbn [process_timers]. rewrite HT, Hl, Hx. destruct (Z.ltb_spec (clk k) (expire_at_ms x)); [lia|].
  cbv zeta. set (n1 := pop_timer self t n).
  assert (forall m, n_comps m = n_comps n -> owner_active m (tm_stopped x) = Some true) as Hoa.
  { intros m Hm. unfold comp_active in Ha. unfold owner_active. rewrite Hm. simpl. rewrite Ho. simpl.
    destruct (n_comps n !! o); [simpl; by rewrite Ha|done]. }
  rewrite (Hoa n1) by done.
  pose proof (fire_frame run_cb Hcb t (tm_stopped x) true n1 tr) as (Ht2 & Hc2 & Hh2 & _).
  destruct (fire_timer _ _ _ _ _ _) as [n2 tr2]. cbn [fst snd] in Ht2, Hc2, Hh2.
  assert (n_timers n2 !! t = Some (tm_stopped x)) as Hx2
    by (rewrite Ht2; simpl; by rewrite lookup_alter_eq, Hx).
  rewrite Hx2. cbn [is_periodic interval_ms tm_stopped]. rewrite Hp, (Hoa n2), Hi by done.
  assert (heap_of n1 self = Some (heap_delete n 0 (timer_heap T))) as Hh1
    by (unfold heap_of; simpl; by rewrite lookup_alter_eq, HT).
  specialize (Hh2 self). rewrite Hh1 in Hh2. apply fmap_Some in Hh2 as (T2 & HT2 & Hh2).
  assert (live (timer_heap T) !! 0 = Some t) as H0 by (by rewrite Hl).
  pose proof (live_lookup_lt _ _ _ H0) as Hc.
  pose proof (live_heap_delete n 0 t _ Hw H0) as Hp1. rewrite Hl in Hp1.
  apply (Permutation_cons_inv (l:=[])), Permutation_nil in Hp1.
  assert (count (timer_heap T2) < length (slots (timer_heap T2))) as Hlt.
  { rewrite <-Hh2, heap_delete_slots by done. unfold carr_wf in Hw.
    assert (count (heap_delete n 0 (timer_heap T)) = count (timer_heap T) - 1) by done. lia. }
  destruct (rearm_done self t (u64 (clk (S k) + 0)) n2 T2 (tm_stopped x) HT2 Hx2 Hlt)
    as (n3 & -> & Hc3 & _ & Hx3 & Hh3).
  destruct (Hclk (S k)) as [[? ?] ?]. rewrite Z.add_0_r, u64_small in * by lia.
  eapply IH; [exact Hh3| | |exact Hx3|done..| |].
  - apply Permutation_singleton_r. by rewrite live_heap_push, <-Hh2, Hp1.
  - unfold carr_wf. rewrite heap_push_slots by done. simpl. lia.
  - unfold comp_active in *. by rewrite Hc3, Hc2.
  - simpl. lia.
Qed.

(** ** A concrete node *)

(** One management thread hosting an active component. *)
Definition demo_comp : nos_component := Comp 1 "demo" NOS_COMP_ST_ACTIVE None None None (Some 0).

Definition demo_thread : nos_thread :=
  Thread 0 "mgmt_worker" false false (ring_init MAX_QUEUE_SIZE)
         (carr_push (Some 0) (CArr (replicate MAX_COMP_PER_THREAD None) 0))
         (CArr (replicate MAX_FDS (FdEntry 0 None 0)) 0) [] 0
         (CArr (replicate TIMER_CAPACITY 0) 0).

Definition demo_node : node :=
  Node {[0 := demo_comp]} ∅ {[0 := demo_thread]} None
       (CArr (replicate MAX_COMPONENTS_PER_NODE (Loaded None None "" None)) 0)
       (Some 0) [] 0 Registry.registry_static demo_pool.

(** Create one timer per interval and start each at time 0 for component 0. *)
Fixpoint start_all (periodic : bool) (ivs : list Z) (n : node) : node :=
  match ivs with
  | [] => n
  | iv :: ivs =>
      let '(n1, t) := nos_timer_create true (Some 0) 0 None n in
      start_all periodic ivs (nos_timer_start 0 0 t iv periodic n1).2
  end.

(** The expiry times in heap order. *)
Definition heap_keys (n : node) : list Z :=
  match heap_of n 0 with Some h => timer_key n <$> live h | None => [] end.

Definition no_cb : nat -> nat -> node -> node := fun _ _ n => n.

Lemma demo_node_wf : timers_wf demo_node.
Proof.
  split.
  - intros th T HT. unfold demo_node in HT. cbn [n_threads] in HT.
    apply lookup_singleton_Some in HT as [<- <-]. split; try done.
    + simpl. lia.
    + constructor.
    + intros t. split; [by intros ?%not_elem_of_nil|]. by intros (x & Hx & _).
  - by intros t x Hx.
Qed.

Lemma start_all_wf p ivs n : timers_wf n -> timers_wf (start_all p ivs n).
Proof.
  revert n. induction ivs as [|iv ivs IH]; intros n Hw; [done|]. simpl.
  apply IH. apply timers_wf_start. exact (timers_wf_create true (Some 0) 0 None n Hw).
Qed.

(** A decision procedure for heap order, for concrete nodes. *)
Definition heap_orderedb (key : nat -> Z) (m : nat) (l : list nat) : bool :=
  forallb (fun i => (i =? 0) || (kat key l (parent i) <=? kat key l i)%Z) (seq 0 m).

Lemma heap_orderedb_spec n h :
  heap_orderedb (timer_key n) (count h) (slots h) = true -> heap_ordered n h.
Proof.
  unfold heap_orderedb. rewrite forallb_forall. intros Hf i Hi Hp.
  specialize (Hf i (proj2 (in_seq _ _ _) (conj (Nat.le_0_l i) (proj2 Hi)))).
  destruct (Nat.eqb_spec i 0); [lia|]. simpl in Hf. by bool_hyps.
Qed.

Definition demo_heap (n : node) : carr timer_ptr := default (CArr [] 0) (heap_of n 0).

(** Stopping a timer can break the heap order and make another timer
    miss its deadline: seven timers with deadlines 1, 4, 2, 5, 7, 6, 3 are
    started on one thread, the one with deadline 5 is stopped, and the pass
    at time 3 runs the callbacks of the timers due at 1 and 2 but leaves the
    timer due at 3 in the heap. *)
Theorem timer_stop_delays_timer :
  let n := start_all false [1; 4; 2; 5; 7; 6; 3]%Z demo_node in
  let n' := (nos_timer_stop 0 (Some 3) n).2 in
  heap_keys n = [1; 4; 2; 5; 7; 6; 3]%Z /\ heap_ordered n (demo_heap n) /\
  (nos_timer_stop 0 (Some 3) n).1 = NOS_OK /\ ~ heap_ordered n' (demo_heap n') /\
  match process_timers (fun _ => 3%Z) no_cb 20 0 0 [] n' with
  | Done (n'', _, ran) => ran = [0; 2] /\ heap_keys n'' = [4; 3; 6; 7]%Z
  | _ => False
  end.
Proof.
  split_and!; try by vm_compute.
  - apply heap_orderedb_spec. by vm_compute.
  - intros Hh. specialize (Hh 3 ltac:(vm_compute; lia) ltac:(vm_compute; lia)).
    by vm_compute in Hh.
Qed.

Definition run_none : nat -> nat -> node -> node := fun _ _ n => n.

Definition demo_timers : node := start_all false [30; 10; 20]%Z demo_node.

Lemma demo_timers_wf : timers_wf demo_timers.
Proof. apply start_all_wf, demo_node_wf. Qed.

Definition demo_timer (n : node) (t : timer_ptr) : nos_timer :=
  default (Timer 0 0 false None None 0 false None None) (n_timers n !! t).
Definition demo_th (n : node) : nos_thread := default demo_thread (n_threads n !! 0).


Lemma nos_timer_start_spec_witness :
  heap_keys (nos_timer_start 7 0 (Some 3) 8 true
    (nos_timer_create true None 0 None demo_timers).1).2 = [10; 15; 20; 30]%Z /\
  start_post 7 0 3 8 true 0 (demo_th demo_timers)
    (Timer 0 0 false None None 0 false None None)
    (nos_timer_create true None 0 None demo_timers).1
    (nos_timer_start 7 0 (Some 3) 8 true (nos_timer_create true None 0 None demo_timers).1).2.
Proof.
  split; [by vm_compute|].
  assert (forall now self t x iv p n th T, timers_wf n -> n_timers n !! t = Some x ->
    find_thread_of_component n self = Some th -> n_threads n !! th = Some T -> is_running x = false ->
    TIMER_CAPACITY <=? count (timer_heap T) = false ->
    start_post now self t iv p th T x n (nos_timer_start now self (Some t) iv p n).2) as H.
  { intros now self t x iv p n th T Hw Hx E1 E2 E3 E4.
    pose proof (nos_timer_start_spec now self t x iv p n Hw Hx) as H.
    rewrite E1 in H. cbn [mbind option_bind] in H. rewrite E2 in H.
    cbn [fmap option_fmap option_map] in H. rewrite E3, E4 in H. apply H. }
  apply H; [exact (timers_wf_create true None 0 None _ demo_timers_wf)|by vm_compute..].
Defined.

Lemma cancel_timers_by_owner_spec_witness :
  cancel_post 0 0 (demo_th demo_timers) demo_timers
    (nos_scheduler_cancel_timers_by_owner (Some 0) (Some 0) demo_timers).
Proof. apply cancel_timers_by_owner_spec; [exact demo_timers_wf|by vm_compute]. Defined.

Lemma nos_timer_stop_spec_witness :
  exists i h, heap_find 1 (timer_heap (demo_th demo_timers)) = Some i /\
    nos_timer_stop 0 (Some 1) demo_timers =
      (NOS_OK, upd_timer 1 tm_detached (upd_thread 0 (set_heap h) demo_timers)) /\
    live (timer_heap (demo_th demo_timers)) ≡ₚ 1 :: live h /\
    (heap_ordered demo_timers (timer_heap (demo_th demo_timers)) ->
     replacement_fits demo_timers i (timer_heap (demo_th demo_timers)) -> heap_ordered demo_timers h).
Proof.
  apply (nos_timer_stop_spec 0 1 (demo_timer demo_timers 1) 0 (demo_th demo_timers));
    [exact demo_timers_wf|by vm_compute..].
Defined.

Definition demo_periodic : node := start_all true [10]%Z demo_node.

Definition clk10 : nat -> Z := fun _ => 10%Z.
Definition stop_cb : nat -> nat -> node -> node := fun _ _ m => (nos_timer_stop 0 (Some 0) m).2.

Lemma self_stop_ignored_witness :
  exists n', process_timers clk10 stop_cb 2 0 0 [] demo_periodic =
             process_timers clk10 stop_cb 1 0 2 ([] ++ [0]) n' /\
    n_timers n' !! 0 = Some (tm_set_expire (u64 (clk10 1 + interval_ms (demo_timer demo_periodic 0)))
                              (demo_timer demo_periodic 0)).
Proof.
  refine (self_stop_ignored clk10 stop_cb 1 0 0 (demo_th demo_periodic) 0
           (demo_timer demo_periodic 0) [] 0 0 0 [] demo_periodic _ _ _ _ _ _ _ _ _ _);
    [by vm_compute..| |by vm_compute|by vm_compute|by vm_compute|by vm_compute|by vm_compute|by vm_compute|done].
  apply start_all_wf, demo_node_wf.
Defined.

Definition demo_mixed : node :=
  start_all false [10; 30]%Z (start_all true [5]%Z demo_node).

(** A clock that advances every other reading: timer 1 becomes due during the
    pass. *)
Definition clk_ticking (j : nat) : Z := (9 + Z.of_nat (Nat.div2 j))%Z.

Lemma process_timers_spec_witness :
  exists k' n' T' ran,
    process_timers clk_ticking run_none 4 0 0 [] demo_mixed = Done (n', S k', ran) /\
    0 <= k' <= 0 + 2 * count (timer_heap (demo_th demo_mixed)) /\ n_threads n' !! 0 = Some T' /\
    pass_post (clk_ticking k') demo_mixed n' (timer_heap (demo_th demo_mixed)) (timer_heap T') ran.
Proof.
  apply (process_timers_spec clk_ticking run_none) with (hi := 12%Z);
    [|done|by vm_compute| |by vm_compute|by vm_compute; lia].
  { intros i j H. unfold clk_ticking.
    rewrite !Nat.div2_div. pose proof (Nat.Div0.div_le_mono i j 2 H). lia. }
  assert (live (timer_heap (demo_th demo_mixed)) = [0; 1; 2]) as Hl by (by vm_compute).
  split.
  - unfold carr_wf. apply Nat.leb_le. by vm_compute.
  - rewrite Hl. apply (bool_decide_eq_true_1 (NoDup [0; 1; 2])). by vm_compute.
  - apply heap_orderedb_spec. by vm_compute.
  - rewrite Hl. intros t Ht. exists (demo_timer demo_mixed t), 0.
    apply elem_of_cons in Ht as [->|[->|[->|[]%not_elem_of_nil]%elem_of_cons]%elem_of_cons];
      (split_and!; [by vm_compute|by vm_compute|by eexists; vm_compute|vm_compute; intuition congruence]).
Defined.

Lemma zero_interval_never_ends_witness :
  process_timers (fun _ => 0%Z) run_none 50 0 0 [] (start_all true [0]%Z demo_node) = Fuel.
Proof.
  apply (zero_interval_never_ends _ _ _ _ (demo_heap (start_all true [0]%Z demo_node)) 0
           (demo_timer (start_all true [0]%Z demo_node) 0) 0);
    try done; try (by vm_compute); try (intros; lia).
  unfold carr_wf. apply Nat.leb_le. by vm_compute.
Defined.
