(* ===== verification/Scheduler.v ===== *)
(** * The thread scheduler (src/core/nos_scheduler.c)

    Thread objects and their component lists, message routing and delivery,
    the purge of a provider's queued messages, descriptor registration.  The
    timers are in Timer.v, the event loop in RunLoop.v, the service registry
    in Service.v.

    The IPC layer is reached through the class [IpcTransport]; what a
    component's callbacks do is a parameter of the operations that call
    them. *)

From stdpp Require Import base list sets gmap strings.
From S2P Require Import Prelude CArray Ring Mem Buffer Service Node Timer.
Import Registry.

(** ** What the scheduler calls in the IPC layer

    [nos_ipc_send_enqueue] and [nos_ipc_send_reply] (nos_ipc_p2p.c) change
    the buffer pool, the descriptors of the management thread and the state
    [X] of the IPC layer; Ipc.v has the implementation. *)
Class IpcTransport (X : Type) := {
  ipc_send_enqueue : string -> string -> buf_ref -> node -> X -> nos_status * node * X;
  ipc_send_reply : option nat -> Z -> buf_ref -> node -> X -> nos_status * node * X;
}.

(** ** Threads *)

Definition SIZEOF_THREAD : Z := 248.

Definition get_thread_mem_usage (t : option nos_thread) : Z :=
  match t with
  | None => 0
  | Some t => SIZEOF_THREAD + Z.of_nat MAX_COMP_PER_THREAD * 8 + Z.of_nat MAX_FDS * 24 +
              Z.of_nat MAX_QUEUE_SIZE * 8 + Z.of_nat (length (slots (timer_heap t))) * 8
  end.

Definition nos_scheduler_get_total_mem_usage (n : node) : Z :=
  fold_left (fun total th => total + get_thread_mem_usage (n_threads n !! th))%Z
    (take (n_worker_count n) (n_workers n))
    (get_thread_mem_usage (n_mgmt n ≫= fun th => n_threads n !! th)).

(** [eventfd_ok] is whether [eventfd] succeeded; when it fails the timer
    heap keeps what the thread object held. *)
Definition nos_scheduler_init_thread (eventfd_ok : bool) (id : Z) (name : string)
    (t : option nos_thread) : nos_status * option nos_thread :=
  match t with
  | None => (NOS_ERR, None)
  | Some t =>
      let t1 heap := Thread id name false false (ring_init MAX_QUEUE_SIZE)
                       (CArr (replicate MAX_COMP_PER_THREAD None) 0)
                       (CArr (replicate MAX_FDS (FdEntry 0 None 0)) 0) [] 0 heap in
      if eventfd_ok then (NOS_OK, Some (t1 (CArr (replicate TIMER_CAPACITY 0) 0)))
      else (NOS_ERR, Some (t1 (timer_heap t)))
  end.

(** [while (head != tail) { release(q[head]); head = next; }]; the queue has
    [ring_size] slots, so that many iterations empty it. *)
Fixpoint flush_queue (fuel : nat) (q : ring buf_ref) (p : pool) : ring buf_ref * pool :=
  match fuel with
  | O => (q, p)
  | S fuel =>
      if ring_empty q then (q, p)
      else flush_queue fuel (ring_advance q) (nos_buffer_release (ring_front q) p)
  end.

(** The queued messages are released; the arrays of the thread are freed. *)
Definition nos_scheduler_deinit_thread (th : option thread_ptr) (n : node) : node :=
  match th with
  | None => n
  | Some th =>
      match n_threads n !! th with
      | None => n
      | Some T =>
          let '(q, p) := flush_queue (ring_size (msg_queue T)) (msg_queue T) (n_pool n) in
          upd_pool (fun _ => p)
            (upd_thread th (fun T =>
               Thread (t_id T) (t_name T) (stop_requested T) (is_sleeping T)
                      (Ring [] (r_head q) (r_tail q)) (CArr [] (count (components T)))
                      (CArr [] (count (fd_entries T))) [] (t_notify T)
                      (CArr [] (count (timer_heap T)))) n)
      end
  end.

Definition nos_scheduler_register_component (th : option thread_ptr) (c : option comp_ptr)
    (n : node) : nos_status * node :=
  match th, c with
  | Some th, Some c =>
      match n_threads n !! th with
      | None => (NOS_ERR, n)
      | Some T =>
          if MAX_COMP_PER_THREAD <=? count (components T) then (NOS_ERR, n)
          else (NOS_OK, upd_thread th
                  (fun T => notify (set_components (carr_push (Some c) (components T)) T)) n)
      end
  | _, _ => (NOS_ERR, n)
  end.

Definition nos_scheduler_unregister_component (th : option thread_ptr) (c : option comp_ptr)
    (n : node) : nos_status * node :=
  match th, c with
  | Some th, Some c =>
      match n_threads n !! th ≫= fun T =>
              carr_find (fun x => bool_decide (x = Some c)) (components T) with
      | Some i => (NOS_OK, upd_thread th
                     (fun T => set_components (carr_remove_swap i (components T)) T) n)
      | None => (NOS_ERR, n)
      end
  | _, _ => (NOS_ERR, n)
  end.

(** ** Descriptors *)

(** [epoll_ok] is whether [epoll_ctl(ADD)] succeeded; the slot is taken in
    either case.  The event mask goes to the kernel and is not kept: events
    are inputs of the loop, and which ones an edge-triggered registration
    delivers is a matter of those inputs. *)
Definition nos_scheduler_add_fd_ex (epoll_ok : bool) (th : option thread_ptr) (fd : Z)
    (cb : option nat) (arg : nat) (n : node) : nos_status * node :=
  match th ≫= fun th => pair th <$> n_threads n !! th with
  | None => (NOS_ERR, n)
  | Some (th, T) =>
      if MAX_FDS <=? count (fd_entries T) then (NOS_ERR, n)
      else
        (if epoll_ok then NOS_OK else NOS_ERR,
         upd_thread th (fun T =>
           set_fds (carr_push (FdEntry fd cb arg) (fd_entries T))
             (if epoll_ok then (fd, count (fd_entries T)) :: t_epoll T else t_epoll T) T) n)
  end.

Definition nos_scheduler_add_fd (epoll_ok : bool) (th : option thread_ptr) (fd : Z)
    (cb : option nat) (arg : nat) (n : node) : nos_status * node :=
  nos_scheduler_add_fd_ex epoll_ok th fd cb arg n.

(** [epoll_ctl(DEL)] drops the interest in [fd]; the slots of the others
    stay what they were registered with. *)
Definition nos_scheduler_remove_fd (th : option thread_ptr) (fd : Z) (n : node)
    : nos_status * node :=
  match th ≫= fun th => pair th <$> n_threads n !! th with
  | None => (NOS_ERR, n)
  | Some (th, T) =>
      let ep := filter (fun e => e.1 <> fd) (t_epoll T) in
      match carr_find (fun e => (fe_fd e =? fd)%Z) (fd_entries T) with
      | Some i => (NOS_OK, upd_thread th
                     (fun T => set_fds (carr_remove_swap i (fd_entries T)) ep T) n)
      | None => (NOS_ERR, upd_thread th (fun T => set_fds (fd_entries T) ep T) n)
      end
  end.

(** The entry an event on [fd] is handed to: [events[i].data.ptr]. *)
Definition epoll_entry (fd : Z) (t : nos_thread) : option nos_fd_entry :=
  List.find (fun e => (e.1 =? fd)%Z) (t_epoll t) ≫= fun e => slots (fd_entries t) !! e.2.

(** ** Routing *)

Definition info_has_id (n : node) (id : Z) (i : loaded_comp_info) : bool :=
  match li_comp i ≫= fun c => n_comps n !! c with
  | Some c => (c_id c =? id)%Z
  | None => false
  end.

Definition find_loaded_component_info (n : node) (id : Z) : option loaded_comp_info :=
  carr_find (info_has_id n id) (n_loaded n) ≫= fun i => live (n_loaded n) !! i.

Definition nos_transport_local_send (r : buf_ref) (th : option thread_ptr) (n : node)
    : nos_status * node :=
  match th ≫= fun th => pair th <$> n_threads n !! th with
  | None => (NOS_ERR, n)
  | Some (th, T) =>
      if ring_full (msg_queue T) then (NOS_ERR_BUSY, n)
      else
        let n1 := upd_pool (nos_buffer_retain (Some r)) n in
        let n2 := upd_thread th (fun T => set_queue (ring_put r (msg_queue T)) T) n1 in
        (NOS_OK, if is_sleeping T then upd_thread th notify n2 else n2)
  end.

(** The message is a reply addressed to a component of this node. *)
Definition is_reply (h : nos_service_msg) : bool :=
  has_flag (flags h) NOS_MSG_F_REPLY && negb (dst_component h =? 0)%Z.

Section transport.
Context {X : Type} `{!IpcTransport X}.

Definition nos_transport_remote_node_send (r : buf_ref) (node_name uds_path : string)
    (n : node) (x : X) : nos_status * node * X :=
  ipc_send_enqueue node_name uds_path r n x.

Definition nos_service_msg_send (r : option buf_ref) (n : node) (x : X)
    : nos_status * node * X :=
  match r ≫= fun r => pair r <$> buf_msg r (n_pool n) with
  | None => (NOS_ERR, n, x)
  | Some (r, h) =>
      if is_reply h then
        match find_loaded_component_info n (dst_component h) with
        | Some info => (nos_transport_local_send r (li_owner_thread info) n, x)
        | None => (NOS_ERR, n, x)
        end
      else
        match svc_lookup (dst_service h) (n_registry n) with
        | Some e =>
            if is_remote e then
              nos_transport_remote_node_send r (remote_node e) (remote_uds_path e) n x
            else (nos_transport_local_send r (local_thread e) n, x)
        | None => (NOS_ERR, n, x)
        end
  end.

(** The three header fields are rewritten before the message goes back over
    the connection the request came from. *)
Definition stamp_reply (c : nos_reply_ctx) (r : buf_ref) (p : pool) : pool :=
  let fl := match buf_msg r p with Some h => flags h | None => 0%Z end in
  buf_set_field F_dst_component (rc_requester_component c) r
    (buf_set_field F_seq (rc_corr_id c) r
      (buf_set_field F_flags (Z.lor fl NOS_MSG_F_REPLY) r p)).

Definition nos_service_reply (ctx : option nat) (r : option buf_ref) (n : node) (x : X)
    : nos_status * node * X :=
  match ctx ≫= fun a => reply_ctxs (n_pool n) !! a, r with
  | Some c, Some r =>
      ipc_send_reply (rc_ipc_conn c) (rc_ipc_generation c) r (upd_pool (stamp_reply c r) n) x
  | _, _ => (NOS_ERR, n, x)
  end.
End transport.

(** ** Delivery *)

(** [p->status == ACTIVE && p->on_msg] *)
Definition active_handler (n : node) (c : comp_ptr) : outcome (option (comp_ptr * nat)) :=
  match n_comps n !! c with
  | Some C =>
      Done (if decide (c_status C = NOS_COMP_ST_ACTIVE) then pair c <$> c_on_msg C else None)
  | None => Undef        (* the component was freed *)
  end.

(** The component a dequeued message goes to, and its handler. *)
Definition msg_dest (n : node) (h : nos_service_msg) : option comp_ptr :=
  if is_reply h then find_loaded_component_info n (dst_component h) ≫= li_comp
  else svc_lookup (dst_service h) (n_registry n) ≫= local_provider.

Definition msg_handler (n : node) (h : nos_service_msg) : outcome (option (comp_ptr * nat)) :=
  match msg_dest n h with
  | Some c => active_handler n c
  | None => Done None
  end.

(** [buf = q[head]; head = next] when the queue is not empty. *)
Definition queue_take (q : ring buf_ref) : option buf_ref * ring buf_ref :=
  if ring_empty q then (None, q) else (ring_front q, ring_advance q).

(** The deliveries made: the component and the buffer its [on_msg] got. *)
Abbreviation delivery := (comp_ptr * buf_ref)%type.

Section deliver.
Context (run_msg : nat -> comp_ptr -> buf_ref -> node -> node).

Definition dispatch_msg (r : buf_ref) (h : nos_service_msg) (n : node) (trace : list delivery)
    : outcome (node * list delivery) :=
  match msg_handler n h with
  | Done (Some (c, cb)) => Done (run_msg cb c r n, trace ++ [(c, r)])
  | Done None => Done (n, trace)
  | Fuel => Fuel
  | Undef => Undef
  end.

Fixpoint process_thread_messages (fuel : nat) (self : thread_ptr) (trace : list delivery)
    (n : node) : outcome (node * list delivery) :=
  match fuel with
  | O => Fuel
  | S fuel =>
      match n_threads n !! self with
      | None => Undef
      | Some T =>
          let '(buf, q) := queue_take (msg_queue T) in
          let n1 := upd_thread self (set_queue q) n in
          match buf with
          | None => Done (n1, trace)
          | Some r =>
              match buf_msg r (n_pool n1) with
              | None => Undef
              | Some h =>
                  match dispatch_msg r h n1 trace with
                  | Done (n2, trace) =>
                      process_thread_messages fuel self trace
                        (upd_pool (nos_buffer_release (Some r)) n2)
                  | Fuel => Fuel
                  | Undef => Undef
                  end
              end
          end
      end
  end.
End deliver.

(** ** Purging a provider's messages *)

(** Whether a queued message would go to [provider]: by the registry, or by
    the manifest's static assignment of services to component ids. *)
Definition def_targets (n : node) (pid : Z) (h : nos_service_msg) : bool :=
  match n_def n with
  | None => false
  | Some d =>
      existsb (fun s => (sd_service_id s =? dst_service h)%Z &&
                        (sd_provider_comp_id s =? pid)%Z && String.eqb (sd_node_name s) (nd_name d))
              (nd_services d)
  end.

Definition targets_provider (n : node) (provider : comp_ptr) (h : nos_service_msg) : bool :=
  match svc_lookup (dst_service h) (n_registry n) with
  | Some e => negb (is_remote e) && bool_decide (local_provider e = Some provider)
  | None => false
  end ||
  match n_comps n !! provider with Some C => def_targets n (c_id C) h | None => false end.

(** The loop over the old queue, filling the new one.  A queued pointer is
    never NULL ([queue_held] below); on one the C code would crash and the
    model stops. *)
Fixpoint drop_loop (fuel : nat) (targets : nos_service_msg -> bool)
    (q new : ring buf_ref) (p : pool) : ring buf_ref * pool :=
  match fuel with
  | O => (new, p)
  | S fuel =>
      if ring_empty q then (new, p)
      else
        match ring_front q ≫= fun r => pair r <$> buf_msg r p with
        | None => (new, p)
        | Some (r, h) =>
            if targets h then drop_loop fuel targets (ring_advance q) new
                                (nos_buffer_release (Some r) p)
            else drop_loop fuel targets (ring_advance q) (ring_put r new) p
        end
  end.

Definition nos_scheduler_drop_messages_for_provider (calloc_ok : bool) (th : option thread_ptr)
    (provider : option comp_ptr) (n : node) : node :=
  match th ≫= fun th => pair th <$> n_threads n !! th, provider with
  | Some (th, T), Some c =>
      if calloc_ok then
        let '(q, p) := drop_loop (ring_size (msg_queue T)) (targets_provider n c)
                         (msg_queue T) (ring_init MAX_QUEUE_SIZE) (n_pool n) in
        upd_pool (fun _ => p) (upd_thread th (set_queue q) n)
      else n
  | _, _ => n
  end.

(** ** Starting components *)

Section start.
Context (run_start : nat -> comp_ptr -> node -> nos_status * node).

Definition start_component (n : node) (c : option comp_ptr) : node :=
  match c ≫= fun c => pair c <$> n_comps n !! c with
  | None => n
  | Some (c, C) =>
      if decide (c_status C = NOS_COMP_ST_INITED) then
        match c_start C with
        | None => upd_comp c (set_status NOS_COMP_ST_ACTIVE) n
        | Some f =>
            let '(st, n1) := run_start f c n in
            upd_comp c (set_status (match st with NOS_OK => NOS_COMP_ST_ACTIVE
                                                | _ => NOS_COMP_ST_ERROR end)) n1
        end
      else n
  end.

(** The component lock is held during the loop, so the list is fixed. *)
Definition start_pending_components (self : thread_ptr) (n : node) : node :=
  match n_threads n !! self with
  | None => n
  | Some T => fold_left start_component (live (components T)) n
  end.
End start.

Definition nos_scheduler_stop (th : option thread_ptr) (n : node) : node :=
  match th with
  | None => n
  | Some th => upd_thread th (fun T => notify (set_stop true T)) n
  end.

(** ** References held by queues

    Every entry of a queue owns one reference to its buffer. *)

Definition occurrences (r : buf_ref) (l : list buf_ref) : nat := length (filter (fun s => s = r) l).

Definition queue_held (p : pool) (l : list buf_ref) : Prop :=
  forall r, r ∈ l -> ref_bin r < g_bin_count p /\
    exists b, get_buf r p = Some b /\ (Z.of_nat (occurrences r l) <= b_ref_cnt b)%Z.

Lemma occurrences_cons r s l :
  occurrences r (s :: l) = (if decide (s = r) then 1 else 0) + occurrences r l.
Proof.
  unfold occurrences. destruct (decide (s = r)).
  - by rewrite filter_cons_True.
  - by rewrite filter_cons_False.
Qed.

Lemma occurrences_pos r l : r ∈ l -> 1 <= occurrences r l.
Proof.
  intros Hin. unfold occurrences.
  assert (r ∈ filter (fun s => s = r) l) as Hf by (by apply list_elem_of_filter).
  destruct (filter _ l); [by apply not_elem_of_nil in Hf|simpl; lia].
Qed.

Lemma occurrences_not_in r l : r ∉ l -> occurrences r l = 0.
Proof.
  intros Hni. unfold occurrences. destruct (filter (fun s => s = r) l) as [|x k] eqn:E; [done|].
  destruct Hni. assert (x ∈ filter (fun s => s = r) l) as Hx by (rewrite E; by left).
  by apply list_elem_of_filter in Hx as [-> ?].
Qed.

Lemma queue_held_perm p l k : l ≡ₚ k -> queue_held p l -> queue_held p k.
Proof.
  intros Hp Hh r Hr. rewrite <-Hp in Hr. destruct (Hh r Hr) as (Hb & b & Hg & Hle).
  split; [done|]. exists b. split; [done|]. unfold occurrences in *. by rewrite <-Hp.
Qed.

Lemma queue_held_live p l r : queue_held p l -> r ∈ l -> buf_live r p.
Proof.
  intros Hh Hr. destruct (Hh r Hr) as (Hb & b & Hg & Hle). split; [done|].
  exists b. split; [done|]. pose proof (occurrences_pos r l Hr). lia.
Qed.

Lemma queue_held_tail p r l : queue_held p (r :: l) -> queue_held p l.
Proof.
  intros Hh s Hs. destruct (Hh s ltac:(by right)) as (Hb & b & Hg & Hle). split; [done|].
  exists b. split; [done|]. rewrite occurrences_cons in Hle. lia.
Qed.

Lemma buf_msg_lookup r p b :
  get_buf r p = Some b -> buf_msg r p = Some (msg_read (Z.to_nat (b_data b)) (b_raw b)).
Proof. intros Hb. unfold buf_msg. by rewrite Hb. Qed.

Lemma queue_held_msg p l r : queue_held p l -> r ∈ l -> is_Some (buf_msg r p).
Proof. intros Hh Hr. destruct (Hh r Hr) as (_ & b & Hg & _). by rewrite (buf_msg_lookup r p b). Qed.

Lemma g_bin_count_release r p : g_bin_count (nos_buffer_release r p) = g_bin_count p.
Proof. unfold nos_buffer_release. destruct r; [|done]. by repeat case_match. Qed.

(** Giving up one queue entry leaves the other entries and their messages
    intact. *)
Lemma queue_held_release p r l :
  pool_wf p -> queue_held p (r :: l) ->
  let p' := nos_buffer_release (Some r) p in
  pool_wf p' /\ queue_held p' l /\ forall s, s ∈ l -> buf_msg s p' = buf_msg s p.
Proof.
  intros Hw Hh. cbv zeta. pose proof (queue_held_live p _ r Hh ltac:(by left)) as Hl.
  destruct (Hh r ltac:(by left)) as (_ & b & Hg & Hle).
  pose proof (release_post_holds p r b Hw Hl Hg) as [Hne Heq].
  rewrite occurrences_cons, decide_True in Hle by done.
  assert (r ∈ l -> get_buf r (nos_buffer_release (Some r) p) = Some (set_ref (b_ref_cnt b - 1) b)) as Hr.
  { intros Hin. pose proof (occurrences_pos r l Hin).
    destruct (Z.eqb_spec (b_ref_cnt b) 1); [lia|]. by destruct Heq. }
  split_and!.
  - by apply pool_wf_release.
  - intros s Hs. rewrite g_bin_count_release. destruct (Hh s ltac:(by right)) as (Hb & b' & Hg' & Hle').
    split; [done|]. destruct (decide (s = r)) as [->|Hsr].
    + simplify_eq. eexists. split; [by apply Hr|]. simpl. lia.
    + exists b'. rewrite Hne by done. split; [done|]. rewrite occurrences_cons in Hle'. lia.
  - intros s Hs. destruct (decide (s = r)) as [->|Hsr].
    + rewrite (buf_msg_lookup _ _ _ Hg). by rewrite (buf_msg_lookup _ _ _ (Hr Hs)).
    + unfold buf_msg. by rewrite Hne.
Qed.

Definition release_all (l : list buf_ref) (p : pool) : pool :=
  fold_left (fun p r => nos_buffer_release (Some r) p) l p.

(** ** Taking from a queue *)

Lemma ring_rep_empty {A} (q : ring A) : ring_rep q [] -> ring_empty q = true.
Proof. intros Hq. by apply (ring_empty_rep q []). Qed.

Lemma ring_rep_nonempty {A} (q : ring A) x l : ring_rep q (x :: l) -> ring_empty q = false.
Proof.
  intros Hq. destruct (ring_empty q) eqn:E; [|done]. by apply (ring_empty_rep q _ Hq) in E.
Qed.

Lemma queue_take_nil q : ring_rep q [] -> queue_take q = (None, q).
Proof. intros Hq. unfold queue_take. by rewrite ring_rep_empty. Qed.

Lemma queue_take_cons q r l :
  ring_rep q (r :: l) -> queue_take q = (Some r, ring_advance q) /\ ring_rep (ring_advance q) l.
Proof.
  intros Hq. unfold queue_take. rewrite (ring_rep_nonempty _ _ _ Hq), (ring_front_rep _ _ _ Hq).
  split; [done|]. by eapply ring_advance_rep.
Qed.

Lemma flush_queue_spec fuel q l p :
  ring_rep q l -> length l <= fuel ->
  exists q', flush_queue fuel q p = (q', release_all l p) /\ ring_rep q' [].
Proof.
  revert q l p. induction fuel as [|fuel IH]; intros q [|r l] p Hq Hlen; simpl in *; try lia.
  - by exists q.
  - rewrite ring_rep_empty by done. by exists q.
  - rewrite (ring_rep_nonempty _ _ _ Hq), (ring_front_rep _ _ _ Hq).
    apply IH; [by eapply ring_advance_rep|lia].
Qed.

(** ** The purge *)

Definition ref_targets (targets : nos_service_msg -> bool) (p : pool) (r : buf_ref) : bool :=
  match buf_msg r p with Some h => targets h | None => false end.

Lemma drop_loop_spec targets fuel q l new k e p :
  pool_wf p -> queue_held p (l ++ k ++ e) -> ring_rep q l -> ring_rep new k ->
  length l <= fuel -> length k + length l < ring_size new ->
  let kept := filter (fun r => ref_targets targets p r = false) l in
  let gone := filter (fun r => ref_targets targets p r = true) l in
  exists new', drop_loop fuel targets q new p = (new', release_all gone p) /\
    ring_rep new' (k ++ kept) /\ ring_size new' = ring_size new /\
    pool_wf (release_all gone p) /\ queue_held (release_all gone p) ((k ++ kept) ++ e).
Proof.
  revert q l new k p. induction fuel as [|fuel IH]; intros q l new k p Hw Hh Hq Hn Hf Hsz;
    destruct l as [|r l]; simpl in Hf; try lia.
  - exists new. simpl. rewrite app_nil_r. by split_and!.
  - exists new. simpl. rewrite ring_rep_empty, app_nil_r by done. by split_and!.
  - cbn [drop_loop]. rewrite (ring_rep_nonempty _ _ _ Hq), (ring_front_rep _ _ _ Hq). cbn [mbind option_bind].
    destruct (queue_held_msg p _ r Hh ltac:(by left)) as [h Hm]. rewrite Hm. cbn [fmap option_fmap option_map].
    pose proof (ring_advance_rep _ _ _ Hq) as Hq'. simpl in Hsz.
    assert (ref_targets targets p r = targets h) as Ht by (unfold ref_targets; by rewrite Hm).
    destruct (targets h) eqn:E.
    + destruct (queue_held_release p r (l ++ k ++ e) Hw Hh) as (Hw' & Hh' & Hms).
      destruct (IH (ring_advance q) l new k _ Hw' Hh' Hq' Hn ltac:(lia) ltac:(lia))
        as (new' & Hd & Hr & Hs & Hw2 & Hh2).
      assert (forall s, s ∈ l -> ref_targets targets (nos_buffer_release (Some r) p) s = ref_targets targets p s) as Hrt.
      { intros s Hs'. unfold ref_targets. rewrite Hms; [done|]. apply elem_of_app. by left. }
      assert (forall b, filter (fun s => ref_targets targets (nos_buffer_release (Some r) p) s = b) l =
                        filter (fun s => ref_targets targets p s = b) l) as Hfe.
      { intros b. apply filter_ext_in. intros s Hs'. by rewrite Hrt. }
      rewrite !Hfe in *. exists new'.
      rewrite filter_cons_True by done. rewrite filter_cons_False by (by rewrite Ht). by split_and!.
    + assert (ring_full new = false) as Hnf.
      { destruct (ring_full new) eqn:F; [|done]. apply (ring_full_rep new k Hn) in F. lia. }
      pose proof (ring_put_rep r new k Hn Hnf) as Hn'.
      destruct (IH (ring_advance q) l (ring_put r new) (k ++ [r]) p Hw) as (new' & Hd & Hr & Hs & Hw2 & Hh2);
        [|done..|lia|rewrite ring_size_put, length_app; simpl; lia|].
      { eapply queue_held_perm; [|exact Hh]. rewrite <-(assoc (++)). simpl.
        rewrite !(assoc (++)). by rewrite Permutation_middle. }
      exists new'. rewrite filter_cons_False by (by rewrite Ht). rewrite filter_cons_True by done.
      rewrite <-(assoc (++) k) in Hr, Hh2. rewrite ring_size_put in Hs. by split_and!.
Qed.

(** ** All queues of the node *)

Definition thread_queue (T : nos_thread) : list buf_ref := ring_view (msg_queue T).

Definition queued_in (m : gmap nat nos_thread) : list buf_ref :=
  map_to_list m ≫= fun kv => thread_queue kv.2.

Definition queued (n : node) : list buf_ref := queued_in (n_threads n).

Lemma queued_in_split m th T :
  m !! th = Some T -> queued_in m ≡ₚ thread_queue T ++ queued_in (delete th m).
Proof.
  intros Hm. unfold queued_in. rewrite <-(map_to_list_delete m th T Hm). done.
Qed.

Lemma queued_in_alter m th T f :
  m !! th = Some T -> queued_in (alter f th m) ≡ₚ thread_queue (f T) ++ queued_in (delete th m).
Proof.
  intros Hm. rewrite (queued_in_split _ th (f T)) by (by rewrite lookup_alter_eq, Hm).
  assert (delete th (alter f th m) = delete th m) as ->; [|done].
  apply map_eq. intros k. destruct (decide (th = k)) as [->|].
  - by rewrite !lookup_delete_eq.
  - by rewrite !lookup_delete_ne, lookup_alter_ne.
Qed.

Lemma queued_in_same_view m th T f :
  m !! th = Some T -> thread_queue (f T) = thread_queue T -> queued_in (alter f th m) ≡ₚ queued_in m.
Proof. intros Hm Hv. by rewrite (queued_in_alter _ _ T), (queued_in_split m th T), Hv. Qed.

Record queues_ok (n : node) : Prop := {
  qo_pool : pool_wf (n_pool n);
  qo_ring : forall th T, n_threads n !! th = Some T ->
    ring_ok (msg_queue T) /\ ring_size (msg_queue T) = MAX_QUEUE_SIZE;
  qo_held : queue_held (n_pool n) (queued n);
}.

Lemma qo_rep n th T :
  queues_ok n -> n_threads n !! th = Some T -> ring_rep (msg_queue T) (thread_queue T).
Proof. intros Hq HT. destruct (qo_ring n Hq th T HT) as [Hr _]. by apply ring_ok_rep. Qed.

(** Replacing a thread's queue and the pool. *)
Lemma queues_ok_change n th T f p l :
  queues_ok n -> n_threads n !! th = Some T ->
  ring_rep (msg_queue (f T)) l -> ring_size (msg_queue (f T)) = MAX_QUEUE_SIZE ->
  pool_wf p -> queue_held p (l ++ queued_in (delete th (n_threads n))) ->
  queues_ok (upd_pool (fun _ => p) (upd_thread th f n)).
Proof.
  intros [Hp Hr Hh] HT Hq Hs Hp' Hh'. split; simpl; [done| |].
  - intros th' T' HT'. destruct (decide (th' = th)) as [->|Hne].
    + rewrite lookup_alter_eq, HT in HT'. simplify_eq/=. split; [by eexists|done].
    + rewrite lookup_alter_ne in HT' by done. by eapply Hr.
  - eapply queue_held_perm; [|exact Hh']. unfold queued. simpl.
    rewrite (queued_in_alter _ _ T) by done. unfold thread_queue. by rewrite (ring_rep_view _ _ Hq).
Qed.

Lemma queues_ok_pool n p :
  queues_ok n -> pool_wf p -> queue_held p (queued n) -> queues_ok (upd_pool (fun _ => p) n).
Proof. intros [Hp Hr Hh] Hp' Hh'. by split. Qed.

Lemma queue_held_retain p r l :
  pool_wf p -> buf_live r p -> queue_held p l ->
  queue_held (nos_buffer_retain (Some r) p) (l ++ [r]) /\ pool_wf (nos_buffer_retain (Some r) p).
Proof.
  intros Hw Hl Hh. split; [|by eapply (pool_step_wf p); [apply ps_retain|]].
  eapply queue_held_perm; [apply Permutation_cons_append|].
  destruct Hl as (Hb & b & Hg & Hr1). intros s Hs.
  unfold nos_buffer_retain. destruct (decide (s = r)) as [->|Hne].
  - split; [done|]. rewrite get_buf_upd_eq, Hg. eexists. split; [done|]. simpl.
    rewrite occurrences_cons, decide_True by done.
    destruct (decide (r ∈ l)) as [Hin|Hni].
    + destruct (Hh r Hin) as (_ & b' & Hg' & Hle). simplify_eq. lia.
    + rewrite occurrences_not_in by done. lia.
  - rewrite elem_of_cons in Hs. destruct Hs as [?|Hs]; [done|].
    destruct (Hh s Hs) as (Hbs & b' & Hg' & Hle). split; [done|].
    rewrite get_buf_upd_ne by done. exists b'. split; [done|].
    rewrite occurrences_cons, decide_False by done. done.
Qed.

Lemma local_send_ok n th T r :
  queues_ok n -> n_threads n !! th = Some T -> buf_live r (n_pool n) ->
  ring_full (msg_queue T) = false ->
  let n' := (nos_transport_local_send r (Some th) n).2 in
  queues_ok n' /\ exists T', n_threads n' !! th = Some T' /\ thread_queue T' = thread_queue T ++ [r].
Proof.
  intros Hq HT Hl Hf. unfold nos_transport_local_send. cbn [mbind option_bind]. rewrite HT.
  cbn [fmap option_fmap option_map]. rewrite Hf. cbn [snd].
  pose proof (qo_rep n th T Hq HT) as Hrep.
  pose proof (ring_put_rep r _ _ Hrep Hf) as Hrep'.
  destruct (qo_ring n Hq th T HT) as [_ Hsz].
  destruct (queue_held_retain _ r _ (qo_pool n Hq) Hl (qo_held n Hq)) as [Hh Hw].
  set (g := fun T => set_queue (ring_put r (msg_queue T)) T).
  assert (forall f, (forall U, msg_queue (f U) = ring_put r (msg_queue U)) ->
    queues_ok (upd_pool (fun _ => nos_buffer_retain (Some r) (n_pool n)) (upd_thread th f n))) as Hok.
  { intros f Hmq. apply (queues_ok_change n th T _ _ (thread_queue T ++ [r])); try done.
    - by rewrite Hmq.
    - by rewrite Hmq, ring_size_put.
    - eapply queue_held_perm; [|exact Hh]. unfold queued. rewrite (queued_in_split _ _ T) by done.
      rewrite <-!(assoc (++)). apply Permutation_app_head, Permutation_app_comm. }
  destruct (is_sleeping T) eqn:Hsl; split.
  - replace (upd_thread th notify _) with
      (upd_pool (fun _ => nos_buffer_retain (Some r) (n_pool n)) (upd_thread th (notify ∘ g) n)); [by apply Hok|].
    unfold upd_pool, upd_thread, upd_threads. simpl. f_equal. apply map_eq. intros k.
    destruct (decide (th = k)) as [<-|]; [|by rewrite !lookup_alter_ne].
    rewrite !lookup_alter_eq, HT. done.
  - eexists. split; [simpl; by rewrite !lookup_alter_eq, HT|]. unfold thread_queue. simpl.
    by rewrite (ring_rep_view _ _ Hrep').
  - by apply (Hok g).
  - eexists. split; [simpl; by rewrite lookup_alter_eq, HT|]. unfold thread_queue. simpl.
    by rewrite (ring_rep_view _ _ Hrep').
Qed.

(** The purge of one thread's queue, in a node with other threads. *)
Lemma drop_loop_ok n th T targets :
  queues_ok n -> n_threads n !! th = Some T ->
  let l := thread_queue T in
  let p := release_all (filter (fun r => ref_targets targets (n_pool n) r = true) l) (n_pool n) in
  let kept := filter (fun r => ref_targets targets (n_pool n) r = false) l in
  exists q, drop_loop (ring_size (msg_queue T)) targets (msg_queue T) (ring_init MAX_QUEUE_SIZE)
              (n_pool n) = (q, p) /\
    ring_rep q kept /\ ring_size q = MAX_QUEUE_SIZE /\ pool_wf p /\
    queue_held p (kept ++ queued_in (delete th (n_threads n))).
Proof.
  intros Hq HT. pose proof (qo_rep n th T Hq HT) as Hrep.
  destruct (qo_ring n Hq th T HT) as [_ Hsz]. pose proof Hrep as (_ & Hlen & _).
  assert (ring_size (ring_init (A:=buf_ref) MAX_QUEUE_SIZE) = MAX_QUEUE_SIZE) as Hi
    by apply length_replicate.
  destruct (drop_loop_spec targets (ring_size (msg_queue T)) (msg_queue T) (thread_queue T)
    (ring_init MAX_QUEUE_SIZE) [] (queued_in (delete th (n_threads n))) (n_pool n))
    as (q & Hd & Hr & Hs & Hw & Hh).
  - apply qo_pool, Hq.
  - eapply queue_held_perm; [|apply (qo_held n Hq)]. simpl. by apply queued_in_split.
  - done.
  - apply ring_init_rep. unfold MAX_QUEUE_SIZE. lia.
  - lia.
  - rewrite Hi. simpl. lia.
  - exists q. split_and!; try done; congruence.
Qed.

Lemma queues_ok_drop ok th c n :
  queues_ok n -> queues_ok (nos_scheduler_drop_messages_for_provider ok th c n).
Proof.
  intros Hq. unfold nos_scheduler_drop_messages_for_provider.
  destruct th as [th|]; [|done]. cbn [mbind option_bind].
  destruct (n_threads n !! th) as [T|] eqn:HT; [|done]. cbn [fmap option_fmap option_map].
  destruct c as [c|]; [|done]. destruct ok; [|done].
  pose proof (drop_loop_ok n th T (targets_provider n c) Hq HT) as (q & Hd & Hr & Hs & Hw & Hh).
  rewrite Hd. by apply (queues_ok_change n th T (set_queue q) _ _ Hq HT Hr).
Qed.

(** The operations that move messages, by the thread whose queue they work on,
    and what holders of buffers do. *)
Inductive queue_op : option thread_ptr -> node -> node -> Prop :=
  | qs_send r th n : buf_live r (n_pool n) -> queue_op th n (nos_transport_local_send r th n).2
  | qs_take th T r q n :
      n_threads n !! th = Some T -> queue_take (msg_queue T) = (Some r, q) ->
      queue_op (Some th) n (upd_thread th (set_queue q) n)
  | qs_drop ok th c n : queue_op th n (nos_scheduler_drop_messages_for_provider ok th c n)
  | qs_alloc size hr n :
      req_ok size hr -> queue_op None n (upd_pool (fun _ => (nos_buffer_alloc size hr (n_pool n)).1) n)
  | qs_retain r n :
      buf_live r (n_pool n) -> queue_op None n (upd_pool (nos_buffer_retain (Some r)) n)
  | qs_release r b n :
      (* the caller owns a reference besides those of the queues *)
      buf_live r (n_pool n) -> get_buf r (n_pool n) = Some b ->
      (Z.of_nat (occurrences r (queued n)) < b_ref_cnt b)%Z ->
      queue_op None n (upd_pool (nos_buffer_release (Some r)) n)
  | qs_edit p n :
      (* header room and in-place writes *)
      pool_step (n_pool n) p -> g_bin_count p = g_bin_count (n_pool n) ->
      (forall r, b_ref_cnt <$> get_buf r p = b_ref_cnt <$> get_buf r (n_pool n)) ->
      queue_op None n (upd_pool (fun _ => p) n).

Definition queue_step (n n' : node) : Prop := exists th, queue_op th n n'.

Lemma queue_held_alloc size hr p l :
  pool_wf p -> req_ok size hr -> queue_held p l -> queue_held (nos_buffer_alloc size hr p).1 l.
Proof.
  intros Hw Hr Hh s Hs. destruct (Hh s Hs) as (Hb & b & Hg & Hle).
  pose proof (occurrences_pos s l Hs) as Hpos.
  pose proof (alloc_post_holds p size hr Hw Hr) as Hpost.
  assert (g_bin_count (nos_buffer_alloc size hr p).1 = g_bin_count p) as Hc
    by (unfold nos_buffer_alloc; by repeat case_match).
  destruct (nos_buffer_alloc size hr p) as [p' [r|]]; simpl in *.
  - destruct Hpost as ((x & Hx & Hx0 & _) & Hne & _). rewrite Hc. split; [done|].
    exists b. rewrite Hne; [done|]. intros ->. simplify_eq. lia.
  - destruct Hpost as [-> _]. eauto.
Qed.

Lemma queue_step_ok n n' : queue_step n n' -> queues_ok n -> queues_ok n'.
Proof.
  intros [o Hs] Hq. destruct Hs as [r th n Hl|th T r q n HT Ht|ok th c n|size hr n Hr|r n Hl|r b n Hl Hb Ho|p n Hp Hc Hr].
  - destruct th as [th|]; [|done].
    destruct (n_threads n !! th) as [T|] eqn:HT.
    + destruct (ring_full (msg_queue T)) eqn:Hf; [|by apply (local_send_ok n th T r)].
      unfold nos_transport_local_send. simpl. rewrite HT. simpl. by rewrite Hf.
    + unfold nos_transport_local_send. simpl. by rewrite HT.
  - pose proof (qo_rep n th T Hq HT) as Hrep. destruct (qo_ring n Hq th T HT) as [_ Hsz].
    destruct (thread_queue T) as [|r' l] eqn:Hv.
    { by rewrite (queue_take_nil _ Hrep) in Ht. }
    destruct (queue_take_cons _ _ _ Hrep) as [Ht' Hrep']. rewrite Ht' in Ht. simplify_eq.
    apply (queues_ok_change n th T (set_queue (ring_advance (msg_queue T))) (n_pool n) l); try done.
    + apply qo_pool, Hq.
    + apply (queue_held_tail _ r). eapply queue_held_perm; [|apply (qo_held n Hq)].
      unfold queued. rewrite (queued_in_split _ _ T), Hv by done. done.
  - by apply queues_ok_drop.
  - apply queues_ok_pool; [done|by apply pool_wf_alloc, Hr; apply qo_pool|].
    apply queue_held_alloc; [by apply qo_pool|done|by apply qo_held].
  - destruct (queue_held_retain _ r _ (qo_pool n Hq) Hl (qo_held n Hq)) as [Hh Hw].
    apply (queues_ok_pool n (nos_buffer_retain (Some r) (n_pool n))); [done..|].
    apply (queue_held_tail _ r). eapply queue_held_perm; [|exact Hh].
    symmetry. apply Permutation_cons_append.
  - assert (queue_held (n_pool n) (r :: queued n)) as Hh.
    { intros s Hs. rewrite occurrences_cons. destruct (decide (r = s)) as [<-|Hne].
      - destruct Hl as [? _]. split; [done|]. exists b. split; [done|]. lia.
      - apply elem_of_cons in Hs as [?|Hs]; [done|]. by apply (qo_held n Hq). }
    destruct (queue_held_release _ r _ (qo_pool n Hq) Hh) as (Hw & Hh' & _).
    by apply (queues_ok_pool n (nos_buffer_release (Some r) (n_pool n))).
  - apply queues_ok_pool; [done|by eapply pool_step_wf; [|apply qo_pool]|].
    intros s Hs. destruct (qo_held n Hq s Hs) as (Hb & b & Hg & Hle). rewrite Hc. split; [done|].
    specialize (Hr s). rewrite Hg in Hr. simpl in Hr. apply fmap_Some in Hr as (b' & Hb' & E).
    exists b'. split; [done|]. by rewrite <-E.
Qed.

(** *** Threads that are shut down

    The arrays of a thread are freed by [nos_scheduler_deinit_thread]; nothing
    works on the queues of the threads [down] any more. *)

Definition mask (down : gset thread_ptr) (n : node) : node :=
  upd_threads (filter (fun kv => kv.1 ∉ down)) n.

Inductive sched_step : gset thread_ptr * node -> gset thread_ptr * node -> Prop :=
  | sst_queue down th n n' :
      queue_op th n n' -> (forall t, th = Some t -> t ∉ down) -> sched_step (down, n) (down, n')
  | sst_deinit down th n :
      th ∉ down ->
      sched_step (down, n) ({[th]} ∪ down, nos_scheduler_deinit_thread (Some th) n).

(** The queues of the other threads are in order, those of the threads that
    are down are empty. *)
Record sched_ok (down : gset thread_ptr) (n : node) : Prop := {
  so_queues : queues_ok (mask down n);
  so_down : forall th T, th ∈ down -> n_threads n !! th = Some T -> thread_queue T = [];
}.

Lemma mask_lookup down n th : th ∉ down -> n_threads (mask down n) !! th = n_threads n !! th.
Proof. intros Hd. apply option_eq. intros T. cbn. rewrite map_lookup_filter_Some. tauto. Qed.

Lemma mask_upd_thread down th f n : th ∉ down -> mask down (upd_thread th f n) = upd_thread th f (mask down n).
Proof.
  intros Hd. unfold mask, upd_thread, upd_threads. cbn. f_equal. apply map_eq. intros k.
  apply option_eq. intros T. rewrite map_lookup_filter_Some. cbn. destruct (decide (th = k)) as [<-|Hne].
  - rewrite !lookup_alter_eq, !fmap_Some. setoid_rewrite map_lookup_filter_Some. cbn. naive_solver.
  - by rewrite !lookup_alter_ne, map_lookup_filter_Some by done.
Qed.

Lemma mask_more down th n : mask ({[th]} ∪ down) n = upd_threads (delete th) (mask down n).
Proof.
  unfold mask, upd_threads. cbn. f_equal. apply map_eq. intros k. apply option_eq. intros T.
  rewrite lookup_delete_Some, !map_lookup_filter_Some. cbn. set_solver.
Qed.

Lemma mask_empty n : mask ∅ n = n.
Proof.
  unfold mask, upd_threads. destruct n. cbn. f_equal. apply map_filter_id.
  intros k T _. cbn. apply not_elem_of_empty.
Qed.

(** The entries of all queues are those of the threads that are up. *)
Lemma mask_queued down n :
  (forall th T, th ∈ down -> n_threads n !! th = Some T -> thread_queue T = []) -> queued (mask down n) ≡ₚ queued n.
Proof.
  unfold queued. cbn. generalize (n_threads n) as m. intros m Hd. induction m as [|k T m Hk IHm] using map_ind; [done|].
  assert (forall th U, th ∈ down -> m !! th = Some U -> thread_queue U = []) as Hd'.
  { intros th U Hin HU. apply (Hd th U Hin). rewrite lookup_insert_ne by congruence. done. }
  rewrite (queued_in_split (<[k:=T]> m) k T), delete_insert_id by (by rewrite ?lookup_insert_eq).
  destruct (decide (k ∈ down)) as [Hin|Hni].
  - rewrite map_filter_insert_False by tauto. rewrite delete_id by done.
    rewrite (Hd k T Hin) by (by rewrite lookup_insert_eq). by apply IHm.
  - rewrite map_filter_insert_True by done. rewrite (queued_in_split _ k T), delete_insert_id;
      [by rewrite IHm|apply map_lookup_filter_None; by left|by rewrite lookup_insert_eq].
Qed.

(** An operation on a thread that is up does the same without those that are
    down. *)
Lemma queue_op_mask down th n n' :
  queue_op th n n' -> (forall t, th = Some t -> t ∉ down) -> queued (mask down n) ≡ₚ queued n ->
  queue_op th (mask down n) (mask down n').
Proof.
  intros Hs Hup Hqd. destruct Hs as [r th n Hl|th T r q n HT Ht|ok th c n|size hr n Hr|r n Hl|r b n Hl Hb Ho|p n Hp Hc Hr].
  - replace (mask down (nos_transport_local_send r th n).2) with (nos_transport_local_send r th (mask down n)).2;
      [by apply qs_send|].
    destruct th as [th|]; [|done]. specialize (Hup th eq_refl). unfold nos_transport_local_send.
    cbn [mbind option_bind]. rewrite mask_lookup by done. destruct (n_threads n !! th) as [T|]; [|done].
    cbn [fmap option_fmap option_map]. destruct (ring_full (msg_queue T)); [done|].
    destruct (is_sleeping T); cbn [snd]; by rewrite !mask_upd_thread.
  - rewrite mask_upd_thread by (by apply Hup). apply (qs_take _ T r); [by rewrite mask_lookup by (by apply Hup)|done].
  - replace (mask down (nos_scheduler_drop_messages_for_provider ok th c n))
      with (nos_scheduler_drop_messages_for_provider ok th c (mask down n)); [by apply qs_drop|].
    unfold nos_scheduler_drop_messages_for_provider. destruct th as [th|]; [|done]. specialize (Hup th eq_refl).
    cbn [mbind option_bind]. rewrite mask_lookup by done. destruct (n_threads n !! th) as [T|]; [|done].
    cbn [fmap option_fmap option_map]. destruct c as [c|]; [|done]. destruct ok; [|done].
    change (targets_provider (mask down n) c) with (targets_provider n c). change (n_pool (mask down n)) with (n_pool n).
    destruct (drop_loop _ _ _ _ _) as [q p]. symmetry.
    apply (f_equal (upd_pool (fun _ => p)) (mask_upd_thread down th (set_queue q) n Hup)).
  - by apply (qs_alloc size hr (mask down n)).
  - by apply (qs_retain r (mask down n)).
  - apply (qs_release r b (mask down n)); [done..|]. unfold occurrences in *. by rewrite Hqd.
  - by apply (qs_edit p (mask down n)).
Qed.

Lemma queue_op_others th n n' k : queue_op th n n' -> th <> Some k -> n_threads n' !! k = n_threads n !! k.
Proof.
  intros Hs Hne. destruct Hs as [r th n Hl|th T r q n HT Ht|ok th c n|size hr n Hr|r n Hl|r b n Hl Hb Ho|p n Hp Hc Hr]; try done.
  - unfold nos_transport_local_send. destruct th as [th|]; [|done]. cbn [mbind option_bind].
    destruct (n_threads n !! th) as [T|]; [|done]. cbn [fmap option_fmap option_map].
    destruct (ring_full (msg_queue T)); [done|]. destruct (is_sleeping T); cbn; by rewrite ?lookup_alter_ne by congruence.
  - cbn. by rewrite lookup_alter_ne by congruence.
  - unfold nos_scheduler_drop_messages_for_provider. destruct th as [th|]; [|done]. cbn [mbind option_bind].
    destruct (n_threads n !! th) as [T|]; [|done]. cbn [fmap option_fmap option_map].
    destruct c as [c|]; [|done]. destruct ok; [|done]. destruct (drop_loop _ _ _ _ _) as [q p].
    cbn. by rewrite lookup_alter_ne by congruence.
Qed.

Lemma queue_held_release_all l k p :
  pool_wf p -> queue_held p (l ++ k) -> pool_wf (release_all l p) /\ queue_held (release_all l p) k.
Proof.
  revert p. induction l as [|r l IH]; intros p Hw Hh; [done|].
  destruct (queue_held_release p r (l ++ k) Hw Hh) as (Hw' & Hh' & _). by apply IH.
Qed.

(** The flush releases each queued message once, and leaves nothing queued. *)
Lemma deinit_flush th T n :
  n_threads n !! th = Some T -> ring_ok (msg_queue T) ->
  exists f, nos_scheduler_deinit_thread (Some th) n =
      upd_pool (fun _ => release_all (thread_queue T) (n_pool n)) (upd_thread th f n) /\
    forall U, thread_queue (f U) = [].
Proof.
  intros HT Hok. pose proof (ring_ok_rep _ Hok) as Hr. unfold nos_scheduler_deinit_thread. rewrite HT.
  pose proof Hr as (_ & Hlen & _).
  destruct (flush_queue_spec (ring_size (msg_queue T)) _ _ (n_pool n) Hr ltac:(lia)) as (q & -> & Hq). eexists. split; [done|].
  intros U. apply ring_rep_empty, Nat.eqb_eq in Hq. unfold thread_queue, ring_view, ring_len. cbn.
  by rewrite Hq, Nat.leb_refl, Nat.sub_diag.
Qed.

Lemma sched_step_ok s s' : sched_step s s' -> sched_ok s.1 s.2 -> sched_ok s'.1 s'.2.
Proof.
  intros Hs [Hq Hd]. destruct Hs as [down th n n' Hs Hup|down th n Hni]; cbn [fst snd] in *.
  - split.
    + apply (queue_step_ok (mask down n)); [|done]. exists th. apply queue_op_mask; [done..|]. by apply mask_queued.
    + intros k T Hk HT. apply (Hd k T Hk). rewrite <-(queue_op_others th n n' k); [done..|].
      intros ->. by apply (Hup k).
  - destruct (n_threads n !! th) as [T|] eqn:HT.
    + assert (n_threads (mask down n) !! th = Some T) as HTm by by rewrite mask_lookup.
      destruct (qo_ring _ Hq th T HTm) as [Hr _]. destruct (deinit_flush th T n HT Hr) as (f & -> & Hf).
      destruct (queue_held_release_all (thread_queue T) (queued_in (delete th (n_threads (mask down n)))) (n_pool n)) as [Hw Hh].
      { apply Hq. } { eapply queue_held_perm; [|apply Hq]. by apply queued_in_split. }
      split.
      * rewrite mask_more. assert (upd_threads (delete th) (mask down (upd_pool (fun _ => release_all (thread_queue T) (n_pool n)) (upd_thread th f n)))
          = upd_pool (fun _ => release_all (thread_queue T) (n_pool n)) (upd_threads (delete th) (mask down n))) as ->.
        { change (mask down (upd_pool ?g (upd_thread th f n))) with (upd_pool g (mask down (upd_thread th f n))).
          rewrite mask_upd_thread by done. unfold upd_pool, upd_threads, upd_thread. cbn. f_equal. by rewrite delete_alter, decide_True. }
        split; [done| |done]. intros k U HU. cbn in HU. apply lookup_delete_Some in HU as [_ HU]. by apply (qo_ring _ Hq k).
      * intros k U [->%elem_of_singleton|Hk]%elem_of_union HU; cbn in HU.
        -- rewrite lookup_alter_eq, HT in HU. by injection HU as <-.
        -- rewrite lookup_alter_ne in HU by congruence. by apply (Hd k).
    + assert (nos_scheduler_deinit_thread (Some th) n = n) as -> by (unfold nos_scheduler_deinit_thread; by rewrite HT).
      split.
      * replace (mask ({[th]} ∪ down) n) with (mask down n); [done|]. rewrite mask_more.
        unfold upd_threads, mask. cbn. f_equal. rewrite delete_id; [done|]. apply map_lookup_filter_None. by left.
      * intros k U [->%elem_of_singleton|Hk]%elem_of_union HU; [congruence|by apply (Hd k)].
Qed.

(** C23. No queued message is ever freed: whatever order messages are sent,
    taken, purged and their buffers retained, edited and released by their
    holders, and threads shut down, which flushes their queues, every queue
    entry of every thread owns a reference, so its buffer is live, and the
    queues of the threads that are up stay well-formed rings; and shutting
    one of them down releases each message of its queue once. *)
Theorem queued_messages_held n down n' :
  queues_ok n -> rtc sched_step (∅, n) (down, n') ->
  sched_ok down n' /\ (forall r, r ∈ queued n' -> buf_live r (n_pool n')) /\
  forall th T, th ∉ down -> n_threads n' !! th = Some T ->
    n_pool (nos_scheduler_deinit_thread (Some th) n') = release_all (thread_queue T) (n_pool n').
Proof.
  intros Hq Hs. assert (sched_ok down n') as Hok.
  { assert (forall s, rtc sched_step s (down, n') -> sched_ok s.1 s.2 -> sched_ok down n') as Hrun.
    { intros s Hrun. remember (down, n') as s' eqn:E. revert E.
      induction Hrun as [s|s1 s2 s3 Hst _ IH]; intros ->; [done|]. intros H. by apply IH, (sched_step_ok s1). }
    apply (Hrun _ Hs). split; [by rewrite mask_empty|by intros ? ? ?%not_elem_of_empty]. }
  destruct Hok as [Hq' Hd]. split_and!; [done|..].
  - intros r Hr. rewrite <-(mask_queued down n' Hd) in Hr. eapply (queue_held_live _ _ r (qo_held _ Hq')), Hr.
  - intros th T Hni HT. destruct (qo_ring _ Hq' th T) as [Hr _]; [by rewrite mask_lookup|].
    by destruct (deinit_flush th T n' HT Hr) as (f & -> & _).
Qed.

(** ** Delivery in order *)

Definition delivered (n : node) (r : buf_ref) : option delivery :=
  match msg_handler n <$> buf_msg r (n_pool n) with
  | Some (Done (Some (c, _))) => Some (c, r)
  | _ => None
  end.

(** No service is bound to a component that was freed. *)
Definition providers_live (n : node) : Prop :=
  forall id e c, svc_lookup id (n_registry n) = Some e -> local_provider e = Some c -> is_Some (n_comps n !! c).

Lemma info_has_id_live n id i : info_has_id n id i = true -> exists c, li_comp i = Some c /\ is_Some (n_comps n !! c).
Proof.
  unfold info_has_id. destruct (li_comp i) as [c|]; cbn; [|done]. intros H. exists c. split; [done|].
  destruct (n_comps n !! c); [done|done].
Qed.

Lemma msg_handler_live n h : providers_live n -> exists o, msg_handler n h = Done o.
Proof.
  intros Hp. unfold msg_handler, msg_dest. destruct (is_reply h).
  - unfold find_loaded_component_info, carr_find. destruct (find_idx _ _) as [k|] eqn:Hk; cbn; [|by eexists].
    apply find_idx_Some in Hk as (i & Hi & Hid & _). rewrite Hi. cbn.
    destruct (info_has_id_live n _ _ Hid) as (c & -> & [C HC]). unfold active_handler. rewrite HC. by eexists.
  - destruct (svc_lookup (dst_service h) (n_registry n)) as [e|] eqn:He; cbn; [|by eexists].
    destruct (local_provider e) as [c|] eqn:Hc; [|by eexists]. destruct (Hp _ _ _ He Hc) as [C HC].
    unfold active_handler. rewrite HC. by eexists.
Qed.

Lemma find_loaded_frame n n' id :
  n_comps n' = n_comps n -> n_loaded n' = n_loaded n ->
  find_loaded_component_info n' id = find_loaded_component_info n id.
Proof. intros Hc Hl. unfold find_loaded_component_info, info_has_id. by rewrite Hc, Hl. Qed.

Lemma msg_handler_frame n n' h :
  n_comps n' = n_comps n -> n_loaded n' = n_loaded n -> n_registry n' = n_registry n ->
  msg_handler n' h = msg_handler n h.
Proof.
  intros Hc Hl Hr. unfold msg_handler, msg_dest. rewrite (find_loaded_frame n n'), Hr by done.
  assert (active_handler n' = active_handler n) as -> by (unfold active_handler; by rewrite Hc).
  done.
Qed.

Lemma delivered_frame n n' r :
  n_comps n' = n_comps n -> n_loaded n' = n_loaded n -> n_registry n' = n_registry n ->
  buf_msg r (n_pool n') = buf_msg r (n_pool n) -> delivered n' r = delivered n r.
Proof.
  intros Hc Hl Hr Hm. unfold delivered. rewrite Hm. destruct (buf_msg r (n_pool n)); simpl; [|done].
  by rewrite (msg_handler_frame n n').
Qed.

Lemma omap_ext_in {A B} (f g : A -> option B) (l : list A) :
  (forall x, x ∈ l -> f x = g x) -> omap f l = omap g l.
Proof.
  induction l as [|x l IH]; intros Hfg; simpl; [done|].
  rewrite (Hfg x ltac:(by left)).
  destruct (g x); [f_equal|]; apply IH; intros y Hy; apply Hfg; by right.
Qed.

(** A message handler keeps components, loaded components and the registry,
    and of the queue it is called from: the entries with their references and
    their messages.  It may change its own state, send to its own thread,
    which puts messages [l] behind those queued, and to other threads, and use
    the buffer it was given. *)
Definition handler_frame (run_msg : nat -> comp_ptr -> buf_ref -> node -> node)
    (self : thread_ptr) : Prop :=
  forall cb c r n T q, n_threads n !! self = Some T -> ring_rep (msg_queue T) q ->
    pool_wf (n_pool n) -> queue_held (n_pool n) (r :: q) ->
    let n' := run_msg cb c r n in
    n_comps n' = n_comps n /\ n_loaded n' = n_loaded n /\ n_registry n' = n_registry n /\
    (exists T' l, n_threads n' !! self = Some T' /\ ring_rep (msg_queue T') (q ++ l) /\
       queue_held (n_pool n') (r :: q ++ l)) /\
    pool_wf (n_pool n') /\
    forall s, s ∈ q -> buf_msg s (n_pool n') = buf_msg s (n_pool n).

(** What handling a message may cost: [wt h] bounds the messages its handler
    puts on its own thread, with all that follows from them. *)
Definition weigh (wt : nos_service_msg -> nat) (p : pool) (l : list buf_ref) : nat :=
  sum_list_with (fun r => match buf_msg r p with Some h => S (wt h) | None => 1 end) l.

Definition handler_bounded (wt : nos_service_msg -> nat)
    (run_msg : nat -> comp_ptr -> buf_ref -> node -> node) (self : thread_ptr) : Prop :=
  forall cb c r h n T q T' l, n_threads n !! self = Some T -> ring_rep (msg_queue T) q ->
    pool_wf (n_pool n) -> queue_held (n_pool n) (r :: q) -> buf_msg r (n_pool n) = Some h ->
    n_threads (run_msg cb c r n) !! self = Some T' -> ring_rep (msg_queue T') (q ++ l) ->
    weigh wt (n_pool (run_msg cb c r n)) l <= wt h.

Lemma weigh_app wt p l k : weigh wt p (l ++ k) = weigh wt p l + weigh wt p k.
Proof. apply sum_list_with_app. Qed.

Lemma weigh_ext wt p p' l : (forall s, s ∈ l -> buf_msg s p' = buf_msg s p) -> weigh wt p' l = weigh wt p l.
Proof.
  induction l as [|r l IH]; intros He; [done|]. change (r :: l) with ([r] ++ l). rewrite !weigh_app.
  rewrite IH by (intros s Hs; apply He; by right). unfold weigh. cbn. by rewrite He by by left.
Qed.

Lemma weigh_zero wt p l : (forall h, wt h = 0) -> weigh wt p l <= length l.
Proof.
  intros H0. induction l as [|r l IH]; cbn; [lia|]. unfold weigh in IH.
  destruct (buf_msg r p); rewrite ?H0; lia.
Qed.

Lemma weigh_nil wt p l : weigh wt p l = 0 -> l = [].
Proof. destruct l as [|r l]; [done|]. unfold weigh. cbn. destruct (buf_msg r p); lia. Qed.

Lemma providers_live_frame n n' :
  n_comps n' = n_comps n -> n_registry n' = n_registry n -> providers_live n -> providers_live n'.
Proof. intros Hc Hr Hp id e c. rewrite Hc, Hr. apply Hp. Qed.

Section drain.
Context (run_msg : nat -> comp_ptr -> buf_ref -> node -> node) (self : thread_ptr).
Hypothesis Hframe : handler_frame run_msg self.

(** One iteration on the queue [r :: q]. *)
Lemma process_one tr T r q n :
  providers_live n -> n_threads n !! self = Some T -> ring_rep (msg_queue T) (r :: q) ->
  pool_wf (n_pool n) -> queue_held (n_pool n) (r :: q) ->
  exists n' T' l,
    (forall fuel, process_thread_messages run_msg (S fuel) self tr n =
       process_thread_messages run_msg fuel self (tr ++ option_list (delivered n r)) n') /\
    n_comps n' = n_comps n /\ n_loaded n' = n_loaded n /\ n_registry n' = n_registry n /\
    n_threads n' !! self = Some T' /\ ring_rep (msg_queue T') (q ++ l) /\
    pool_wf (n_pool n') /\ queue_held (n_pool n') (q ++ l) /\
    (forall s, s ∈ q -> buf_msg s (n_pool n') = buf_msg s (n_pool n)) /\
    (forall wt, handler_bounded wt run_msg self -> weigh wt (n_pool n') (q ++ l) < weigh wt (n_pool n) (r :: q)).
Proof.
  intros Hp HT Hq Hw Hh. destruct (queue_take_cons _ _ _ Hq) as [Ht Hq1].
  set (n1 := upd_thread self (set_queue (ring_advance (msg_queue T))) n).
  assert (n_threads n1 !! self = Some (set_queue (ring_advance (msg_queue T)) T)) as HT1
    by (simpl; by rewrite lookup_alter_eq, HT).
  destruct (queue_held_msg _ _ r Hh ltac:(by left)) as [h Hm].
  destruct (msg_handler_live n h Hp) as [o Ho].
  assert (forall fuel, process_thread_messages run_msg (S fuel) self tr n =
    process_thread_messages run_msg fuel self (tr ++ option_list (delivered n r))
      (upd_pool (nos_buffer_release (Some r))
        match o with Some (c, cb) => run_msg cb c r n1 | None => n1 end)) as Hstep.
  { intros fuel. cbn [process_thread_messages]. rewrite HT, Ht. fold n1. change (n_pool n1) with (n_pool n).
    rewrite Hm. unfold dispatch_msg, delivered. rewrite (msg_handler_frame n n1), Hm, Ho by done.
    cbn [fmap option_fmap option_map]. rewrite Ho. destruct o as [[c cb]|]; [done|]. by rewrite app_nil_r. }
  assert (exists n2 T2 l, n2 = match o with Some (c, cb) => run_msg cb c r n1 | None => n1 end /\
    n_comps n2 = n_comps n /\ n_loaded n2 = n_loaded n /\ n_registry n2 = n_registry n /\
    n_threads n2 !! self = Some T2 /\ ring_rep (msg_queue T2) (q ++ l) /\
    queue_held (n_pool n2) (r :: q ++ l) /\ pool_wf (n_pool n2) /\
    (forall s, s ∈ q -> buf_msg s (n_pool n2) = buf_msg s (n_pool n)) /\
    (forall wt, handler_bounded wt run_msg self -> weigh wt (n_pool n2) l <= wt h))
    as (n2 & T2 & l & E & Hc & Hld & Hr & HT2 & Hq2 & Hh2 & Hw2 & Hm2 & Hb).
  { destruct o as [[c cb]|].
    - destruct (Hframe cb c r n1 _ q HT1 Hq1 Hw Hh) as (Hc & Hld & Hr & (T2 & l & HT2 & Hq2 & Hh2) & Hw2 & Hm2).
      exists (run_msg cb c r n1), T2, l. split_and!; try done. intros wt Hb.
      by apply (Hb cb c r h n1 _ q T2 l HT1 Hq1).
    - exists n1, (set_queue (ring_advance (msg_queue T)) T), []. rewrite app_nil_r. split_and!; try done.
      intros wt _. cbn. lia. }
  rewrite <-E in Hstep. destruct (queue_held_release _ r _ Hw2 Hh2) as (Hw3 & Hh3 & Hm3).
  eexists _, T2, l. split; [exact Hstep|]. cbn [n_comps n_loaded n_registry n_threads n_pool upd_pool].
  split_and!; try done.
  - intros s Hs. rewrite Hm3 by (apply elem_of_app; by left). by apply Hm2.
  - intros wt Hb'. specialize (Hb wt Hb'). rewrite weigh_app.
    rewrite (weigh_ext wt (n_pool n) _ q)
      by (intros s Hs; rewrite Hm3 by (apply elem_of_app; by left); by apply Hm2).
    rewrite (weigh_ext wt (n_pool n2) _ l) by (intros s Hs; apply Hm3, elem_of_app; by right).
    change (r :: q) with ([r] ++ q). rewrite weigh_app. unfold weigh at 3. cbn. rewrite Hm. lia.
Qed.

(** The first [length l] iterations handle the messages [l] that were
    queued. *)
Lemma process_queued l tr T q n :
  providers_live n -> n_threads n !! self = Some T -> ring_rep (msg_queue T) (l ++ q) ->
  pool_wf (n_pool n) -> queue_held (n_pool n) (l ++ q) ->
  exists n' T' more,
    (forall fuel, process_thread_messages run_msg (length l + fuel) self tr n =
       process_thread_messages run_msg fuel self (tr ++ omap (delivered n) l) n') /\
    providers_live n' /\ n_threads n' !! self = Some T' /\ ring_rep (msg_queue T') (q ++ more) /\
    pool_wf (n_pool n') /\ queue_held (n_pool n') (q ++ more) /\
    (forall wt, handler_bounded wt run_msg self ->
       weigh wt (n_pool n') (q ++ more) + length l <= weigh wt (n_pool n) (l ++ q)).
Proof.
  revert tr T q n. induction l as [|r l IH]; intros tr T q n Hp HT Hq Hw Hh.
  - exists n, T, []. rewrite !app_nil_r. split_and!; try done. intros. cbn [length app]. lia.
  - destruct (process_one tr T r (l ++ q) n Hp HT Hq Hw Hh)
      as (n1 & T1 & k & Hs & Hc & Hld & Hr & HT1 & Hq1 & Hw1 & Hh1 & Hm1 & Hb1).
    rewrite <-(assoc (++)) in Hq1, Hh1.
    destruct (IH (tr ++ option_list (delivered n r)) T1 (q ++ k) n1) as (n2 & T2 & more & Hs2 & Hp2 & HT2 & Hq2 & Hw2 & Hh2 & Hb2);
      [by apply (providers_live_frame n)|done..|].
    exists n2, T2, (k ++ more). rewrite !(assoc (++)). split_and!; try done.
    + intros fuel. cbn [length Nat.add]. rewrite Hs, Hs2. f_equal. rewrite <-(assoc (++)). f_equal.
      rewrite (omap_ext_in (delivered n1) (delivered n)).
      * cbn. by destruct (delivered n r).
      * intros s Hin. apply delivered_frame; [done..|]. apply Hm1, elem_of_app. by left.
    + intros wt Hb. specialize (Hb1 wt Hb). specialize (Hb2 wt Hb). rewrite <-!(assoc (++)) in *.
      cbn [length app] in *. lia.
Qed.

(** With handlers that put boundedly many messages on their own thread the
    drain ends. *)
Lemma process_ends wt fuel tr T q n :
  handler_bounded wt run_msg self -> providers_live n -> n_threads n !! self = Some T ->
  ring_rep (msg_queue T) q -> pool_wf (n_pool n) -> queue_held (n_pool n) q -> weigh wt (n_pool n) q < fuel ->
  exists n' T' tr', process_thread_messages run_msg fuel self tr n = Done (n', tr ++ tr') /\
    n_threads n' !! self = Some T' /\ ring_rep (msg_queue T') [] /\ pool_wf (n_pool n').
Proof.
  intros Hb. revert tr T q n. induction fuel as [|fuel IH]; intros tr T q n Hp HT Hq Hw Hh Hlt; [lia|].
  destruct q as [|r q].
  - cbn [process_thread_messages]. rewrite HT, (queue_take_nil _ Hq). eexists _, _, []. rewrite app_nil_r.
    split_and!; [done|simpl; by rewrite lookup_alter_eq, HT|done..].
  - destruct (process_one tr T r q n Hp HT Hq Hw Hh)
      as (n1 & T1 & k & Hs & Hc & Hld & Hr & HT1 & Hq1 & Hw1 & Hh1 & _ & Hb1).
    destruct (IH (tr ++ option_list (delivered n r)) T1 (q ++ k) n1) as (n2 & T2 & tr' & Hs2 & H2);
      [by apply (providers_live_frame n)|done..|specialize (Hb1 wt Hb); lia|].
    exists n2, T2, (option_list (delivered n r) ++ tr'). rewrite Hs, Hs2, (assoc (++)). done.
Qed.

(** A whole drain of the queue [l]. *)
Lemma drain_all T n :
  providers_live n -> n_threads n !! self = Some T -> ring_rep (msg_queue T) (thread_queue T) ->
  pool_wf (n_pool n) -> queue_held (n_pool n) (thread_queue T) ->
  let handed := omap (delivered n) (thread_queue T) in
  (exists n' T', n_threads n' !! self = Some T' /\ providers_live n' /\ pool_wf (n_pool n') /\
     queue_held (n_pool n') (thread_queue T') /\
     forall fuel, process_thread_messages run_msg (length (thread_queue T) + fuel) self [] n =
       process_thread_messages run_msg fuel self handed n') /\
  forall wt fuel, handler_bounded wt run_msg self -> weigh wt (n_pool n) (thread_queue T) < fuel ->
    exists n' T' rest, process_thread_messages run_msg fuel self [] n = Done (n', handed ++ rest) /\
      n_threads n' !! self = Some T' /\ thread_queue T' = [] /\ pool_wf (n_pool n') /\
      ((forall h, wt h = 0) -> rest = []).
Proof.
  intros Hp HT Hq Hw Hh handed. rewrite <-(app_nil_r (thread_queue T)) in Hq, Hh.
  destruct (process_queued _ [] T [] n Hp HT Hq Hw Hh) as (n1 & T1 & more & Hs & Hp1 & HT1 & Hq1 & Hw1 & Hh1 & Hb1).
  cbn [app] in Hs, Hq1, Hh1, Hb1. fold handed in Hs. split.
  - exists n1, T1. split_and!; try done. by rewrite (ring_rep_view _ _ Hq1 : thread_queue T1 = more).
  - intros wt fuel Hb Hlt. specialize (Hb1 wt Hb). rewrite app_nil_r in Hb1.
    destruct (process_ends wt (fuel - length (thread_queue T)) handed T1 more n1 Hb Hp1 HT1 Hq1 Hw1 Hh1)
      as (n2 & T2 & rest & He & HT2 & Hq2 & Hw2); [lia|].
    exists n2, T2, rest. replace fuel with (length (thread_queue T) + (fuel - length (thread_queue T))) by lia.
    rewrite Hs, He. split_and!; [done..|by apply ring_rep_view|done|]. intros H0.
    assert (weigh wt (n_pool n) (thread_queue T) <= length (thread_queue T)) as Hle by (by apply weigh_zero).
    assert (more = []) as -> by (apply (weigh_nil wt (n_pool n1)); lia).
    destruct (fuel - length (thread_queue T)) as [|f] eqn:Ef; [done|]. cbn [process_thread_messages] in He.
    rewrite HT1, (queue_take_nil _ Hq1) in He. injection He as _ He. by apply (app_inv_head handed); rewrite app_nil_r.
Qed.
End drain.

Lemma queue_held_part n th T :
  queues_ok n -> n_threads n !! th = Some T -> queue_held (n_pool n) (thread_queue T).
Proof.
  intros Hq HT r Hr. destruct (qo_held n Hq r) as (Hb & b & Hg & Hle).
  { unfold queued. rewrite (queued_in_split _ _ T) by done. apply elem_of_app. by left. }
  split; [done|]. exists b. split; [done|]. unfold queued, occurrences in *.
  rewrite (queued_in_split _ _ T), filter_app, length_app in Hle by done. lia.
Qed.


Lemma buf_msg_retain s r p : buf_msg s (nos_buffer_retain (Some r) p) = buf_msg s p.
Proof.
  unfold buf_msg, nos_buffer_retain. destruct (decide (r = s)) as [->|Hne].
  - rewrite get_buf_upd_eq. by destruct (get_buf s p).
  - by rewrite get_buf_upd_ne.
Qed.

(** The thread a message of this node is queued on. *)
Definition local_route (n : node) (h : nos_service_msg) : option thread_ptr :=
  if is_reply h then find_loaded_component_info n (dst_component h) ≫= li_owner_thread
  else svc_lookup (dst_service h) (n_registry n) ≫=
         fun e => if is_remote e then None else local_thread e.

(** A message of this node is queued on the thread that serves it. *)
Lemma msg_send_route {X} `{!IpcTransport X} r h th n (x : X) :
  buf_msg r (n_pool n) = Some h -> local_route n h = Some th ->
  nos_service_msg_send (Some r) n x = (nos_transport_local_send r (Some th) n, x).
Proof.
  intros Hm Hroute. unfold nos_service_msg_send. cbn [mbind option_bind]. rewrite Hm.
  cbn [fmap option_fmap option_map]. unfold local_route in Hroute. destruct (is_reply h).
  - destruct (find_loaded_component_info n (dst_component h)) as [i|]; simpl in Hroute; [|done].
    by rewrite Hroute.
  - destruct (svc_lookup (dst_service h) (n_registry n)) as [e|]; simpl in Hroute; [|done].
    destruct (is_remote e); [done|]. by rewrite Hroute.
Qed.

(** C21. A message sent to a local service or as a reply to a local component
    is delivered: when its thread's queue has room, [nos_service_msg_send]
    succeeds without touching the IPC layer, and the thread's next drain
    handles the messages queued before and then this one, before any that the
    handlers put on their own thread meanwhile; the drain ends when these are
    bounded.  When the queue is full the answer is NOS_ERR_BUSY and nothing
    changes.  Handlers keep the components and the routing tables. *)
Theorem nos_service_msg_send_delivers {X} `{!IpcTransport X} run_msg r h th T n (x : X) :
  queues_ok n -> providers_live n -> buf_live r (n_pool n) -> buf_msg r (n_pool n) = Some h ->
  local_route n h = Some th -> n_threads n !! th = Some T -> handler_frame run_msg th ->
  if ring_full (msg_queue T) then nos_service_msg_send (Some r) n x = (NOS_ERR_BUSY, n, x)
  else exists n1, nos_service_msg_send (Some r) n x = (NOS_OK, n1, x) /\
    let handed := omap (delivered n) (thread_queue T) ++ option_list (delivered n r) in
    (exists n2, forall fuel, process_thread_messages run_msg (S (length (thread_queue T)) + fuel) th [] n1 =
       process_thread_messages run_msg fuel th handed n2) /\
    forall wt fuel, handler_bounded wt run_msg th -> weigh wt (n_pool n) (thread_queue T ++ [r]) < fuel ->
      exists n2 rest, process_thread_messages run_msg fuel th [] n1 = Done (n2, handed ++ rest).
Proof.
  intros Hq Hp Hl Hm Hroute HT Hf. rewrite (msg_send_route r h th n x Hm Hroute).
  destruct (ring_full (msg_queue T)) eqn:Hfull.
  - unfold nos_transport_local_send. cbn [mbind option_bind]. rewrite HT. simpl. by rewrite Hfull.
  - destruct (local_send_ok n th T r Hq HT Hl Hfull) as (Hq1 & T1 & HT1 & Hv1).
    set (n1 := (nos_transport_local_send r (Some th) n).2) in *. exists n1.
    assert (nos_transport_local_send r (Some th) n = (NOS_OK, n1) /\
      n_comps n1 = n_comps n /\ n_loaded n1 = n_loaded n /\ n_registry n1 = n_registry n /\
      n_pool n1 = nos_buffer_retain (Some r) (n_pool n)) as (-> & Hc & Hld & Hrg & Hpl).
    { subst n1. unfold nos_transport_local_send. cbn [mbind option_bind]. rewrite HT.
      cbn [fmap option_fmap option_map]. rewrite Hfull. by destruct (is_sleeping T). }
    split; [done|]. intros handed.
    destruct (drain_all run_msg th Hf T1 n1) as [(n2 & _ & _ & _ & _ & _ & Hs) He];
      [by apply (providers_live_frame n)|done|by apply (qo_rep n1 th)|apply Hq1|by eapply queue_held_part|].
    assert (omap (delivered n1) (thread_queue T1) = handed) as Hh.
    { assert (forall s, delivered n1 s = delivered n s) as Hd.
      { intros s. apply delivered_frame; [done..|]. by rewrite Hpl, buf_msg_retain. }
      rewrite Hv1, (omap_ext_in (delivered n1) (delivered n)) by done. subst handed.
      rewrite omap_app. by f_equal. }
    rewrite Hh, Hv1, length_app, Nat.add_1_r in *. split; [by exists n2|].
    intros wt fuel Hb Hlt. destruct (He wt fuel Hb) as (n3 & _ & rest & Hd & _).
    { rewrite (weigh_ext wt (n_pool n)); [done|]. intros s _. by rewrite Hpl, buf_msg_retain. }
    by exists n3, rest.
Qed.

(** The manifest gives service [id] of this node to component [c]. *)
Definition declared (n : node) (c : comp_ptr) (id : Z) : Prop :=
  exists d C s, n_def n = Some d /\ n_comps n !! c = Some C /\ s ∈ nd_services d /\
    sd_service_id s = id /\ sd_provider_comp_id s = c_id C /\ sd_node_name s = nd_name d.

(** The registry binds it to [c]. *)
Definition bound (n : node) (c : comp_ptr) (id : Z) : Prop :=
  exists e, svc_lookup id (n_registry n) = Some e /\ is_remote e = false /\ local_provider e = Some c.

(** No entry is remote and has a local provider; [nos_service_register_remote]
    on a service bound before would leave one. *)
Definition remote_apart (n : node) : Prop :=
  forall id e, svc_lookup id (n_registry n) = Some e -> is_remote e = true -> local_provider e = None.

Lemma def_targets_spec n c C h :
  n_comps n !! c = Some C -> def_targets n (c_id C) h = true <-> declared n c (dst_service h).
Proof.
  intros HC. unfold def_targets, declared. destruct (n_def n) as [d|]; [|by split; [|intros (? & ? & ? & ? & _)]].
  rewrite existsb_exists. split.
  - intros (s & Hs%list_elem_of_In & H). apply andb_prop in H as [[H1 H2]%andb_prop H3%String.eqb_eq]. bool_hyps.
    by exists d, C, s.
  - intros (d' & C' & s & [= <-] & HC' & Hs & H1 & H2 & H3). simplify_eq. exists s.
    split; [by apply list_elem_of_In|]. rewrite H1, H2, H3, !Z.eqb_refl. apply String.eqb_refl.
Qed.

Lemma targets_provider_spec n c h :
  targets_provider n c h = true <-> bound n c (dst_service h) \/ declared n c (dst_service h).
Proof.
  unfold targets_provider. rewrite orb_true_iff. f_equiv.
  - unfold bound. destruct (svc_lookup _ _) as [e|]; [|by split; [|intros (? & ? & _)]].
    rewrite andb_true_iff, negb_true_iff, bool_decide_eq_true. split; [intros []; by exists e|].
    by intros (e' & [= <-] & ? & ?).
  - destruct (n_comps n !! c) as [C|] eqn:HC; [by apply def_targets_spec|].
    split; [done|]. intros (d & C & s & _ & HC' & _). congruence.
Qed.

Lemma dest_bound n c h :
  remote_apart n -> is_reply h = false -> msg_dest n h = Some c -> bound n c (dst_service h).
Proof.
  intros Hra Hrep. unfold msg_dest. rewrite Hrep. destruct (svc_lookup _ _) as [e|] eqn:He; [|done]. cbn.
  intros Hc. exists e. split_and!; [done| |done]. destruct (is_remote e) eqn:Hr; [|done].
  specialize (Hra _ _ He Hr). congruence.
Qed.

(** What the purge does with every message, reply or not: it is judged by its
    [dst_service] alone, so a reply queued for the provider stays when it
    answers another service, and a reply for another component is dropped when
    it answers the provider's. *)
Lemma purge_judges_by_service th c T n :
  queues_ok n -> n_threads n !! th = Some T ->
  let n' := nos_scheduler_drop_messages_for_provider true (Some th) (Some c) n in
  exists gone kept T',
    (forall r h, buf_msg r (n_pool n) = Some h ->
       (r ∈ gone <-> r ∈ thread_queue T /\ (bound n c (dst_service h) \/ declared n c (dst_service h))) /\
       (r ∈ kept <-> r ∈ thread_queue T /\ ~ (bound n c (dst_service h) \/ declared n c (dst_service h)))) /\
    kept `sublist_of` thread_queue T /\ gone ++ kept ≡ₚ thread_queue T /\
    n_pool n' = release_all gone (n_pool n) /\
    n_threads n' !! th = Some T' /\ thread_queue T' = kept /\
    (forall th', th' <> th -> n_threads n' !! th' = n_threads n !! th') /\ queues_ok n' /\
    nos_scheduler_drop_messages_for_provider false (Some th) (Some c) n = n.
Proof.
  intros Hq HT n'. pose proof (queues_ok_drop true (Some th) (Some c) n Hq) as Hq'. fold n' in Hq'.
  destruct (drop_loop_ok n th T (targets_provider n c) Hq HT) as (q & Hd & Hr & _).
  set (hits := ref_targets (targets_provider n c) (n_pool n)) in *.
  set (gone := filter (fun r => hits r = true) (thread_queue T)).
  set (kept := filter (fun r => hits r = false) (thread_queue T)).
  assert (n' = upd_pool (fun _ => release_all gone (n_pool n)) (upd_thread th (set_queue q) n)) as E.
  { subst n'. unfold nos_scheduler_drop_messages_for_provider. cbn [mbind option_bind].
    rewrite HT. cbn [fmap option_fmap option_map]. by rewrite Hd. }
  assert (forall r h, buf_msg r (n_pool n) = Some h ->
    hits r = true <-> bound n c (dst_service h) \/ declared n c (dst_service h)) as Hh.
  { intros r h Hm. rewrite <-targets_provider_spec. unfold hits, ref_targets. by rewrite Hm. }
  assert (forall r h, buf_msg r (n_pool n) = Some h ->
       (r ∈ gone <-> r ∈ thread_queue T /\ (bound n c (dst_service h) \/ declared n c (dst_service h))) /\
       (r ∈ kept <-> r ∈ thread_queue T /\ ~ (bound n c (dst_service h) \/ declared n c (dst_service h)))) as Hgk.
  { intros r h Hm. subst gone kept. rewrite !list_elem_of_filter, <-(Hh r h Hm), not_true_iff_false. tauto. }
  exists gone, kept, (set_queue q T). split_and!; try done.
  - apply sublist_filter.
  - subst gone kept. rewrite <-(filter_app_complement (fun r => hits r = true) (thread_queue T)) at 3.
    f_equiv. apply reflexive_eq, list_filter_iff. intros r. by rewrite not_true_iff_false.
  - by rewrite E.
  - rewrite E. simpl. by rewrite lookup_alter_eq, HT.
  - unfold thread_queue at 1. simpl. by rewrite (ring_rep_view _ _ Hr).
  - intros th' Hne. rewrite E. simpl. by rewrite lookup_alter_ne.
  - unfold nos_scheduler_drop_messages_for_provider. cbn [mbind option_bind]. by rewrite HT.
Qed.

(** C32. The purge for a provider, on the queued requests: exactly those are
    dropped whose service the registry binds to the provider or the manifest
    gives it.  So, as nos_scheduler.h:95 describes it, when no route is remote
    and local at once every request that would still be delivered to the
    provider is dropped.  Each dropped message is released once, the others
    stay in order, and nothing is lost; without memory for the new queue
    nothing is dropped. *)
Theorem drop_messages_spec th c T n :
  queues_ok n -> n_threads n !! th = Some T ->
  let n' := nos_scheduler_drop_messages_for_provider true (Some th) (Some c) n in
  exists gone kept T',
    (forall r h, r ∈ thread_queue T -> buf_msg r (n_pool n) = Some h -> is_reply h = false ->
       (r ∈ gone <-> bound n c (dst_service h) \/ declared n c (dst_service h)) /\
       (r ∈ kept <-> ~ (bound n c (dst_service h) \/ declared n c (dst_service h))) /\
       (remote_apart n -> msg_dest n h = Some c -> r ∈ gone /\ r ∉ kept)) /\
    kept `sublist_of` thread_queue T /\ gone ++ kept ≡ₚ thread_queue T /\
    n_pool n' = release_all gone (n_pool n) /\
    n_threads n' !! th = Some T' /\ thread_queue T' = kept /\
    (forall th', th' <> th -> n_threads n' !! th' = n_threads n !! th') /\ queues_ok n' /\
    nos_scheduler_drop_messages_for_provider false (Some th) (Some c) n = n.
Proof.
  intros Hq HT n'. destruct (purge_judges_by_service th c T n Hq HT) as (gone & kept & T' & Hgk & Hrest).
  exists gone, kept, T'. split; [|exact Hrest]. intros r h Hin Hm Hrep.
  destruct (Hgk r h Hm) as [Hg Hk]. split_and!; [tauto|tauto|]. intros Hra Hd.
  pose proof (dest_bound n c h Hra Hrep Hd). tauto.
Qed.

(** ** Component lists *)

Lemma carr_find_last {A} (p : A -> bool) (a : carr A) x :
  carr_wf a -> count a < length (slots a) -> p x = true -> Forall (fun y => p y = false) (live a) ->
  carr_find p (carr_push x a) = Some (count a) /\
  live (carr_remove_swap (count a) (carr_push x a)) ≡ₚ live a.
Proof.
  intros Hw Hlt Hp Hf. pose proof (length_live a Hw) as Hlen.
  assert (live (carr_push x a) !! count a = Some x) as Hx.
  { rewrite live_push by done. by rewrite lookup_app_r, Hlen, Nat.sub_diag by lia. }
  split.
  - apply (find_idx_intro _ _ _ x); [done..|]. intros j y Hj Hy.
    rewrite live_push, lookup_app_l in Hy by (rewrite ?Hlen; lia).
    by apply (Forall_lookup_1 _ _ _ _ Hf Hy).
  - apply (Permutation_cons_inv (a:=x)). rewrite <-(live_remove_swap (count a) (carr_push x a) x); [|by apply carr_push_wf|done].
    rewrite live_push by done. symmetry. apply Permutation_cons_append.
Qed.

Definition comp_list_ok (T : nos_thread) : Prop :=
  length (slots (components T)) = MAX_COMP_PER_THREAD /\ carr_wf (components T).

(** Registering a component on a thread that does not host it wakes the
    thread and adds it to the list, up to 32 components; unregistering it
    then gives the old list back, up to order, and fails the second time. *)
Theorem register_component_roundtrip th c T n :
  n_threads n !! th = Some T -> comp_list_ok T -> Some c ∉ live (components T) ->
  if MAX_COMP_PER_THREAD <=? count (components T)
  then nos_scheduler_register_component (Some th) (Some c) n = (NOS_ERR, n)
  else exists n1 n2 T1 T2,
    nos_scheduler_register_component (Some th) (Some c) n = (NOS_OK, n1) /\
    n_threads n1 !! th = Some T1 /\ live (components T1) = live (components T) ++ [Some c] /\
    t_notify T1 = t_notify (notify T) /\
    nos_scheduler_unregister_component (Some th) (Some c) n1 = (NOS_OK, n2) /\
    n_threads n2 !! th = Some T2 /\ live (components T2) ≡ₚ live (components T) /\
    nos_scheduler_unregister_component (Some th) (Some c) n2 = (NOS_ERR, n2).
Proof.
  intros HT [Hl Hw] Hni. unfold nos_scheduler_register_component. rewrite HT.
  destruct (Nat.leb_spec MAX_COMP_PER_THREAD (count (components T))) as [|Hc]; [done|].
  assert (Forall (fun y => bool_decide (y = Some c) = false) (live (components T))) as Hf.
  { apply List.Forall_forall. intros y Hy%list_elem_of_In. apply bool_decide_eq_false. by intros ->. }
  destruct (carr_find_last (fun y => bool_decide (y = Some c)) (components T) (Some c) Hw
    ltac:(lia) ltac:(by apply bool_decide_eq_true)) as [Hfind Hperm]; [done|].
  do 4 eexists. split; [done|]. split; [by rewrite upd_thread_eq, HT|].
  split; [simpl; apply live_push; lia|]. split; [by unfold notify; simpl; case_match|].
  unfold nos_scheduler_unregister_component at 1. rewrite upd_thread_eq, HT.
  cbn [fmap option_fmap option_map mbind option_bind]. cbn [components set_components notify set_notify].
  rewrite Hfind. split; [done|]. split; [by rewrite !upd_thread_eq, HT|]. split; [exact Hperm|].
  unfold nos_scheduler_unregister_component. rewrite !upd_thread_eq, HT.
  cbn [fmap option_fmap option_map mbind option_bind]. cbn [components set_components notify set_notify].
  destruct (carr_find _ (carr_remove_swap _ _)) as [i|] eqn:E; [|done]. exfalso.
  apply carr_find_Some in E as (_ & y & Hy & ->%bool_decide_eq_true).
  apply list_elem_of_lookup_2 in Hy. apply Hni. by rewrite <-Hperm.
Qed.

(** ** Starting components *)

(** A component's [start] does not change the state of components. *)
Definition start_frame (run_start : nat -> comp_ptr -> node -> nos_status * node) : Prop :=
  forall f c n, n_comps (run_start f c n).2 = n_comps n /\
    forall th, components <$> n_threads (run_start f c n).2 !! th = components <$> n_threads n !! th.

Definition hosted (l : list (option comp_ptr)) (c : comp_ptr) : Prop := Some c ∈ l.

Lemma start_component_spec run_start n o :
  start_frame run_start ->
  let n' := start_component run_start n o in
  (forall th, components <$> n_threads n' !! th = components <$> n_threads n !! th) /\
  forall c C, n_comps n !! c = Some C -> exists C', n_comps n' !! c = Some C' /\
    (o = Some c -> c_status C = NOS_COMP_ST_INITED ->
       c_status C' = NOS_COMP_ST_ACTIVE \/ c_status C' = NOS_COMP_ST_ERROR /\ c_start C <> None) /\
    (o <> Some c \/ c_status C <> NOS_COMP_ST_INITED -> C' = C).
Proof.
  intros Hf. unfold start_component. destruct o as [c0|]; simpl; [|split; [done|]; intros c C HC; exists C; split_and!; [done|by intros|done]].
  destruct (n_comps n !! c0) as [C0|] eqn:HC0; simpl; [|split; [done|]; intros c C HC; exists C; split_and!; [done|congruence|done]].
  destruct (decide (c_status C0 = NOS_COMP_ST_INITED)) as [Hi|Hi];
    [|split; [done|]; intros c C HC; exists C; split_and!; [done|congruence|done]].
  assert (forall n1 s, n_comps n1 = n_comps n ->
    (s = NOS_COMP_ST_ACTIVE \/ s = NOS_COMP_ST_ERROR /\ c_start C0 <> None) ->
    forall c C, n_comps n !! c = Some C -> exists C', n_comps (upd_comp c0 (set_status s) n1) !! c = Some C' /\
    (Some c0 = Some c -> c_status C = NOS_COMP_ST_INITED ->
       c_status C' = NOS_COMP_ST_ACTIVE \/ c_status C' = NOS_COMP_ST_ERROR /\ c_start C <> None) /\
    (Some c0 <> Some c \/ c_status C <> NOS_COMP_ST_INITED -> C' = C)) as H.
  { intros n1 s Hn1 Hs c C HC. destruct (decide (c0 = c)) as [->|Hne].
    - exists (set_status s C). rewrite upd_comp_eq, Hn1, HC. simplify_eq.
      split_and!; [done|by intros|]. intros [?|?]; congruence.
    - exists C. rewrite upd_comp_ne, Hn1, HC by done. split_and!; [done|congruence|done]. }
  destruct (c_start C0) as [f|] eqn:Hst.
  - destruct (Hf f c0 n) as [Hc Ht]. destruct (run_start f c0 n) as [st n1]. simpl in *.
    split; [done|]. apply H; [done|]. destruct st; auto.
  - split; [done|]. apply H; auto.
Qed.

Lemma start_components_spec run_start l n :
  start_frame run_start ->
  let n' := fold_left (start_component run_start) l n in
  (forall th, components <$> n_threads n' !! th = components <$> n_threads n !! th) /\
  forall c C, n_comps n !! c = Some C -> exists C', n_comps n' !! c = Some C' /\
    (hosted l c -> c_status C = NOS_COMP_ST_INITED ->
       c_status C' = NOS_COMP_ST_ACTIVE \/ c_status C' = NOS_COMP_ST_ERROR /\ c_start C <> None) /\
    (~ hosted l c \/ c_status C <> NOS_COMP_ST_INITED -> C' = C).
Proof.
  intros Hf. revert n. induction l as [|o l IH]; intros n; simpl.
  - split; [done|]. intros c C HC. exists C. split_and!; [done| |done].
    by intros ?%not_elem_of_nil.
  - destruct (start_component_spec run_start n o Hf) as [Ht1 H1].
    destruct (IH (start_component run_start n o)) as [Ht2 H2]. split; [intros th; by rewrite Ht2|].
    intros c C HC. destruct (H1 c C HC) as (C1 & HC1 & Hs1 & Hk1).
    destruct (H2 c C1 HC1) as (C2 & HC2 & Hs2 & Hk2). exists C2. split; [done|].
    unfold hosted in *. rewrite elem_of_cons. destruct (decide (o = Some c)) as [->|Hne].
    + destruct (decide (c_status C = NOS_COMP_ST_INITED)) as [Hi|Hi].
      * assert (C2 = C1) as ->.
        { apply Hk2. right. destruct (Hs1 eq_refl Hi) as [E|[E _]]; by rewrite E. }
        split; [by intros; apply Hs1|]. intros [Hn|?]; [destruct Hn; by left|done].
      * rewrite Hk1 in * by (by right). split; [done|]. intros _. apply Hk2. by right.
    + rewrite Hk1 in * by (left; congruence). split.
      * intros [?|?]; [congruence|]. by apply Hs2.
      * intros [Hn|?]; apply Hk2; [left|by right]. tauto.
Qed.

(** [start_pending_components] settles every initialised component of
    the thread: it becomes active, or failed when its [start] reported an
    error; all other components keep their state, and a second call does
    nothing, so [start] runs at most once per component. *)
Theorem start_pending_components_spec run_start self T n :
  start_frame run_start -> n_threads n !! self = Some T ->
  (forall c, Some c ∈ live (components T) -> is_Some (n_comps n !! c)) ->
  let n' := start_pending_components run_start self n in
  (forall c C, n_comps n !! c = Some C -> exists C', n_comps n' !! c = Some C' /\
    (hosted (live (components T)) c -> c_status C = NOS_COMP_ST_INITED ->
       c_status C' = NOS_COMP_ST_ACTIVE \/ c_status C' = NOS_COMP_ST_ERROR /\ c_start C <> None) /\
    (~ hosted (live (components T)) c \/ c_status C <> NOS_COMP_ST_INITED -> C' = C)) /\
  start_pending_components run_start self n' = n'.
Proof.
  intros Hf HT Hall n'.
  destruct (start_components_spec run_start (live (components T)) n Hf) as [Ht H].
  assert (fold_left (start_component run_start) (live (components T)) n = n') as E'
    by (unfold n', start_pending_components; by rewrite HT).
  rewrite E' in Ht, H. clearbody n'. split; [exact H|].
  unfold start_pending_components. specialize (Ht self). rewrite HT in Ht.
  apply fmap_Some in Ht as (T' & HT' & E). rewrite HT', <-E.
  assert (forall c, Some c ∈ live (components T) -> exists C, n_comps n' !! c = Some C /\
    c_status C <> NOS_COMP_ST_INITED) as Hset.
  { intros c Hc. destruct (Hall c Hc) as [C HC]. destruct (H c C HC) as (C' & HC' & Hs & Hk).
    exists C'. split; [done|]. destruct (decide (c_status C = NOS_COMP_ST_INITED)) as [Hi|Hi].
    - destruct (Hs Hc Hi) as [->|[-> _]]; done.
    - by rewrite Hk by (by right). }
  clear -Hset. induction (live (components T)) as [|o l IH]; simpl; [done|].
  assert (start_component run_start n' o = n') as ->.
  { unfold start_component. destruct o as [c|]; [|done]. simpl.
    destruct (Hset c ltac:(by left)) as (C & HC & Hs). rewrite HC. simpl. by rewrite decide_False. }
  apply IH. intros c Hc. apply Hset. by right.
Qed.

(** ** Descriptor slots *)

(** Each descriptor epoll watches is handed to the entry registered for
    it. *)
Definition epoll_ok (T : nos_thread) : Prop :=
  forall fd s, (fd, s) ∈ t_epoll T -> s < count (fd_entries T) /\
    exists e, slots (fd_entries T) !! s = Some e /\ fe_fd e = fd.

Definition fd_table_ok (T : nos_thread) : Prop :=
  length (slots (fd_entries T)) = MAX_FDS /\ carr_wf (fd_entries T) /\ epoll_ok T.

(** Registering a descriptor: up to 32 per thread; afterwards its events
    reach the given callback and argument and every older registration still
    reaches its own entry. *)
Theorem nos_scheduler_add_fd_spec th T fd cb arg n :
  n_threads n !! th = Some T -> fd_table_ok T ->
  let res := nos_scheduler_add_fd true (Some th) fd cb arg n in
  if MAX_FDS <=? count (fd_entries T) then res = (NOS_ERR, n)
  else res.1 = NOS_OK /\ exists T', n_threads res.2 !! th = Some T' /\ fd_table_ok T' /\
    epoll_entry fd T' = Some (FdEntry fd cb arg) /\
    forall fd', fd' <> fd -> forall e, epoll_entry fd' T = Some e -> epoll_entry fd' T' = Some e.
Proof.
  intros HT (Hl & Hw & He). unfold nos_scheduler_add_fd, nos_scheduler_add_fd_ex.
  cbn [mbind option_bind]. rewrite HT. cbn [fmap option_fmap option_map].
  destruct (Nat.leb_spec MAX_FDS (count (fd_entries T))) as [|Hc]; [done|].
  cbn [fst snd]. split; [done|]. eexists. split; [by rewrite upd_thread_eq, HT|].
  assert (count (fd_entries T) < length (slots (fd_entries T))) as Hlt by lia.
  split_and!; [split_and!| |].
  - simpl. by rewrite length_insert.
  - by apply carr_push_wf.
  - intros fd' s. simpl. rewrite elem_of_cons. intros [[= -> ->]|Hin].
    + split; [lia|]. eexists. by rewrite list_lookup_insert_eq.
    + destruct (He fd' s Hin) as (Hs & e & Hse & Hfd). split; [lia|].
      exists e. by rewrite list_lookup_insert_ne by lia.
  - unfold epoll_entry. simpl. rewrite Z.eqb_refl. simpl. by rewrite list_lookup_insert_eq.
  - intros fd' Hne e. unfold epoll_entry. simpl. destruct (Z.eqb_spec fd fd'); [congruence|].
    destruct (List.find _ _) as [[f s]|] eqn:Hf; simpl; [|done]. intros Hse.
    apply find_some in Hf as [Hin%list_elem_of_In _].
    destruct (He f s Hin) as (Hs & _). by rewrite list_lookup_insert_ne by lia.
Qed.

(** Removing a descriptor can redirect another one's events:
    [nos_scheduler_remove_fd] moves the last entry into the freed slot, but
    epoll keeps the old address.  With descriptors 5 and 6 registered, after
    removing 5 and registering 7 the events of 6 run the callback of 7. *)
Theorem remove_fd_redirects_events :
  let n1 := (nos_scheduler_add_fd true (Some 0) 5 (Some 1) 10 demo_node).2 in
  let n2 := (nos_scheduler_add_fd true (Some 0) 6 (Some 2) 20 n1).2 in
  let r3 := nos_scheduler_remove_fd (Some 0) 5 n2 in
  let r4 := nos_scheduler_add_fd true (Some 0) 7 (Some 3) 30 r3.2 in
  r3.1 = NOS_OK /\ r4.1 = NOS_OK /\
  (n_threads n2 !! 0 ≫= epoll_entry 6) = Some (FdEntry 6 (Some 2) 20) /\
  (n_threads r4.2 !! 0 ≫= epoll_entry 6) = Some (FdEntry 7 (Some 3) 30).
Proof. split_and!; by vm_compute. Qed.

(** ** Witnesses *)

(** Component 0 provides service 7; [demo_ref] holds a message for it. *)
Definition demo_header : nos_service_msg := Msg NOS_IPC_MAGIC 1 7 2 0 5 9 0 0.

Definition demo_ref : buf_ref := BRef 0 1.

Definition demo_net : node :=
  upd_pool (fun p => upd_buf demo_ref (write_raw (msg_write demo_header)) (nos_buffer_alloc 32 0 p).1)
    (upd_registry (fun r => (nos_service_register_provider_bind 7 (Some 0) (Some 0) r).2) demo_node).

(** The handler that only looks at its message. *)
Definition quiet_msg : nat -> comp_ptr -> buf_ref -> node -> node := fun _ _ _ n => n.

#[export] Instance no_ipc : IpcTransport unit := {|
  ipc_send_enqueue := fun _ _ _ p x => (NOS_ERR, p, x);
  ipc_send_reply := fun _ _ _ p x => (NOS_ERR, p, x);
|}.

Lemma demo_ref_live : buf_live demo_ref (n_pool demo_net).
Proof. split; [vm_compute; lia|]. eexists. split; [by vm_compute|]. vm_compute. by intros. Qed.

Lemma demo_net_ok : queues_ok demo_net.
Proof.
  split.
  - apply (pool_step_wf (nos_buffer_alloc 32 0 demo_pool).1).
    + apply ps_write; [|intros; apply length_msg_write].
      split; [vm_compute; lia|]. eexists. split; [by vm_compute|]. vm_compute. by intros.
    + apply pool_wf_alloc; [exact demo_pool_wf|unfold req_ok; lia].
  - intros th T HT. unfold demo_net, demo_node in HT. cbn [n_threads upd_pool upd_registry] in HT.
    apply lookup_singleton_Some in HT as [<- <-]. split; [|by vm_compute].
    apply ring_init_ok. unfold MAX_QUEUE_SIZE. lia.
  - assert (queued demo_net = []) as -> by (by vm_compute). by intros ? ?%not_elem_of_nil.
Qed.

Lemma quiet_frame self : handler_frame quiet_msg self.
Proof. intros cb c r n T q HT Hq Hw Hh. split_and!; try done. exists T, []. by rewrite app_nil_r. Qed.

Lemma quiet_bounded self : handler_bounded (fun _ => 0) quiet_msg self.
Proof.
  intros cb c r h n T q T' l HT Hq _ _ _ HT' Hq'. unfold quiet_msg in *. simplify_eq.
  pose proof (ring_rep_view _ _ Hq) as E. rewrite (ring_rep_view _ _ Hq') in E.
  assert (l = []) as -> by (by apply (app_inv_head q); rewrite app_nil_r). done.
Qed.

Lemma demo_net_providers : providers_live demo_net.
Proof.
  intros id e c He Hc. assert (e ∈ live (n_registry demo_net)) as Hin by (by eapply svc_lookup_in).
  apply elem_of_cons in Hin as [->|Hin]; [|by apply not_elem_of_nil in Hin]. injection Hc as <-. by eexists.
Qed.

Lemma demo_providers : providers_live (nos_transport_local_send demo_ref (Some 0) demo_net).2.
Proof. apply (providers_live_frame demo_net); [done..|exact demo_net_providers]. Qed.

(** The message queued. *)
Definition demo_queued : node := (nos_transport_local_send demo_ref (Some 0) demo_net).2.

Lemma demo_queued_ok : queues_ok demo_queued.
Proof. apply (queue_step_ok demo_net); [eexists; apply qs_send, demo_ref_live|apply demo_net_ok]. Qed.

(** The message sent and released by the sender; thread 5, which does not
    exist, and thread 0 are shut down. *)
Lemma queued_messages_held_witness :
  let n1 := upd_pool (nos_buffer_release (Some demo_ref)) demo_queued in
  let n2 := nos_scheduler_deinit_thread (Some 0) n1 in
  (forall r, r ∈ queued n1 -> buf_live r (n_pool n1)) /\
  sched_ok ({[0]} ∪ ({[5]} ∪ ∅)) n2 /\ queued n2 = [] /\ b_ref_cnt <$> get_buf demo_ref (n_pool n2) = Some 0%Z.
Proof.
  intros n1 n2.
  assert (rtc sched_step (∅, demo_net) ({[5]} ∪ ∅, n1)) as H1.
  { eapply rtc_l; [eapply (sst_queue _ (Some 0)); [apply qs_send, demo_ref_live|set_solver]|].
    eapply rtc_l; [eapply (sst_queue _ None); [|done]|].
    - eapply (qs_release demo_ref); [|by vm_compute|by vm_compute].
      split; [vm_compute; lia|]. eexists. split; [by vm_compute|]. vm_compute. by intros.
    - apply rtc_once, (sst_deinit ∅ 5). set_solver. }
  split_and!; [|eapply (queued_messages_held demo_net); [exact demo_net_ok|]|by vm_compute|by vm_compute].
  - by apply (queued_messages_held demo_net _ _ demo_net_ok H1).
  - eapply rtc_r; [exact H1|]. apply sst_deinit. set_solver.
Defined.

(** A handler that puts its message on thread 0 again while fewer than two
    messages are queued there. *)
Definition again_msg : nat -> comp_ptr -> buf_ref -> node -> node := fun _ _ r n =>
  match n_threads n !! 0 with
  | Some T =>
      if (length (thread_queue T) <? 2) && negb (ring_full (msg_queue T))
      then (nos_transport_local_send r (Some 0) n).2 else n
  | None => n
  end.

Lemma again_frame : handler_frame again_msg 0.
Proof.
  intros cb c r n T q HT Hq Hw Hh. unfold again_msg. rewrite HT.
  destruct (_ && _) eqn:Hc; [|split_and!; try done; exists T, []; by rewrite app_nil_r].
  apply andb_prop in Hc as [_ Hf%negb_true_iff]. unfold nos_transport_local_send. cbn [mbind option_bind]. rewrite HT.
  cbn [fmap option_fmap option_map]. rewrite Hf. cbn [snd].
  pose proof (ring_put_rep r _ _ Hq Hf) as Hq'.
  destruct (queue_held_retain _ r _ Hw (queue_held_live _ _ r Hh ltac:(by left)) Hh) as [Hh' Hw'].
  assert (forall s, s ∈ q -> buf_msg s (nos_buffer_retain (Some r) (n_pool n)) = buf_msg s (n_pool n)) as Hm
    by (intros; apply buf_msg_retain).
  destruct (is_sleeping T); (split_and!; [done..| |done|done]); eexists _, [r]; cbn;
    rewrite ?lookup_alter_eq, HT; by split_and!.
Qed.


Lemma nos_service_msg_send_delivers_witness :
  exists n1, nos_service_msg_send (Some demo_ref) demo_net tt = (NOS_OK, n1, tt) /\
    exists n2, forall fuel, process_thread_messages again_msg (S (length (thread_queue (demo_th demo_net))) + fuel) 0 [] n1 =
      process_thread_messages again_msg fuel 0
        (omap (delivered demo_net) (thread_queue (demo_th demo_net)) ++ option_list (delivered demo_net demo_ref)) n2.
Proof.
  destruct (nos_service_msg_send_delivers (X:=unit) again_msg demo_ref demo_header 0 (demo_th demo_net)
    demo_net tt demo_net_ok ltac:(exact demo_net_providers) demo_ref_live ltac:(by vm_compute) ltac:(by vm_compute)
    ltac:(by vm_compute) again_frame) as (n1 & Hs & Hr & _).
  by exists n1.
Defined.

Lemma drop_messages_spec_witness :
  let n' := nos_scheduler_drop_messages_for_provider true (Some 0) (Some 0) demo_queued in
  exists T', n_threads n' !! 0 = Some T' /\ demo_ref ∉ thread_queue T'.
Proof.
  destruct (drop_messages_spec 0 0 (demo_th demo_queued) demo_queued demo_queued_ok)
    as (gone & kept & T' & Hdrop & _ & _ & _ & HT' & Hv & _); [by vm_compute|].
  exists T'. split; [exact HT'|]. rewrite Hv.
  apply (Hdrop demo_ref demo_header); [by vm_compute; left|by vm_compute..| |by vm_compute].
  intros id e He Hr. assert (e ∈ live (n_registry demo_queued)) as Hin by (by eapply svc_lookup_in).
  apply elem_of_cons in Hin as [->|Hin]; [done|by apply not_elem_of_nil in Hin].
Defined.

Lemma register_component_roundtrip_witness :
  exists n1 n2 T1 T2,
    nos_scheduler_register_component (Some 0) (Some 4) demo_node = (NOS_OK, n1) /\
    n_threads n1 !! 0 = Some T1 /\ live (components T1) = live (components demo_thread) ++ [Some 4] /\
    t_notify T1 = t_notify (notify demo_thread) /\
    nos_scheduler_unregister_component (Some 0) (Some 4) n1 = (NOS_OK, n2) /\
    n_threads n2 !! 0 = Some T2 /\ live (components T2) ≡ₚ live (components demo_thread) /\
    nos_scheduler_unregister_component (Some 0) (Some 4) n2 = (NOS_ERR, n2).
Proof.
  apply (register_component_roundtrip 0 4 demo_thread demo_node); [by vm_compute|..].
  - split; [by vm_compute|apply Nat.leb_le; by vm_compute].
  - assert (live (components demo_thread) = [Some 0]) as -> by (by vm_compute).
    by intros ?%list_elem_of_singleton.
Defined.

Definition demo_inited : node :=
  upd_comp 0 (set_status NOS_COMP_ST_INITED) demo_node.

Definition start_ok : nat -> comp_ptr -> node -> nos_status * node := fun _ _ n => (NOS_OK, n).

Lemma start_pending_components_spec_witness :
  start_pending_components start_ok 0 (start_pending_components start_ok 0 demo_inited) =
  start_pending_components start_ok 0 demo_inited.
Proof.
  apply (start_pending_components_spec start_ok 0 demo_thread demo_inited); [done|by vm_compute|].
  intros c Hc. assert (live (components demo_thread) = [Some 0]) as E by (by vm_compute).
  rewrite E in Hc. apply list_elem_of_singleton in Hc as [= ->]. by eexists; vm_compute.
Defined.

Lemma nos_scheduler_add_fd_spec_witness :
  let res := nos_scheduler_add_fd true (Some 0) 5 (Some 1) 10 demo_node in
  res.1 = NOS_OK /\ exists T', n_threads res.2 !! 0 = Some T' /\ fd_table_ok T' /\
    epoll_entry 5 T' = Some (FdEntry 5 (Some 1) 10) /\
    forall fd', fd' <> 5%Z -> forall e, epoll_entry fd' demo_thread = Some e -> epoll_entry fd' T' = Some e.
Proof.
  apply (nos_scheduler_add_fd_spec 0 demo_thread 5 (Some 1) 10 demo_node); [by vm_compute|].
  split_and!; [by vm_compute|apply Nat.leb_le; by vm_compute|].
  intros fd s Hin. by apply not_elem_of_nil in Hin.
Defined.
