(* ===== verification/RunLoop.v ===== *)
(** * The event loop (nos_scheduler_run_loop of src/core/nos_scheduler.c)

    A scheduler thread alternates between a busy phase, in which it drains
    its queue, and sleeping in [epoll_wait].  Senders avoid the wake-up
    system call when the thread is not sleeping.  This file models the
    hand-over between the loop and concurrent senders as interleaved atomic
    steps on the thread object and shows that no wake-up is lost; it also
    models the computation of the sleep timeout and of the spin count.

    The accesses to [is_sleeping], [head], [tail] and [stop_requested] are
    interleaved sequentially; weaker memory orders are not modelled. *)

From stdpp Require Import base list sets gmap strings relations.
From S2P Require Import Prelude CString CArray Ring Mem Buffer Service Node TimerHeap Timer Scheduler.

(** ** Sleep timeout *)

(** [-1] waits without limit; the difference is cast to [int]. *)
Definition sleep_timeout (n : node) (T : nos_thread) (now : Z) : Z :=
  match live (timer_heap T) with
  | [] => -1
  | t :: _ => if (timer_key n t <=? now)%Z then 0 else i32 (u64 (timer_key n t - now))
  end.

(** ** Spin count *)

Definition scheduler_get_busy_poll_cycles (n : node) (override : option string) : Z :=
  let poll_cycles := match n_def n with Some d => nd_busy_poll_cycles d | None => 500%Z end in
  match override with
  | None => poll_cycles
  | Some s =>
      match String.list_ascii_of_string s with
      | [] => poll_cycles
      | cs =>
          match strtoul10 cs with
          | Some (v, [], false) => if (2 ^ 32 - 1 <? v)%Z then poll_cycles else v
          | _ => poll_cycles
          end
      end
  end.

(** ** The loop and its senders *)

(** Where the loop is. *)
Inductive loop_pc :=
  | L_top           (* while (!stop_requested), spinning on the queue *)
  | L_fast          (* draining, then polling epoll without blocking *)
  | L_poll
  | L_sleep         (* about to set is_sleeping *)
  | L_check         (* second look at the queue and the stop flag *)
  | L_wait          (* in epoll_wait *)
  | L_woken (ev : bool)   (* epoll_wait returned, [ev]: with the eventfd *)
  | L_events (ev : bool)  (* is_sleeping cleared, events to handle *)
  | L_drain
  | L_done.

(** Where a sender is: [S_sent] has queued its message and not looked at
    [is_sleeping] yet, [S_notify] will write the eventfd, [S_stop] has set
    [stop_requested] and will write the eventfd. *)
Inductive sender_pc := S_sent | S_notify | S_stop.

Record loop_state := LoopSt {
  ls_thread : nos_thread;
  ls_pc : loop_pc;
  ls_senders : list sender_pc;
}.

Definition has_messages (T : nos_thread) : bool := negb (ring_empty (msg_queue T)).

(** [read(notify_fd)] resets the counter. *)
Definition read_notify (T : nos_thread) : nos_thread := set_notify 0 T.

(** One message is taken; its handler runs outside the thread object. *)
Definition take_message (T : nos_thread) : nos_thread := set_queue (queue_take (msg_queue T)).2 T.

(** The second check before sleeping. *)
Definition check_sleep (T : nos_thread) : nos_thread * loop_pc :=
  if has_messages T || stop_requested T then (set_sleeping false T, L_top) else (T, L_wait).

Inductive loop_step : loop_state -> loop_state -> Prop :=
  | l_exit T ss : stop_requested T = true ->
      loop_step (LoopSt T L_top ss) (LoopSt T L_done ss)
  | l_busy T ss : stop_requested T = false -> has_messages T = true ->
      loop_step (LoopSt T L_top ss) (LoopSt T L_fast ss)
  | l_idle T ss : stop_requested T = false -> has_messages T = false ->
      loop_step (LoopSt T L_top ss) (LoopSt T L_sleep ss)
  | l_fast_take T ss : has_messages T = true ->
      loop_step (LoopSt T L_fast ss) (LoopSt (take_message T) L_fast ss)
  | l_fast_end T ss : has_messages T = false ->
      loop_step (LoopSt T L_fast ss) (LoopSt T L_poll ss)
  | l_poll_read T ss : (0 < t_notify T)%Z ->
      loop_step (LoopSt T L_poll ss) (LoopSt (read_notify T) L_top ss)
  | l_poll_other T ss :
      (* nothing ready, or other descriptors only *)
      loop_step (LoopSt T L_poll ss) (LoopSt T L_top ss)
  | l_sleep T ss : loop_step (LoopSt T L_sleep ss) (LoopSt (set_sleeping true T) L_check ss)
  | l_check T ss :
      loop_step (LoopSt T L_check ss) (LoopSt (check_sleep T).1 (check_sleep T).2 ss)
  | l_wake T ss : (0 < t_notify T)%Z ->
      loop_step (LoopSt T L_wait ss) (LoopSt T (L_woken true) ss)
  | l_woken T ss ev :
      loop_step (LoopSt T (L_woken ev) ss) (LoopSt (set_sleeping false T) (L_events ev) ss)
  | l_events_read T ss :
      loop_step (LoopSt T (L_events true) ss) (LoopSt (read_notify T) L_drain ss)
  | l_events_other T ss : loop_step (LoopSt T (L_events false) ss) (LoopSt T L_top ss)
  | l_drain_take T ss : has_messages T = true ->
      loop_step (LoopSt T L_drain ss) (LoopSt (take_message T) L_drain ss)
  | l_drain_end T ss : has_messages T = false ->
      loop_step (LoopSt T L_drain ss) (LoopSt T L_top ss).

(** What happens around the loop: senders, [nos_scheduler_stop], the
    operations that write the eventfd unconditionally, and events of other
    descriptors and timers that end [epoll_wait]. *)
Inductive env_step : loop_state -> loop_state -> Prop :=
  | e_send T pc ss r : ring_full (msg_queue T) = false ->
      env_step (LoopSt T pc ss) (LoopSt (set_queue (ring_put r (msg_queue T)) T) pc (S_sent :: ss))
  | e_look T pc ss1 ss2 :
      env_step (LoopSt T pc (ss1 ++ S_sent :: ss2))
               (LoopSt T pc (ss1 ++ (if is_sleeping T then [S_notify] else []) ++ ss2))
  | e_notify T pc ss1 ss2 :
      env_step (LoopSt T pc (ss1 ++ S_notify :: ss2)) (LoopSt (notify T) pc (ss1 ++ ss2))
  | e_stop T pc ss :
      env_step (LoopSt T pc ss) (LoopSt (set_stop true T) pc (S_stop :: ss))
  | e_stop_notify T pc ss1 ss2 :
      env_step (LoopSt T pc (ss1 ++ S_stop :: ss2)) (LoopSt (notify T) pc (ss1 ++ ss2))
  | e_write T pc ss : env_step (LoopSt T pc ss) (LoopSt (notify T) pc ss)
  | e_other T ss : env_step (LoopSt T L_wait ss) (LoopSt T (L_woken false) ss).

Definition run_step (s s' : loop_state) : Prop := loop_step s s' \/ env_step s s'.

(** A thread as [nos_scheduler_init_thread] leaves it, entering the loop. *)
Definition loop_init (T : nos_thread) : loop_state := LoopSt T L_top [].

Definition fresh_thread (T : nos_thread) : Prop :=
  exists id name T0, nos_scheduler_init_thread true id name (Some T0) = (NOS_OK, Some T).

(** ** No lost wake-up *)

Definition sleeping_pc (pc : loop_pc) : bool :=
  match pc with L_check | L_wait | L_woken _ => true | _ => false end.

(** What holds while the thread is inside [epoll_wait]: whoever gave it work
    has written the eventfd or is about to. *)
Definition wake_pending (T : nos_thread) (ss : list sender_pc) : Prop :=
  (has_messages T = true -> (0 < t_notify T)%Z \/ S_notify ∈ ss \/ S_sent ∈ ss) /\
  (stop_requested T = true -> (0 < t_notify T)%Z \/ S_stop ∈ ss).

Record loop_inv (s : loop_state) : Prop := {
  li_count : (0 <= t_notify (ls_thread s))%Z;
  li_sleep : is_sleeping (ls_thread s) = sleeping_pc (ls_pc s);
  li_wait : ls_pc s = L_wait -> wake_pending (ls_thread s) (ls_senders s);
  li_ring : ring_ok (msg_queue (ls_thread s));
  li_event : ls_pc s = L_woken true \/ ls_pc s = L_events true -> (0 < t_notify (ls_thread s))%Z;
}.

Lemma notify_pos T : (0 <= t_notify T)%Z -> (0 < t_notify (notify T))%Z.
Proof. intros H. unfold notify. simpl. destruct (Z.leb_spec (t_notify T + 1) (2 ^ 64 - 2)); lia. Qed.

Lemma take_message_ring T :
  ring_ok (msg_queue T) -> has_messages T = true ->
  ring_ok (msg_queue (take_message T)) /\
  length (thread_queue T) = S (length (thread_queue (take_message T))).
Proof.
  intros Hr%ring_ok_rep Hm. unfold has_messages in Hm. apply negb_true_iff in Hm.
  unfold thread_queue in *. destruct (ring_view (msg_queue T)) as [|r l] eqn:E.
  { by rewrite (ring_rep_empty _ Hr) in Hm. }
  destruct (queue_take_cons _ _ _ Hr) as [Ht Hr']. unfold take_message. simpl. rewrite Ht. simpl.
  split; [by eexists|]. by rewrite (ring_rep_view _ _ Hr').
Qed.

Lemma loop_step_inv s s' : loop_inv s -> loop_step s s' -> loop_inv s'.
Proof.
  intros [Hc Hs Hw Hr He] Hst.
  destruct Hst; simpl in *;
    try (split; simpl; try done; try (by apply take_message_ring); intros [?|?]; simplify_eq; by auto).
  unfold check_sleep. destruct (has_messages T || stop_requested T) eqn:E; split; simpl; try done;
    try (by intros [?|?]).
  intros _. apply orb_false_elim in E as [E1 E2]. split; congruence.
Qed.

Lemma loop_inv_notify T pc ss ss' :
  loop_inv (LoopSt T pc ss) -> loop_inv (LoopSt (notify T) pc ss').
Proof.
  intros [Hc Hs Hw Hr He]. simpl in *. pose proof (notify_pos T Hc).
  split; simpl; [by apply Z.lt_le_incl|done| |done|done]. intros _. split; intros _; by left.
Qed.

Lemma env_step_inv s s' : loop_inv s -> env_step s s' -> loop_inv s'.
Proof.
  intros Hi Hst. destruct Hst as [T pc ss r Hf|T pc ss1 ss2| |T pc ss| | |T ss];
    try (by eapply loop_inv_notify); destruct Hi as [Hc Hs Hw Hr He]; simpl in *.
  - split; simpl; [done|done| |eexists; apply ring_put_rep; [by apply ring_ok_rep|done]|done].
    intros E. destruct (Hw E) as [H1 H2]. split.
    + intros _. right. right. by left.
    + intros Hstop. destruct (H2 Hstop) as [?|?]; [by left|right; by right].
  - split; simpl; [done|done| |done|done]. intros ->. simpl in Hs. rewrite Hs.
    destruct (Hw eq_refl) as [H1 H2]. split.
    + intros Hm. right. left. set_solver.
    + intros Hstop. destruct (H2 Hstop) as [?|?]; [by left|right; set_solver].
  - split; simpl; [done|done| |done|done]. intros E. destruct (Hw E) as [H1 H2]. split.
    + intros Hm. destruct (H1 Hm) as [?|[?|?]]; [by left|right; left; by right|right; right; by right].
    + intros _. right. by left.
  - split; simpl; try done. by intros [?|?].
Qed.

Lemma loop_inv_init T : fresh_thread T -> loop_inv (loop_init T).
Proof.
  intros (id & name & T0 & [= <-]). split; simpl; try done; [|by intros [?|?]].
  apply ring_init_ok. unfold MAX_QUEUE_SIZE. lia.
Qed.

Lemma loop_inv_reachable T s : fresh_thread T -> rtc run_step (loop_init T) s -> loop_inv s.
Proof.
  intros HT Hr. apply loop_inv_init in HT. induction Hr as [|s1 s2 s3 [Hs|Hs] _ IH]; [done|..];
    apply IH; [by eapply loop_step_inv|by eapply env_step_inv].
Qed.

Lemma blocked_is_idle s :
  loop_inv s -> (forall s', ~ loop_step s s') ->
  ls_pc s = L_done \/
  (ls_pc s = L_wait /\
   (ls_senders s = [] -> has_messages (ls_thread s) = false /\ stop_requested (ls_thread s) = false)).
Proof.
  intros [Hc Hs Hw Hr _] Hb. destruct s as [U pc ss].
  simpl in *. destruct pc as [| | | | | |ev|ev| |]; simpl in *; try (by left).
  - destruct (stop_requested U) eqn:E1; [|destruct (has_messages U) eqn:E2];
      exfalso; eapply Hb; by constructor.
  - destruct (has_messages U) eqn:E; exfalso; eapply Hb; by constructor.
  - exfalso. eapply Hb, l_poll_other.
  - exfalso. eapply Hb, l_sleep.
  - exfalso. eapply Hb, l_check.
  - right. split; [done|]. intros ->. destruct (Hw eq_refl) as [H1 H2].
    assert (t_notify U <= 0)%Z as Hn.
    { destruct (Z.le_gt_cases (t_notify U) 0) as [?|Hgt]; [done|]. destruct (Hb _ (l_wake U [] Hgt)). }
    split.
    + destruct (has_messages U); [|done].
      destruct (H1 eq_refl) as [?|[[]%not_elem_of_nil|[]%not_elem_of_nil]]; lia.
    + destruct (stop_requested U); [|done]. destruct (H2 eq_refl) as [?|[]%not_elem_of_nil]; lia.
  - exfalso. eapply Hb, l_woken.
  - destruct ev; exfalso; eapply Hb; constructor.
  - destruct (has_messages U) eqn:E; exfalso; eapply Hb; by constructor.
Qed.

(** C7. No wake-up is lost: in every interleaving of the loop with senders
    and stoppers, when the loop cannot take a step, either it has ended, or
    it sleeps with an empty queue and no stop request, or a sender that
    already queued its message or set the flag is still about to write the
    eventfd. *)
Theorem no_lost_wakeup T s :
  fresh_thread T -> rtc run_step (loop_init T) s -> (forall s', ~ loop_step s s') ->
  ls_pc s = L_done \/
  (ls_pc s = L_wait /\
   (ls_senders s = [] -> has_messages (ls_thread s) = false /\ stop_requested (ls_thread s) = false)).
Proof. intros HT Hr. apply blocked_is_idle. by apply (loop_inv_reachable T). Qed.

(** ** The loop settles

    A measure that every step of the loop decreases: the queued messages,
    then the eventfd, then the position. *)
Definition pc_rank (msgs stop : bool) (pc : loop_pc) : nat :=
  if msgs then
    match pc with
    | L_fast | L_drain | L_done => 0 | L_top => 1 | L_poll | L_check | L_events _ => 2
    | L_sleep | L_woken _ => 3 | L_wait => 4
    end
  else if stop then
    match pc with
    | L_done => 0 | L_top => 1 | L_poll | L_check => 2 | L_fast | L_drain | L_sleep => 3
    | L_events _ => 4 | L_woken _ => 5 | L_wait => 6
    end
  else
    match pc with
    | L_done => 0 | L_events true => 1 | L_woken true => 2 | L_wait => 3 | L_check => 4
    | L_sleep => 5 | L_top => 6 | L_poll | L_drain | L_events false => 7 | L_fast | L_woken false => 8
    end.

Definition loop_measure (s : loop_state) : nat :=
  length (thread_queue (ls_thread s)) * 20 +
  (if (0 <? t_notify (ls_thread s))%Z then 10 else 0) +
  pc_rank (has_messages (ls_thread s)) (stop_requested (ls_thread s)) (ls_pc s).

Lemma has_messages_view T :
  ring_ok (msg_queue T) -> has_messages T = true <-> thread_queue T <> [].
Proof.
  intros Hr%ring_ok_rep. unfold has_messages. rewrite negb_true_iff, <-not_true_iff_false.
  by rewrite (ring_empty_rep _ _ Hr).
Qed.

Lemma pc_rank_bound m st pc : pc_rank m st pc <= 8.
Proof. destruct m, st, pc as [| | | | | |[]|[]| |]; simpl; lia. Qed.


Lemma loop_measure_take T pc pc' ss :
  ring_ok (msg_queue T) -> has_messages T = true ->
  loop_measure (LoopSt (take_message T) pc' ss) < loop_measure (LoopSt T pc ss).
Proof.
  intros Hr Hm. destruct (take_message_ring T Hr Hm) as [_ Hl]. unfold loop_measure. simpl.
  rewrite Hl. pose proof (pc_rank_bound (has_messages (take_message T)) (stop_requested T) pc').
  change (t_notify (take_message T)) with (t_notify T).
  change (stop_requested (take_message T)) with (stop_requested T). lia.
Qed.

Lemma loop_measure_read T pc pc' ss :
  (0 < t_notify T)%Z ->
  loop_measure (LoopSt (read_notify T) pc' ss) < loop_measure (LoopSt T pc ss).
Proof.
  intros Hn. unfold loop_measure. simpl.
  change (has_messages (read_notify T)) with (has_messages T).
  change (thread_queue (read_notify T)) with (thread_queue T).
  pose proof (pc_rank_bound (has_messages T) (stop_requested T) pc').
  destruct (Z.ltb_spec 0 (t_notify T)); lia.
Qed.

Lemma loop_measure_decreases s s' :
  loop_inv s -> loop_step s s' -> loop_measure s' < loop_measure s.
Proof.
  intros [Hc Hs Hw Hr He] Hst.
  destruct Hst as [T ss H|T ss H1 H2|T ss H1 H2|T ss H|T ss H|T ss H|T ss|T ss|T ss|T ss H|T ss ev|T ss|T ss|T ss H|T ss H];
    simpl in *; try (by apply loop_measure_take); try (apply loop_measure_read; by auto);
    unfold loop_measure; cbn [ls_thread ls_pc];
    try (change (thread_queue (set_sleeping _ T)) with (thread_queue T);
         change (has_messages (set_sleeping _ T)) with (has_messages T);
         cbn [t_notify stop_requested set_sleeping]);
    rewrite ?H, ?H1, ?H2; try (destruct (has_messages T), (stop_requested T); simpl; lia).
  - unfold check_sleep. destruct (has_messages T) eqn:E1, (stop_requested T) eqn:E2; simpl;
      try (change (thread_queue (set_sleeping _ T)) with (thread_queue T);
           change (has_messages (set_sleeping _ T)) with (has_messages T));
      rewrite ?E1, ?E2; simpl; lia.
  - destruct (has_messages T), (stop_requested T), ev; simpl; lia.
Qed.

Lemma loop_terminates s : loop_inv s -> Acc (fun b a => loop_step a b) s.
Proof.
  intros Hi. remember (loop_measure s) as m eqn:Hm. revert s Hi Hm.
  induction m as [m IH] using lt_wf_ind. intros s Hi Hm. constructor. intros s' Hs.
  eapply (IH (loop_measure s')); [rewrite Hm; by apply loop_measure_decreases| |done].
  by eapply loop_step_inv.
Qed.

Lemma loop_steps_senders s s' : rtc loop_step s s' -> ls_senders s' = ls_senders s.
Proof. induction 1 as [|s1 s2 s3 Hs _ IH]; [done|]. rewrite IH. by destruct Hs. Qed.

(** C9. Once the senders have finished, the loop settles: from any
    reachable state all its runs are finite, and each ends with the loop
    terminated or asleep with every queued message taken and no stop request
    pending. *)
Theorem loop_settles T s :
  fresh_thread T -> rtc run_step (loop_init T) s -> ls_senders s = [] ->
  Acc (fun b a => loop_step a b) s /\
  forall s', rtc loop_step s s' -> (forall s'', ~ loop_step s' s'') ->
    ls_pc s' = L_done \/
    (ls_pc s' = L_wait /\ thread_queue (ls_thread s') = [] /\ stop_requested (ls_thread s') = false).
Proof.
  intros HT Hr Hss. pose proof (loop_inv_reachable T s HT Hr) as Hi.
  split; [by apply loop_terminates|]. intros s' Hs Hb.
  assert (loop_inv s') as Hi'.
  { clear -Hi Hs. induction Hs as [|s1 s2 s3 Hs _ IH]; [done|]. apply IH. by eapply loop_step_inv. }
  destruct (blocked_is_idle s' Hi' Hb) as [?|[Hpc Hidle]]; [by left|right].
  destruct Hidle as [Hm Hst]; [by rewrite (loop_steps_senders s s')|].
  split_and!; [done| |done]. destruct (thread_queue (ls_thread s')) eqn:E; [done|].
  assert (has_messages (ls_thread s') = true) as Hm'; [|congruence].
  apply has_messages_view; [apply Hi'|]. by rewrite E.
Qed.

(** ** Timeout and spin count *)

(** C38. The sleep timeout: 0 when a timer is due; otherwise, for a delay
    below 2^31 ms, exactly the time to the earliest timer of the heap; but a
    delay from 2^31 up to 2^32 ms, which a 32-bit interval can ask for,
    becomes negative, which makes [epoll_wait] wait without limit. *)
Theorem sleep_timeout_spec n T now t l :
  live (timer_heap T) = t :: l -> carr_wf (timer_heap T) -> heap_ordered n (timer_heap T) ->
  (0 <= now)%Z -> (timer_key n t - now < 2 ^ 32)%Z ->
  let tmo := sleep_timeout n T now in
  (if timer_key n t <=? now then tmo = 0
   else if timer_key n t - now <? 2 ^ 31 then
     tmo = timer_key n t - now /\ forall u, u ∈ live (timer_heap T) -> now + tmo <= timer_key n u
   else tmo < 0)%Z.
Proof.
  intros Hl Hw Ho Hn Hd. unfold sleep_timeout. rewrite Hl.
  destruct (Z.leb_spec (timer_key n t) now); [done|]. rewrite u64_small by lia.
  destruct (Z.ltb_spec (timer_key n t - now) (2 ^ 31)).
  - rewrite i32_small by lia. split; [done|]. intros u Hu. rewrite <-Hl in Hu.
    pose proof (root_key n _ t l u Hw Ho Hl Hu). lia.
  - rewrite i32_neg by lia. lia.
Qed.

Definition digit_char (d : nat) : Ascii.ascii := Ascii.ascii_of_nat (48 + d).

(** The number a digit string denotes. *)
Definition dec_value (ds : list nat) : Z :=
  fold_left (fun a d => a * 10 + Z.of_nat d)%Z ds 0%Z.

Lemma digit_char_spec d : d < 10 -> digit (digit_char d) = Some (Z.of_nat d).
Proof. intros H. do 10 (destruct d as [|d]; [done|]). lia. Qed.

Lemma digit_char_first d : d < 10 ->
  is_space (digit_char d) = false /\ (Ascii.nat_of_ascii (digit_char d) =? 45) = false /\
  (Ascii.nat_of_ascii (digit_char d) =? 43) = false.
Proof. intros H. do 10 (destruct d as [|d]; [done|]). lia. Qed.

Lemma digits_app ds rest acc :
  Forall (fun d => d < 10) ds -> match rest with [] => True | c :: _ => digit c = None end ->
  digits acc (map digit_char ds ++ rest) =
  (fold_left (fun a d => a * 10 + Z.of_nat d)%Z ds acc, rest).
Proof.
  revert acc. induction ds as [|d ds IH]; intros acc Hd Hr; cbn [map app digits fold_left].
  - destruct rest as [|c rest]; [done|]. cbn [digits]. by rewrite Hr.
  - apply Forall_cons_iff in Hd as [Hd Hds]. rewrite digit_char_spec by done. by apply IH.
Qed.

(** NOS_BUSY_POLL_CYCLES: a string of decimal digits sets the spin count
    to the number it denotes when that fits in 32 bits; a larger number, or
    digits followed by anything else, leaves the configured value. *)
Theorem busy_poll_override n d ds rest :
  Forall (fun d => d < 10) (d :: ds) -> match rest with [] => True | c :: _ => digit c = None end ->
  scheduler_get_busy_poll_cycles n
    (Some (String.string_of_list_ascii (map digit_char (d :: ds) ++ rest))) =
  if bool_decide (rest = []) && (dec_value (d :: ds) <? 2 ^ 32)%Z then dec_value (d :: ds)
  else scheduler_get_busy_poll_cycles n None.
Proof.
  intros Hd Hr. unfold scheduler_get_busy_poll_cycles.
  rewrite String.list_ascii_of_string_of_list_ascii.
  pose proof Hd as [Hd0 _]%Forall_cons_iff. destruct (digit_char_first d Hd0) as (H1 & H2 & H3).
  assert (strtoul10 (map digit_char (d :: ds) ++ rest) =
    Some (if (dec_value (d :: ds) <? 2 ^ 64)%Z then (dec_value (d :: ds), rest, false)
          else (2 ^ 64 - 1, rest, true)%Z)) as E.
  { unfold strtoul10. cbn [map app skip_space]. rewrite H1. cbn [sign]. rewrite H2, H3.
    rewrite digit_char_spec by done.
    change (digit_char d :: map digit_char ds ++ rest) with (map digit_char (d :: ds) ++ rest).
    rewrite digits_app by done. fold (dec_value (d :: ds)). by destruct (_ <? _)%Z. }
  cbn [map app] in E |- *. rewrite E. set (v := dec_value (d :: ds)) in *.
  destruct rest as [|c rest].
  - rewrite bool_decide_eq_true_2 by done. cbn [andb].
    destruct (Z.ltb_spec v (2 ^ 64)), (Z.ltb_spec v (2 ^ 32)), (Z.ltb_spec (2 ^ 32 - 1) v); try lia; done.
  - rewrite bool_decide_eq_false_2 by done. cbn [andb]. by destruct (v <? 2 ^ 64)%Z.
Qed.

(** ** Witnesses *)

Definition loop_thread : nos_thread :=
  default demo_thread (nos_scheduler_init_thread true 1 "worker" (Some demo_thread)).2.

Lemma loop_thread_fresh : fresh_thread loop_thread.
Proof. exists 1%Z, "worker"%string, demo_thread. done. Qed.

(** The loop goes to sleep on an empty queue. *)
Lemma loop_sleeps :
  rtc run_step (loop_init loop_thread) (LoopSt (set_sleeping true loop_thread) L_wait []).
Proof.
  eapply rtc_l; [left; by apply l_idle|]. eapply rtc_l; [left; apply l_sleep|].
  apply rtc_once. left. apply (l_check (set_sleeping true loop_thread) []).
Qed.

Lemma no_lost_wakeup_witness :
  has_messages (set_sleeping true loop_thread) = false.
Proof.
  destruct (no_lost_wakeup loop_thread _ loop_thread_fresh loop_sleeps) as [H|[_ H]].
  - intros s' Hs. inversion Hs; subst. vm_compute in *. congruence.
  - done.
  - by apply H.
Defined.

(** A message sent while it sleeps wakes it. *)
Definition woken_thread : nos_thread :=
  notify (set_queue (ring_put demo_ref (msg_queue loop_thread)) (set_sleeping true loop_thread)).

Lemma loop_woken : rtc run_step (loop_init loop_thread) (LoopSt woken_thread L_wait []).
Proof.
  eapply transitivity; [apply loop_sleeps|].
  eapply rtc_l; [right; by apply (e_send _ _ _ demo_ref)|].
  eapply rtc_l; [right; apply (e_look _ _ [] [])|].
  apply rtc_once. right. apply (e_notify _ _ [] []).
Qed.

Lemma loop_settles_witness :
  Acc (fun b a => loop_step a b) (LoopSt woken_thread L_wait []) /\
  length (thread_queue woken_thread) = 1.
Proof.
  split; [|by vm_compute].
  by apply (loop_settles loop_thread _ loop_thread_fresh loop_woken).
Defined.

Lemma sleep_timeout_spec_witness :
  sleep_timeout demo_timers (demo_th demo_timers) 4 = 6%Z.
Proof.
  pose proof (sleep_timeout_spec demo_timers (demo_th demo_timers) 4 1 [0; 2] ltac:(by vm_compute)
    ltac:(apply Nat.leb_le; by vm_compute) ltac:(apply heap_orderedb_spec; by vm_compute)
    ltac:(done) ltac:(by vm_compute)) as H. cbv zeta in H.
  assert (timer_key demo_timers 1 <=? 4 = false)%Z as E1 by (by vm_compute).
  assert (timer_key demo_timers 1 - 4 <? 2 ^ 31 = true)%Z as E2 by (by vm_compute).
  rewrite E1, E2 in H. destruct H as [-> _]. by vm_compute.
Defined.

Lemma busy_poll_override_witness :
  scheduler_get_busy_poll_cycles demo_node (Some "250"%string) = 250%Z.
Proof.
  apply (busy_poll_override demo_node 2 [5; 0] []); [repeat constructor; lia|done].
Defined.
