(* ===== verification/Murmur.v ===== *)
(** * MurmurHash3 (src/infra/db/nos_kv.c)

    The 32-bit hash of the key-value engine, on the bytes of a key, with
    the C program's 32-bit arithmetic.  Words are read little-endian. *)

From stdpp Require Import base list.
From S2P Require Import Prelude Mem.
Local Open Scope Z_scope.

(** [(x << r) | (x >> (32 - r))] *)
Definition rotl32 (x r : Z) : Z := Z.lor (u32 (Z.shiftl x r)) (Z.shiftr x (32 - r)).

Definition c1 : Z := 0xcc9e2d51.
Definition c2 : Z := 0x1b873593.

(** [k1 *= c1; k1 = rotl(k1, 15); k1 *= c2] *)
Definition mix_k1 (k1 : Z) : Z := u32 (rotl32 (u32 (k1 * c1)) 15 * c2).

(** One block: [h1 ^= k1; h1 = rotl(h1, 13); h1 = h1 * 5 + 0xe6546b64]. *)
Definition mix_block (h1 k1 : Z) : Z :=
  u32 (u32 (rotl32 (Z.lxor h1 (mix_k1 k1)) 13 * 5) + 0xe6546b64).

(** The up to three bytes after the last block. *)
Definition mix_tail (tail : list Z) (h1 : Z) : Z :=
  match tail with
  | [a] => Z.lxor h1 (mix_k1 a)
  | [a; b] => Z.lxor h1 (mix_k1 (Z.lxor (Z.shiftl b 8) a))
  | [a; b; c] => Z.lxor h1 (mix_k1 (Z.lxor (Z.lxor (Z.shiftl c 16) (Z.shiftl b 8)) a))
  | _ => h1
  end.

Definition xorshift (h r : Z) : Z := Z.lxor h (Z.shiftr h r).

Definition fmix (h1 : Z) : Z :=
  xorshift (u32 (xorshift (u32 (xorshift h1 16 * 0x85ebca6b)) 13 * 0xc2b2ae35)) 16.

Definition murmurhash3_32 (data : list Z) (len : nat) (seed : Z) : Z :=
  let nblocks := (len / 4)%nat in
  let h1 := fold_left (fun h i => mix_block h (mem_read 4 (4 * i) data)) (seq 0 nblocks) seed in
  let tail := take (len - 4 * nblocks)%nat (drop (4 * nblocks)%nat data) in
  fmix (Z.lxor (mix_tail tail h1) (Z.of_nat len)).

(** Published test vectors for the x86_32 variant. *)
Example murmur_empty : murmurhash3_32 [] 0 0 = 0.
Proof. reflexivity. Qed.

Example murmur_empty_seed1 : murmurhash3_32 [] 0 1 = 0x514e28b7.
Proof. reflexivity. Qed.

Example murmur_test : murmurhash3_32 [116; 101; 115; 116] 4 0 = 0xba6bd213.
Proof. reflexivity. Qed.

(** "Hello, world!", which has a one-byte tail *)
Example murmur_hello :
  murmurhash3_32 [72; 101; 108; 108; 111; 44; 32; 119; 111; 114; 108; 100; 33] 13 0 = 0xc0363e43.
Proof. reflexivity. Qed.

Lemma shiftr_u32 x r : in_u32 x -> 0 <= r -> in_u32 (Z.shiftr x r).
Proof.
  intros [H0 H1] Hr. rewrite Z.shiftr_div_pow2 by done. pose proof (Z.pow_pos_nonneg 2 r ltac:(lia) Hr).
  split; [apply Z.div_pos; lia|]. apply Z.div_lt_upper_bound; nia.
Qed.

Lemma xorshift_u32 h r : in_u32 h -> 0 <= r -> in_u32 (xorshift h r).
Proof. intros. apply lxor_u32; [done|]. by apply shiftr_u32. Qed.

Lemma fmix_u32 h : in_u32 h -> in_u32 (fmix h).
Proof. intros Hh. unfold fmix. apply xorshift_u32; [apply u32_range|lia]. Qed.

Lemma mix_tail_u32 tail h : in_u32 h -> in_u32 (mix_tail tail h).
Proof.
  intros Hh. destruct tail as [|a [|b [|c [|d tail]]]]; simpl; try done;
    (apply lxor_u32; [done|apply u32_range]).
Qed.

Lemma murmur_range data len seed :
  in_u32 seed -> (Z.of_nat len < 2 ^ 32) -> in_u32 (murmurhash3_32 data len seed).
Proof.
  intros Hs Hl. apply fmix_u32, lxor_u32; [|unfold in_u32; lia]. apply mix_tail_u32.
  generalize (seq 0 (len / 4)). intros l. revert seed Hs.
  induction l as [|i l IH]; intros seed Hs; [done|]. simpl. apply IH, u32_range.
Qed.

(** Unification never needs the body; evaluation does. *)
#[global] Opaque murmurhash3_32.
