(* ===== verification/Kv.v ===== *)
(** * The key-value engine (src/infra/db/nos_kv.c, nos_kv_priv.h)

    A table has fixed-size keys and preallocated entries.  Each bucket is a
    chain of entry indices behind a read-write lock; free entries are on a
    stack.  [KV_INVALID_IDX] is [None].  An entry's flexible array holds the
    key bytes followed by room for the value.

    The entry offsets [idx * entry_size] are computed in 32 bits; the model
    keeps entries apart, which is what the C code does for tables below
    4 GiB. *)

From stdpp Require Import base list gmap sets strings.
From S2P Require Import Prelude CArray Mem Murmur.

(** ** Data *)

(** A subscription: the callback and its argument. *)
Abbreviation kv_sub := (nat * nat)%type.

Record nos_kv_entry := KvEntry {
  e_next : option nat;
  e_val_len : nat;
  e_subs : list kv_sub;       (* sub_list, first element first *)
  e_data : list Z;
}.

(** [b_readers] counts the read locks held through [nos_kv_get_ptr]. *)
Record nos_kv_bucket := KvBucket {
  b_readers : nat;
  b_first : option nat;
}.

Record nos_kv_table := KvTable {
  kt_name : string;           (* char[32] *)
  kt_key_size : nat;
  kt_max_val : nat;
  kt_entry_size : Z;
  kt_capacity : nat;
  kt_bucket_count : nat;
  kt_buckets : list nos_kv_bucket;
  kt_entries : list nos_kv_entry;
  kt_free : list nat;         (* free_stack[0 .. free_top], top last *)
  kt_used : Z;
}.

(** The result of an operation: [KvBlocked] waits for a lock that a holder of
    a value pointer has not released, [KvStuck] is a chain that does not end
    or leaves the pool. *)
Inductive kv_res (A : Type) :=
  | KvRet (a : A)
  | KvBlocked
  | KvStuck.
Arguments KvRet {A} _.
Arguments KvBlocked {A}.
Arguments KvStuck {A}.

#[global] Instance kv_res_bind : MBind kv_res := fun A B f r =>
  match r with KvRet a => f a | KvBlocked => KvBlocked | KvStuck => KvStuck end.

Definition set_buckets (bs : list nos_kv_bucket) (t : nos_kv_table) : nos_kv_table :=
  KvTable (kt_name t) (kt_key_size t) (kt_max_val t) (kt_entry_size t) (kt_capacity t)
          (kt_bucket_count t) bs (kt_entries t) (kt_free t) (kt_used t).
Definition set_entries (es : list nos_kv_entry) (t : nos_kv_table) : nos_kv_table :=
  KvTable (kt_name t) (kt_key_size t) (kt_max_val t) (kt_entry_size t) (kt_capacity t)
          (kt_bucket_count t) (kt_buckets t) es (kt_free t) (kt_used t).
Definition set_free (fr : list nat) (used : Z) (t : nos_kv_table) : nos_kv_table :=
  KvTable (kt_name t) (kt_key_size t) (kt_max_val t) (kt_entry_size t) (kt_capacity t)
          (kt_bucket_count t) (kt_buckets t) (kt_entries t) fr used.

Definition set_first (i : option nat) (b : nos_kv_bucket) : nos_kv_bucket :=
  KvBucket (b_readers b) i.
Definition set_readers (n : nat) (b : nos_kv_bucket) : nos_kv_bucket :=
  KvBucket n (b_first b).
Definition set_next (i : option nat) (e : nos_kv_entry) : nos_kv_entry :=
  KvEntry i (e_val_len e) (e_subs e) (e_data e).
Definition set_subs (l : list kv_sub) (e : nos_kv_entry) : nos_kv_entry :=
  KvEntry (e_next e) (e_val_len e) l (e_data e).

(** [memcpy(m + off, bs, |bs|)] *)
Definition bytes_put (off : nat) (bs m : list Z) : list Z :=
  take off m ++ bs ++ drop (off + length bs) m.

(** ** Tables *)

Definition MAX_TABLES : nat := 32.
Definition SIZEOF_ENTRY : Z := 16.
Definition SIZEOF_BUCKET : Z := 64.
Definition SIZEOF_TABLE : Z := 88.

(** [bucket_count = 1024; while (bucket_count < capacity) bucket_count <<= 1;]
    on a 32-bit integer. *)
Fixpoint bucket_count_loop (fuel : nat) (capacity bc : Z) : option Z :=
  match fuel with
  | O => None
  | S fuel => if (bc <? capacity)%Z then bucket_count_loop fuel capacity (u32 (Z.shiftl bc 1))
              else Some bc
  end.

Definition entry_size_of (key_size max_val : Z) : Z := u32 (u32 (SIZEOF_ENTRY + key_size) + max_val).

(** [(uint8_t * )pool_mem + (idx * entry_size)] *)
Definition entry_off (entry_size : Z) (idx : nat) : Z := u32 (Z.of_nat idx * entry_size).

Definition new_table (name : string) (ks mv cap bc : nat) : nos_kv_table :=
  KvTable (strncpy_field 32 name) ks mv (entry_size_of (Z.of_nat ks) (Z.of_nat mv)) cap bc
    (replicate bc (KvBucket 0 None))
    (replicate cap (KvEntry (Some 0) 0 [] (replicate (ks + mv) 0%Z)))
    (seq 0 cap) 0.

(** The tables by handle, in order of creation.  [fuel] bounds the sizing
    loop; [None] is running out of it. *)
Abbreviation kv_db := (list nos_kv_table).

Definition nos_kv_table_create (fuel : nat) (calloc_ok : bool) (name : option string)
    (ks mv cap : nat) (db : kv_db) : option (kv_db * option nat) :=
  match name with
  | None => Some (db, None)
  | Some name =>
      if (ks =? 0) || (cap =? 0) then Some (db, None)
      else
        match find_idx (fun t => String.eqb (kt_name t) name) db with
        | Some i => Some (db, Some i)
        | None =>
            if MAX_TABLES <=? length db then Some (db, None)
            else if negb calloc_ok then Some (db, None)
            else
              match bucket_count_loop fuel (Z.of_nat cap) 1024 with
              | None => None
              | Some bc => Some (db ++ [new_table name ks mv cap (Z.to_nat bc)], Some (length db))
              end
        end
  end.

(** ** Operations on a table *)

Definition bucket_of (t : nos_kv_table) (key : list Z) : nat :=
  Z.to_nat (murmurhash3_32 key (kt_key_size t) 0 mod Z.of_nat (kt_bucket_count t)).

Definition entry_key (t : nos_kv_table) (e : nos_kv_entry) : list Z := take (kt_key_size t) (e_data e).

(** [memcmp(entry->data, key, key_size) == 0] *)
Definition key_matches (t : nos_kv_table) (key : list Z) (e : nos_kv_entry) : bool :=
  bool_decide (entry_key t e = take (kt_key_size t) key).

(** The walk along a chain: predecessor, index and entry of the key. *)
Fixpoint kv_find (fuel : nat) (t : nos_kv_table) (key : list Z) (prev curr : option nat)
    : kv_res (option (option nat * nat * nos_kv_entry)) :=
  match fuel with
  | O => KvStuck
  | S fuel =>
      match curr with
      | None => KvRet None
      | Some i =>
          match kt_entries t !! i with
          | None => KvStuck
          | Some e => if key_matches t key e then KvRet (Some (prev, i, e))
                      else kv_find fuel t key (Some i) (e_next e)
          end
      end
  end.

(** A chain visits each entry at most once. *)
Definition kv_lookup (t : nos_kv_table) (key : list Z)
    : kv_res (option (option nat * nat * nos_kv_entry)) :=
  match kt_buckets t !! bucket_of t key with
  | None => KvStuck
  | Some b => kv_find (S (kt_capacity t)) t key None (b_first b)
  end.

(** [pthread_rwlock_wrlock]: waits while value pointers are out. *)
Definition wrlock (t : nos_kv_table) (key : list Z) : kv_res () :=
  match kt_buckets t !! bucket_of t key with
  | None => KvStuck
  | Some b => if b_readers b =? 0 then KvRet () else KvBlocked
  end.

Definition store_value (t : nos_kv_table) (val : option (list Z)) (val_len : nat)
    (e : nos_kv_entry) : nos_kv_entry :=
  KvEntry (e_next e) val_len (e_subs e)
    (match val with
     | Some v => bytes_put (kt_key_size t) (take val_len v) (e_data e)
     | None => e_data e
     end).

(** The calls to subscribers a put makes: callback, argument. *)
Definition nos_kv_put (t : nos_kv_table) (key : option (list Z)) (val : option (list Z))
    (val_len : nat) : kv_res (nos_status * nos_kv_table * list kv_sub) :=
  match key with
  | None => KvRet (NOS_ERR, t, [])
  | Some key =>
      if kt_max_val t <? val_len then KvRet (NOS_ERR, t, [])
      else
        wrlock t key ≫= fun _ =>
        kv_lookup t key ≫= fun r =>
        match r with
        | Some (_, i, e) =>
            KvRet (NOS_OK, set_entries (<[i := store_value t val val_len e]> (kt_entries t)) t, e_subs e)
        | None =>
            match last (kt_free t) with
            | None => KvRet (NOS_ERR_BUSY, t, [])
            | Some i =>
                let b := bucket_of t key in
                let first := kt_buckets t !! b ≫= b_first in
                let fill e := set_next first (set_subs []
                  (store_value t val val_len
                    (KvEntry (e_next e) (e_val_len e) (e_subs e)
                       (bytes_put 0 (take (kt_key_size t) key) (e_data e))))) in
                KvRet (NOS_OK,
                  set_free (removelast (kt_free t)) (u32 (kt_used t + 1))
                    (set_buckets (alter (set_first (Some i)) b (kt_buckets t))
                      (set_entries (alter fill i (kt_entries t)) t)), [])
            end
        end
  end.

Definition entry_value (t : nos_kv_table) (e : nos_kv_entry) : list Z :=
  take (e_val_len e) (drop (kt_key_size t) (e_data e)).

(** [buf_len] is [*val_len]; the answer is the bytes copied and the value's
    full length.  Readers never wait for each other. *)
Definition nos_kv_get (t : nos_kv_table) (key : option (list Z)) (buf_len : nat)
    : kv_res (nos_status * option (list Z * nat)) :=
  match key with
  | None => KvRet (NOS_ERR, None)
  | Some key =>
      kv_lookup t key ≫= fun r =>
      match r with
      | Some (_, _, e) =>
          let copy_len := if buf_len <? e_val_len e then buf_len else e_val_len e in
          KvRet (NOS_OK, Some (take copy_len (drop (kt_key_size t) (e_data e)), e_val_len e))
      | None => KvRet (NOS_ERR, None)
      end
  end.

(** On success the bucket's read lock stays held; the handle is the bucket. *)
Definition nos_kv_get_ptr (t : nos_kv_table) (key : option (list Z))
    : kv_res (nos_status * nos_kv_table * option (list Z * nat)) :=
  match key with
  | None => KvRet (NOS_ERR, t, None)
  | Some key =>
      kv_lookup t key ≫= fun r =>
      match r with
      | Some (_, _, e) =>
          let b := bucket_of t key in
          KvRet (NOS_OK,
            set_buckets (alter (fun x => set_readers (S (b_readers x)) x) b (kt_buckets t)) t,
            Some (entry_value t e, b))
      | None => KvRet (NOS_ERR, t, None)
      end
  end.

Definition nos_kv_release_ptr (handle : option nat) (t : nos_kv_table) : nos_kv_table :=
  match handle with
  | None => t
  | Some b => set_buckets (alter (fun x => set_readers (b_readers x - 1) x) b (kt_buckets t)) t
  end.

Definition nos_kv_subscribe (t : nos_kv_table) (key : option (list Z)) (notify : option nat)
    (arg : nat) : kv_res (nos_status * nos_kv_table) :=
  match key, notify with
  | Some key, Some f =>
      wrlock t key ≫= fun _ =>
      kv_lookup t key ≫= fun r =>
      match r with
      | Some (_, i, e) =>
          if bool_decide ((f, arg) ∈ e_subs e) then KvRet (NOS_OK, t)
          else KvRet (NOS_OK, set_entries (<[i := set_subs ((f, arg) :: e_subs e) e]> (kt_entries t)) t)
      | None => KvRet (NOS_ERR, t)
      end
  | _, _ => KvRet (NOS_ERR, t)
  end.

(** Unlinks the first matching subscription. *)
Fixpoint remove_first (s : kv_sub) (l : list kv_sub) : list kv_sub :=
  match l with
  | [] => []
  | x :: l => if decide (x = s) then l else x :: remove_first s l
  end.

Definition nos_kv_unsubscribe (t : nos_kv_table) (key : option (list Z)) (notify : option nat)
    (arg : nat) : kv_res (nos_status * nos_kv_table) :=
  match key, notify with
  | Some key, Some f =>
      wrlock t key ≫= fun _ =>
      kv_lookup t key ≫= fun r =>
      match r with
      | Some (_, i, e) =>
          if bool_decide ((f, arg) ∈ e_subs e)
          then KvRet (NOS_OK, set_entries (<[i := set_subs (remove_first (f, arg) (e_subs e)) e]> (kt_entries t)) t)
          else KvRet (NOS_ERR, t)
      | None => KvRet (NOS_ERR, t)
      end
  | _, _ => KvRet (NOS_ERR, t)
  end.

Definition nos_kv_del (t : nos_kv_table) (key : option (list Z))
    : kv_res (nos_status * nos_kv_table) :=
  match key with
  | None => KvRet (NOS_ERR, t)
  | Some key =>
      wrlock t key ≫= fun _ =>
      kv_lookup t key ≫= fun r =>
      match r with
      | Some (prev, i, e) =>
          let t1 := match prev with
                    | None => set_buckets (alter (set_first (e_next e)) (bucket_of t key) (kt_buckets t)) t
                    | Some p => set_entries (alter (set_next (e_next e)) p (kt_entries t)) t
                    end in
          let t2 := set_entries (alter (set_subs []) i (kt_entries t1)) t1 in
          KvRet (NOS_OK, set_free (kt_free t ++ [i]) (u32 (kt_used t - 1)) t2)
      | None => KvRet (NOS_ERR, t)
      end
  end.

(** ** Accounting and shutdown *)

Definition table_mem (t : nos_kv_table) : Z :=
  SIZEOF_TABLE + Z.of_nat (kt_bucket_count t) * SIZEOF_BUCKET +
  Z.of_nat (kt_capacity t) * (kt_entry_size t + 4).

Definition nos_kv_get_total_mem_usage (db : kv_db) : Z :=
  fold_left (fun total t => total + table_mem t)%Z db 0%Z.

(** One line per table: name, key size, value size, capacity, used. *)
Definition nos_kv_dump_all (db : kv_db) : list (string * nat * nat * nat * Z) :=
  map (fun t => (kt_name t, kt_key_size t, kt_max_val t, kt_capacity t, kt_used t)) db.

(** Shutdown write-locks every bucket first, so it waits for value pointers
    that are still out. *)
Definition nos_kv_db_deinit (db : kv_db) : kv_res kv_db :=
  if forallb (fun t => forallb (fun b => b_readers b =? 0) (kt_buckets t)) db
  then KvRet [] else KvBlocked.

(** ** Representation

    A table represents a finite map from keys to a value and the list of
    subscriptions. *)

Abbreviation kv_map := (gmap (list Z) (list Z * list kv_sub)).

(** [l] is the chain that starts at [first]. *)
Fixpoint lseg (es : list nos_kv_entry) (first : option nat) (l : list nat) : Prop :=
  match l with
  | [] => first = None
  | i :: l => first = Some i /\ exists e, es !! i = Some e /\ lseg es (e_next e) l
  end.

Record kv_wf (t : nos_kv_table) (chains : list (list nat)) (m : kv_map) : Prop := {
  kw_entries : length (kt_entries t) = kt_capacity t;
  kw_cap : (Z.of_nat (kt_capacity t) < 2 ^ 32)%Z;
  kw_buckets : length (kt_buckets t) = kt_bucket_count t;
  kw_chains : length chains = kt_bucket_count t;
  kw_some : 0 < kt_bucket_count t;
  kw_lseg : forall b l, chains !! b = Some l ->
    exists bk, kt_buckets t !! b = Some bk /\ lseg (kt_entries t) (b_first bk) l;
  kw_perm : concat chains ++ kt_free t ≡ₚ seq 0 (kt_capacity t);
  kw_home : forall b l i e, chains !! b = Some l -> i ∈ l -> kt_entries t !! i = Some e ->
    bucket_of t (entry_key t e) = b;
  kw_data : forall i e, kt_entries t !! i = Some e ->
    length (e_data e) = kt_key_size t + kt_max_val t /\ e_val_len e <= kt_max_val t;
  kw_uniq : forall i j e e', i ∈ concat chains -> j ∈ concat chains ->
    kt_entries t !! i = Some e -> kt_entries t !! j = Some e' ->
    entry_key t e = entry_key t e' -> i = j;
  kw_used : kt_used t = Z.of_nat (length (concat chains));
  kw_size : size m = length (concat chains);
  kw_map : forall key x, m !! key = Some x <->
    exists i e, i ∈ concat chains /\ kt_entries t !! i = Some e /\ entry_key t e = key /\
      x = (entry_value t e, e_subs e);
}.

Definition kv_rep (t : nos_kv_table) (m : kv_map) : Prop := exists chains, kv_wf t chains m.

(** A key the table accepts. *)
Definition key_ok (t : nos_kv_table) (key : list Z) : Prop := length key = kt_key_size t.

Definition unlocked (t : nos_kv_table) : Prop :=
  forall b bk, kt_buckets t !! b = Some bk -> b_readers bk = 0.

(** ** Lemmas *)

Lemma lseg_ext es es' first l :
  (forall i, i ∈ l -> e_next <$> es' !! i = e_next <$> es !! i) -> lseg es first l -> lseg es' first l.
Proof.
  revert first. induction l as [|i l IH]; intros first He; simpl; [done|].
  intros (-> & e & Hi & Hl). split; [done|].
  pose proof (He i ltac:(by left)) as Hn. rewrite Hi in Hn. simpl in Hn.
  apply fmap_Some in Hn as (e' & Hi' & En). exists e'. split; [done|]. rewrite <-En.
  apply IH; [|done]. intros j Hj. apply He. by right.
Qed.

Lemma lseg_bound es first l i : lseg es first l -> i ∈ l -> is_Some (es !! i).
Proof.
  revert first. induction l as [|j l IH]; intros first; simpl; [by intros _ ?%not_elem_of_nil|].
  intros (_ & e & Hj & Hl) [->|Hi]%elem_of_cons; [by eexists|by eapply IH].
Qed.

(** Splitting off a suffix of a chain, and unlinking an element. *)
Lemma lseg_unlink es first l1 i l2 e :
  NoDup (l1 ++ i :: l2) -> lseg es first (l1 ++ i :: l2) -> es !! i = Some e ->
  match last l1 with
  | None => lseg es (e_next e) l2
  | Some p => lseg (alter (set_next (e_next e)) p es) first (l1 ++ l2)
  end.
Proof.
  revert first. induction l1 as [|j l1 IH]; intros first Hnd; simpl.
  - intros (_ & e' & Hi & Hl) He. by simplify_eq.
  - intros (-> & ej & Hj & Hl) He. simpl in Hnd. apply NoDup_cons in Hnd as [Hni Hnd].
    specialize (IH _ Hnd Hl He). destruct l1 as [|k l1]; simpl in *.
    + split; [done|]. rewrite list_lookup_alter_eq, Hj. simpl. eexists. split; [done|]. simpl.
      eapply lseg_ext; [|exact IH]. intros x Hx. rewrite list_lookup_alter_ne; [done|].
      intros ->. apply Hni. by right.
    + destruct (last (k :: l1)) as [p|] eqn:Hp; [|by apply last_None in Hp].
      split; [done|]. assert (p <> j) as Hpj.
      { intros ->. apply Hni. apply last_Some_elem_of in Hp. change (j ∈ (k :: l1) ++ i :: l2). apply elem_of_app. by left. }
      exists ej. by rewrite list_lookup_alter_ne.
Qed.

Lemma kv_find_spec fuel t key prev first l :
  lseg (kt_entries t) first l -> length l < fuel ->
  match find_idx (fun i => match kt_entries t !! i with Some e => key_matches t key e | None => false end) l with
  | None => kv_find fuel t key prev first = KvRet None
  | Some k => exists l1 i l2 e, l = l1 ++ i :: l2 /\ length l1 = k /\ kt_entries t !! i = Some e /\
      key_matches t key e = true /\
      kv_find fuel t key prev first =
        KvRet (Some (match last l1 with None => prev | Some p => Some p end, i, e))
  end.
Proof.
  revert prev first l. induction fuel as [|fuel IH]; intros prev first l Hl Hlen; [lia|].
  destruct l as [|i l]; simpl in Hl |- *; [by subst|].
  destruct Hl as (-> & e & Hi & Hl). rewrite Hi. destruct (key_matches t key e) eqn:Hk.
  - by exists [], i, l, e.
  - simpl in Hlen. specialize (IH (Some i) (e_next e) l Hl ltac:(lia)).
    destruct (find_idx _ l) as [k|]; simpl; [|done].
    destruct IH as (l1 & j & l2 & e' & -> & <- & Hj & Hk' & Hf).
    exists (i :: l1), j, l2, e'. split_and!; [done..|]. rewrite Hf.
    destruct l1 as [|x l1]; [done|].
    change (last (i :: x :: l1)) with (last (x :: l1)).
    destruct (last (x :: l1)) eqn:E; [done|by apply last_None in E].
Qed.

Section wf.
Context {t : nos_kv_table} {chains : list (list nat)} {m : kv_map} (W : kv_wf t chains m).

Lemma bucket_of_lt key : bucket_of t key < kt_bucket_count t.
Proof.
  pose proof (kw_some _ _ _ W). unfold bucket_of. pose proof (Z.mod_pos_bound
    (murmurhash3_32 key (kt_key_size t) 0) (Z.of_nat (kt_bucket_count t)) ltac:(lia)). lia.
Qed.

Lemma kw_nodup : NoDup (concat chains ++ kt_free t).
Proof. rewrite (kw_perm _ _ _ W). apply NoDup_seq. Qed.

Lemma chain_nodup b l : chains !! b = Some l -> NoDup l.
Proof.
  intros Hb. pose proof kw_nodup as Hnd. apply NoDup_app in Hnd as (Hnd & _ & _).
  apply list_elem_of_split_length in Hb as (k1 & k2 & -> & _).
  rewrite concat_app in Hnd. simpl in Hnd. apply NoDup_app in Hnd as (_ & _ & Hnd).
  by apply NoDup_app in Hnd as (? & _ & _).
Qed.

Lemma chain_in b l i : chains !! b = Some l -> i ∈ l -> i ∈ concat chains.
Proof.
  intros Hb Hi. apply list_elem_of_split_length in Hb as (k1 & k2 & -> & _).
  rewrite concat_app. simpl. rewrite !elem_of_app. tauto.
Qed.

Lemma chain_disjoint b c l k i :
  chains !! b = Some l -> chains !! c = Some k -> i ∈ l -> i ∈ k -> b = c.
Proof.
  intros Hb Hc Hi Hk. destruct (kw_lseg _ _ _ W b l Hb) as (bk & _ & Hl).
  destruct (lseg_bound _ _ _ i Hl Hi) as [e He].
  rewrite <-(kw_home _ _ _ W b l i e Hb Hi He). by apply (kw_home _ _ _ W c k i e Hc Hk He).
Qed.

Lemma chain_of_in i : i ∈ concat chains -> exists b l, chains !! b = Some l /\ i ∈ l.
Proof.
  intros Hi. apply list_elem_of_In, in_concat in Hi as (l & Hl & Hi).
  apply list_elem_of_In, list_elem_of_lookup in Hl as [b Hb]. exists b, l.
  split; [done|]. by apply list_elem_of_In.
Qed.

Lemma chain_length b l : chains !! b = Some l -> length l <= kt_capacity t.
Proof.
  intros Hb. pose proof (Permutation_length (kw_perm _ _ _ W)) as Hp.
  rewrite length_seq, length_app in Hp.
  apply list_elem_of_split_length in Hb as (k1 & k2 & E & _). rewrite E, concat_app in Hp.
  simpl in Hp. rewrite !length_app in Hp. lia.
Qed.

(** What a lookup finds, against the represented map. *)
Lemma kv_lookup_spec key :
  key_ok t key ->
  exists b bk l, b = bucket_of t key /\ kt_buckets t !! b = Some bk /\ chains !! b = Some l /\
    lseg (kt_entries t) (b_first bk) l /\
    match m !! key with
    | None => kv_lookup t key = KvRet None
    | Some x => exists l1 i l2 e, l = l1 ++ i :: l2 /\ kt_entries t !! i = Some e /\
        entry_key t e = key /\ x = (entry_value t e, e_subs e) /\
        kv_lookup t key = KvRet (Some (last l1, i, e))
    end.
Proof.
  intros Hk. pose proof (bucket_of_lt key) as Hb. rewrite <-(kw_chains _ _ _ W) in Hb.
  apply lookup_lt_is_Some in Hb as [l Hl].
  destruct (kw_lseg _ _ _ W _ l Hl) as (bk & Hbk & Hseg).
  exists (bucket_of t key), bk, l. split_and!; [done..|].
  pose proof (kv_find_spec (S (kt_capacity t)) t key None (b_first bk) l Hseg
    ltac:(pose proof (chain_length _ l Hl); lia)) as Hf.
  assert (forall e, key_matches t key e = true <-> entry_key t e = key) as Hkm.
  { intros e. unfold key_matches. rewrite bool_decide_eq_true, (take_ge key); [done|].
    unfold key_ok in Hk. lia. }
  unfold kv_lookup. rewrite Hbk. destruct (find_idx _ l) as [k|] eqn:Hfi.
  - destruct Hf as (l1 & i & l2 & e & -> & _ & Hi & Hke & Hf). apply Hkm in Hke.
    assert (m !! key = Some (entry_value t e, e_subs e)) as ->.
    { apply (kw_map _ _ _ W). exists i, e. split_and!; [|done..].
      apply (chain_in _ _ _ Hl). apply elem_of_app. right. by left. }
    exists l1, i, l2, e. split_and!; [done..|]. rewrite Hf. by destruct (last l1).
  - destruct (m !! key) as [x|] eqn:Hm; [|done]. exfalso.
    apply (kw_map _ _ _ W) in Hm as (i & e & Hi & He & Hke & _).
    destruct (chain_of_in i Hi) as (b' & l' & Hl' & Hi').
    pose proof (kw_home _ _ _ W b' l' i e Hl' Hi' He) as Hh. rewrite Hke in Hh. subst b'.
    simplify_eq. apply find_idx_None in Hfi. rewrite List.Forall_forall in Hfi.
    specialize (Hfi i (proj1 (list_elem_of_In _ _) Hi')). rewrite He in Hfi.
    assert (key_matches t (entry_key t e) e = true) by (by apply Hkm). congruence.
Qed.
End wf.

Lemma concat_insert (chains : list (list nat)) b l :
  chains !! b = Some l -> forall l', concat (<[b := l']> chains) ++ l ≡ₚ concat chains ++ l'.
Proof.
  revert b. induction chains as [|k chains IH]; intros [|b] Hb l'; simplify_eq/=.
  - rewrite (Permutation_app_comm (l' ++ concat chains)), <-app_assoc.
    apply Permutation_app_head, Permutation_app_comm.
  - rewrite <-!app_assoc. apply Permutation_app_head. by apply IH.
Qed.

(** Rewriting a used entry without moving it or changing its key. *)
Lemma kv_wf_update t chains m i e e' :
  kv_wf t chains m -> i ∈ concat chains -> kt_entries t !! i = Some e ->
  e_next e' = e_next e -> entry_key t e' = entry_key t e ->
  length (e_data e') = length (e_data e) -> e_val_len e' <= kt_max_val t ->
  kv_wf (set_entries (<[i := e']> (kt_entries t)) t) chains
        (<[entry_key t e := (entry_value t e', e_subs e')]> m).
Proof.
  intros W Hi He Hn Hk Hd Hv. pose proof (lookup_lt_Some _ _ _ He) as Hlt.
  assert (forall j x, (<[i:=e']> (kt_entries t)) !! j = Some x ->
    exists y, kt_entries t !! j = Some y /\ entry_key t x = entry_key t y /\
      (j <> i -> x = y) /\ (j = i -> x = e')) as Hj.
  { intros j x Hj. destruct (decide (j = i)) as [->|Hne].
    - rewrite list_lookup_insert_eq in Hj by done. simplify_eq. by exists e.
    - rewrite list_lookup_insert_ne in Hj by done. by exists x. }
  destruct W. split; simpl; try done.
  - by rewrite length_insert.
  - intros b l Hb. destruct (kw_lseg0 b l Hb) as (bk & Hbk & Hl). exists bk. split; [done|].
    eapply lseg_ext; [|exact Hl]. intros j _. destruct (decide (j = i)) as [->|].
    + rewrite list_lookup_insert_eq, He by done. simpl. by rewrite Hn.
    + by rewrite list_lookup_insert_ne.
  - intros b l j x Hb Hjl Hx. destruct (Hj j x Hx) as (y & Hy & Hxy & _).
    change (bucket_of t (entry_key t x) = b). rewrite Hxy. by eapply kw_home0.
  - intros j x Hx. destruct (Hj j x Hx) as (y & Hy & _ & Hne & Heq).
    destruct (decide (j = i)) as [->|?].
    + rewrite Heq by done. simplify_eq. rewrite Hd. split; [|done]. by eapply kw_data0.
    + rewrite Hne by done. by eapply kw_data0.
  - intros j k x y Hjc Hkc Hx Hy E. destruct (Hj j x Hx) as (x' & Hx' & Ex & _).
    destruct (Hj k y Hy) as (y' & Hy' & Ey & _).
    change (entry_key t x = entry_key t y) in E. eapply kw_uniq0; [done..|]. congruence.
  - rewrite map_size_insert_Some; [done|]. eexists. apply kw_map0. by exists i, e.
  - intros key x. destruct (decide (entry_key t e = key)) as [<-|Hne].
    + rewrite lookup_insert_eq. split.
      * intros [= <-]. exists i, e'. by rewrite list_lookup_insert_eq.
      * intros (j & y & Hjc & Hy & Ey & ->). destruct (Hj j y Hy) as (y' & Hy' & Eyy & _ & Heq).
        change (entry_key t y = entry_key t e) in Ey.
        assert (j = i) as -> by (eapply kw_uniq0; [done..|congruence]). by rewrite Heq.
    + rewrite lookup_insert_ne, kw_map0 by done.
      split; intros (j & y & Hjc & Hy & Ey & ->).
      * exists j, y. split_and!; [done| |done..]. rewrite list_lookup_insert_ne; [done|].
        intros ->. apply Hne. by simplify_eq.
      * destruct (Hj j y Hy) as (y' & Hy' & Eyy & Hne' & Heq). change (entry_key t y = key) in Ey.
        assert (j <> i) as Hji by (intros ->; simplify_eq; congruence).
        rewrite (Hne' Hji) in *. by exists j, y'.
Qed.

(** What a free entry holds does not matter. *)
Lemma kv_wf_free t chains m i e :
  kv_wf t chains m -> i ∉ concat chains ->
  length (e_data e) = kt_key_size t + kt_max_val t -> e_val_len e <= kt_max_val t ->
  kv_wf (set_entries (<[i := e]> (kt_entries t)) t) chains m.
Proof.
  intros W Hi Hd Hv.
  assert (forall j, j ∈ concat chains -> <[i := e]> (kt_entries t) !! j = kt_entries t !! j) as Hj
    by (intros j Hj; apply list_lookup_insert_ne; by intros ->).
  pose proof (chain_in W) as Hin.
  destruct W as [? ? ? ? ? Hls ? Hho Hda Hun ? ? Hma]. split; simpl; try done.
  - by rewrite length_insert.
  - intros b l Hb. destruct (Hls b l Hb) as (bk & Hbk & Hl). exists bk. split; [done|].
    eapply lseg_ext; [|exact Hl]. intros j Hjl. by rewrite (Hj j (Hin b l j Hb Hjl)).
  - intros b l j x Hb Hjl. rewrite (Hj j (Hin b l j Hb Hjl)). intros Hx; exact (Hho b l j x Hb Hjl Hx).
  - intros j x Hx. apply list_lookup_insert_Some in Hx as [(-> & -> & _)|[_ Hx]]; [done|by eapply Hda].
  - intros j k x y Hjc Hkc. rewrite !Hj by done. by apply Hun.
  - intros key x. rewrite Hma. split; intros (j & y & Hjc & H); exists j, y; by rewrite Hj in *.
Qed.

Lemma removelast_last {A} (l : list A) x : last l = Some x -> l = removelast l ++ [x].
Proof. intros [l' ->]%last_Some. by rewrite removelast_last. Qed.

(** Linking a free entry into the bucket of a new key: the chains after it,
    and each clause of the invariant. *)
Section insert_entry.
Context {t : nos_kv_table} {chains : list (list nat)} {m : kv_map} (W : kv_wf t chains m).
Context {i : nat} {l : list nat} {e' : nos_kv_entry} {key : list Z}.
Local Abbreviation b := (bucket_of t key).
Local Abbreviation chains' := (<[b := i :: l]> chains).
Local Abbreviation es' := (<[i := e']> (kt_entries t)).
Context (Hlast : last (kt_free t) = Some i) (Hm : m !! key = None) (Hl : chains !! b = Some l).

Lemma insert_free : kt_free t = removelast (kt_free t) ++ [i].
Proof. by apply removelast_last. Qed.

Lemma insert_unused : i ∉ concat chains.
Proof.
  pose proof (kw_nodup W) as Hnd. rewrite insert_free in Hnd.
  apply NoDup_app in Hnd as (_ & Hd & _). intros Hi. apply (Hd i Hi), elem_of_app. right. by left.
Qed.

Lemma insert_not_in c k : chains !! c = Some k -> i ∉ k.
Proof. intros Hc Hi. apply insert_unused. by eapply chain_in. Qed.

Lemma insert_lt : i < length (kt_entries t).
Proof.
  rewrite (kw_entries _ _ _ W).
  assert (i ∈ seq 0 (kt_capacity t)) as Hin; [|apply elem_of_seq in Hin; lia].
  rewrite <-(kw_perm _ _ _ W), insert_free, !elem_of_app. right. right. by left.
Qed.

Lemma insert_concat : concat chains' ≡ₚ i :: concat chains.
Proof.
  apply (Permutation_app_inv_r l). rewrite (concat_insert chains b l Hl (i :: l)). simpl.
  by rewrite Permutation_middle.
Qed.

Lemma insert_in j : j ∈ concat chains' <-> j = i \/ j ∈ concat chains.
Proof. by rewrite insert_concat, elem_of_cons. Qed.

Lemma insert_used_lt : length (concat chains) < kt_capacity t.
Proof.
  pose proof (Permutation_length (kw_perm _ _ _ W)) as Hp.
  rewrite length_app, length_seq, insert_free, length_app in Hp. simpl in Hp. lia.
Qed.

(** No stored entry has the new key. *)
Lemma insert_key_new j x : j ∈ concat chains -> kt_entries t !! j = Some x -> entry_key t x <> key.
Proof.
  intros Hj Hx E. assert (m !! key = Some (entry_value t x, e_subs x)) as Hc; [|congruence].
  apply (kw_map _ _ _ W). by exists j, x.
Qed.

(** An entry after the insertion is the new one or an old one elsewhere. *)
Lemma insert_entry_cases j x :
  j ∈ concat chains' -> es' !! j = Some x ->
  (j = i /\ x = e') \/ (j <> i /\ j ∈ concat chains /\ kt_entries t !! j = Some x).
Proof.
  rewrite insert_in. intros Hj Hx. pose proof insert_lt. destruct (decide (j = i)) as [->|Hji].
  - rewrite list_lookup_insert_eq in Hx by done. simplify_eq. by left.
  - rewrite list_lookup_insert_ne in Hx by done. destruct Hj; [done|]. by right.
Qed.

Lemma insert_lseg_other c k p :
  chains !! c = Some k -> lseg (kt_entries t) p k -> lseg es' p k.
Proof.
  intros Hc Hseg. pose proof (insert_not_in c k Hc) as Hni.
  eapply lseg_ext; [|exact Hseg]. intros j Hj.
  rewrite list_lookup_insert_ne; [done|]. by intros <-.
Qed.

Lemma insert_lseg bk c k :
  kt_buckets t !! b = Some bk -> e_next e' = b_first bk -> chains' !! c = Some k ->
  exists bk', alter (set_first (Some i)) b (kt_buckets t) !! c = Some bk' /\ lseg es' (b_first bk') k.
Proof.
  intros Hbk Hn Hc. pose proof insert_lseg_other as Hother.
  destruct (decide (c = b)) as [->|Hne].
  - rewrite list_lookup_insert_eq in Hc by (by eapply lookup_lt_Some). simplify_eq.
    rewrite list_lookup_alter_eq, Hbk. eexists. split; [done|]. simpl. split; [done|].
    exists e'. rewrite list_lookup_insert_eq by apply insert_lt. split; [done|]. rewrite Hn.
    destruct (kw_lseg _ _ _ W b l Hl) as (bk' & Hbk' & Hseg). simplify_eq.
    by apply (Hother _ _ _ Hl).
  - rewrite list_lookup_insert_ne in Hc by done. rewrite list_lookup_alter_ne by done.
    destruct (kw_lseg _ _ _ W c k Hc) as (bk' & Hbk' & Hseg). exists bk'. split; [done|].
    by apply (Hother _ _ _ Hc).
Qed.

Context (Hk : entry_key t e' = key).

Lemma insert_home c k j x :
  chains' !! c = Some k -> j ∈ k -> es' !! j = Some x -> bucket_of t (entry_key t x) = c.
Proof.
  intros Hc Hj Hx. pose proof insert_not_in as Hni. destruct (decide (j = i)) as [->|Hji].
  - rewrite list_lookup_insert_eq in Hx by apply insert_lt. simplify_eq.
    destruct (decide (c = bucket_of t (entry_key t x))) as [->|Hne]; [done|].
    rewrite list_lookup_insert_ne in Hc by done. by destruct (Hni _ _ Hc).
  - rewrite list_lookup_insert_ne in Hx by done. destruct (decide (c = b)) as [->|Hne].
    + rewrite list_lookup_insert_eq in Hc by (by eapply lookup_lt_Some). simplify_eq.
      apply elem_of_cons in Hj as [?|Hj]; [done|]. by eapply (kw_home _ _ _ W).
    + rewrite list_lookup_insert_ne in Hc by done. by eapply (kw_home _ _ _ W).
Qed.

Lemma insert_uniq j k x y :
  j ∈ concat chains' -> k ∈ concat chains' -> es' !! j = Some x -> es' !! k = Some y ->
  entry_key t x = entry_key t y -> j = k.
Proof.
  intros Hj Hk' Hx Hy E.
  destruct (insert_entry_cases j x Hj Hx) as [[-> ->]|(Hji & Hj' & Hx')],
    (insert_entry_cases k y Hk' Hy) as [[-> ->]|(Hki & Hk'' & Hy')]; [done|..].
  - by destruct (insert_key_new k y Hk'' Hy'); congruence.
  - by destruct (insert_key_new j x Hj' Hx'); congruence.
  - by eapply (kw_uniq _ _ _ W).
Qed.

Lemma insert_map key' x :
  <[key := (entry_value t e', e_subs e')]> m !! key' = Some x <->
  exists j y, j ∈ concat chains' /\ es' !! j = Some y /\ entry_key t y = key' /\
    x = (entry_value t y, e_subs y).
Proof.
  destruct (decide (key = key')) as [<-|Hne].
  - rewrite lookup_insert_eq. split.
    + intros [= <-]. exists i, e'. rewrite insert_in, list_lookup_insert_eq by apply insert_lt.
      by split_and!; [left|..].
    + intros (j & y & Hj & Hy & Ey & ->).
      destruct (insert_entry_cases j y Hj Hy) as [[-> ->]|(_ & Hj' & Hy')]; [done|].
      by destruct (insert_key_new j y Hj' Hy').
  - rewrite lookup_insert_ne, (kw_map _ _ _ W) by done. split; intros (j & y & Hj & Hy & Ey & ->).
    + exists j, y. rewrite insert_in, list_lookup_insert_ne; [by split_and!; [right|..]|].
      intros <-. by apply insert_unused.
    + destruct (insert_entry_cases j y Hj Hy) as [[-> ->]|(_ & Hj' & Hy')]; [congruence|].
      by exists j, y.
Qed.
End insert_entry.

Lemma kv_wf_insert t chains m i e' key bk l :
  kv_wf t chains m -> last (kt_free t) = Some i -> m !! key = None ->
  kt_buckets t !! bucket_of t key = Some bk -> chains !! bucket_of t key = Some l -> e_next e' = b_first bk ->
  entry_key t e' = key -> length (e_data e') = kt_key_size t + kt_max_val t ->
  e_val_len e' <= kt_max_val t ->
  kv_wf (set_free (removelast (kt_free t)) (u32 (kt_used t + 1))
          (set_buckets (alter (set_first (Some i)) (bucket_of t key) (kt_buckets t))
            (set_entries (<[i := e']> (kt_entries t)) t)))
        (<[bucket_of t key := i :: l]> chains) (<[key := (entry_value t e', e_subs e')]> m).
Proof.
  intros W Hlast Hm Hbk Hl Hn Hk Hd Hv.
  pose proof (insert_concat (i := i) Hl) as Hcat. pose proof (insert_used_lt W Hlast).
  pose proof (kw_cap _ _ _ W). pose proof (insert_free Hlast) as Hfree.
  split; simpl; try apply W.
  - rewrite length_insert. apply W.
  - rewrite length_alter. apply W.
  - rewrite length_insert. apply W.
  - intros c k. exact (insert_lseg W Hlast Hl bk c k Hbk Hn).
  - set (fr := removelast (kt_free t)) in *. rewrite <-(kw_perm _ _ _ W), Hcat, Hfree. simpl.
    rewrite app_assoc.
    apply Permutation_cons_append.
  - exact (insert_home W Hlast Hm Hl Hk).
  - intros j x Hx. destruct (decide (j = i)) as [->|Hji].
    + rewrite list_lookup_insert_eq in Hx by apply (insert_lt W Hlast). by simplify_eq.
    + rewrite list_lookup_insert_ne in Hx by done. by eapply (kw_data _ _ _ W).
  - exact (insert_uniq W Hlast Hm Hl Hk).
  - rewrite (kw_used _ _ _ W), Hcat. simpl. rewrite u32_small by lia. lia.
  - rewrite map_size_insert_None, Hcat by done. simpl. by rewrite (kw_size _ _ _ W).
  - exact (insert_map W Hlast Hm Hl Hk).
Qed.

(** The entries after unlinking [i] behind [prev]: only links and the
    subscriptions of [i] change. *)
Definition unlink_entries (prev : option nat) (i : nat) (next : option nat)
    (es : list nos_kv_entry) : list nos_kv_entry :=
  alter (set_subs []) i (match prev with Some p => alter (set_next next) p es | None => es end).

Definition same_record (i j : nat) (x y : nos_kv_entry) : Prop :=
  e_data x = e_data y /\ e_val_len x = e_val_len y /\ (j <> i -> e_subs x = e_subs y).

Lemma unlink_lookup prev i next es j :
  (forall y, es !! j = Some y -> exists x, unlink_entries prev i next es !! j = Some x /\ same_record i j x y) /\
  (forall x, unlink_entries prev i next es !! j = Some x -> exists y, es !! j = Some y /\ same_record i j x y).
Proof.
  unfold unlink_entries.
  assert (exists f g : nos_kv_entry -> nos_kv_entry,
    alter (set_subs []) i (match prev with Some p => alter (set_next next) p es | None => es end) !! j =
      (f ∘ g) <$> es !! j /\ forall y, same_record i j (f (g y)) y) as (f & g & E & Hs).
  { exists (if decide (j = i) then set_subs [] else id),
           (if decide (prev = Some j) then set_next next else id). split.
    - destruct (decide (j = i)) as [->|Hne].
      + rewrite list_lookup_alter_eq. destruct prev as [p|]; [destruct (decide (p = i)) as [->|]|].
        * rewrite list_lookup_alter_eq, decide_True by done. by destruct (es !! i).
        * rewrite list_lookup_alter_ne, decide_False by congruence. by destruct (es !! i).
        * rewrite decide_False by done. by destruct (es !! i).
      + rewrite list_lookup_alter_ne by done. destruct prev as [p|]; [destruct (decide (p = j)) as [->|]|].
        * rewrite list_lookup_alter_eq, decide_True by done. by destruct (es !! j).
        * rewrite list_lookup_alter_ne, decide_False by congruence. by destruct (es !! j).
        * rewrite decide_False by done. by destruct (es !! j).
    - intros y. unfold same_record. by repeat case_decide. }
  rewrite E. split.
  - intros y ->. exists (f (g y)). split; [done|apply Hs].
  - intros x (y & -> & ->)%fmap_Some. exists y. split; [done|apply Hs].
Qed.

Lemma next_alter_subs i (es : list nos_kv_entry) j : e_next <$> alter (set_subs []) i es !! j = e_next <$> es !! j.
Proof.
  destruct (decide (i = j)) as [->|]; [|by rewrite list_lookup_alter_ne].
  rewrite list_lookup_alter_eq. by destruct (es !! j).
Qed.

Lemma unlink_next prev i next es j :
  prev <> Some j -> e_next <$> unlink_entries prev i next es !! j = e_next <$> es !! j.
Proof.
  intros Hp. unfold unlink_entries. rewrite next_alter_subs.
  destruct prev as [p|]; [|done]. by rewrite list_lookup_alter_ne by congruence.
Qed.

(** Unlinking entry [i] from the chain of its bucket: the chains after it,
    and each clause of the invariant. *)
Section delete_entry.
Context {t : nos_kv_table} {chains : list (list nat)} {m : kv_map} (W : kv_wf t chains m).
Context {l1 l2 : list nat} {i : nat} {e : nos_kv_entry}.
Local Abbreviation b := (bucket_of t (entry_key t e)).
Local Abbreviation chains' := (<[b := l1 ++ l2]> chains).
Local Abbreviation es' := (unlink_entries (last l1) i (e_next e) (kt_entries t)).
Context (Hl : chains !! b = Some (l1 ++ i :: l2)) (He : kt_entries t !! i = Some e).

Lemma delete_concat : i :: concat chains' ≡ₚ concat chains.
Proof.
  apply (Permutation_app_inv_r (l1 ++ l2)). rewrite <-(concat_insert chains b _ Hl (l1 ++ l2)). simpl.
  rewrite <-(Permutation_middle l1 l2 i). by rewrite Permutation_middle.
Qed.

Lemma delete_in j : j ∈ concat chains' <-> j <> i /\ j ∈ concat chains.
Proof.
  assert (NoDup (concat chains)) as Hnd by (pose proof (kw_nodup W) as H; by apply NoDup_app in H as [? _]).
  rewrite <-delete_concat in Hnd. apply NoDup_cons in Hnd as [Hni _].
  rewrite <-delete_concat, elem_of_cons. split; [|tauto]. intros Hj. split; [by intros ->|by right].
Qed.

Lemma delete_linked : i ∈ concat chains.
Proof. rewrite <-delete_concat. by left. Qed.

Lemma same_record_key x y j : same_record i j x y -> entry_key t x = entry_key t y.
Proof. intros (Hd & _). unfold entry_key. by rewrite Hd. Qed.

(** An entry still linked has the record it had. *)
Lemma same_record_value x y j :
  same_record i j x y -> j <> i -> (entry_value t x, e_subs x) = (entry_value t y, e_subs y).
Proof. intros (Hd & Hv & Hs) Hj. unfold entry_value. by rewrite Hd, Hv, Hs. Qed.

Lemma delete_entry_old j x : es' !! j = Some x -> exists y, kt_entries t !! j = Some y /\ same_record i j x y.
Proof. apply unlink_lookup. Qed.

Lemma delete_entry_new j y : kt_entries t !! j = Some y -> exists x, es' !! j = Some x /\ same_record i j x y.
Proof. apply unlink_lookup. Qed.

(** The bucket array after the unlinking: the head moves when [i] is first. *)
Local Abbreviation buckets' :=
  (match last l1 with
   | None => alter (set_first (e_next e)) b (kt_buckets t)
   | Some _ => kt_buckets t
   end).

Lemma delete_lseg_home bk :
  kt_buckets t !! b = Some bk ->
  exists bk', buckets' !! b = Some bk' /\ lseg es' (b_first bk') (l1 ++ l2).
Proof.
  intros Hbk. assert (NoDup (l1 ++ i :: l2)) as Hnd by (by apply (chain_nodup W b)).
  destruct (kw_lseg _ _ _ W b _ Hl) as (bk' & Hbk' & Hseg).
  assert (bk' = bk) as -> by congruence.
  pose proof (lseg_unlink (kt_entries t) _ l1 i l2 e Hnd Hseg He) as Hun. unfold unlink_entries.
  destruct (last l1) as [p|] eqn:Hp.
  - exists bk. split; [done|]. eapply lseg_ext; [|exact Hun]. intros j _. apply next_alter_subs.
  - apply last_None in Hp as ->. rewrite list_lookup_alter_eq, Hbk. eexists. split; [done|].
    eapply lseg_ext; [|exact Hun]. intros j _. apply next_alter_subs.
Qed.

Lemma delete_lseg_other c k :
  chains !! c = Some k -> c <> b ->
  exists bk', buckets' !! c = Some bk' /\ lseg es' (b_first bk') k.
Proof.
  intros Hc Hne. destruct (kw_lseg _ _ _ W c k Hc) as (bk' & Hbk' & Hseg).
  exists bk'. split; [destruct (last l1); by rewrite ?list_lookup_alter_ne|].
  eapply lseg_ext; [|exact Hseg]. intros j Hj. apply unlink_next.
  intros Hp. apply last_Some_elem_of in Hp. apply Hne.
  eapply (chain_disjoint W c b k); [done..|]. apply elem_of_app. by left.
Qed.

Lemma delete_lseg bk c k :
  kt_buckets t !! b = Some bk -> chains' !! c = Some k ->
  exists bk', buckets' !! c = Some bk' /\ lseg es' (b_first bk') k.
Proof.
  intros Hbk Hc. destruct (decide (c = b)) as [->|Hne].
  - rewrite list_lookup_insert_eq in Hc by (by eapply lookup_lt_Some).
    apply (inj Some) in Hc as <-. by eapply delete_lseg_home.
  - rewrite list_lookup_insert_ne in Hc by done. by apply delete_lseg_other.
Qed.

Lemma delete_home c k j x :
  chains' !! c = Some k -> j ∈ k -> es' !! j = Some x -> bucket_of t (entry_key t x) = c.
Proof.
  intros Hc Hj Hx. destruct (delete_entry_old j x Hx) as (y & Hy & Hs).
  rewrite (same_record_key x y j Hs). destruct (decide (c = b)) as [->|Hne].
  - rewrite list_lookup_insert_eq in Hc by (by eapply lookup_lt_Some).
    apply (inj Some) in Hc as <-.
    apply (kw_home _ _ _ W _ (l1 ++ i :: l2) j y Hl); [|done].
    rewrite elem_of_app in *. rewrite elem_of_cons. tauto.
  - rewrite list_lookup_insert_ne in Hc by done. by eapply (kw_home _ _ _ W).
Qed.

Lemma delete_uniq j k x y :
  j ∈ concat chains' -> k ∈ concat chains' -> es' !! j = Some x -> es' !! k = Some y ->
  entry_key t x = entry_key t y -> j = k.
Proof.
  intros Hj Hk Hx Hy E. apply delete_in in Hj as [_ Hj]. apply delete_in in Hk as [_ Hk].
  destruct (delete_entry_old j x Hx) as (x' & Hx' & Hsx).
  destruct (delete_entry_old k y Hy) as (y' & Hy' & Hsy).
  apply (kw_uniq _ _ _ W j k x' y'); [done..|].
  by rewrite <-(same_record_key x x' j Hsx), <-(same_record_key y y' k Hsy).
Qed.

Lemma delete_map key x :
  delete (entry_key t e) m !! key = Some x <->
  exists j y, j ∈ concat chains' /\ es' !! j = Some y /\ entry_key t y = key /\
    x = (entry_value t y, e_subs y).
Proof.
  destruct (decide (entry_key t e = key)) as [<-|Hne].
  - rewrite lookup_delete_eq. split; [done|]. intros (j & y & Hj & Hy & Ey & _).
    apply delete_in in Hj as [Hji Hj]. destruct (delete_entry_old j y Hy) as (y' & Hy' & Hs).
    destruct Hji. apply (kw_uniq _ _ _ W j i y' e); [done|apply delete_linked|done..|].
    by rewrite <-(same_record_key y y' j Hs).
  - rewrite lookup_delete_ne, (kw_map _ _ _ W) by done. split; intros (j & y & Hj & Hy & Ey & ->).
    + assert (j <> i) as Hji by congruence. destruct (delete_entry_new j y Hy) as (x & Hx & Hs).
      exists j, x. rewrite (same_record_key x y j Hs), (same_record_value x y j Hs Hji).
      split_and!; try done. by apply delete_in.
    + apply delete_in in Hj as [Hji Hj]. destruct (delete_entry_old j y Hy) as (y' & Hy' & Hs).
      exists j, y'. by rewrite <-(same_record_key y y' j Hs), (same_record_value y y' j Hs Hji).
Qed.
End delete_entry.

Lemma kv_wf_delete t chains m l1 i l2 e bk :
  let b := bucket_of t (entry_key t e) in
  kv_wf t chains m -> chains !! b = Some (l1 ++ i :: l2) -> kt_entries t !! i = Some e ->
  kt_buckets t !! b = Some bk ->
  kv_wf (set_free (kt_free t ++ [i]) (u32 (kt_used t - 1))
          (set_buckets (match last l1 with
                        | None => alter (set_first (e_next e)) b (kt_buckets t)
                        | Some _ => kt_buckets t
                        end)
            (set_entries (unlink_entries (last l1) i (e_next e) (kt_entries t)) t)))
        (<[b := l1 ++ l2]> chains) (delete (entry_key t e) m).
Proof.
  intros b W Hl He Hbk. subst b. pose proof (delete_concat Hl) as Hcat.
  pose proof (Permutation_length Hcat) as Hlen. simpl in Hlen.
  pose proof (Permutation_length (kw_perm _ _ _ W)) as Hpl. rewrite length_app, length_seq in Hpl.
  pose proof (kw_cap _ _ _ W). split; simpl; try apply W.
  - unfold unlink_entries. rewrite length_alter. destruct (last l1); rewrite ?length_alter; apply W.
  - destruct (last l1); rewrite ?length_alter; apply W.
  - rewrite length_insert. apply W.
  - intros c k. exact (delete_lseg W Hl He bk c k Hbk).
  - rewrite <-(kw_perm _ _ _ W), <-Hcat. simpl. rewrite app_assoc. symmetry.
    apply Permutation_cons_append.
  - exact (delete_home W Hl).
  - intros j x Hx. destruct (delete_entry_old j x Hx) as (y & Hy & -> & -> & _).
    by eapply (kw_data _ _ _ W).
  - exact (delete_uniq W Hl).
  - rewrite (kw_used _ _ _ W), <-Hlen. rewrite u32_small by lia. lia.
  - rewrite map_size_delete_Some, (kw_size _ _ _ W); [lia|].
    eexists. apply (kw_map _ _ _ W). exists i, e. split_and!; try done. exact (delete_linked Hl).
  - exact (delete_map W Hl He).
Qed.

(** ** The operations against the map *)

Lemma length_bytes_put off bs m :
  off + length bs <= length m -> length (bytes_put off bs m) = length m.
Proof. intros H. unfold bytes_put. rewrite !length_app, length_take, length_drop. lia. Qed.

Lemma take_bytes_put off bs m n :
  n <= off -> off + length bs <= length m -> take n (bytes_put off bs m) = take n m.
Proof.
  intros Hn Hl. unfold bytes_put. rewrite take_app_le by (rewrite length_take; lia).
  rewrite take_take. by rewrite Nat.min_l.
Qed.

Lemma bytes_put_read off bs m :
  off + length bs <= length m -> take (length bs) (drop off (bytes_put off bs m)) = bs.
Proof.
  intros Hl. unfold bytes_put. rewrite drop_app_length' by (rewrite length_take; lia).
  by rewrite take_app_length.
Qed.

Lemma take_bytes_put_0 bs m :
  length bs <= length m -> take (length bs) (bytes_put 0 bs m) = bs.
Proof. intros Hl. unfold bytes_put. simpl. by rewrite take_app_length. Qed.

Definition kv_ok (t : nos_kv_table) (m : kv_map) : Prop := kv_rep t m /\ unlocked t.

Lemma unlocked_wrlock t key bk :
  unlocked t -> kt_buckets t !! bucket_of t key = Some bk -> wrlock t key = KvRet ().
Proof. intros Hu Hb. unfold wrlock. rewrite Hb, (Hu _ _ Hb). done. Qed.

Lemma unlocked_set_first t i b t' :
  unlocked t -> kt_buckets t' = alter (set_first i) b (kt_buckets t) -> unlocked t'.
Proof.
  intros Hu E c bk Hc. rewrite E in Hc. destruct (decide (b = c)) as [->|].
  - rewrite list_lookup_alter_eq in Hc. apply fmap_Some in Hc as (x & Hx & ->). exact (Hu c x Hx).
  - rewrite list_lookup_alter_ne in Hc by done. by apply (Hu c).
Qed.

Lemma store_value_facts t val vl e :
  length (e_data e) = kt_key_size t + kt_max_val t -> length val = vl -> vl <= kt_max_val t ->
  let e' := store_value t (Some val) vl e in
  length (e_data e') = length (e_data e) /\ entry_key t e' = entry_key t e /\
  entry_value t e' = val.
Proof.
  intros Hd Hv Hm. unfold store_value, entry_key, entry_value. simpl.
  rewrite (take_ge val) by lia. split_and!.
  - rewrite length_bytes_put; lia.
  - by rewrite take_bytes_put by lia.
  - subst vl. apply bytes_put_read. lia.
Qed.

Lemma alter_lookup_insert {A} (f : A -> A) i (l : list A) x :
  l !! i = Some x -> alter f i l = <[i := f x]> l.
Proof.
  intros Hx. apply list_eq. intros j. destruct (decide (i = j)) as [<-|].
  - rewrite list_lookup_alter_eq, Hx, list_lookup_insert_eq; [done|]. by eapply lookup_lt_Some.
  - by rewrite list_lookup_alter_ne, list_lookup_insert_ne.
Qed.

(** The free list holds an entry of the table. *)
Lemma kw_free_entry t chains m i :
  kv_wf t chains m -> last (kt_free t) = Some i -> exists e, kt_entries t !! i = Some e.
Proof.
  intros W Hlast. apply lookup_lt_is_Some. rewrite (kw_entries _ _ _ W).
  assert (i ∈ seq 0 (kt_capacity t)) as Hin; [|apply elem_of_seq in Hin; lia].
  rewrite <-(kw_perm _ _ _ W), elem_of_app. right. by apply last_Some_elem_of.
Qed.

(** The free list is empty exactly when the map fills the table. *)
Lemma kw_full t chains m :
  kv_wf t chains m -> (size m = kt_capacity t <-> kt_free t = []).
Proof.
  intros W. pose proof (kw_size _ _ _ W). pose proof (Permutation_length (kw_perm _ _ _ W)) as Hp.
  rewrite length_app, length_seq in Hp. rewrite <-length_zero_iff_nil. lia.
Qed.

(** The entry a put of a new key writes: its key and its value. *)
Lemma fresh_entry_facts t e key val :
  length (e_data e) = kt_key_size t + kt_max_val t -> key_ok t key -> length val <= kt_max_val t ->
  let e0 := KvEntry (e_next e) (e_val_len e) (e_subs e)
              (bytes_put 0 (take (kt_key_size t) key) (e_data e)) in
  let e' := store_value t (Some val) (length val) e0 in
  length (e_data e') = kt_key_size t + kt_max_val t /\ entry_key t e' = key /\ entry_value t e' = val.
Proof.
  intros Hd Hk Hv e0 e'. unfold key_ok in Hk.
  assert (take (kt_key_size t) key = key) as Htk by (apply take_ge; lia).
  assert (length (e_data e0) = kt_key_size t + kt_max_val t) as Hd0.
  { simpl. rewrite Htk, length_bytes_put; [done|]. lia. }
  destruct (store_value_facts t val (length val) e0 Hd0 eq_refl Hv) as (F1 & F2 & F3).
  split_and!; [by rewrite <-Hd0| |done]. rewrite <-Hk in *. unfold e'. rewrite F2. unfold entry_key. simpl.
  rewrite <-Hk, Htk. apply take_bytes_put_0. lia.
Qed.

(** A put of a key the table holds. *)
Lemma kv_put_existing t m key val v subs :
  kv_ok t m -> key_ok t key -> length val <= kt_max_val t -> m !! key = Some (v, subs) ->
  exists t', nos_kv_put t (Some key) (Some val) (length val) = KvRet (NOS_OK, t', subs) /\
    kv_ok t' (<[key := (val, subs)]> m) /\ kt_key_size t' = kt_key_size t /\
    kt_max_val t' = kt_max_val t /\ kt_capacity t' = kt_capacity t.
Proof.
  intros [[chains W] Hu] Hk Hv Hm.
  destruct (kv_lookup_spec W key Hk) as (b & bk & l & -> & Hbk & Hl & Hseg & Hlk).
  unfold nos_kv_put. destruct (Nat.ltb_spec (kt_max_val t) (length val)); [lia|].
  rewrite (unlocked_wrlock t key bk) by done. cbn [mbind kv_res_bind]. rewrite Hm in Hlk.
  destruct Hlk as (l1 & i & l2 & e & -> & Hi & Hke & [= -> ->] & ->). cbn [mbind kv_res_bind].
  destruct (kw_data _ _ _ W i e Hi) as [Hd _].
  destruct (store_value_facts t val (length val) e Hd eq_refl Hv) as (F1 & F2 & F3).
  eexists. split; [done|]. split; [|done]. split; [|exact Hu]. exists chains.
  pose proof (kv_wf_update t chains m i e (store_value t (Some val) (length val) e) W) as Hw.
  rewrite F3, Hke in Hw. apply Hw; try done; [|by rewrite F2].
  eapply chain_in; [exact W|exact Hl|]. apply elem_of_app. right. by left.
Qed.

(** A put of a new key: a free entry is linked, or the table is full. *)
Lemma kv_put_new t m key val :
  kv_ok t m -> key_ok t key -> length val <= kt_max_val t -> m !! key = None ->
  if size m =? kt_capacity t
  then nos_kv_put t (Some key) (Some val) (length val) = KvRet (NOS_ERR_BUSY, t, [])
  else exists t', nos_kv_put t (Some key) (Some val) (length val) = KvRet (NOS_OK, t', []) /\
    kv_ok t' (<[key := (val, [])]> m) /\ kt_key_size t' = kt_key_size t /\
    kt_max_val t' = kt_max_val t /\ kt_capacity t' = kt_capacity t.
Proof.
  intros [[chains W] Hu] Hk Hv Hm.
  destruct (kv_lookup_spec W key Hk) as (b & bk & l & -> & Hbk & Hl & Hseg & Hlk).
  unfold nos_kv_put. destruct (Nat.ltb_spec (kt_max_val t) (length val)); [lia|].
  rewrite (unlocked_wrlock t key bk) by done. cbn [mbind kv_res_bind].
  rewrite Hm in Hlk. rewrite Hlk. cbn [mbind kv_res_bind]. pose proof (kw_full t chains m W) as Hf.
  destruct (last (kt_free t)) as [i|] eqn:Hlast.
  - destruct (kt_free t) as [|f fr] eqn:Hfr; [done|]. rewrite <-Hfr in *.
    destruct (Nat.eqb_spec (size m) (kt_capacity t)) as [Es|_]; [apply Hf in Es; congruence|].
    destruct (kw_free_entry t chains m i W Hlast) as [e He].
    destruct (fresh_entry_facts t e key val (proj1 (kw_data _ _ _ W i e He)) Hk Hv) as (F1 & F2 & F3).
    eexists. split; [done|]. split; [|done]. split; [|by eapply unlocked_set_first].
    exists (<[bucket_of t key := i :: l]> chains). rewrite Hbk. cbn [mbind option_bind]. rewrite (alter_lookup_insert _ i _ _ He).
    pose proof (kv_wf_insert t chains m i (set_next (b_first bk) (set_subs [] (store_value t (Some val) (length val)
      (KvEntry (e_next e) (e_val_len e) (e_subs e) (bytes_put 0 (take (kt_key_size t) key) (e_data e)))))) key bk l W Hlast Hm Hbk Hl) as Hw.
    change (entry_value t (set_next _ (set_subs _ ?x))) with (entry_value t x) in Hw.
    rewrite F3 in Hw. by apply Hw.
  - apply last_None in Hlast. by rewrite (proj2 Hf Hlast), Nat.eqb_refl.
Qed.

Lemma kv_put_step t m key val :
  kv_ok t m -> key_ok t key -> length val <= kt_max_val t ->
  match m !! key with
  | Some (_, subs) => exists t', nos_kv_put t (Some key) (Some val) (length val) = KvRet (NOS_OK, t', subs) /\
      kv_ok t' (<[key := (val, subs)]> m) /\ kt_key_size t' = kt_key_size t /\ kt_max_val t' = kt_max_val t
      /\ kt_capacity t' = kt_capacity t
  | None =>
      if size m =? kt_capacity t
      then nos_kv_put t (Some key) (Some val) (length val) = KvRet (NOS_ERR_BUSY, t, [])
      else exists t', nos_kv_put t (Some key) (Some val) (length val) = KvRet (NOS_OK, t', []) /\
        kv_ok t' (<[key := (val, [])]> m) /\ kt_key_size t' = kt_key_size t /\ kt_max_val t' = kt_max_val t
        /\ kt_capacity t' = kt_capacity t
  end.
Proof.
  intros Ht Hk Hv. destruct (m !! key) as [[v subs]|] eqn:Hm;
    [by eapply kv_put_existing|by apply kv_put_new].
Qed.

Lemma kv_get_step t m key n :
  kv_ok t m -> key_ok t key ->
  nos_kv_get t (Some key) n =
  KvRet match m !! key with
        | Some (v, _) => (NOS_OK, Some (take n v, length v))
        | None => (NOS_ERR, None)
        end.
Proof.
  intros [[chains W] Hu] Hk.
  destruct (kv_lookup_spec W key Hk) as (b & bk & l & -> & Hbk & Hl & Hseg & Hlk).
  unfold nos_kv_get. destruct (m !! key) as [[v subs]|]; [|by rewrite Hlk].
  destruct Hlk as (l1 & i & l2 & e & -> & Hi & Hke & [= -> ->] & ->). cbn [mbind kv_res_bind].
  destruct (kw_data _ _ _ W i e Hi) as [Hd Hvl]. unfold entry_value. do 4 f_equal.
  - rewrite take_take. f_equal. destruct (Nat.ltb_spec n (e_val_len e)); lia.
  - rewrite length_take, length_drop. lia.
Qed.

Lemma kv_del_step t m key :
  kv_ok t m -> key_ok t key ->
  match m !! key with
  | Some _ => exists t', nos_kv_del t (Some key) = KvRet (NOS_OK, t') /\ kv_ok t' (delete key m)
      /\ kt_key_size t' = kt_key_size t /\ kt_max_val t' = kt_max_val t /\ kt_capacity t' = kt_capacity t
  | None => nos_kv_del t (Some key) = KvRet (NOS_ERR, t)
  end.
Proof.
  intros [[chains W] Hu] Hk.
  destruct (kv_lookup_spec W key Hk) as (b & bk & l & -> & Hbk & Hl & Hseg & Hlk).
  unfold nos_kv_del. rewrite (unlocked_wrlock t key bk) by done. cbn [mbind kv_res_bind].
  destruct (m !! key) as [x|]; [|by rewrite Hlk].
  destruct Hlk as (l1 & i & l2 & e & -> & Hi & <- & -> & ->). cbn [mbind kv_res_bind].
  pose proof (kv_wf_delete t chains m l1 i l2 e bk W Hl Hi Hbk) as Hw.
  destruct (last l1) as [p|].
  - eexists. split; [done|]. split; [|done]. split; [by eexists|exact Hu].
  - eexists. split; [done|]. split; [|done]. split; [by eexists|by eapply unlocked_set_first].
Qed.

Lemma kv_subs_step t m key v subs subs' e i l1 l2 chains :
  kv_wf t chains m -> unlocked t -> chains !! bucket_of t key = Some (l1 ++ i :: l2) ->
  kt_entries t !! i = Some e -> entry_key t e = key -> entry_value t e = v -> e_subs e = subs ->
  kv_ok (set_entries (<[i := set_subs subs' e]> (kt_entries t)) t) (<[key := (v, subs')]> m).
Proof.
  intros W Hu Hl Hi <- <- <-. split; [|exact Hu]. exists chains.
  apply (kv_wf_update t chains m i e (set_subs subs' e) W); try done.
  - eapply chain_in; [exact W|exact Hl|]. apply elem_of_app. right. by left.
  - by destruct (kw_data _ _ _ W i e Hi).
Qed.

Lemma kv_subscribe_step t m key f arg :
  kv_ok t m -> key_ok t key ->
  match m !! key with
  | Some (v, subs) =>
      exists t', nos_kv_subscribe t (Some key) (Some f) arg = KvRet (NOS_OK, t') /\
        kv_ok t' (<[key := (v, if bool_decide ((f, arg) ∈ subs) then subs else (f, arg) :: subs)]> m)
        /\ kt_key_size t' = kt_key_size t /\ kt_max_val t' = kt_max_val t /\ kt_capacity t' = kt_capacity t
  | None => nos_kv_subscribe t (Some key) (Some f) arg = KvRet (NOS_ERR, t)
  end.
Proof.
  intros Hok Hk. pose proof Hok as [[chains W] Hu].
  destruct (kv_lookup_spec W key Hk) as (b & bk & l & -> & Hbk & Hl & Hseg & Hlk).
  unfold nos_kv_subscribe. rewrite (unlocked_wrlock t key bk) by done. cbn [mbind kv_res_bind].
  destruct (m !! key) as [[v subs]|] eqn:Hm; [|by rewrite Hlk].
  destruct Hlk as (l1 & i & l2 & e & -> & Hi & Hke & [= Ev Es] & ->). cbn [mbind kv_res_bind].
  rewrite <-Es. destruct (bool_decide ((f, arg) ∈ subs)).
  - exists t. split; [done|]. split; [|done]. by rewrite insert_id.
  - eexists. split; [done|]. split; [|done]. by eapply kv_subs_step.
Qed.

Lemma kv_unsubscribe_step t m key f arg :
  kv_ok t m -> key_ok t key ->
  match m !! key with
  | Some (v, subs) =>
      if bool_decide ((f, arg) ∈ subs) then
        exists t', nos_kv_unsubscribe t (Some key) (Some f) arg = KvRet (NOS_OK, t') /\
          kv_ok t' (<[key := (v, remove_first (f, arg) subs)]> m)
          /\ kt_key_size t' = kt_key_size t /\ kt_max_val t' = kt_max_val t /\ kt_capacity t' = kt_capacity t
      else nos_kv_unsubscribe t (Some key) (Some f) arg = KvRet (NOS_ERR, t)
  | None => nos_kv_unsubscribe t (Some key) (Some f) arg = KvRet (NOS_ERR, t)
  end.
Proof.
  intros Hok Hk. pose proof Hok as [[chains W] Hu].
  destruct (kv_lookup_spec W key Hk) as (b & bk & l & -> & Hbk & Hl & Hseg & Hlk).
  unfold nos_kv_unsubscribe. rewrite (unlocked_wrlock t key bk) by done. cbn [mbind kv_res_bind].
  destruct (m !! key) as [[v subs]|] eqn:Hm; [|by rewrite Hlk].
  destruct Hlk as (l1 & i & l2 & e & -> & Hi & Hke & [= Ev Es] & ->). cbn [mbind kv_res_bind].
  rewrite <-Es. destruct (bool_decide ((f, arg) ∈ subs)); [|done].
  eexists. split; [done|]. split; [|done]. by eapply kv_subs_step.
Qed.

(** ** Refinement *)

Inductive kv_op :=
  | KPut (key val : list Z)
  | KGet (key : list Z) (buf_len : nat)
  | KDel (key : list Z)
  | KSub (key : list Z) (f arg : nat)
  | KUnsub (key : list Z) (f arg : nat).

(** What the caller and the subscribers see of an operation. *)
Record kv_out := KvOut {
  ko_status : nos_status;
  ko_value : option (list Z * nat);
  ko_notified : list kv_sub;
}.

Definition kv_step (t : nos_kv_table) (op : kv_op) : kv_res (nos_kv_table * kv_out) :=
  match op with
  | KPut k v => nos_kv_put t (Some k) (Some v) (length v) ≫= fun r => KvRet (r.1.2, KvOut r.1.1 None r.2)
  | KGet k n => nos_kv_get t (Some k) n ≫= fun r => KvRet (t, KvOut r.1 r.2 [])
  | KDel k => nos_kv_del t (Some k) ≫= fun r => KvRet (r.2, KvOut r.1 None [])
  | KSub k f a => nos_kv_subscribe t (Some k) (Some f) a ≫= fun r => KvRet (r.2, KvOut r.1 None [])
  | KUnsub k f a => nos_kv_unsubscribe t (Some k) (Some f) a ≫= fun r => KvRet (r.2, KvOut r.1 None [])
  end.

(** The specification: a map of bounded size with subscriptions. *)
Definition map_step (cap : nat) (m : kv_map) (op : kv_op) : kv_map * kv_out :=
  match op with
  | KPut k v =>
      match m !! k with
      | Some (_, subs) => (<[k := (v, subs)]> m, KvOut NOS_OK None subs)
      | None => if size m =? cap then (m, KvOut NOS_ERR_BUSY None [])
                else (<[k := (v, [])]> m, KvOut NOS_OK None [])
      end
  | KGet k n =>
      match m !! k with
      | Some (v, _) => (m, KvOut NOS_OK (Some (take n v, length v)) [])
      | None => (m, KvOut NOS_ERR None [])
      end
  | KDel k =>
      match m !! k with
      | Some _ => (delete k m, KvOut NOS_OK None [])
      | None => (m, KvOut NOS_ERR None [])
      end
  | KSub k f a =>
      match m !! k with
      | Some (v, subs) =>
          (<[k := (v, if bool_decide ((f, a) ∈ subs) then subs else (f, a) :: subs)]> m,
           KvOut NOS_OK None [])
      | None => (m, KvOut NOS_ERR None [])
      end
  | KUnsub k f a =>
      match m !! k with
      | Some (v, subs) =>
          if bool_decide ((f, a) ∈ subs)
          then (<[k := (v, remove_first (f, a) subs)]> m, KvOut NOS_OK None [])
          else (m, KvOut NOS_ERR None [])
      | None => (m, KvOut NOS_ERR None [])
      end
  end.

Fixpoint kv_run (t : nos_kv_table) (ops : list kv_op) : kv_res (nos_kv_table * list kv_out) :=
  match ops with
  | [] => KvRet (t, [])
  | op :: ops =>
      kv_step t op ≫= fun r => kv_run r.1 ops ≫= fun r' => KvRet (r'.1, r.2 :: r'.2)
  end.

Fixpoint map_run (cap : nat) (m : kv_map) (ops : list kv_op) : kv_map * list kv_out :=
  match ops with
  | [] => (m, [])
  | op :: ops => let '(m1, o) := map_step cap m op in
                 let '(m2, os) := map_run cap m1 ops in (m2, o :: os)
  end.

Definition op_ok (ks mv : nat) (op : kv_op) : Prop :=
  match op with
  | KPut k v => length k = ks /\ length v <= mv
  | KGet k _ | KDel k | KSub k _ _ | KUnsub k _ _ => length k = ks
  end.

Lemma kv_step_refines t m op :
  kv_ok t m -> op_ok (kt_key_size t) (kt_max_val t) op ->
  exists t', kv_step t op = KvRet (t', (map_step (kt_capacity t) m op).2) /\
    kv_ok t' (map_step (kt_capacity t) m op).1 /\
    kt_key_size t' = kt_key_size t /\ kt_max_val t' = kt_max_val t /\ kt_capacity t' = kt_capacity t.
Proof.
  intros Hok Hop. destruct op as [k v|k n|k|k f a|k f a]; cbn [kv_step map_step op_ok] in *.
  - destruct Hop as [Hk Hv]. pose proof (kv_put_step t m k v Hok Hk Hv) as H.
    destruct (m !! k) as [[v0 subs]|].
    + destruct H as (t' & -> & ?). by exists t'.
    + destruct (size m =? kt_capacity t).
      * rewrite H. by exists t.
      * destruct H as (t' & -> & ?). by exists t'.
  - rewrite (kv_get_step t m k n Hok Hop). exists t. by destruct (m !! k) as [[v subs]|].
  - pose proof (kv_del_step t m k Hok Hop) as H. destruct (m !! k) as [x|].
    + destruct H as (t' & -> & ?). by exists t'.
    + rewrite H. by exists t.
  - pose proof (kv_subscribe_step t m k f a Hok Hop) as H. destruct (m !! k) as [[v subs]|].
    + destruct H as (t' & -> & ?). by exists t'.
    + rewrite H. by exists t.
  - pose proof (kv_unsubscribe_step t m k f a Hok Hop) as H. destruct (m !! k) as [[v subs]|].
    + destruct (bool_decide ((f, a) ∈ subs)).
      * destruct H as (t' & -> & ?). by exists t'.
      * rewrite H. by exists t.
    + rewrite H. by exists t.
Qed.

(** C2. A table is a bounded map: every sequence of puts, gets, deletes and
    (un)subscriptions ends, and answers, notifies and leaves behind what the
    same sequence does on the map the table represents. *)
Theorem kv_refines_map t m ops :
  kv_ok t m -> Forall (op_ok (kt_key_size t) (kt_max_val t)) ops ->
  exists t', kv_run t ops = KvRet (t', (map_run (kt_capacity t) m ops).2) /\
    kv_ok t' (map_run (kt_capacity t) m ops).1.
Proof.
  revert t m. induction ops as [|op ops IH]; intros t m Hok Hops; simpl; [by exists t|].
  apply Forall_cons_iff in Hops as [Hop Hops].
  destruct (kv_step_refines t m op Hok Hop) as (t1 & -> & Hok1 & E1 & E2 & E3).
  destruct (map_step (kt_capacity t) m op) as [m1 o]. simpl in *.
  destruct (IH t1 m1 Hok1) as (t2 & Hr & Hok2); [by rewrite E1, E2|].
  rewrite Hr, E3 in *. simpl. destruct (map_run (kt_capacity t) m1 ops) as [m2 os]. by exists t2.
Qed.

(** ** Creating tables *)

Lemma new_table_ok name ks mv cap bc :
  0 < bc -> (Z.of_nat cap < 2 ^ 32)%Z -> kv_ok (new_table name ks mv cap bc) ∅.
Proof.
  intros Hbc Hcap. assert (concat (replicate bc ([] : list nat)) = []) as Hc
    by (clear; by induction bc).
  split.
  - exists (replicate bc []). split; simpl; rewrite ?Hc, ?length_replicate; try done.
    + intros b l [-> Hb]%lookup_replicate. exists (KvBucket 0 None). split; [|done].
      by apply lookup_replicate_2.
    + intros b l i e [-> _]%lookup_replicate. by intros ?%not_elem_of_nil.
    + intros i e [-> _]%lookup_replicate. simpl. rewrite length_replicate. lia.
    + intros i j e e' ?%not_elem_of_nil. done.
    + intros key x. split; [by rewrite lookup_empty|]. by intros (i & e & ?%not_elem_of_nil & _).
  - intros b bk [-> _]%lookup_replicate. done.
Qed.

(** The sizing loop of a table: up to 2^31 entries it ends within 22
    doublings at the least power-of-two multiple of 1024 that covers the
    capacity; beyond, the 32-bit counter wraps to 0 and the loop never
    ends. *)
Theorem bucket_count_spec cap :
  (0 < cap < 2 ^ 32)%Z ->
  if (cap <=? 2 ^ 31)%Z then
    exists k, k <= 21 /\ bucket_count_loop 22 cap 1024 = Some (1024 * 2 ^ Z.of_nat k)%Z /\
      (cap <= 1024 * 2 ^ Z.of_nat k)%Z /\ (k = 0 \/ (1024 * 2 ^ Z.of_nat (k - 1) < cap)%Z)
  else forall fuel, bucket_count_loop fuel cap 1024 = None.
Proof.
  intros Hc.
  assert (forall j, j < 21 -> u32 (Z.shiftl (1024 * 2 ^ Z.of_nat j) 1) = (1024 * 2 ^ Z.of_nat (S j))%Z) as Hs.
  { intros j Hj. rewrite Z.shiftl_mul_pow2, u32_small by (try lia;
      assert (2 ^ Z.of_nat j <= 2 ^ 20)%Z by (apply Z.pow_le_mono_r; lia); change (2 ^ 20)%Z with 1048576%Z in *; lia).
    rewrite Nat2Z.inj_succ, Z.pow_succ_r by lia. lia. }
  destruct (Z.leb_spec cap (2 ^ 31)) as [Hle|Hgt].
  - assert (forall d j, j + d = 21 -> (j = 0 \/ (1024 * 2 ^ Z.of_nat (j - 1) < cap)%Z) ->
      exists k, k <= 21 /\ bucket_count_loop (S d) cap (1024 * 2 ^ Z.of_nat j) = Some (1024 * 2 ^ Z.of_nat k)%Z /\
        (cap <= 1024 * 2 ^ Z.of_nat k)%Z /\ (k = 0 \/ (1024 * 2 ^ Z.of_nat (k - 1) < cap)%Z)) as H.
    { induction d as [|d IH]; intros j Hj Hlow; cbn [bucket_count_loop];
        destruct (Z.ltb_spec (1024 * 2 ^ Z.of_nat j) cap) as [Hlt|Hge].
      - replace j with 21 in Hlt by lia. change (1024 * 2 ^ Z.of_nat 21)%Z with (2 ^ 31)%Z in Hlt. lia.
      - exists j. split_and!; [lia|done..].
      - rewrite Hs by lia. apply (IH (S j)); [lia|]. right. by replace (S j - 1) with j by lia.
      - exists j. split_and!; [lia|done..]. }
    apply (H 21 0); [lia|by left].
  - intros fuel.
    assert (forall fuel bc, bc = 0%Z \/ (exists j, j <= 21 /\ bc = (1024 * 2 ^ Z.of_nat j)%Z) ->
      bucket_count_loop fuel cap bc = None) as H; [|apply H; right; exists 0; split; [lia|done]].
    clear fuel. induction fuel as [|fuel IH]; intros bc Hbc; [done|]. cbn [bucket_count_loop].
    destruct Hbc as [->|(j & Hj & ->)].
    + destruct (Z.ltb_spec 0 cap); [|lia]. apply IH. by left.
    + assert (2 ^ Z.of_nat j <= 2 ^ 21)%Z by (apply Z.pow_le_mono_r; lia).
      destruct (Z.ltb_spec (1024 * 2 ^ Z.of_nat j) cap) as [_|]; [|lia]. apply IH.
      destruct (decide (j = 21)) as [->|]; [by left|].
      right. exists (S j). split; [lia|]. apply Hs. lia.
Qed.

Lemma strncpy_field_short n s : String.length s < n -> strncpy_field n s = s.
Proof.
  unfold strncpy_field. intros Hl. assert (String.length s <= n - 1) as H by lia. clear Hl.
  revert H. generalize (n - 1). induction s as [|c s IH]; intros k Hk; [by destruct k|].
  destruct k as [|k]; simpl in *; [lia|]. f_equal. apply IH. lia.
Qed.

Lemma strncpy_field_length n s : 0 < n -> String.length (strncpy_field n s) < n.
Proof.
  unfold strncpy_field. intros Hn. assert (forall k s, String.length (String.substring 0 k s) <= k) as H.
  { clear. induction k as [|k IH]; intros [|c s]; simpl; try lia. specialize (IH s). lia. }
  specialize (H (n - 1) s). lia.
Qed.

(** [nos_kv_table_create] opens an existing table: creating a name of
    less than 32 characters twice gives the same, unchanged handle.  A longer
    name is cut when it is stored but not when it is looked up, so every call
    makes another table. *)
Theorem nos_kv_table_create_twice fuel name ks mv cap db db1 h :
  0 < ks -> 0 < cap -> (Z.of_nat cap < 2 ^ 32)%Z ->
  find_idx (fun t => String.eqb (kt_name t) name) db = None ->
  nos_kv_table_create fuel true (Some name) ks mv cap db = Some (db1, Some h) ->
  (exists t, db1 !! h = Some t /\ kv_ok t ∅) /\
  if String.length name <? 32
  then nos_kv_table_create fuel true (Some name) ks mv cap db1 = Some (db1, Some h)
  else length db1 < MAX_TABLES -> exists db2,
    nos_kv_table_create fuel true (Some name) ks mv cap db1 = Some (db2, Some (S h)).
Proof.
  intros Hks Hcap Hc Hnone. unfold nos_kv_table_create.
  destruct (Nat.eqb_spec ks 0); [lia|]. destruct (Nat.eqb_spec cap 0); [lia|]. cbn [orb]. rewrite Hnone.
  destruct (MAX_TABLES <=? length db) eqn:Hmax; [done|]. cbn [negb].
  destruct (bucket_count_loop fuel (Z.of_nat cap) 1024) as [bc|] eqn:Hbc; [|done]. intros [= <- <-].
  assert (0 < Z.to_nat bc) as Hpos.
  { assert (forall fuel b, bucket_count_loop fuel (Z.of_nat cap) b = Some bc -> (Z.of_nat cap <= bc)%Z) as H.
    { clear -Hcap. induction fuel as [|fuel IH]; intros b; simpl; [done|].
      destruct (Z.ltb_spec b (Z.of_nat cap)); [apply IH|]. intros [= <-]. done. }
    specialize (H _ _ Hbc). lia. }
  split.
  { exists (new_table name ks mv cap (Z.to_nat bc)). split; [|by apply new_table_ok].
    by rewrite lookup_app_r, Nat.sub_diag by lia. }
  rewrite (find_idx_app_r _ _ _ Hnone). simpl find_idx.
  destruct (Nat.ltb_spec (String.length name) 32) as [Hl|Hl].
  - rewrite strncpy_field_short, String.eqb_refl by done. simpl. by rewrite Nat.add_0_r.
  - assert (String.eqb (strncpy_field 32 name) name = false) as ->.
    { apply String.eqb_neq. intros E. pose proof (strncpy_field_length 32 name ltac:(lia)).
      rewrite E in *. lia. }
    cbn [fmap option_fmap option_map]. intros Hroom.
    destruct (Nat.leb_spec MAX_TABLES (length (db ++ [new_table name ks mv cap (Z.to_nat bc)]))); [lia|].
    eexists. do 3 f_equal. rewrite length_app. simpl. lia.
Qed.

(** [nos_kv_get_ptr] gives the whole stored value and keeps the bucket's
    read lock: until the handle is released every write to a key of that
    bucket waits, readers go on, and releasing gives the table back as it
    was. *)
Theorem nos_kv_get_ptr_locks t m key v subs :
  kv_ok t m -> key_ok t key -> m !! key = Some (v, subs) ->
  exists t', nos_kv_get_ptr t (Some key) = KvRet (NOS_OK, t', Some (v, bucket_of t key)) /\
    (forall key' val, bucket_of t key' = bucket_of t key -> length val <= kt_max_val t ->
       nos_kv_put t' (Some key') (Some val) (length val) = KvBlocked /\
       nos_kv_del t' (Some key') = KvBlocked) /\
    (forall n, nos_kv_get t' (Some key) n = nos_kv_get t (Some key) n) /\
    nos_kv_release_ptr (Some (bucket_of t key)) t' = t.
Proof.
  intros [[chains W] Hu] Hk Hm.
  destruct (kv_lookup_spec W key Hk) as (b & bk & l & Eb & Hbk & Hl & Hseg & Hlk).
  rewrite Hm in Hlk. destruct Hlk as (l1 & i & l2 & e & -> & Hi & Hke & [= -> ->] & Hlk).
  unfold nos_kv_get_ptr. rewrite Hlk. cbn [mbind kv_res_bind]. rewrite <-Eb.
  set (t' := set_buckets _ t). exists t'. split; [done|].
  assert (kt_buckets t' !! b = Some (set_readers (S (b_readers bk)) bk)) as Hb'
    by (simpl; by rewrite list_lookup_alter_eq, Hbk).
  assert (forall key', bucket_of t key' = b -> wrlock t' key' = KvBlocked) as Hw.
  { intros key' E. unfold wrlock. change (bucket_of t' key') with (bucket_of t key'). by rewrite E, Hb'. }
  split_and!.
  - intros key' val E Hv. split.
    + unfold nos_kv_put. change (kt_max_val t') with (kt_max_val t).
      destruct (Nat.ltb_spec (kt_max_val t) (length val)); [lia|]. by rewrite Hw.
    + unfold nos_kv_del. by rewrite Hw.
  - intros n. unfold nos_kv_get.
    assert (kv_lookup t' key = kv_lookup t key) as ->; [|done].
    unfold kv_lookup. change (bucket_of t' key) with (bucket_of t key). rewrite <-Eb, Hb', Hbk.
    change (kt_capacity t') with (kt_capacity t). simpl b_first.
    generalize (S (kt_capacity t)) (@None nat) (b_first bk). clear.
    induction n as [|n IH]; intros p c; [done|]. cbn [kv_find].
    destruct c as [i|]; [|done]. change (kt_entries t') with (kt_entries t).
    destruct (kt_entries t !! i) as [e|]; [|done].
    change (key_matches t' key e) with (key_matches t key e). destruct (key_matches t key e); [done|apply IH].
  - unfold nos_kv_release_ptr, t', set_buckets. simpl. destruct t; simpl in *. f_equal.
    apply list_eq. intros j. destruct (decide (b = j)) as [<-|]; [|by rewrite !list_lookup_alter_ne].
    rewrite !list_lookup_alter_eq, Hbk. simpl. rewrite Nat.sub_0_r. by destruct bk.
Qed.

(** ** Witnesses *)

Definition demo_table : nos_kv_table := new_table "routes" 2 4 3 4.

Lemma demo_table_ok : kv_ok demo_table ∅.
Proof. apply new_table_ok; lia. Qed.

Definition demo_ops : list kv_op :=
  [KPut [1; 2] [9]; KSub [1; 2] 7 0; KPut [1; 2] [5; 6]; KPut [3; 4] []; KPut [5; 6] [8];
   KPut [7; 8] [1]; KDel [3; 4]; KPut [7; 8] [1]; KGet [1; 2] 1]%Z.

Lemma kv_refines_map_witness :
  exists t', kv_run demo_table demo_ops =
      KvRet (t', (map_run 3 ∅ demo_ops).2) /\ kv_ok t' (map_run 3 ∅ demo_ops).1.
Proof.
  apply (kv_refines_map demo_table ∅ demo_ops demo_table_ok).
  repeat constructor; simpl; lia.
Defined.

Lemma bucket_count_spec_witness :
  (exists k, k <= 21 /\ bucket_count_loop 22 5000 1024 = Some (1024 * 2 ^ Z.of_nat k)%Z /\
     (5000 <= 1024 * 2 ^ Z.of_nat k)%Z /\ (k = 0 \/ (1024 * 2 ^ Z.of_nat (k - 1) < 5000)%Z)) /\
  bucket_count_loop 100 3000000000 1024 = None.
Proof.
  split; [apply (bucket_count_spec 5000); lia|apply (bucket_count_spec 3000000000); lia].
Defined.

Lemma nos_kv_table_create_twice_witness :
  nos_kv_table_create 22 true (Some "routes"%string) 2 4 3
    [new_table "routes" 2 4 3 1024] = Some ([new_table "routes" 2 4 3 1024], Some 0).
Proof.
  apply (nos_kv_table_create_twice 22 "routes" 2 4 3 [] [new_table "routes" 2 4 3 1024] 0);
    [lia|lia|lia|done|by vm_compute].
Defined.

Lemma nos_kv_get_ptr_locks_witness :
  exists t1, kv_run demo_table [KPut [1; 2] [9]]%Z = KvRet (t1, [KvOut NOS_OK None []]) /\
    exists t', nos_kv_get_ptr t1 (Some [1; 2]%Z) = KvRet (NOS_OK, t', Some ([9]%Z, bucket_of t1 [1; 2]%Z)) /\
      nos_kv_put t' (Some [1; 2]%Z) (Some []) 0 = KvBlocked.
Proof.
  destruct (kv_step_refines demo_table ∅ (KPut [1; 2] [9])%Z demo_table_ok) as (t1 & Hs & Hok & E1 & E2 & _);
    [simpl; lia|].
  exists t1. split; [unfold kv_run; by rewrite Hs|].
  destruct (nos_kv_get_ptr_locks t1 _ [1; 2]%Z [9]%Z [] Hok) as (t' & Hp & Hb & _);
    [unfold key_ok; by rewrite E1|by vm_compute|].
  exists t'. split; [exact Hp|]. apply (Hb [1; 2]%Z []); [done|simpl; lia].
Defined.
