(* ===== verification/KvConc.v ===== *)
(** * The key-value engine under threads (src/infra/db/nos_kv.c)

    Kv.v runs one operation at a time.  Here threads call the operations of
    one table and interleave.  The read-write lock of a bucket protects the
    bucket's chain and the entries on it; [free_stack], [free_top] and
    [used_count] belong to the table and have no lock.

    A step of a thread is one access to data without a lock, one of the two
    writes of a value, one of the two reads of a value, or a search or change
    of the links of a chain whose lock the thread holds.

    [kv_linearizable] (KvLinear.v): when no two threads are inside the part of an
    insertion or a deletion that uses the free stack, every operation takes
    effect at one moment between its call and its return, with the answers of
    the sequential map.  [insert_race]: without that restriction, which
    nothing in the code enforces, a key that was stored is lost. *)

From stdpp Require Import base list gmap sets strings relations.
From S2P Require Import Prelude CArray Mem Murmur Kv.

(** ** State *)

(** [pthread_rwlock_t]: who holds it. *)
Inductive kv_lock := WLock (tid : nat) | RLock (tids : gset nat).

(** Where a thread is. *)
Inductive kv_pc :=
  | Idle
  | Start (op : kv_op)                              (* before the lock *)
  | Locked (op : kv_op)                             (* before the search *)
  | PutStore (k v : list Z) (i : nat)               (* found: memcpy of the value *)
  | PutLen (k v : list Z) (i : nat)                 (* val_len, the subscribers *)
  | PutTest (k v : list Z)                          (* not found: free_top < 0 *)
  | PutPop (k v : list Z)                           (* reads free_top *)
  | PutDec (k v : list Z) (t : Z)                   (* writes free_top - 1 *)
  | PutIdx (k v : list Z) (t : Z)                   (* reads free_stack[t] *)
  | PutFill (k v : list Z) (t : Z) (i : nat)        (* fills the entry *)
  | PutLink (k v : list Z) (t : Z) (i : nat)        (* next_idx, first_idx *)
  | PutCount (k v : list Z)                         (* reads used_count *)
  | PutCountW (k v : list Z) (u : Z)                (* writes it *)
  | DelUnlink (k : list Z) (prev : option nat) (i : nat)
  | DelTop (k : list Z) (i : nat)                   (* reads free_top *)
  | DelInc (k : list Z) (i : nat) (t : Z)           (* writes free_top + 1 *)
  | DelPush (k : list Z) (i : nat) (t : Z)          (* writes free_stack[t + 1] *)
  | DelCount (k : list Z)
  | DelCountW (k : list Z) (u : Z)
  | GetLen (k : list Z) (n i : nat)                 (* reads val_len *)
  | GetCopy (k : list Z) (n i len : nat)            (* memcpy to the caller *)
  | Unlock (op : kv_op) (o : kv_out).

(** [kt_free] and [kt_used] of [cc_tab] play no part: the free stack, its top
    and the counter are [cc_stack], [cc_top], [cc_used].  [cc_section],
    [cc_hist] and [cc_rets] are auxiliary: the thread in the part that uses
    the free stack, the operations in the order they took effect, and those
    that returned. *)
Record kv_conc := KvConc {
  cc_tab : nos_kv_table;
  cc_stack : list nat;
  cc_top : Z;
  cc_used : Z;
  cc_locks : gmap nat kv_lock;
  cc_pcs : gmap nat kv_pc;
  cc_section : option nat;
  cc_hist : list (nat * (kv_op * kv_out));
  cc_rets : list (nat * (kv_op * kv_out));
}.

Definition on_tab (f : nos_kv_table -> nos_kv_table) (s : kv_conc) : kv_conc :=
  KvConc (f (cc_tab s)) (cc_stack s) (cc_top s) (cc_used s) (cc_locks s) (cc_pcs s) (cc_section s) (cc_hist s) (cc_rets s).
Definition set_stack (l : list nat) (s : kv_conc) : kv_conc :=
  KvConc (cc_tab s) l (cc_top s) (cc_used s) (cc_locks s) (cc_pcs s) (cc_section s) (cc_hist s) (cc_rets s).
Definition set_top (z : Z) (s : kv_conc) : kv_conc :=
  KvConc (cc_tab s) (cc_stack s) z (cc_used s) (cc_locks s) (cc_pcs s) (cc_section s) (cc_hist s) (cc_rets s).
Definition set_used (z : Z) (s : kv_conc) : kv_conc :=
  KvConc (cc_tab s) (cc_stack s) (cc_top s) z (cc_locks s) (cc_pcs s) (cc_section s) (cc_hist s) (cc_rets s).
Definition set_locks (l : gmap nat kv_lock) (s : kv_conc) : kv_conc :=
  KvConc (cc_tab s) (cc_stack s) (cc_top s) (cc_used s) l (cc_pcs s) (cc_section s) (cc_hist s) (cc_rets s).
Definition goto (tid : nat) (pc : kv_pc) (s : kv_conc) : kv_conc :=
  KvConc (cc_tab s) (cc_stack s) (cc_top s) (cc_used s) (cc_locks s) (<[tid := pc]> (cc_pcs s)) (cc_section s) (cc_hist s) (cc_rets s).
Definition set_section (o : option nat) (s : kv_conc) : kv_conc :=
  KvConc (cc_tab s) (cc_stack s) (cc_top s) (cc_used s) (cc_locks s) (cc_pcs s) o (cc_hist s) (cc_rets s).
Definition log_op (tid : nat) (op : kv_op) (o : kv_out) (s : kv_conc) : kv_conc :=
  KvConc (cc_tab s) (cc_stack s) (cc_top s) (cc_used s) (cc_locks s) (cc_pcs s) (cc_section s)
         (cc_hist s ++ [(tid, (op, o))]) (cc_rets s).
Definition log_ret (tid : nat) (op : kv_op) (o : kv_out) (s : kv_conc) : kv_conc :=
  KvConc (cc_tab s) (cc_stack s) (cc_top s) (cc_used s) (cc_locks s) (cc_pcs s) (cc_section s)
         (cc_hist s) (cc_rets s ++ [(tid, (op, o))]).

(** A new table and threads that have not called yet. *)
Definition conc_init (t : nos_kv_table) (tids : gset nat) : kv_conc :=
  KvConc t (seq 0 (kt_capacity t)) (Z.of_nat (kt_capacity t) - 1) 0 ∅ (gset_to_gmap Idle tids) None [] [].

(** ** Locks *)

Definition op_key (op : kv_op) : list Z :=
  match op with KPut k _ | KGet k _ | KDel k | KSub k _ _ | KUnsub k _ _ => k end.

(** [nos_kv_get] takes the read lock, the others the write lock. *)
Definition is_read (op : kv_op) : bool := match op with KGet _ _ => true | _ => false end.

Definition acquire (tid : nat) (op : kv_op) (s : kv_conc) : option kv_conc :=
  let b := bucket_of (cc_tab s) (op_key op) in
  match cc_locks s !! b, is_read op with
  | None, true => Some (set_locks (<[b := RLock {[tid]}]> (cc_locks s)) s)
  | Some (RLock X), true => Some (set_locks (<[b := RLock ({[tid]} ∪ X)]> (cc_locks s)) s)
  | None, false => Some (set_locks (<[b := WLock tid]> (cc_locks s)) s)
  | _, _ => None
  end.

Definition release (tid : nat) (op : kv_op) (s : kv_conc) : kv_conc :=
  let b := bucket_of (cc_tab s) (op_key op) in
  match cc_locks s !! b with
  | Some (RLock X) =>
      if decide (X ∖ {[tid]} = ∅) then set_locks (delete b (cc_locks s)) s
      else set_locks (<[b := RLock (X ∖ {[tid]})]> (cc_locks s)) s
  | _ => set_locks (delete b (cc_locks s)) s
  end.

(** ** The operations, step by step *)

(** The answer is known: it took effect now; the lock is still held. *)
Definition finish (tid : nat) (op : kv_op) (o : kv_out) (s : kv_conc) : kv_conc :=
  goto tid (Unlock op o) (log_op tid op o s).

(** Entering the part that uses the free stack; [excl] is the restriction to
    one thread at a time. *)
Definition enter (excl : bool) (tid : nat) (pc : kv_pc) (s : kv_conc) : option kv_conc :=
  if excl && bool_decide (cc_section s <> None) then None
  else Some (goto tid pc (set_section (Some tid) s)).

Definition set_len (n : nat) (e : nos_kv_entry) : nos_kv_entry := KvEntry (e_next e) n (e_subs e) (e_data e).
Definition set_data (d : list Z) (e : nos_kv_entry) : nos_kv_entry := KvEntry (e_next e) (e_val_len e) (e_subs e) d.

Definition upd_entry (i : nat) (f : nos_kv_entry -> nos_kv_entry) (s : kv_conc) : kv_conc :=
  on_tab (fun t => set_entries (alter f i (kt_entries t)) t) s.

(** The search, and what follows it at once. *)
Definition search (excl : bool) (tid : nat) (op : kv_op) (s : kv_conc) : option kv_conc :=
  match kv_lookup (cc_tab s) (op_key op) with
  | KvRet None =>
      match op with
      | KPut k v => enter excl tid (PutTest k v) s
      | _ => Some (finish tid op (KvOut NOS_ERR None []) s)
      end
  | KvRet (Some (prev, i, e)) =>
      match op with
      | KPut k v => Some (goto tid (PutStore k v i) s)
      | KGet k n => Some (goto tid (GetLen k n i) s)
      | KDel k => enter excl tid (DelUnlink k prev i) s
      | KSub k f a =>
          Some (finish tid op (KvOut NOS_OK None [])
                  (if bool_decide ((f, a) ∈ e_subs e) then s
                   else upd_entry i (fun e => set_subs ((f, a) :: e_subs e) e) s))
      | KUnsub k f a =>
          if bool_decide ((f, a) ∈ e_subs e)
          then Some (finish tid op (KvOut NOS_OK None [])
                       (upd_entry i (fun e => set_subs (remove_first (f, a) (e_subs e)) e) s))
          else Some (finish tid op (KvOut NOS_ERR None []) s)
      end
  | _ => None
  end.

(** The new entry, its link apart. *)
Definition fill_entry (t : nos_kv_table) (k v : list Z) (e : nos_kv_entry) : nos_kv_entry :=
  set_subs [] (store_value t (Some v) (length v)
    (KvEntry (e_next e) (e_val_len e) (e_subs e) (bytes_put 0 (take (kt_key_size t) k) (e_data e)))).

(** One step of thread [tid]; [None] when it has to wait, has nothing to do,
    or makes an access out of the table: an entry, a bucket or a slot of the
    free stack that is not there. *)
Definition thread_step (excl : bool) (tid : nat) (s : kv_conc) : option kv_conc :=
  let t := cc_tab s in
  match cc_pcs s !! tid with
  | None | Some Idle => None
  | Some (Start op) => goto tid (Locked op) <$> acquire tid op s
  | Some (Locked op) => search excl tid op s
  | Some (PutStore k v i) =>
      e ← kt_entries t !! i;
      Some (goto tid (PutLen k v i)
        (log_op tid (KPut k v) (KvOut NOS_OK None (e_subs e))
          (upd_entry i (fun e => set_data (bytes_put (kt_key_size t) v (e_data e)) e) s)))
  | Some (PutLen k v i) =>
      e ← kt_entries t !! i;
      Some (goto tid (Unlock (KPut k v) (KvOut NOS_OK None (e_subs e))) (upd_entry i (set_len (length v)) s))
  | Some (PutTest k v) =>
      if (cc_top s <? 0)%Z
      then Some (finish tid (KPut k v) (KvOut NOS_ERR_BUSY None []) (set_section None s))
      else Some (goto tid (PutPop k v) s)
  | Some (PutPop k v) => Some (goto tid (PutDec k v (cc_top s)) s)
  | Some (PutDec k v z) => Some (goto tid (PutIdx k v z) (set_top (z - 1) s))
  | Some (PutIdx k v z) =>
      if bool_decide (0 <= z)%Z
      then i ← cc_stack s !! Z.to_nat z; Some (goto tid (PutFill k v z i) s)
      else None
  | Some (PutFill k v z i) => Some (goto tid (PutLink k v z i) (upd_entry i (fill_entry t k v) s))
  | Some (PutLink k v z i) =>
      let b := bucket_of t k in
      bk ← kt_buckets t !! b;
      Some (goto tid (PutCount k v) (log_op tid (KPut k v) (KvOut NOS_OK None [])
        (on_tab (fun t => set_buckets (alter (set_first (Some i)) b (kt_buckets t)) t)
          (upd_entry i (set_next (b_first bk)) s))))
  | Some (PutCount k v) => Some (goto tid (PutCountW k v (cc_used s)) s)
  | Some (PutCountW k v u) =>
      Some (goto tid (Unlock (KPut k v) (KvOut NOS_OK None [])) (set_used (u32 (u + 1)) (set_section None s)))
  | Some (DelUnlink k prev i) =>
      e ← kt_entries t !! i;
      Some (goto tid (DelTop k i) (log_op tid (KDel k) (KvOut NOS_OK None [])
        (upd_entry i (set_subs [])
          (match prev with
           | None => on_tab (fun t => set_buckets (alter (set_first (e_next e)) (bucket_of t k) (kt_buckets t)) t) s
           | Some p => upd_entry p (set_next (e_next e)) s
           end))))
  | Some (DelTop k i) => Some (goto tid (DelInc k i (cc_top s)) s)
  | Some (DelInc k i z) => Some (goto tid (DelPush k i z) (set_top (z + 1) s))
  | Some (DelPush k i z) =>
      if bool_decide (0 <= z + 1 < Z.of_nat (length (cc_stack s)))%Z
      then Some (goto tid (DelCount k) (set_stack (<[Z.to_nat (z + 1) := i]> (cc_stack s)) s))
      else None
  | Some (DelCount k) => Some (goto tid (DelCountW k (cc_used s)) s)
  | Some (DelCountW k u) =>
      Some (goto tid (Unlock (KDel k) (KvOut NOS_OK None [])) (set_used (u32 (u - 1)) (set_section None s)))
  | Some (GetLen k n i) => e ← kt_entries t !! i; Some (goto tid (GetCopy k n i (e_val_len e)) s)
  | Some (GetCopy k n i len) =>
      e ← kt_entries t !! i;
      let copy_len := if n <? len then n else len in
      Some (finish tid (KGet k n) (KvOut NOS_OK (Some (take copy_len (drop (kt_key_size t) (e_data e)), len)) []) s)
  | Some (Unlock op o) => Some (log_ret tid op o (goto tid Idle (release tid op s)))
  end.

(** The steps of the system: an idle thread calls, or a thread goes on. *)
Inductive conc_step (excl : bool) : kv_conc -> kv_conc -> Prop :=
  | cs_call s tid op :
      cc_pcs s !! tid = Some Idle -> op_ok (kt_key_size (cc_tab s)) (kt_max_val (cc_tab s)) op ->
      conc_step excl s (goto tid (Start op) s)
  | cs_run s tid s' : thread_step excl tid s = Some s' -> conc_step excl s s'.

(** A schedule: which thread steps next. *)
Fixpoint conc_run (excl : bool) (sched : list nat) (s : kv_conc) : option kv_conc :=
  match sched with
  | [] => Some s
  | tid :: rest => s' ← thread_step excl tid s; conc_run excl rest s'
  end.

Lemma conc_run_rtc excl sched s s' : conc_run excl sched s = Some s' -> rtc (conc_step excl) s s'.
Proof.
  revert s. induction sched as [|tid sched IH]; intros s H; cbn in H; [by injection H as ->|].
  apply bind_Some in H as (s1 & H1 & H). eapply rtc_l; [by eapply cs_run|by apply IH].
Qed.

(** ** Two insertions at once *)

Definition two_threads : kv_conc := conc_init (new_table "t" 1 1 2 16) {[0; 1]}.

(** Threads 0 and 1 have called a put each. *)
Definition two_puts : kv_conc :=
  goto 1 (Start (KPut [2%Z] [8%Z])) (goto 0 (Start (KPut [1%Z] [7%Z])) two_threads).

Lemma two_puts_reached excl : rtc (conc_step excl) two_threads two_puts.
Proof.
  eapply rtc_l; [apply (cs_call _ _ 0 (KPut [1%Z] [7%Z])); [by vm_compute|by vm_compute; lia]|].
  eapply rtc_l; [apply (cs_call _ _ 1 (KPut [2%Z] [8%Z])); [by vm_compute|by vm_compute; lia]|].
  apply rtc_refl.
Qed.

(** Both read [free_top] before either writes it back. *)
Definition race_schedule : list nat := replicate 4 0 ++ replicate 4 1 ++ replicate 7 0 ++ replicate 7 1.

(** The locks of the buckets do not protect the free stack: two
    insertions into different buckets of a new table can both read the same
    [free_top] and take the same entry.  Both return [NOS_OK]; afterwards the
    first key is not in the table, the second is, two entries are counted and
    one is gone from the free stack. *)
Theorem insert_race :
  exists s, rtc (conc_step false) two_threads s /\
    cc_rets s = [(0, (KPut [1%Z] [7%Z], KvOut NOS_OK None [])); (1, (KPut [2%Z] [8%Z], KvOut NOS_OK None []))] /\
    (forall tid, tid ∈ [0; 1] -> cc_pcs s !! tid = Some Idle) /\
    nos_kv_get (cc_tab s) (Some [1%Z]) 1 = KvRet (NOS_ERR, None) /\
    nos_kv_get (cc_tab s) (Some [2%Z]) 1 = KvRet (NOS_OK, Some ([8%Z], 1)) /\
    cc_top s = 0%Z /\ cc_used s = 2%Z.
Proof.
  assert (is_Some (conc_run false race_schedule two_puts)) as [s Hs] by (vm_compute; by eexists).
  exists s. split; [etrans; [apply two_puts_reached|by eapply conc_run_rtc]|].
  vm_compute in Hs. injection Hs as <-. split_and!; try by vm_compute.
  intros tid [->|[->|?%not_elem_of_nil]%elem_of_cons]%elem_of_cons; by vm_compute.
Qed.

(** Threads 0 and 1 put into a new table with room for one entry. *)
Definition one_room : kv_conc := conc_init (new_table "t" 1 1 1 16) {[0; 1]}.

Definition two_puts_one_room : kv_conc :=
  goto 1 (Start (KPut [2%Z] [8%Z])) (goto 0 (Start (KPut [1%Z] [7%Z])) one_room).

Lemma two_puts_one_room_reached excl : rtc (conc_step excl) one_room two_puts_one_room.
Proof.
  eapply rtc_l; [apply (cs_call _ _ 0 (KPut [1%Z] [7%Z])); [by vm_compute|by vm_compute; lia]|].
  eapply rtc_l; [apply (cs_call _ _ 1 (KPut [2%Z] [8%Z])); [by vm_compute|by vm_compute; lia]|].
  apply rtc_refl.
Qed.

(** Nor do they protect its bounds: both threads find the one free entry,
    the first takes it, and the second is about to read [free_stack[-1]],
    which is no slot. *)
Theorem pop_race :
  exists s, rtc (conc_step false) one_room s /\
    cc_pcs s !! 1 = Some (PutIdx [2%Z] [8%Z] (-1)%Z) /\
    thread_step false 1 s = None.
Proof.
  assert (is_Some (conc_run false (replicate 3 0 ++ replicate 3 1 ++ replicate 2 0 ++ replicate 2 1) two_puts_one_room))
    as [s Hs] by (vm_compute; by eexists).
  exists s. split; [etrans; [apply two_puts_one_room_reached|by eapply conc_run_rtc]|].
  vm_compute in Hs. injection Hs as <-. by vm_compute.
Qed.
