(* ===== verification/KvLinear.v ===== *)
(** * Linearizability of the key-value engine (src/infra/db/nos_kv.c)

    The invariant of the threads of KvConc.v when one thread at a time is in
    the part of an insertion or a deletion that uses the free stack: what the
    memory means as a table ([means]), what each thread relies on at each
    point ([pc_data]), and that a step of one thread keeps what the others
    rely on ([others]).  [kv_linearizable] and [kv_threads_safe] follow. *)

From stdpp Require Import base list gmap sets strings relations.
From S2P Require Import Prelude CArray Mem Murmur Kv KvConc.

(** ** What holds between the steps *)

(** The operation of a thread that has its lock. *)
Definition pc_op (pc : kv_pc) : option kv_op :=
  match pc with
  | Idle | Start _ => None
  | Locked op | Unlock op _ => Some op
  | PutStore k v _ | PutLen k v _ | PutTest k v | PutPop k v | PutDec k v _ | PutIdx k v _
  | PutFill k v _ _ | PutLink k v _ _ | PutCount k v | PutCountW k v _ => Some (KPut k v)
  | DelUnlink k _ _ | DelTop k _ | DelInc k _ _ | DelPush k _ _ | DelCount k | DelCountW k _ => Some (KDel k)
  | GetLen k n _ | GetCopy k n _ _ => Some (KGet k n)
  end.

(** The part without a lock of its own. *)
Definition in_section (pc : kv_pc) : bool :=
  match pc with
  | PutTest _ _ | PutPop _ _ | PutDec _ _ _ | PutIdx _ _ _ | PutFill _ _ _ _ | PutLink _ _ _ _
  | PutCount _ _ | PutCountW _ _ _ | DelUnlink _ _ _ | DelTop _ _ | DelInc _ _ _ | DelPush _ _ _
  | DelCount _ | DelCountW _ _ => true
  | _ => false
  end.

Definition holds (s : kv_conc) (tid : nat) (op : kv_op) : Prop :=
  match cc_locks s !! bucket_of (cc_tab s) (op_key op) with
  | Some (WLock t) => is_read op = false /\ t = tid
  | Some (RLock X) => is_read op = true /\ tid ∈ X
  | None => False
  end.

Definition section_pc (s : kv_conc) : option kv_pc := cc_section s ≫= fun t => cc_pcs s !! t.

(** The free entries and the count, as they were before the operation in the
    section took effect or are after it has. *)
Definition free_prefix (s : kv_conc) (z : Z) : list nat := take (Z.to_nat (z + 1)) (cc_stack s).

Definition view_free (s : kv_conc) : list nat :=
  match section_pc s with
  | Some (PutIdx _ _ z) | Some (PutFill _ _ z _) | Some (PutLink _ _ z _) => free_prefix s z
  | Some (DelTop _ i) => free_prefix s (cc_top s) ++ [i]
  | Some (DelInc _ i z) | Some (DelPush _ i z) => free_prefix s z ++ [i]
  | _ => free_prefix s (cc_top s)
  end.

Definition view_used (s : kv_conc) : Z :=
  match section_pc s with
  | Some (PutCount _ _) | Some (PutCountW _ _ _) => u32 (cc_used s + 1)
  | Some (DelTop _ _) | Some (DelInc _ _ _) | Some (DelPush _ _ _) | Some (DelCount _)
  | Some (DelCountW _ _) => u32 (cc_used s - 1)
  | _ => cc_used s
  end.

Definition entry_at (s : kv_conc) (j : nat) : option nos_kv_entry := kt_entries (cc_tab s) !! j.

(** A put has written the bytes of a value and not yet its length. *)
Definition pend (s : kv_conc) (j n : nat) : Prop :=
  exists tid k v, cc_pcs s !! tid = Some (PutLen k v j) /\ n = length v.

(** Entry [i] is on the chain of [k] and has its key. *)
Definition linked (s : kv_conc) (chains : list (list nat)) (k : list Z) (i : nat) (e : nos_kv_entry) : Prop :=
  (exists l, chains !! bucket_of (cc_tab s) k = Some l /\ i ∈ l) /\
  entry_at s i = Some e /\ entry_key (cc_tab s) e = k.

(** The operations of one thread. *)
Definition of_thread (tid : nat) (l : list (nat * (kv_op * kv_out))) : list (kv_op * kv_out) :=
  (filter (fun x => x.1 = tid) l).*2.

(** The thread's operation has taken effect and has yet to return; or has not
    taken effect. *)
Definition logged (s : kv_conc) (tid : nat) (op : kv_op) (o : kv_out) : Prop :=
  of_thread tid (cc_hist s) = of_thread tid (cc_rets s) ++ [(op, o)].

Definition fresh (s : kv_conc) (tid : nat) : Prop := of_thread tid (cc_hist s) = of_thread tid (cc_rets s).

(** Where the operation has not taken effect. *)
Definition before (pc : kv_pc) : bool :=
  match pc with
  | Idle | Start _ | Locked _ | PutStore _ _ _ | PutTest _ _ | PutPop _ _ | PutDec _ _ _ | PutIdx _ _ _
  | PutFill _ _ _ _ | PutLink _ _ _ _ | DelUnlink _ _ _ | GetLen _ _ _ | GetCopy _ _ _ _ => true
  | _ => false
  end.

(** What a thread relies on, by where it is. *)
Definition pc_data (s : kv_conc) (chains : list (list nat)) (m : kv_map) (tid : nat) (pc : kv_pc) : Prop :=
  match pc with
  | Idle | Locked _ => True
  | Start op => op_ok (kt_key_size (cc_tab s)) (kt_max_val (cc_tab s)) op
  | PutStore k _ i | GetLen k _ i => exists e, linked s chains k i e
  | PutLen k v i => exists e, linked s chains k i e /\ logged s tid (KPut k v) (KvOut NOS_OK None (e_subs e))
  | GetCopy k _ i len => exists e, linked s chains k i e /\ e_val_len e = len
  | PutTest k _ => m !! k = None
  | PutPop k _ => m !! k = None /\ (0 <= cc_top s)%Z
  | PutDec k _ z => m !! k = None /\ (0 <= z)%Z /\ cc_top s = z
  | PutIdx k _ z => m !! k = None /\ (0 <= z < Z.of_nat (kt_capacity (cc_tab s)))%Z /\ cc_top s = (z - 1)%Z
  | PutFill k _ z i => m !! k = None /\ (0 <= z)%Z /\ cc_top s = (z - 1)%Z /\ cc_stack s !! Z.to_nat z = Some i
  | PutLink k v z i => m !! k = None /\ (0 <= z)%Z /\ cc_top s = (z - 1)%Z /\ cc_stack s !! Z.to_nat z = Some i /\
      exists e, entry_at s i = Some e /\ entry_key (cc_tab s) e = k /\ entry_value (cc_tab s) e = v /\
        e_subs e = [] /\ length (e_data e) = kt_key_size (cc_tab s) + kt_max_val (cc_tab s) /\ e_val_len e = length v
  | PutCount k v => logged s tid (KPut k v) (KvOut NOS_OK None [])
  | PutCountW k v u => logged s tid (KPut k v) (KvOut NOS_OK None []) /\ cc_used s = u
  | DelUnlink k prev i => exists l1 l2 e,
      chains !! bucket_of (cc_tab s) k = Some (l1 ++ i :: l2) /\ prev = last l1 /\
      entry_at s i = Some e /\ entry_key (cc_tab s) e = k
  | DelTop k i => logged s tid (KDel k) (KvOut NOS_OK None [])
  | DelInc k i z => logged s tid (KDel k) (KvOut NOS_OK None []) /\ (-1 <= z)%Z /\ cc_top s = z
  | DelPush k i z => logged s tid (KDel k) (KvOut NOS_OK None []) /\ (-1 <= z)%Z /\ cc_top s = (z + 1)%Z
  | DelCount k => logged s tid (KDel k) (KvOut NOS_OK None [])
  | DelCountW k u => logged s tid (KDel k) (KvOut NOS_OK None []) /\ cc_used s = u
  | Unlock op o => logged s tid op o
  end.

Record pc_ok (s : kv_conc) (chains : list (list nat)) (m : kv_map) (tid : nat) (pc : kv_pc) : Prop := {
  po_op op : pc_op pc = Some op -> op_ok (kt_key_size (cc_tab s)) (kt_max_val (cc_tab s)) op /\ holds s tid op;
  po_section : in_section pc = true -> cc_section s = Some tid;
  po_fresh : before pc = true -> fresh s tid;
  po_data : pc_data s chains m tid pc;
}.

(** The entries [es] are those of the memory, [es'], once pending lengths are
    written. *)
Definition agree (pd : nat -> nat -> Prop) (es es' : list nos_kv_entry) : Prop :=
  (forall j, (forall n, ~ pd j n) -> es !! j = es' !! j) /\
  (forall j n, pd j n -> es !! j = set_len n <$> es' !! j).

(** The table [tv] is what the memory means: values being written count as
    written, the free stack and the count as the section has them. *)
Record means (s : kv_conc) (tv : nos_kv_table) : Prop := {
  me_name : kt_name tv = kt_name (cc_tab s);
  me_ks : kt_key_size tv = kt_key_size (cc_tab s);
  me_mv : kt_max_val tv = kt_max_val (cc_tab s);
  me_es : kt_entry_size tv = kt_entry_size (cc_tab s);
  me_cap : kt_capacity tv = kt_capacity (cc_tab s);
  me_bc : kt_bucket_count tv = kt_bucket_count (cc_tab s);
  me_buckets : kt_buckets tv = kt_buckets (cc_tab s);
  me_ent : agree (pend s) (kt_entries tv) (kt_entries (cc_tab s));
  me_free : kt_free tv = view_free s;
  me_used : kt_used tv = view_used s;
}.

Record core (m0 : kv_map) (s : kv_conc) (tv : nos_kv_table) (chains : list (list nat)) (m : kv_map) : Prop := {
  co_wf : kv_wf tv chains m;
  co_means : means s tv;
  co_stack : length (cc_stack s) = kt_capacity (cc_tab s);
  co_top : (-1 <= cc_top s < Z.of_nat (kt_capacity (cc_tab s)))%Z;
  co_hist : map_run (kt_capacity (cc_tab s)) m0 (cc_hist s).*2.*1 = (m, (cc_hist s).*2.*2);
  co_section tid : cc_section s = Some tid -> exists pc, cc_pcs s !! tid = Some pc /\ in_section pc = true;
}.

Definition pcs_ok (s : kv_conc) (chains : list (list nat)) (m : kv_map) : Prop :=
  forall tid pc, cc_pcs s !! tid = Some pc -> pc_ok s chains m tid pc.

Definition conc_inv (m0 : kv_map) (s : kv_conc) : Prop :=
  exists tv chains m, core m0 s tv chains m /\ pcs_ok s chains m.

(** ** One thread's step, seen by the others *)

(** Thread [tid] changed at most the chain of bucket [touch], whose lock it
    has, and what belongs to its section. *)
Record others (tid : nat) (touch : option nat) (s : kv_conc) (chains : list (list nat)) (m : kv_map)
    (s' : kv_conc) (chains' : list (list nat)) (m' : kv_map) : Prop := {
  ot_pcs t : t <> tid -> cc_pcs s' !! t = cc_pcs s !! t;
  ot_ks : kt_key_size (cc_tab s') = kt_key_size (cc_tab s);
  ot_mv : kt_max_val (cc_tab s') = kt_max_val (cc_tab s);
  ot_cap : kt_capacity (cc_tab s') = kt_capacity (cc_tab s);
  ot_bc : kt_bucket_count (cc_tab s') = kt_bucket_count (cc_tab s);
  ot_locks t op : t <> tid -> holds s t op -> holds s' t op;
  ot_touch b : touch = Some b -> cc_locks s !! b = Some (WLock tid);
  ot_chain b : touch <> Some b -> chains' !! b = chains !! b;
  ot_ent b l i : touch <> Some b -> chains !! b = Some l -> i ∈ l -> entry_at s' i = entry_at s i;
  ot_map k : touch <> Some (bucket_of (cc_tab s) k) -> m' !! k = m !! k;
  ot_section t : t <> tid -> cc_section s = Some t ->
    cc_section s' = Some t /\ cc_stack s' = cc_stack s /\ cc_top s' = cc_top s /\ cc_used s' = cc_used s /\
    (forall i, i ∉ concat chains -> entry_at s' i = entry_at s i);
  ot_log t : t <> tid -> of_thread t (cc_hist s') = of_thread t (cc_hist s) /\
    of_thread t (cc_rets s') = of_thread t (cc_rets s);
}.

Section others.
Context {tid : nat} {touch : option nat} {s s' : kv_conc} {chains chains' : list (list nat)} {m m' : kv_map}.
Context (O : others tid touch s chains m s' chains' m').

Lemma others_bucket k : bucket_of (cc_tab s') k = bucket_of (cc_tab s) k.
Proof. unfold bucket_of. by rewrite (ot_ks _ _ _ _ _ _ _ _ O), (ot_bc _ _ _ _ _ _ _ _ O). Qed.

Lemma others_key e : entry_key (cc_tab s') e = entry_key (cc_tab s) e.
Proof. unfold entry_key. by rewrite (ot_ks _ _ _ _ _ _ _ _ O). Qed.

(** Another thread that holds its lock is not in the bucket that changed. *)
Lemma others_apart t op : t <> tid -> holds s t op -> touch <> Some (bucket_of (cc_tab s) (op_key op)).
Proof.
  intros Hne Hh E. pose proof (ot_touch _ _ _ _ _ _ _ _ O _ E) as Hl. unfold holds in Hh. rewrite Hl in Hh.
  destruct Hh as [_ ?]. congruence.
Qed.

Lemma others_linked t op i e :
  t <> tid -> holds s t op -> linked s chains (op_key op) i e -> linked s' chains' (op_key op) i e.
Proof.
  intros Hne Hh ((l & Hl & Hi) & He & Hk). pose proof (others_apart t op Hne Hh) as Ha. split; [|split].
  - exists l. split; [|done]. by rewrite others_bucket, (ot_chain _ _ _ _ _ _ _ _ O).
  - by rewrite (ot_ent _ _ _ _ _ _ _ _ O _ l i Ha Hl Hi).
  - by rewrite others_key.
Qed.

Lemma others_map t op : t <> tid -> holds s t op -> m' !! op_key op = m !! op_key op.
Proof. intros Hne Hh. by apply (ot_map _ _ _ _ _ _ _ _ O), (others_apart t op). Qed.

(** The entry a section is filling is on no chain. *)
Lemma others_data t pc :
  t <> tid -> (forall k v z i, pc = PutLink k v z i -> i ∉ concat chains) ->
  pc_ok s chains m t pc -> pc_data s' chains' m' t pc.
Proof.
  intros Hne Hfree [Hop Hsec _ Hd].
  assert (forall op, pc_op pc = Some op -> holds s t op) as Hh by (intros op E; by apply Hop).
  assert (in_section pc = true -> _) as Hs by (intros E; exact (ot_section _ _ _ _ _ _ _ _ O t Hne (Hsec E))).
  pose proof (ot_ks _ _ _ _ _ _ _ _ O) as Eks. pose proof (ot_mv _ _ _ _ _ _ _ _ O) as Emv.
  pose proof (ot_cap _ _ _ _ _ _ _ _ O) as Ecap. destruct (ot_log _ _ _ _ _ _ _ _ O t Hne) as [Lh Lr].
  assert (forall op, pc_op pc = Some op -> m' !! op_key op = m !! op_key op) as Hm
    by (intros op E; apply (others_map t); auto).
  destruct pc; cbn [pc_data pc_op in_section] in *; unfold logged in *; try done;
    try (specialize (Hh _ eq_refl); specialize (Hm _ eq_refl); cbn [op_key] in Hm);
    try (destruct (Hs eq_refl) as (_ & Est & Etop & Eus & Hent));
    rewrite ?Eks, ?Emv, ?Ecap, ?Est, ?Etop, ?Eus, ?Hm, ?Lh, ?Lr; auto.
  - destruct Hd as [e Hl]. exists e. by apply (others_linked t (KPut k v)).
  - destruct Hd as (e & Hl & Hlg). exists e. split; [by apply (others_linked t (KPut k v))|done].
  - destruct Hd as (H1 & H2 & H3 & H4 & e & He & Hk & Hv & Hx & Hy & Hz). split_and!; [done..|].
    exists e. rewrite others_key. unfold entry_value. rewrite Eks. split_and!; try done.
    rewrite Hent; [done|]. by eapply Hfree.
  - destruct Hd as (l1 & l2 & e & Hc & Hp & He & Hk).
    pose proof (others_apart t (KDel k) Hne Hh) as Ha. exists l1, l2, e.
    rewrite others_bucket, others_key, (ot_chain _ _ _ _ _ _ _ _ O) by done. split_and!; [done..| |done].
    rewrite (ot_ent _ _ _ _ _ _ _ _ O _ _ _ Ha Hc); [done|]. apply elem_of_app. right. by left.
  - destruct Hd as [e Hl]. exists e. by apply (others_linked t (KGet k n)).
  - destruct Hd as (e & Hl & Hn). exists e. split; [by apply (others_linked t (KGet k n))|done].
Qed.

Lemma others_pc_ok t pc :
  t <> tid -> (forall k v z i, pc = PutLink k v z i -> i ∉ concat chains) ->
  pc_ok s chains m t pc -> pc_ok s' chains' m' t pc.
Proof.
  intros Hne Hfree Hpc. pose proof Hpc as [Hop Hsec Hb _]. split.
  - intros op E. destruct (Hop op E) as [H1 H2]. split; [|by apply (ot_locks _ _ _ _ _ _ _ _ O)].
    by rewrite (ot_ks _ _ _ _ _ _ _ _ O), (ot_mv _ _ _ _ _ _ _ _ O).
  - intros E. by apply (ot_section _ _ _ _ _ _ _ _ O t Hne), Hsec.
  - intros E. unfold fresh. destruct (ot_log _ _ _ _ _ _ _ _ O t Hne) as [-> ->]. by apply Hb.
  - by apply (others_data t).
Qed.
End others.

(** ** The invariant step by step *)

Lemma map_run_app cap m ops1 ops2 :
  map_run cap m (ops1 ++ ops2) =
  let '(m1, o1) := map_run cap m ops1 in let '(m2, o2) := map_run cap m1 ops2 in (m2, o1 ++ o2).
Proof.
  revert m. induction ops1 as [|op ops1 IH]; intros m; cbn [app map_run]; [by destruct (map_run cap m ops2)|].
  destruct (map_step cap m op) as [m1 o]. rewrite IH.
  destruct (map_run cap m1 ops1) as [m2 os]. by destruct (map_run cap m2 ops2).
Qed.

(** Two tables that agree on a chain search it alike. *)
Lemma kv_find_agree t t' key l : kt_key_size t' = kt_key_size t ->
  forall fuel prev first, lseg (kt_entries t) first l -> (forall j, j ∈ l -> kt_entries t' !! j = kt_entries t !! j) ->
  length l < fuel -> kv_find fuel t' key prev first = kv_find fuel t key prev first.
Proof.
  intros Hks. induction l as [|i l IH]; intros [|fuel] prev first Hl Ha Hf; cbn in Hf; try lia; cbn [lseg] in Hl.
  - by rewrite Hl.
  - destruct Hl as (-> & e & He & Hl). cbn [kv_find]. rewrite (Ha i) by by left. rewrite He.
    assert (key_matches t' key e = key_matches t key e) as ->
      by (unfold key_matches, entry_key; by rewrite Hks).
    destruct (key_matches t key e); [done|]. apply IH; [done| |lia]. intros j Hj. apply Ha. by right.
Qed.

(** Taking a lock leaves what others hold; so does releasing one's own. *)
Lemma acquire_spec tid op s s' :
  acquire tid op s = Some s' ->
  exists L, s' = set_locks L s /\ holds s' tid op /\ forall t o, holds s t o -> holds s' t o.
Proof.
  unfold acquire. intros H.
  assert (exists w, s' = set_locks (<[bucket_of (cc_tab s) (op_key op) := w]> (cc_locks s)) s /\
    match w with WLock t => is_read op = false /\ t = tid | RLock X => is_read op = true /\ tid ∈ X end /\
    match cc_locks s !! bucket_of (cc_tab s) (op_key op) with
    | None => True | Some (RLock Y) => exists X, w = RLock X /\ Y ⊆ X | _ => False end) as (w & -> & Hw & Ho).
  { destruct (cc_locks s !! _) as [[|X]|], (is_read op); simplify_eq; eexists; split_and!; try done; try set_solver.
    eexists. split; [done|]. set_solver. }
  eexists. split; [done|]. unfold holds. cbn [cc_locks cc_tab set_locks]. rewrite lookup_insert_eq. split; [done|].
  intros t o Ht. destruct (decide (bucket_of (cc_tab s) (op_key op) = bucket_of (cc_tab s) (op_key o))) as [E|Hne];
    [|by rewrite lookup_insert_ne]. rewrite <-E, lookup_insert_eq in *.
  destruct (cc_locks s !! _) as [[|Y]|]; [done| |done]. destruct Ho as (X & -> & HX), Ht. split; [done|]. set_solver.
Qed.

Lemma release_spec tid op s :
  holds s tid op ->
  exists L, release tid op s = set_locks L s /\ forall t o, t <> tid -> holds s t o -> holds (set_locks L s) t o.
Proof.
  intros Hh. unfold release. set (b := bucket_of (cc_tab s) (op_key op)).
  assert (forall L, (forall c, c <> b -> L !! c = cc_locks s !! c) ->
    (forall t o, t <> tid -> bucket_of (cc_tab s) (op_key o) = b -> holds s t o -> holds (set_locks L s) t o) ->
    forall t o, t <> tid -> holds s t o -> holds (set_locks L s) t o) as Hkeep.
  { intros L HL Hb t o Ht Ho. destruct (decide (bucket_of (cc_tab s) (op_key o) = b)); [by apply Hb|].
    unfold holds in *. cbn [cc_locks cc_tab set_locks]. by rewrite HL. }
  unfold holds in Hh. fold b in Hh. destruct (cc_locks s !! b) as [[w|X]|] eqn:Hl; [| |done].
  - eexists. split; [done|]. apply Hkeep; [intros c Hc; by rewrite lookup_delete_ne|].
    intros t o Ht E Ho. unfold holds in *. rewrite E, Hl in Ho. destruct Hh, Ho. congruence.
  - assert (forall t, t <> tid -> t ∈ X -> t ∈ X ∖ {[tid]}) as HX
      by (intros t Ht HtX; apply elem_of_difference; split; [done|by rewrite elem_of_singleton]).
    case_decide as HE; eexists; (split; [done|]); apply Hkeep;
      try (intros c Hc; by rewrite ?lookup_delete_ne, ?lookup_insert_ne);
      intros t o Ht E Ho; unfold holds in *; cbn [cc_locks cc_tab set_locks] in *; rewrite E in *; rewrite Hl in Ho;
      destruct Ho as [Ho HtX].
    + specialize (HX t Ht HtX). rewrite HE in HX. by apply not_elem_of_empty in HX.
    + rewrite lookup_insert_eq. split; [done|by apply HX].
Qed.

Definition is_len (pc : kv_pc) : bool := match pc with PutLen _ _ _ => true | _ => false end.

Lemma pend_goto s s' tid pc pc' j n :
  cc_pcs s !! tid = Some pc -> is_len pc = false -> is_len pc' = false ->
  cc_pcs s' = <[tid := pc']> (cc_pcs s) -> pend s' j n <-> pend s j n.
Proof.
  intros Hpc H1 H2 E. unfold pend. rewrite E. split; intros (t & k & v & Ht & ->); exists t, k, v; split; try done.
  - destruct (decide (t = tid)) as [->|]; [rewrite lookup_insert_eq in Ht; by simplify_eq|].
    by rewrite lookup_insert_ne in Ht.
  - destruct (decide (t = tid)) as [->|]; [by simplify_eq|]. by rewrite lookup_insert_ne.
Qed.

Lemma agree_ext pd pd' es es' :
  (forall j n, pd' j n <-> pd j n) -> agree pd es es' -> agree pd' es es'.
Proof.
  intros H [A1 A2]. split; [intros j Hj; apply A1|intros j n Hj; apply A2; by apply H].
  intros n Hn. by apply (Hj n), H.
Qed.

(** Both sides change an entry that is not pending. *)
Lemma agree_alter pd f i es es' :
  (forall n, ~ pd i n) -> agree pd es es' -> agree pd (alter f i es) (alter f i es').
Proof.
  intros Hi [A1 A2]. split.
  - intros j Hj. destruct (decide (i = j)) as [<-|]; [by rewrite !list_lookup_alter_eq, A1|].
    by rewrite !list_lookup_alter_ne, A1.
  - intros j n Hj. destruct (decide (i = j)) as [<-|]; [by destruct (Hi n)|].
    by rewrite !list_lookup_alter_ne, (A2 j n).
Qed.

(** An entry becomes pending. *)
Lemma agree_store pd pd' f g i n es es' :
  (forall l, ~ pd i l) -> (forall j l, pd' j l <-> pd j l \/ j = i /\ l = n) -> (forall e, f e = set_len n (g e)) ->
  agree pd es es' -> agree pd' (alter f i es) (alter g i es').
Proof.
  intros Hi Hp Hfg [A1 A2]. split.
  - intros j Hj. destruct (decide (i = j)) as [<-|Hne]; [destruct (Hj n); apply Hp; by right|].
    rewrite !list_lookup_alter_ne by done. apply A1. intros l Hl. apply (Hj l), Hp. by left.
  - intros j l [Hj|[-> ->]]%Hp.
    + destruct (decide (i = j)) as [<-|Hne]; [by destruct (Hi l)|]. by rewrite !list_lookup_alter_ne, (A2 j l).
    + rewrite !list_lookup_alter_eq, A1 by done. destruct (es' !! i); [|done]. cbn. by rewrite Hfg.
Qed.

(** The pending length is written. *)
Lemma agree_len pd pd' i n es es' :
  pd i n -> (forall l, pd i l -> l = n) -> (forall j l, pd' j l <-> pd j l /\ j <> i) ->
  agree pd es es' -> agree pd' es (alter (set_len n) i es').
Proof.
  intros Hi Hu Hp [A1 A2]. split.
  - intros j Hj. destruct (decide (i = j)) as [<-|Hne]; [by rewrite list_lookup_alter_eq, (A2 i n)|].
    rewrite list_lookup_alter_ne by done. apply A1. intros l Hl. apply (Hj l), Hp. by split.
  - intros j l [Hj Hne]%Hp. rewrite list_lookup_alter_ne by done. by apply A2.
Qed.

(** The log of a thread grows at the end, by its own steps. *)
Lemma of_thread_app t l1 l2 : of_thread t (l1 ++ l2) = of_thread t l1 ++ of_thread t l2.
Proof. unfold of_thread. by rewrite filter_app, fmap_app. Qed.

Lemma of_thread_one t x : of_thread t [(t, x)] = [x].
Proof. unfold of_thread. rewrite filter_cons_True by done. by rewrite filter_nil. Qed.

Lemma of_thread_other t t' x : t' <> t -> of_thread t' [(t, x)] = [].
Proof. intros Hne. unfold of_thread. rewrite filter_cons_False by (cbn; congruence). by rewrite filter_nil. Qed.

Lemma log_other tid t l l' :
  t <> tid -> (l' = l \/ exists x, l' = l ++ [(tid, x)]) -> of_thread t l' = of_thread t l.
Proof. intros Hne [->|[x ->]]; [done|]. rewrite of_thread_app, of_thread_other by done. apply app_nil_r. Qed.

Section step.
Context {m0 : kv_map} {s : kv_conc} {tv : nos_kv_table} {chains : list (list nat)} {m : kv_map}.
Context (C : core m0 s tv chains m) (P : pcs_ok s chains m).

Lemma means_bucket k : bucket_of tv k = bucket_of (cc_tab s) k.
Proof. unfold bucket_of. by rewrite (me_ks _ _ (co_means _ _ _ _ _ C)), (me_bc _ _ (co_means _ _ _ _ _ C)). Qed.

Lemma means_key e : entry_key tv e = entry_key (cc_tab s) e.
Proof. unfold entry_key. by rewrite (me_ks _ _ (co_means _ _ _ _ _ C)). Qed.

Lemma means_value e : entry_value tv e = entry_value (cc_tab s) e.
Proof. unfold entry_value. by rewrite (me_ks _ _ (co_means _ _ _ _ _ C)). Qed.

Lemma view_not_linked i : i ∈ view_free s -> i ∉ concat chains.
Proof.
  intros Hi Hc. pose proof (kw_nodup (co_wf _ _ _ _ _ C)) as Hnd.
  apply NoDup_app in Hnd as (_ & Hd & _). apply (Hd i Hc). by rewrite (me_free _ _ (co_means _ _ _ _ _ C)).
Qed.

Lemma section_is tid pc : cc_pcs s !! tid = Some pc -> in_section pc = true -> section_pc s = Some pc.
Proof. intros Hpc Hin. unfold section_pc. by rewrite (po_section _ _ _ _ _ (P tid pc Hpc) Hin). Qed.

Lemma filling_not_linked t k v z i : cc_pcs s !! t = Some (PutLink k v z i) -> i ∉ concat chains.
Proof.
  intros Hpc. destruct (po_data _ _ _ _ _ (P t _ Hpc)) as (_ & Hz & _ & Hst & _).
  apply view_not_linked. unfold view_free. rewrite (section_is t _ Hpc eq_refl). unfold free_prefix.
  apply list_elem_of_lookup. exists (Z.to_nat z). by rewrite lookup_take_lt by lia.
Qed.

(** The step of [tid] keeps the invariant when it keeps the tables and leaves
    the other threads alone. *)
Lemma step_inv tid touch pc' s' tv' chains' m' :
  others tid touch s chains m s' chains' m' -> cc_pcs s' = <[tid := pc']> (cc_pcs s) ->
  core m0 s' tv' chains' m' -> pc_ok s' chains' m' tid pc' -> conc_inv m0 s'.
Proof.
  intros O Ep C' Hpc'. exists tv', chains', m'. split; [done|]. intros t pc Ht.
  destruct (decide (t = tid)) as [->|Hne].
  - rewrite Ep, lookup_insert_eq in Ht. by simplify_eq.
  - rewrite Ep, lookup_insert_ne in Ht by done. apply (others_pc_ok O); [done| |by apply P].
    intros k v z i ->. by eapply filling_not_linked.
Qed.

(** Who is between the two writes of a value on the chain of a thread that
    holds its lock is that thread. *)
Lemma pending_mine tid pc op l j t k v :
  cc_pcs s !! tid = Some pc -> pc_op pc = Some op ->
  chains !! bucket_of (cc_tab s) (op_key op) = Some l -> j ∈ l -> cc_pcs s !! t = Some (PutLen k v j) -> t = tid.
Proof.
  intros Hpc Hop Hl Hj Ht.
  pose proof (P t _ Ht) as Hp. destruct (po_op _ _ _ _ _ Hp _ eq_refl) as [_ Hh].
  destruct (po_data _ _ _ _ _ Hp) as (e & ((l' & Hl' & Hj') & _) & _). cbn [op_key] in *.
  pose proof (chain_disjoint (co_wf _ _ _ _ _ C) _ _ _ _ j Hl Hl' Hj Hj') as E.
  destruct (po_op _ _ _ _ _ (P tid pc Hpc) _ Hop) as [_ Hh']. unfold holds in *. cbn [op_key is_read] in *.
  rewrite <-E in Hh. destruct (cc_locks s !! _) as [[w|X]|]; [|destruct Hh; congruence|done].
  destruct Hh as [_ ->], Hh' as [_ ->]. done.
Qed.

(** A thread that holds its lock sees the entries of its chain as they
    are. *)
Lemma not_pending tid pc op l j n :
  cc_pcs s !! tid = Some pc -> pc_op pc = Some op -> is_len pc = false ->
  chains !! bucket_of (cc_tab s) (op_key op) = Some l -> j ∈ l -> ~ pend s j n.
Proof.
  intros Hpc Hop Hlen Hl Hj (t & k & v & Ht & _).
  pose proof (pending_mine tid pc op l j t k v Hpc Hop Hl Hj Ht) as ->. by simplify_eq.
Qed.

Lemma my_entry tid pc op l j :
  cc_pcs s !! tid = Some pc -> pc_op pc = Some op -> is_len pc = false ->
  chains !! bucket_of (cc_tab s) (op_key op) = Some l -> j ∈ l -> kt_entries tv !! j = entry_at s j.
Proof. intros. apply (me_ent _ _ (co_means _ _ _ _ _ C)). intros n. by eapply not_pending. Qed.

(** What the search under the lock finds. *)
Lemma search_spec tid op :
  cc_pcs s !! tid = Some (Locked op) ->
  match m !! op_key op with
  | None => kv_lookup (cc_tab s) (op_key op) = KvRet None
  | Some x => exists l1 i l2 e, chains !! bucket_of (cc_tab s) (op_key op) = Some (l1 ++ i :: l2) /\
      entry_at s i = Some e /\ kt_entries tv !! i = Some e /\ entry_key (cc_tab s) e = op_key op /\
      x = (entry_value (cc_tab s) e, e_subs e) /\
      kv_lookup (cc_tab s) (op_key op) = KvRet (Some (last l1, i, e))
  end.
Proof.
  intros Hpc. destruct (po_op _ _ _ _ _ (P tid _ Hpc) op eq_refl) as [Hok _].
  assert (key_ok tv (op_key op)) as Hk.
  { unfold key_ok. rewrite (me_ks _ _ (co_means _ _ _ _ _ C)). destruct op; cbn in *; naive_solver. }
  destruct (kv_lookup_spec (co_wf _ _ _ _ _ C) (op_key op) Hk) as (b & bk & l & -> & Hbk & Hl & Hseg & Hlk).
  rewrite means_bucket in *.
  assert (forall j, j ∈ l -> entry_at s j = kt_entries tv !! j) as Ha
    by (intros j Hj; symmetry; by eapply (my_entry tid)).
  assert (kv_lookup (cc_tab s) (op_key op) = kv_lookup tv (op_key op)) as ->.
  { unfold kv_lookup. rewrite means_bucket, <-(me_buckets _ _ (co_means _ _ _ _ _ C)), Hbk.
    rewrite <-(me_cap _ _ (co_means _ _ _ _ _ C)).
    apply (kv_find_agree tv (cc_tab s) _ l); [symmetry; apply C|done..|].
    pose proof (chain_length (co_wf _ _ _ _ _ C) _ _ Hl). lia. }
  destruct (m !! op_key op) as [x|]; [|done].
  destruct Hlk as (l1 & i & l2 & e & -> & He & Hke & -> & Hlk). exists l1, i, l2, e.
  rewrite <-(Ha i) in He by (apply elem_of_app; right; by left).
  rewrite means_key in Hke. rewrite means_value. split_and!; try done.
  by rewrite <-(Ha i) by (apply elem_of_app; right; by left).
Qed.

(** Steps that leave the table and its meaning alone. *)
Lemma silent_inv tid pc pc' s' :
  cc_pcs s !! tid = Some pc -> is_len pc = false -> is_len pc' = false ->
  cc_tab s' = cc_tab s -> cc_pcs s' = <[tid := pc']> (cc_pcs s) ->
  (forall t op, t <> tid -> holds s t op -> holds s' t op) ->
  (forall t, t <> tid -> cc_section s = Some t ->
     cc_section s' = Some t /\ cc_stack s' = cc_stack s /\ cc_top s' = cc_top s /\ cc_used s' = cc_used s) ->
  view_free s' = view_free s -> view_used s' = view_used s -> length (cc_stack s') = length (cc_stack s) ->
  (-1 <= cc_top s' < Z.of_nat (kt_capacity (cc_tab s)))%Z ->
  map_run (kt_capacity (cc_tab s)) m0 (cc_hist s').*2.*1 = (m, (cc_hist s').*2.*2) ->
  (forall t, t <> tid -> of_thread t (cc_hist s') = of_thread t (cc_hist s) /\
     of_thread t (cc_rets s') = of_thread t (cc_rets s)) ->
  (forall t, cc_section s' = Some t -> exists q, cc_pcs s' !! t = Some q /\ in_section q = true) ->
  pc_ok s' chains m tid pc' -> conc_inv m0 s'.
Proof.
  intros Hpc Hl Hl' Et Ep Hlk Hsec Ef Eu Est Htop Hhist Hlog Hs' Hok.
  apply (step_inv tid None pc' s' tv chains m); [|done| |done].
  - split; rewrite ?Et; try done.
    + intros t Ht. by rewrite Ep, lookup_insert_ne.
    + intros b l i _ _ _. unfold entry_at. by rewrite Et.
    + intros t Ht E. destruct (Hsec t Ht E) as (? & ? & ? & ?). split_and!; try done.
      intros i _. unfold entry_at. by rewrite Et.
  - destruct C as [Cw [] Cs Ct Ch Cs']. split; rewrite ?Et; try done; [|congruence].
    split; rewrite ?Et; try done; [|congruence..]. destruct me_ent0 as [A1 A2].
    split; [intros j Hj; apply A1|intros j n Hj; apply A2]; try intros n;
      rewrite <-(pend_goto s s' tid pc pc') by done; auto.
Qed.

Lemma view_elsewhere tid pc' s' :
  cc_section s <> Some tid -> cc_section s' = cc_section s -> cc_stack s' = cc_stack s ->
  cc_top s' = cc_top s -> cc_used s' = cc_used s -> cc_pcs s' = <[tid := pc']> (cc_pcs s) ->
  view_free s' = view_free s /\ view_used s' = view_used s.
Proof.
  intros Hne Es Est Et Eu Ep. assert (section_pc s' = section_pc s) as E.
  { unfold section_pc. rewrite Es, Ep. destruct (cc_section s) as [t|]; [|done]. cbn.
    rewrite lookup_insert_ne; [done|]. congruence. }
  unfold view_free, view_used, free_prefix. by rewrite E, Est, Et, Eu.
Qed.

Lemma not_in_section tid pc : cc_pcs s !! tid = Some pc -> in_section pc = false -> cc_section s <> Some tid.
Proof.
  intros Hpc Hin E. destruct (co_section _ _ _ _ _ C tid E) as (q & Hq & Hi). congruence.
Qed.

Lemma hist_shape {tid cap h} :
  (h = cc_hist s \/ exists op o, h = cc_hist s ++ [(tid, (op, o))] /\ map_step cap m op = (m, o)) ->
  h = cc_hist s \/ exists x, h = cc_hist s ++ [(tid, x)].
Proof. intros [->|(op & o & -> & _)]; [by left|]. right. by eexists. Qed.

Lemma hist_step tid h :
  (h = cc_hist s \/ exists op o, h = cc_hist s ++ [(tid, (op, o))] /\
     map_step (kt_capacity (cc_tab s)) m op = (m, o)) ->
  map_run (kt_capacity (cc_tab s)) m0 h.*2.*1 = (m, h.*2.*2).
Proof.
  intros [->|(op & o & -> & Hs)]; [apply C|]. rewrite !fmap_app, map_run_app, (co_hist _ _ _ _ _ C).
  cbn. by rewrite Hs.
Qed.

(** Steps outside the section that only move the thread, perhaps with an
    operation that changes nothing. *)
Lemma plain_inv tid pc pc' s' :
  cc_pcs s !! tid = Some pc -> is_len pc = false -> is_len pc' = false ->
  in_section pc = false -> in_section pc' = false ->
  cc_tab s' = cc_tab s -> cc_stack s' = cc_stack s -> cc_top s' = cc_top s -> cc_used s' = cc_used s ->
  cc_section s' = cc_section s -> cc_pcs s' = <[tid := pc']> (cc_pcs s) ->
  (forall t op, t <> tid -> holds s t op -> holds s' t op) ->
  (cc_hist s' = cc_hist s \/ exists op o, cc_hist s' = cc_hist s ++ [(tid, (op, o))] /\
     map_step (kt_capacity (cc_tab s)) m op = (m, o)) ->
  (cc_rets s' = cc_rets s \/ exists x, cc_rets s' = cc_rets s ++ [(tid, x)]) ->
  pc_ok s' chains m tid pc' -> conc_inv m0 s'.
Proof.
  intros Hpc Hl Hl' Hi Hi' Et Est Etop Eu Es Ep Hlk Hh Hr Hok.
  pose proof (not_in_section tid pc Hpc Hi) as Hns.
  destruct (view_elsewhere tid pc' s' Hns Es Est Etop Eu Ep) as [Ef Eus].
  apply (silent_inv tid pc pc' s'); try done.
  - intros t _ E. by rewrite Es.
  - by rewrite Est.
  - rewrite Etop. apply C.
  - by apply (hist_step tid).
  - intros t Ht. split; [by apply (log_other tid), (hist_shape Hh)|by apply (log_other tid)].
  - intros t E. rewrite Es in E. destruct (co_section _ _ _ _ _ C t E) as (q & Hq & Hin). exists q.
    split; [|done]. rewrite Ep, lookup_insert_ne; [done|]. congruence.
Qed.

(** Steps inside the section that leave the table alone. *)
Lemma section_inv tid pc pc' s' :
  cc_pcs s !! tid = Some pc -> is_len pc = false -> is_len pc' = false -> in_section pc = true ->
  cc_tab s' = cc_tab s -> cc_locks s' = cc_locks s -> cc_pcs s' = <[tid := pc']> (cc_pcs s) ->
  cc_section s' = (if in_section pc' then Some tid else None) ->
  view_free s' = view_free s -> view_used s' = view_used s -> length (cc_stack s') = length (cc_stack s) ->
  (-1 <= cc_top s' < Z.of_nat (kt_capacity (cc_tab s)))%Z ->
  (cc_hist s' = cc_hist s \/ exists op o, cc_hist s' = cc_hist s ++ [(tid, (op, o))] /\
     map_step (kt_capacity (cc_tab s)) m op = (m, o)) ->
  cc_rets s' = cc_rets s -> pc_ok s' chains m tid pc' -> conc_inv m0 s'.
Proof.
  intros Hpc Hl Hl' Hi Et Elk Ep Es Ef Eu Est Htop Hh Er Hok.
  pose proof (po_section _ _ _ _ _ (P tid pc Hpc) Hi) as Hsec.
  apply (silent_inv tid pc pc' s'); try done.
  - intros t op _. unfold holds. by rewrite Et, Elk.
  - intros t Ht E. congruence.
  - by apply (hist_step tid).
  - intros t Ht. split; [by apply (log_other tid), (hist_shape Hh)|by rewrite Er].
  - intros t E. rewrite Es in E. destruct (in_section pc') eqn:E'; [|done]. simplify_eq.
    exists pc'. by rewrite Ep, lookup_insert_eq.
Qed.

Lemma my_lock tid pc op :
  cc_pcs s !! tid = Some pc -> pc_op pc = Some op -> is_read op = false ->
  cc_locks s !! bucket_of (cc_tab s) (op_key op) = Some (WLock tid).
Proof.
  intros Hpc Hop Hr. destruct (po_op _ _ _ _ _ (P tid pc Hpc) op Hop) as [_ Hh]. unfold holds in Hh.
  destruct (cc_locks s !! _) as [[w|X]|]; [|destruct Hh; congruence|done]. by destruct Hh as [_ ->].
Qed.

(** Steps that change the chain of the bucket whose write lock the thread
    has, or the entry its section is filling. *)
Lemma touch_inv tid pc pc' op f s' tv' chains' m' :
  cc_pcs s !! tid = Some pc -> pc_op pc = Some op -> is_read op = false ->
  in_section pc' = in_section pc ->
  cc_tab s' = f (cc_tab s) ->
  (forall t, kt_name (f t) = kt_name t /\ kt_key_size (f t) = kt_key_size t /\ kt_max_val (f t) = kt_max_val t /\
     kt_entry_size (f t) = kt_entry_size t /\ kt_capacity (f t) = kt_capacity t /\
     kt_bucket_count (f t) = kt_bucket_count t) ->
  cc_stack s' = cc_stack s -> cc_top s' = cc_top s -> cc_used s' = cc_used s -> cc_locks s' = cc_locks s ->
  cc_section s' = cc_section s -> cc_rets s' = cc_rets s -> cc_pcs s' = <[tid := pc']> (cc_pcs s) ->
  (cc_hist s' = cc_hist s /\ m' = m \/ exists o, cc_hist s' = cc_hist s ++ [(tid, (op, o))] /\
     map_step (kt_capacity (cc_tab s)) m op = (m', o)) ->
  (forall b, b <> bucket_of (cc_tab s) (op_key op) -> chains' !! b = chains !! b) ->
  (forall b l i, b <> bucket_of (cc_tab s) (op_key op) -> chains !! b = Some l -> i ∈ l -> entry_at s' i = entry_at s i) ->
  (forall k, k <> op_key op -> m' !! k = m !! k) ->
  (in_section pc = false -> forall i, i ∉ concat chains -> entry_at s' i = entry_at s i) ->
  kv_wf tv' chains' m' -> means s' tv' -> pc_ok s' chains' m' tid pc' -> conc_inv m0 s'.
Proof.
  intros Hpc Hop Hrd Hin Et Hf Est Etop Eu Elk Es Er Ep Hh Hch Hent Hm Hfree Hw Hme Hok.
  destruct (Hf (cc_tab s)) as (F1 & F2 & F3 & F4 & F5 & F6). rewrite <-Et in F1, F2, F3, F4, F5, F6.
  apply (step_inv tid (Some (bucket_of (cc_tab s) (op_key op))) pc' s' tv' chains' m'); try done.
  - split; try done.
    + intros t Ht. by rewrite Ep, lookup_insert_ne.
    + intros t o _. unfold holds, bucket_of. by rewrite F2, F6, Elk.
    + intros b [= <-]. by eapply my_lock.
    + intros b Hb. apply Hch. congruence.
    + intros b l i Hb. apply Hent. congruence.
    + intros k Hk. apply Hm. intros ->. by apply Hk.
    + intros t Ht E. rewrite Es, Est, Etop, Eu. split_and!; [done..|]. apply Hfree.
      destruct (in_section pc) eqn:Hi; [|done].
      pose proof (po_section _ _ _ _ _ (P tid pc Hpc) Hi). congruence.
    + intros t Ht. rewrite Er. split; [|done]. apply (log_other tid); [done|].
      destruct Hh as [[-> _]|(o & -> & _)]; [by left|]. right. by eexists.
  - split; rewrite ?F5, ?Est, ?Etop, ?Es; try done; [apply C..| |].
    + destruct Hh as [[-> ->]|(o & -> & Hs)]; [apply C|].
      rewrite !fmap_app, map_run_app, (co_hist _ _ _ _ _ C). cbn. by rewrite Hs.
    + intros t E. destruct (co_section _ _ _ _ _ C t E) as (q & Hq & Hi). rewrite Ep.
      destruct (decide (t = tid)) as [->|]; [|by exists q; rewrite lookup_insert_ne].
      exists pc'. rewrite lookup_insert_eq. split; [done|]. rewrite Hin. congruence.
Qed.

Lemma op_of tid pc op :
  cc_pcs s !! tid = Some pc -> pc_op pc = Some op ->
  op_ok (kt_key_size (cc_tab s)) (kt_max_val (cc_tab s)) op /\ holds s tid op.
Proof. intros Hpc. apply (po_op _ _ _ _ _ (P tid pc Hpc)). Qed.

Lemma fresh_of tid pc : cc_pcs s !! tid = Some pc -> before pc = true -> fresh s tid.
Proof. intros Hpc. apply (po_fresh _ _ _ _ _ (P tid pc Hpc)). Qed.

(** An operation that takes effect now is the thread's last. *)
Lemma fresh_logs tid op o s' :
  fresh s tid -> cc_hist s' = cc_hist s ++ [(tid, (op, o))] -> cc_rets s' = cc_rets s -> logged s' tid op o.
Proof. intros Hf Eh Er. unfold logged. rewrite Eh, Er, of_thread_app, of_thread_one. by f_equal. Qed.

Lemma call_inv tid op :
  cc_pcs s !! tid = Some Idle -> op_ok (kt_key_size (cc_tab s)) (kt_max_val (cc_tab s)) op ->
  conc_inv m0 (goto tid (Start op) s).
Proof.
  intros Hpc Hop. apply (plain_inv tid Idle (Start op)); try done; [by left..|].
  split; try done. intros _. exact (fresh_of tid _ Hpc eq_refl).
Qed.

Lemma start_inv tid op s' :
  cc_pcs s !! tid = Some (Start op) -> goto tid (Locked op) <$> acquire tid op s = Some s' -> conc_inv m0 s'.
Proof.
  intros Hpc H. apply fmap_Some in H as (s1 & Ha & ->). destruct (acquire_spec _ _ _ _ Ha) as (L & -> & Hh & Ho).
  apply (plain_inv tid (Start op) (Locked op)); try done; [intros t o _; apply Ho|by left..|].
  pose proof (P tid _ Hpc) as [_ _ Hf Hd]. split; try done. intros o [= <-]. by split.
Qed.

Lemma unlock_inv tid op o :
  cc_pcs s !! tid = Some (Unlock op o) -> conc_inv m0 (log_ret tid op o (goto tid Idle (release tid op s))).
Proof.
  intros Hpc. destruct (release_spec tid op s) as (L & -> & Ho); [by apply (op_of tid _ op Hpc)|].
  apply (plain_inv tid (Unlock op o) Idle); try done; [by left|right; by eexists|].
  pose proof (po_data _ _ _ _ _ (P tid _ Hpc)) as Hd. split; try done. intros _. cbn in Hd. unfold logged in Hd.
  change (of_thread tid (cc_hist s) = of_thread tid (cc_rets s ++ [(tid, (op, o))])).
  by rewrite Hd, of_thread_app, of_thread_one.
Qed.

(** A step to a point before the operation takes effect. *)
Lemma move_inv tid pc pc' :
  cc_pcs s !! tid = Some pc -> is_len pc = false -> is_len pc' = false -> in_section pc = false ->
  in_section pc' = false -> before pc = true -> pc_op pc' = pc_op pc -> pc_data s chains m tid pc' ->
  conc_inv m0 (goto tid pc' s).
Proof.
  intros Hpc Hl Hl' Hi Hi' Hb Hop Hd. apply (plain_inv tid pc pc'); try done; [by left..|].
  split; [|congruence| |done].
  - intros o E. rewrite Hop in E. exact (op_of tid pc o Hpc E).
  - intros _. exact (fresh_of tid pc Hpc Hb).
Qed.

(** A step that ends the operation and leaves the map alone. *)
Lemma finish_inv tid pc op o :
  cc_pcs s !! tid = Some pc -> is_len pc = false -> in_section pc = false -> before pc = true ->
  pc_op pc = Some op -> map_step (kt_capacity (cc_tab s)) m op = (m, o) ->
  conc_inv m0 (finish tid op o s).
Proof.
  intros Hpc Hl Hi Hb Hop Hs. apply (plain_inv tid pc (Unlock op o)); try done; [right; by eexists _, _|by left|].
  split; try done.
  - intros o' [= <-]. exact (op_of tid pc op Hpc Hop).
  - by eapply fresh_logs; [exact (fresh_of tid pc Hpc Hb)|done..].
Qed.

(** Entering the section: nobody is in it. *)
Lemma enter_inv tid pc pc' s' :
  cc_pcs s !! tid = Some pc -> is_len pc = false -> is_len pc' = false -> before pc = true -> before pc' = true ->
  pc_op pc' = pc_op pc -> enter true tid pc' s = Some s' ->
  match pc' with PutTest _ _ | DelUnlink _ _ _ => True | _ => False end ->
  pc_data (goto tid pc' (set_section (Some tid) s)) chains m tid pc' ->
  conc_inv m0 s'.
Proof.
  intros Hpc Hl Hl' Hb Hb' Hop He Hi Hd. unfold enter in He. cbn [andb] in He.
  case_bool_decide as Hn; [done|]. simplify_eq.
  assert (section_pc s = None) as Hsp by (unfold section_pc; by rewrite Hn).
  assert (section_pc (goto tid pc' (set_section (Some tid) s)) = Some pc') as Hsp' by apply lookup_insert_eq.
  assert (in_section pc' = true) as Hin by by destruct pc'.
  apply (silent_inv tid pc pc'); try done.
  - intros t Ht E. congruence.
  - unfold view_free. rewrite Hsp, Hsp'. by destruct pc'.
  - unfold view_used. rewrite Hsp, Hsp'. by destruct pc'.
  - apply C.
  - apply C.
  - intros t [= <-]. exists pc'. split; [apply lookup_insert_eq|done].
  - split; [|done| |done].
    + intros o E. rewrite Hop in E. exact (op_of tid pc o Hpc E).
    + intros _. exact (fresh_of tid pc Hpc Hb).
Qed.

Lemma in_split_mid (l1 l2 : list nat) i : i ∈ l1 ++ i :: l2.
Proof. apply elem_of_app. right. by left. Qed.

(** The part of [means] that a change of one entry keeps. *)
Lemma means_entries tid pc pc' g es s' :
  cc_pcs s !! tid = Some pc -> in_section pc = false ->
  cc_tab s' = set_entries g (cc_tab s) -> cc_section s' = cc_section s -> cc_stack s' = cc_stack s ->
  cc_top s' = cc_top s -> cc_used s' = cc_used s -> cc_pcs s' = <[tid := pc']> (cc_pcs s) ->
  agree (pend s') es g -> means s' (set_entries es tv).
Proof.
  intros Hpc Hi Et Es Est Etop Eu Ep Ha.
  destruct (view_elsewhere tid pc' s' (not_in_section tid pc Hpc Hi) Es Est Etop Eu Ep) as [Ef Eus].
  destruct (co_means _ _ _ _ _ C). split; rewrite ?Et, ?Ef, ?Eus; done.
Qed.

(** A step that changes the value or the subscriptions of an entry: [g] in
    memory, [f] in what it means. *)
Lemma value_inv tid pc pc' op o l i e f g :
  cc_pcs s !! tid = Some pc -> pc_op pc = Some op -> pc_op pc' = Some op -> is_read op = false ->
  is_len pc = false -> in_section pc = false -> in_section pc' = false -> before pc = true -> before pc' = false ->
  chains !! bucket_of (cc_tab s) (op_key op) = Some l -> i ∈ l -> entry_at s i = Some e ->
  entry_key (cc_tab s) e = op_key op -> e_next (f e) = e_next e -> entry_key (cc_tab s) (f e) = entry_key (cc_tab s) e ->
  length (e_data (f e)) = length (e_data e) -> e_val_len (f e) <= kt_max_val (cc_tab s) ->
  let s' := goto tid pc' (log_op tid op o (upd_entry i g s)) in
  let m' := <[op_key op := (entry_value (cc_tab s) (f e), e_subs (f e))]> m in
  map_step (kt_capacity (cc_tab s)) m op = (m', o) ->
  agree (pend s') (alter f i (kt_entries tv)) (alter g i (kt_entries (cc_tab s))) ->
  (logged s' tid op o -> pc_data s' chains m' tid pc') -> conc_inv m0 s'.
Proof.
  intros Hpc Hop Hop' Hr Hl Hi Hi' Hb Hb' Hc Hil He Hk F1 F2 F3 F4 s' m' Hs Ha Hd.
  pose proof (my_entry tid pc op l i Hpc Hop Hl Hc Hil) as Hv. rewrite He in Hv.
  pose proof (kv_wf_update tv chains m i e (f e) (co_wf _ _ _ _ _ C) (chain_in (co_wf _ _ _ _ _ C) _ _ _ Hc Hil) Hv F1)
    as Hw. rewrite !means_key, means_value, Hk, (me_mv _ _ (co_means _ _ _ _ _ C)) in Hw. rewrite Hk in F2.
  specialize (Hw F2 F3 F4). rewrite <-(alter_lookup_insert f i _ e Hv) in Hw.
  apply (touch_inv tid pc pc' op (fun t => set_entries (alter g i (kt_entries t)) t) s'
    (set_entries (alter f i (kt_entries tv)) tv) chains m'); try done.
  - by rewrite Hi.
  - right. by exists o.
  - intros b k j Hne Hb1 Hj. unfold entry_at. cbn. rewrite list_lookup_alter_ne; [done|]. intros ->.
    apply Hne. exact (chain_disjoint (co_wf _ _ _ _ _ C) _ _ _ _ j Hb1 Hc Hj Hil).
  - intros k Hne. by apply lookup_insert_ne.
  - intros _ j Hj. unfold entry_at. cbn. rewrite list_lookup_alter_ne; [done|]. intros ->.
    apply Hj. exact (chain_in (co_wf _ _ _ _ _ C) _ _ _ Hc Hil).
  - by eapply means_entries.
  - split; [|congruence|congruence|].
    + intros o' E. rewrite Hop' in E. simplify_eq. exact (op_of tid pc _ Hpc Hop).
    + apply Hd. by eapply fresh_logs; [exact (fresh_of tid pc Hpc Hb)|..].
Qed.

Lemma linked_map tid pc op l i e :
  cc_pcs s !! tid = Some pc -> pc_op pc = Some op -> is_len pc = false ->
  chains !! bucket_of (cc_tab s) (op_key op) = Some l -> i ∈ l -> entry_at s i = Some e ->
  entry_key (cc_tab s) e = op_key op -> m !! op_key op = Some (entry_value (cc_tab s) e, e_subs e).
Proof.
  intros Hpc Hop Hl Hc Hi He Hk. apply (kw_map _ _ _ (co_wf _ _ _ _ _ C)). exists i, e.
  rewrite (my_entry tid pc op l i Hpc Hop Hl Hc Hi), means_key, means_value. split_and!; try done.
  exact (chain_in (co_wf _ _ _ _ _ C) _ _ _ Hc Hi).
Qed.

(** The thread's entry changes in its subscriptions. *)
Lemma subs_inv tid op l i e subs :
  cc_pcs s !! tid = Some (Locked op) -> is_read op = false ->
  chains !! bucket_of (cc_tab s) (op_key op) = Some l -> i ∈ l -> entry_at s i = Some e ->
  entry_key (cc_tab s) e = op_key op ->
  map_step (kt_capacity (cc_tab s)) m op = (<[op_key op := (entry_value (cc_tab s) e, subs (e_subs e))]> m, KvOut NOS_OK None []) ->
  conc_inv m0 (finish tid op (KvOut NOS_OK None []) (upd_entry i (fun e => set_subs (subs (e_subs e)) e) s)).
Proof.
  intros Hpc Hr Hc Hi He Hk Hs.
  pose proof (my_entry tid _ op l i Hpc eq_refl eq_refl Hc Hi) as Hv. rewrite He in Hv.
  apply (value_inv tid (Locked op) (Unlock op (KvOut NOS_OK None [])) op (KvOut NOS_OK None []) l i e
    (fun e => set_subs (subs (e_subs e)) e)); try done.
  - cbn. rewrite <-(me_mv _ _ (co_means _ _ _ _ _ C)). by eapply (kw_data _ _ _ (co_wf _ _ _ _ _ C)).
  - apply (agree_ext (pend s)); [intros j n; by apply (pend_goto s _ tid (Locked op) (Unlock op (KvOut NOS_OK None [])))|]. apply agree_alter; [|apply C].
    intros n. by eapply (not_pending tid).
Qed.

(** The search finds the key, or does not. *)
Lemma search_none_inv tid op s' :
  cc_pcs s !! tid = Some (Locked op) -> m !! op_key op = None -> search true tid op s = Some s' -> conc_inv m0 s'.
Proof.
  intros Hpc Hm H. pose proof (search_spec tid op Hpc) as Hs. rewrite Hm in Hs.
  unfold search in H. rewrite Hs in H. destruct op as [k v|k n|k|k f a|k f a]; cbn [op_key] in *.
  - by eapply (enter_inv tid _ (PutTest k v)).
  - simplify_eq. eapply (finish_inv tid _); try done. cbn. by rewrite Hm.
  - simplify_eq. eapply (finish_inv tid _); try done. cbn. by rewrite Hm.
  - simplify_eq. eapply (finish_inv tid _); try done. cbn. by rewrite Hm.
  - simplify_eq. eapply (finish_inv tid _); try done. cbn. by rewrite Hm.
Qed.

Lemma search_some_inv tid op x s' :
  cc_pcs s !! tid = Some (Locked op) -> m !! op_key op = Some x -> search true tid op s = Some s' -> conc_inv m0 s'.
Proof.
  intros Hpc Hm H. pose proof (search_spec tid op Hpc) as Hs. rewrite Hm in Hs.
  destruct Hs as (l1 & i & l2 & e & Hc & He & Hv & Hk & -> & Hs).
  pose proof (in_split_mid l1 l2 i) as Hi. assert (linked s chains (op_key op) i e) as Hlk by (split; eauto).
  unfold search in H. rewrite Hs in H. destruct op as [k v|k n|k|k f a|k f a]; cbn [op_key] in *.
  - simplify_eq. eapply (move_inv tid); try done. by exists e.
  - simplify_eq. eapply (move_inv tid); try done. by exists e.
  - eapply (enter_inv tid _ (DelUnlink k (last l1) i)); try done. by exists l1, l2, e.
  - case_bool_decide as Hin; injection H as <-.
    + eapply (finish_inv tid); try done. cbn. rewrite Hm, bool_decide_true by done. by rewrite insert_id.
    + eapply (subs_inv tid (KSub k f a) _ i e (fun subs => (f, a) :: subs)); try done. cbn. by rewrite Hm, bool_decide_false.
  - case_bool_decide as Hin; injection H as <-.
    + eapply (subs_inv tid (KUnsub k f a) _ i e (remove_first (f, a))); try done. cbn. by rewrite Hm, bool_decide_true.
    + eapply (finish_inv tid); try done. cbn. by rewrite Hm, bool_decide_false.
Qed.

Lemma store_inv tid k v i e :
  cc_pcs s !! tid = Some (PutStore k v i) -> entry_at s i = Some e ->
  conc_inv m0 (goto tid (PutLen k v i) (log_op tid (KPut k v) (KvOut NOS_OK None (e_subs e))
    (upd_entry i (fun e => set_data (bytes_put (kt_key_size (cc_tab s)) v (e_data e)) e) s))).
Proof.
  intros Hpc He. destruct (po_data _ _ _ _ _ (P tid _ Hpc)) as (e' & (l & Hl & Hi) & He' & Hk).
  rewrite He in He'. injection He' as <-.
  destruct (op_of tid _ (KPut k v) Hpc eq_refl) as [[_ Hv] _].
  pose proof (my_entry tid _ (KPut k v) l i Hpc eq_refl eq_refl Hl Hi) as Htv. rewrite He in Htv.
  destruct (kw_data _ _ _ (co_wf _ _ _ _ _ C) i e Htv) as [Hd _].
  rewrite (me_ks _ _ (co_means _ _ _ _ _ C)), (me_mv _ _ (co_means _ _ _ _ _ C)) in Hd.
  destruct (store_value_facts (cc_tab s) v (length v) e Hd eq_refl Hv) as (F1 & F2 & F3).
  pose proof (linked_map tid _ (KPut k v) l i e Hpc eq_refl eq_refl Hl Hi He Hk) as Hm. cbn [op_key] in Hm.
  apply (value_inv tid (PutStore k v i) (PutLen k v i) (KPut k v) (KvOut NOS_OK None (e_subs e)) l i e
    (store_value (cc_tab s) (Some v) (length v))); try done.
  - cbn [map_step op_key]. by rewrite Hm, F3.
  - apply (agree_store (pend s) _ _ _ i (length v)); [| | |apply C].
    + intros n. by eapply (not_pending tid).
    + intros j n. split.
      * intros (t & k' & v' & Ht & ->). cbn in Ht. destruct (decide (t = tid)) as [->|Hne].
        -- rewrite lookup_insert_eq in Ht. simplify_eq. by right.
        -- rewrite lookup_insert_ne in Ht by done. left. by exists t, k', v'.
      * intros [(t & k' & v' & Ht & ->)|[-> ->]].
        -- exists t, k', v'. split; [|done]. cbn. rewrite lookup_insert_ne; [done|]. intros ->. congruence.
        -- exists tid, k, v. split; [apply lookup_insert_eq|done].
    + intros x. unfold store_value, set_len, set_data. cbn. by rewrite firstn_all.
  - intros Hlog. exists (set_data (bytes_put (kt_key_size (cc_tab s)) v (e_data e)) e). split; [|done]. split_and!.
    + by exists l.
    + unfold entry_at. cbn. rewrite list_lookup_alter_eq. unfold entry_at in He. by rewrite He.
    + rewrite <-F2 in Hk. rewrite <-Hk. unfold entry_key, store_value. cbn. by rewrite firstn_all.
Qed.

Lemma len_inv tid k v i e :
  cc_pcs s !! tid = Some (PutLen k v i) -> entry_at s i = Some e ->
  conc_inv m0 (goto tid (Unlock (KPut k v) (KvOut NOS_OK None (e_subs e))) (upd_entry i (set_len (length v)) s)).
Proof.
  intros Hpc He. destruct (po_data _ _ _ _ _ (P tid _ Hpc)) as (e' & ((l & Hl & Hi) & He' & Hk) & Hlog).
  rewrite He in He'. injection He' as <-.
  assert (forall t k' v', cc_pcs s !! t = Some (PutLen k' v' i) -> t = tid) as Hmine
    by (intros t k' v'; by eapply (pending_mine tid _ (KPut k v))).
  apply (touch_inv tid (PutLen k v i) (Unlock (KPut k v) (KvOut NOS_OK None (e_subs e))) (KPut k v)
    (fun t => set_entries (alter (set_len (length v)) i (kt_entries t)) t) _ tv chains m); try done.
  - by left.
  - intros b l' j Hne Hb Hj. unfold entry_at. cbn. rewrite list_lookup_alter_ne; [done|]. intros ->.
    apply Hne. exact (chain_disjoint (co_wf _ _ _ _ _ C) _ _ _ _ j Hb Hl Hj Hi).
  - intros _ j Hj. unfold entry_at. cbn. rewrite list_lookup_alter_ne; [done|]. intros ->.
    apply Hj. exact (chain_in (co_wf _ _ _ _ _ C) _ _ _ Hl Hi).
  - apply C.
  - assert (set_entries (kt_entries tv) tv = tv) as E by by destruct tv. rewrite <-E.
    apply (means_entries tid _ (Unlock (KPut k v) (KvOut NOS_OK None (e_subs e)))
      (alter (set_len (length v)) i (kt_entries (cc_tab s))) (kt_entries tv) _ Hpc eq_refl); try done.
    apply (agree_len (pend s) _ i (length v)); [by exists tid, k, v| | |apply C].
    + intros n (t & k' & v' & Ht & ->). pose proof (Hmine _ _ _ Ht) as ->. by simplify_eq.
    + intros j n. split.
      * intros (t & k' & v' & Ht & ->). cbn in Ht. destruct (decide (t = tid)) as [->|Hne];
          [by rewrite lookup_insert_eq in Ht|rewrite lookup_insert_ne in Ht by done].
        split; [by exists t, k', v'|]. intros ->. by apply Hne, (Hmine t k' v').
      * intros [(t & k' & v' & Ht & ->) Hj]. exists t, k', v'. split; [|done]. cbn.
        rewrite lookup_insert_ne; [done|]. intros ->. congruence.
  - split; try done. intros o [= <-]. exact (op_of tid _ _ Hpc eq_refl).
Qed.

(** The readers. *)
Lemma get_len_inv tid k n i e :
  cc_pcs s !! tid = Some (GetLen k n i) -> entry_at s i = Some e ->
  conc_inv m0 (goto tid (GetCopy k n i (e_val_len e)) s).
Proof.
  intros Hpc He. destruct (po_data _ _ _ _ _ (P tid _ Hpc)) as (e' & Hl & He' & Hk).
  rewrite He in He'. injection He' as <-. eapply (move_inv tid); try done. exists e. by split.
Qed.

Lemma get_copy_inv tid k n i len e :
  cc_pcs s !! tid = Some (GetCopy k n i len) -> entry_at s i = Some e ->
  let copy_len := if n <? len then n else len in
  conc_inv m0 (finish tid (KGet k n) (KvOut NOS_OK
    (Some (take copy_len (drop (kt_key_size (cc_tab s)) (e_data e)), len)) []) s).
Proof.
  intros Hpc He copy_len. destruct (po_data _ _ _ _ _ (P tid _ Hpc)) as (e' & ((l & Hl & Hi) & He' & Hk) & Hlen).
  rewrite He in He'. injection He' as <-. subst len.
  pose proof (linked_map tid _ (KGet k n) l i e Hpc eq_refl eq_refl Hl Hi He Hk) as Hm. cbn [op_key] in Hm.
  pose proof (my_entry tid _ (KGet k n) l i Hpc eq_refl eq_refl Hl Hi) as Htv. rewrite He in Htv.
  destruct (kw_data _ _ _ (co_wf _ _ _ _ _ C) i e Htv) as [Hd Hvl].
  rewrite (me_ks _ _ (co_means _ _ _ _ _ C)) in Hd.
  eapply (finish_inv tid); try done. cbn [map_step]. rewrite Hm. unfold entry_value. subst copy_len. do 4 f_equal.
  - rewrite take_take. do 2 f_equal. destruct (Nat.ltb_spec n (e_val_len e)); lia.
  - rewrite length_take, length_drop. lia.
Qed.

(** Steps within the section that leave the table alone: what the free stack
    and the count mean stays. *)
Lemma sec_move tid pc pc' s' :
  cc_pcs s !! tid = Some pc -> in_section pc = true -> in_section pc' = true -> pc_op pc' = pc_op pc ->
  before pc' = before pc -> cc_tab s' = cc_tab s -> cc_locks s' = cc_locks s -> cc_section s' = cc_section s ->
  cc_hist s' = cc_hist s -> cc_rets s' = cc_rets s -> cc_pcs s' = <[tid := pc']> (cc_pcs s) ->
  (section_pc s = Some pc -> section_pc s' = Some pc' -> view_free s' = view_free s /\ view_used s' = view_used s) ->
  length (cc_stack s') = length (cc_stack s) ->
  (-1 <= cc_top s' < Z.of_nat (kt_capacity (cc_tab s)))%Z -> pc_data s' chains m tid pc' -> conc_inv m0 s'.
Proof.
  intros Hpc Hi Hi' Hop Hb Et Elk Es Eh Er Ep Hv Hst Htop Hd.
  pose proof (po_section _ _ _ _ _ (P tid pc Hpc) Hi) as Hs.
  assert (section_pc s' = Some pc') as Hsp by (unfold section_pc; rewrite Es, Hs, Ep; apply lookup_insert_eq).
  destruct (Hv (section_is tid pc Hpc Hi) Hsp) as [Ef Eu].
  apply (section_inv tid pc pc' s'); try done; [by destruct pc|by destruct pc'|by rewrite Hi', Es, Hs|by left|].
  split; [| | |done].
  - intros o E. rewrite Hop in E. unfold holds. rewrite Et, Elk. exact (op_of tid pc o Hpc E).
  - intros _. by rewrite Es.
  - intros E. unfold fresh. rewrite Eh, Er. apply (fresh_of tid pc Hpc). by rewrite <-Hb.
Qed.

(** Leaving it, with the operation that took effect. *)
Lemma sec_leave tid pc op o s' :
  cc_pcs s !! tid = Some pc -> in_section pc = true -> pc_op pc = Some op -> cc_tab s' = cc_tab s ->
  cc_locks s' = cc_locks s -> cc_section s' = None -> cc_rets s' = cc_rets s -> cc_top s' = cc_top s ->
  cc_stack s' = cc_stack s -> cc_pcs s' = <[tid := Unlock op o]> (cc_pcs s) ->
  view_free s = free_prefix s (cc_top s) -> cc_used s' = view_used s ->
  (cc_hist s' = cc_hist s /\ logged s tid op o \/
   cc_hist s' = cc_hist s ++ [(tid, (op, o))] /\ fresh s tid /\ map_step (kt_capacity (cc_tab s)) m op = (m, o)) ->
  conc_inv m0 s'.
Proof.
  intros Hpc Hi Hop Et Elk Es Er Etop Est Ep Ef Eu Hh.
  assert (section_pc s' = None) as Hsp by (unfold section_pc; by rewrite Es).
  apply (section_inv tid pc (Unlock op o) s'); try done.
  - by destruct pc.
  - rewrite Ef. unfold view_free. by rewrite Hsp, Etop; unfold free_prefix; rewrite Est.
  - unfold view_used at 1. by rewrite Hsp.
  - by rewrite Est.
  - rewrite Etop. apply C.
  - destruct Hh as [[? _]|(? & _ & ?)]; [by left|right; by exists op, o].
  - split; try done.
    + intros o' [= <-]. unfold holds. rewrite Et, Elk. exact (op_of tid pc op Hpc Hop).
    + destruct Hh as [[Eh Hl]|(Eh & Hf & _)]; [cbn; unfold logged; by rewrite Eh, Er|by eapply fresh_logs].
Qed.

Lemma view_length : length (view_free s) + length (concat chains) = kt_capacity (cc_tab s).
Proof.
  pose proof (Permutation_length (kw_perm _ _ _ (co_wf _ _ _ _ _ C))) as Hp.
  rewrite length_app, length_seq, (me_free _ _ (co_means _ _ _ _ _ C)), (me_cap _ _ (co_means _ _ _ _ _ C)) in Hp. lia.
Qed.

Lemma put_test_inv tid k v s' :
  cc_pcs s !! tid = Some (PutTest k v) -> thread_step true tid s = Some s' -> conc_inv m0 s'.
Proof.
  intros Hpc H. unfold thread_step in H. rewrite Hpc in H. pose proof (section_is tid _ Hpc eq_refl) as Hsp.
  pose proof (po_data _ _ _ _ _ (P tid _ Hpc)) as Hm. cbn [pc_data] in Hm.
  destruct (Z.ltb_spec (cc_top s) 0); injection H as <-.
  - eapply (sec_leave tid _ (KPut k v)); try done.
    + unfold view_free. by rewrite Hsp.
    + unfold view_used. by rewrite Hsp.
    + right. split_and!; [done|exact (fresh_of tid _ Hpc eq_refl)|]. cbn [map_step]. rewrite Hm.
      assert (kt_free tv = []) as Hf.
      { rewrite (me_free _ _ (co_means _ _ _ _ _ C)). unfold view_free. rewrite Hsp. unfold free_prefix.
        by replace (Z.to_nat (cc_top s + 1)) with 0 by lia. }
      apply (kw_full _ _ _ (co_wf _ _ _ _ _ C)) in Hf. rewrite (me_cap _ _ (co_means _ _ _ _ _ C)) in Hf.
      by rewrite Hf, Nat.eqb_refl.
  - eapply (sec_move tid _ (PutPop k v)); try done; [|apply C].
    intros E1 E2. unfold view_free, view_used. by rewrite E1, E2.
Qed.

Lemma put_pop_inv tid k v :
  cc_pcs s !! tid = Some (PutPop k v) -> conc_inv m0 (goto tid (PutDec k v (cc_top s)) s).
Proof.
  intros Hpc. destruct (po_data _ _ _ _ _ (P tid _ Hpc)) as [Hm Ht].
  eapply (sec_move tid _ (PutDec k v (cc_top s))); try done; [|apply C].
  intros E1 E2. unfold view_free, view_used. by rewrite E1, E2.
Qed.

Lemma put_dec_inv tid k v z :
  cc_pcs s !! tid = Some (PutDec k v z) -> conc_inv m0 (goto tid (PutIdx k v z) (set_top (z - 1) s)).
Proof.
  intros Hpc. destruct (po_data _ _ _ _ _ (P tid _ Hpc)) as (Hm & Hz & Ht). pose proof (co_top _ _ _ _ _ C).
  eapply (sec_move tid _ (PutIdx k v z)); try done.
  - intros E1 E2. unfold view_free, view_used. rewrite E1, E2. split; [|done]. by rewrite Ht.
  - cbn. lia.
  - cbn. split_and!; [done|lia..].
Qed.

Lemma put_idx_inv tid k v z i :
  cc_pcs s !! tid = Some (PutIdx k v z) -> cc_stack s !! Z.to_nat z = Some i ->
  conc_inv m0 (goto tid (PutFill k v z i) s).
Proof.
  intros Hpc Hi. destruct (po_data _ _ _ _ _ (P tid _ Hpc)) as (Hm & [Hz _] & Ht).
  eapply (sec_move tid _ (PutFill k v z i)); try done; [|apply C].
  intros E1 E2. unfold view_free, view_used. by rewrite E1, E2.
Qed.

Lemma put_count_inv tid k v :
  cc_pcs s !! tid = Some (PutCount k v) -> conc_inv m0 (goto tid (PutCountW k v (cc_used s)) s).
Proof.
  intros Hpc. pose proof (po_data _ _ _ _ _ (P tid _ Hpc)) as Hd.
  eapply (sec_move tid _ (PutCountW k v (cc_used s))); try done; [|apply C].
  intros E1 E2. unfold view_free, view_used. by rewrite E1, E2.
Qed.

Lemma put_countw_inv tid k v u :
  cc_pcs s !! tid = Some (PutCountW k v u) ->
  conc_inv m0 (goto tid (Unlock (KPut k v) (KvOut NOS_OK None [])) (set_used (u32 (u + 1)) (set_section None s))).
Proof.
  intros Hpc. destruct (po_data _ _ _ _ _ (P tid _ Hpc)) as [Hlog <-].
  pose proof (section_is tid _ Hpc eq_refl) as Hsp.
  eapply (sec_leave tid _ (KPut k v)); try done; [| |by left].
  - unfold view_free. by rewrite Hsp.
  - unfold view_used. by rewrite Hsp.
Qed.

Lemma del_top_inv tid k i :
  cc_pcs s !! tid = Some (DelTop k i) -> conc_inv m0 (goto tid (DelInc k i (cc_top s)) s).
Proof.
  intros Hpc. pose proof (po_data _ _ _ _ _ (P tid _ Hpc)) as Hd. pose proof (co_top _ _ _ _ _ C).
  eapply (sec_move tid _ (DelInc k i (cc_top s))); try done.
  - intros E1 E2. unfold view_free, view_used. by rewrite E1, E2.
  - split_and!; [done|cbn; lia|done].
Qed.

(** There is room on the stack for the entry. *)
Lemma del_inc_inv tid k i z :
  cc_pcs s !! tid = Some (DelInc k i z) -> conc_inv m0 (goto tid (DelPush k i z) (set_top (z + 1) s)).
Proof.
  intros Hpc. destruct (po_data _ _ _ _ _ (P tid _ Hpc)) as (Hlog & Hz & Ht).
  pose proof view_length as Hl. unfold view_free in Hl. rewrite (section_is tid _ Hpc eq_refl) in Hl.
  unfold free_prefix in Hl. rewrite length_app, length_take, (co_stack _ _ _ _ _ C) in Hl. cbn [length] in Hl.
  pose proof (co_top _ _ _ _ _ C).
  eapply (sec_move tid _ (DelPush k i z)); try done.
  - intros E1 E2. unfold view_free, view_used. by rewrite E1, E2.
  - cbn. lia.
Qed.

Lemma del_push_inv tid k i z :
  cc_pcs s !! tid = Some (DelPush k i z) ->
  conc_inv m0 (goto tid (DelCount k) (set_stack (<[Z.to_nat (z + 1) := i]> (cc_stack s)) s)).
Proof.
  intros Hpc. destruct (po_data _ _ _ _ _ (P tid _ Hpc)) as (Hlog & Hz & Ht).
  pose proof (co_top _ _ _ _ _ C). pose proof (co_stack _ _ _ _ _ C) as Hst.
  eapply (sec_move tid _ (DelCount k)); try done.
  - intros E1 E2. unfold view_free, view_used. rewrite E1, E2. split; [|done]. unfold free_prefix.
    cbn [cc_stack cc_top set_stack goto]. rewrite Ht. replace (Z.to_nat (z + 1 + 1)) with (S (Z.to_nat (z + 1))) by lia.
    rewrite (take_S_r _ _ i) by (apply list_lookup_insert_eq; lia). by rewrite take_insert_ge by lia.
  - cbn. by rewrite length_insert.
Qed.

Lemma del_count_inv tid k :
  cc_pcs s !! tid = Some (DelCount k) -> conc_inv m0 (goto tid (DelCountW k (cc_used s)) s).
Proof.
  intros Hpc. pose proof (po_data _ _ _ _ _ (P tid _ Hpc)) as Hd.
  eapply (sec_move tid _ (DelCountW k (cc_used s))); try done; [|apply C].
  intros E1 E2. unfold view_free, view_used. by rewrite E1, E2.
Qed.

Lemma del_countw_inv tid k u :
  cc_pcs s !! tid = Some (DelCountW k u) ->
  conc_inv m0 (goto tid (Unlock (KDel k) (KvOut NOS_OK None [])) (set_used (u32 (u - 1)) (set_section None s))).
Proof.
  intros Hpc. destruct (po_data _ _ _ _ _ (P tid _ Hpc)) as [Hlog <-].
  pose proof (section_is tid _ Hpc eq_refl) as Hsp.
  eapply (sec_leave tid _ (KDel k)); try done; [| |by left].
  - unfold view_free. by rewrite Hsp.
  - unfold view_used. by rewrite Hsp.
Qed.

Lemma unlinked_not_pending i n : i ∉ concat chains -> ~ pend s i n.
Proof.
  intros Hi (t & k & v & Ht & _). destruct (po_data _ _ _ _ _ (P t _ Ht)) as (e & ((l & Hl & Hil) & _) & _).
  apply Hi. exact (chain_in (co_wf _ _ _ _ _ C) _ _ _ Hl Hil).
Qed.

(** The entry a put has taken off the stack is its own. *)
Lemma popped z i :
  view_free s = free_prefix s z -> (0 <= z)%Z -> cc_stack s !! Z.to_nat z = Some i ->
  view_free s = free_prefix s (z - 1) ++ [i] /\ i ∉ concat chains /\
  exists e, entry_at s i = Some e /\ kt_entries tv !! i = Some e /\
    length (e_data e) = kt_key_size (cc_tab s) + kt_max_val (cc_tab s) /\ e_val_len e <= kt_max_val (cc_tab s).
Proof.
  intros Ef Hz Hi.
  assert (view_free s = free_prefix s (z - 1) ++ [i]) as Ev.
  { rewrite Ef. unfold free_prefix. replace (Z.to_nat (z + 1)) with (S (Z.to_nat z)) by lia.
    replace (Z.to_nat (z - 1 + 1)) with (Z.to_nat z) by lia. by apply take_S_r. }
  assert (i ∉ concat chains) as Hc by (apply view_not_linked; rewrite Ev; apply elem_of_app; right; by left).
  destruct (kw_free_entry tv chains m i (co_wf _ _ _ _ _ C)) as [e He].
  { by rewrite (me_free _ _ (co_means _ _ _ _ _ C)), Ev, last_snoc. }
  split_and!; [done..|]. exists e. destruct (kw_data _ _ _ (co_wf _ _ _ _ _ C) i e He) as [Hd Hv].
  rewrite (me_ks _ _ (co_means _ _ _ _ _ C)), (me_mv _ _ (co_means _ _ _ _ _ C)) in *.
  split_and!; try done. unfold entry_at. rewrite <-He. symmetry. apply (me_ent _ _ (co_means _ _ _ _ _ C)).
  intros n. by apply unlinked_not_pending.
Qed.

Lemma put_fill_inv tid k v z i :
  cc_pcs s !! tid = Some (PutFill k v z i) ->
  conc_inv m0 (goto tid (PutLink k v z i) (upd_entry i (fill_entry (cc_tab s) k v) s)).
Proof.
  intros Hpc. destruct (po_data _ _ _ _ _ (P tid _ Hpc)) as (Hm & Hz & Ht & Hi).
  pose proof (section_is tid _ Hpc eq_refl) as Hsp. pose proof (po_section _ _ _ _ _ (P tid _ Hpc) eq_refl) as Hs.
  destruct (op_of tid _ _ Hpc eq_refl) as [[Hk Hv] Hh].
  destruct (popped z i) as (Ev & Hc & e & He & Htv & Hd & Hvl); [unfold view_free; by rewrite Hsp|done..|].
  destruct (fresh_entry_facts (cc_tab s) e k v Hd Hk Hv) as (F1 & F2 & F3).
  set (s' := goto tid _ _).
  assert (section_pc s' = Some (PutLink k v z i)) as Hsp'
    by (unfold section_pc; cbn; rewrite Hs; apply lookup_insert_eq).
  assert (forall j, j ∈ concat chains -> entry_at s' j = entry_at s j) as Hj.
  { intros j Hj. unfold entry_at. cbn. rewrite list_lookup_alter_ne; [done|]. by intros ->. }
  apply (touch_inv tid (PutFill k v z i) (PutLink k v z i) (KPut k v)
    (fun t => set_entries (alter (fill_entry (cc_tab s) k v) i (kt_entries t)) t) s'
    (set_entries (<[i := fill_entry (cc_tab s) k v e]> (kt_entries tv)) tv) chains m); try done.
  - by left.
  - intros b l j _ Hb Hjl. apply Hj. exact (chain_in (co_wf _ _ _ _ _ C) _ _ _ Hb Hjl).
  - apply kv_wf_free; [apply C|done| |].
    + rewrite (me_ks _ _ (co_means _ _ _ _ _ C)), (me_mv _ _ (co_means _ _ _ _ _ C)). exact F1.
    + by rewrite (me_mv _ _ (co_means _ _ _ _ _ C)).
  - destruct (co_means _ _ _ _ _ C). split; try done.
    + rewrite <-(alter_lookup_insert (fill_entry (cc_tab s) k v) i _ e Htv). cbn.
      apply (agree_ext (pend s)); [intros j n; by apply (pend_goto s s' tid (PutFill k v z i) (PutLink k v z i))|].
      apply agree_alter; [|done]. intros n. by apply unlinked_not_pending.
    + cbn. rewrite me_free0. unfold view_free. by rewrite Hsp, Hsp'.
    + cbn. rewrite me_used0. unfold view_used. by rewrite Hsp, Hsp'.
  - split; [|done| |].
    + intros o [= <-]. by split.
    + intros _. exact (fresh_of tid _ Hpc eq_refl).
    + split_and!; try done. exists (fill_entry (cc_tab s) k v e). unfold entry_at in *. cbn.
      rewrite list_lookup_alter_eq, He. split_and!; try done.
Qed.

(** A bucket of the table has its chain. *)
Lemma chain_of k : exists l, chains !! bucket_of (cc_tab s) k = Some l.
Proof.
  apply lookup_lt_is_Some. rewrite (kw_chains _ _ _ (co_wf _ _ _ _ _ C)), <-means_bucket.
  exact (bucket_of_lt (co_wf _ _ _ _ _ C) k).
Qed.

Lemma put_link_inv tid k v z i bk :
  cc_pcs s !! tid = Some (PutLink k v z i) -> kt_buckets (cc_tab s) !! bucket_of (cc_tab s) k = Some bk ->
  conc_inv m0 (goto tid (PutCount k v) (log_op tid (KPut k v) (KvOut NOS_OK None [])
    (on_tab (fun t => set_buckets (alter (set_first (Some i)) (bucket_of (cc_tab s) k) (kt_buckets t)) t)
      (upd_entry i (set_next (b_first bk)) s)))).
Proof.
  intros Hpc Hbk. destruct (po_data _ _ _ _ _ (P tid _ Hpc)) as (Hm & Hz & Ht & Hi & e & He & Hke & Hve & Hse & Hd & Hvl).
  pose proof (section_is tid _ Hpc eq_refl) as Hsp. pose proof (po_section _ _ _ _ _ (P tid _ Hpc) eq_refl) as Hs.
  destruct (popped z i) as (Ev & Hc & e' & He' & Htv & _ & _); [unfold view_free; by rewrite Hsp|done..|].
  rewrite He in He'. injection He' as <-. destruct (op_of tid _ _ Hpc eq_refl) as [[Hk Hv] Hh].
  destruct (chain_of k) as [l Hl]. pose proof (co_means _ _ _ _ _ C) as Me.
  assert (last (kt_free tv) = Some i) as Hlast by (by rewrite (me_free _ _ Me), Ev, last_snoc).
  pose proof (kv_wf_insert tv chains m i (set_next (b_first bk) e) k bk l (co_wf _ _ _ _ _ C) Hlast Hm) as Hw.
  rewrite means_bucket, means_key, means_value, (me_buckets _ _ Me), (me_ks _ _ Me), (me_mv _ _ Me) in Hw.
  specialize (Hw Hbk Hl eq_refl Hke Hd).
  change (e_val_len (set_next _ e)) with (e_val_len e) in Hw. rewrite Hvl in Hw. specialize (Hw Hv).
  change (entry_value _ (set_next _ e)) with (entry_value (cc_tab s) e) in Hw. rewrite Hve in Hw.
  change (e_subs (set_next _ e)) with (e_subs e) in Hw. rewrite Hse in Hw.
  set (s' := goto tid _ _).
  assert (section_pc s' = Some (PutCount k v)) as Hsp' by (unfold section_pc; cbn; rewrite Hs; apply lookup_insert_eq).
  eapply (touch_inv tid (PutLink k v z i) (PutCount k v) (KPut k v)
    (fun t => set_buckets (alter (set_first (Some i)) (bucket_of (cc_tab s) k) (kt_buckets t))
      (set_entries (alter (set_next (b_first bk)) i (kt_entries t)) t)) s' _ _ (<[k := (v, [])]> m));
    try exact Hw; try done.
  - right. eexists. split; [done|]. cbn [map_step]. rewrite Hm.
    destruct (Nat.eqb_spec (size m) (kt_capacity (cc_tab s))) as [E|_]; [|done].
    rewrite <-(me_cap _ _ Me) in E. apply (kw_full _ _ _ (co_wf _ _ _ _ _ C)) in E. by rewrite E in Hlast.
  - intros b Hb. by apply list_lookup_insert_ne.
  - intros b l' j _ Hb Hj. unfold entry_at. cbn. rewrite list_lookup_alter_ne; [done|]. intros ->.
    apply Hc. exact (chain_in (co_wf _ _ _ _ _ C) _ _ _ Hb Hj).
  - intros k' Hk'. by apply lookup_insert_ne.
  - destruct Me. split; try done.
    + rewrite <-(alter_lookup_insert (set_next (b_first bk)) i _ e Htv). cbn.
      apply (agree_ext (pend s)); [intros j n; by apply (pend_goto s s' tid (PutLink k v z i) (PutCount k v))|].
      apply agree_alter; [|done]. intros n. by apply unlinked_not_pending.
    + cbn. rewrite me_free0, Ev, List.removelast_last. unfold view_free. rewrite Hsp'.
      unfold free_prefix. cbn. by rewrite Ht.
    + cbn. rewrite me_used0. unfold view_used. by rewrite Hsp, Hsp'.
  - split; [|done|done|].
    + intros o [= <-]. by split.
    + by eapply fresh_logs; [exact (fresh_of tid _ Hpc eq_refl)|..].
Qed.

Lemma unlink_elsewhere l1 i l2 next es b l j c :
  chains !! b = Some (l1 ++ i :: l2) -> c <> b -> chains !! c = Some l -> j ∈ l ->
  unlink_entries (last l1) i next es !! j = es !! j.
Proof.
  intros Hb Hne Hc Hj.
  assert (forall x, x ∈ l1 ++ i :: l2 -> j <> x) as Hx.
  { intros x Hx ->. apply Hne. exact (chain_disjoint (co_wf _ _ _ _ _ C) _ _ _ _ x Hc Hb Hj Hx). }
  unfold unlink_entries. rewrite list_lookup_alter_ne by (apply not_eq_sym, Hx, in_split_mid).
  destruct (last l1) as [p|] eqn:Hp; [|done]. apply list_lookup_alter_ne, not_eq_sym, Hx, elem_of_app.
  left. by apply last_Some_elem_of.
Qed.

Lemma agree_unlink tid pc k l1 i l2 next :
  cc_pcs s !! tid = Some pc -> pc_op pc = Some (KDel k) -> is_len pc = false ->
  chains !! bucket_of (cc_tab s) k = Some (l1 ++ i :: l2) ->
  agree (pend s) (unlink_entries (last l1) i next (kt_entries tv)) (unlink_entries (last l1) i next (kt_entries (cc_tab s))).
Proof.
  intros Hpc Hop Hl Hc. unfold unlink_entries.
  assert (forall j n, j ∈ l1 ++ i :: l2 -> ~ pend s j n) as Hn
    by (intros j n Hj; by apply (not_pending tid pc (KDel k) _ j n Hpc Hop Hl Hc)).
  apply agree_alter; [intros n; apply Hn, in_split_mid|].
  destruct (last l1) as [p|] eqn:Hp; [|apply C]. apply agree_alter; [|apply C].
  intros n. apply Hn, elem_of_app. left. by apply last_Some_elem_of.
Qed.

Lemma del_unlink_inv tid k prev i e s' :
  cc_pcs s !! tid = Some (DelUnlink k prev i) -> entry_at s i = Some e ->
  s' = goto tid (DelTop k i) (log_op tid (KDel k) (KvOut NOS_OK None [])
    (upd_entry i (set_subs [])
      (match prev with
       | None => on_tab (fun t => set_buckets (alter (set_first (e_next e)) (bucket_of (cc_tab s) k) (kt_buckets t)) t) s
       | Some p => upd_entry p (set_next (e_next e)) s
       end))) ->
  conc_inv m0 s'.
Proof.
  intros Hpc He Es'. destruct (po_data _ _ _ _ _ (P tid _ Hpc)) as (l1 & l2 & e' & Hl & -> & He' & Hk).
  rewrite He in He'. injection He' as <-. pose proof (co_means _ _ _ _ _ C) as Me.
  pose proof (section_is tid _ Hpc eq_refl) as Hsp. pose proof (po_section _ _ _ _ _ (P tid _ Hpc) eq_refl) as Hs.
  pose proof (my_entry tid _ (KDel k) _ i Hpc eq_refl eq_refl Hl (in_split_mid l1 l2 i)) as Htv. rewrite He in Htv.
  pose proof (linked_map tid _ (KDel k) _ i e Hpc eq_refl eq_refl Hl (in_split_mid l1 l2 i) He Hk) as Hm.
  destruct (kw_lseg _ _ _ (co_wf _ _ _ _ _ C) _ _ Hl) as (bk & Hbk & _).
  pose proof (kv_wf_delete tv chains m l1 i l2 e bk) as Hw. cbv zeta in Hw. rewrite !means_key, Hk, !means_bucket in Hw.
  specialize (Hw (co_wf _ _ _ _ _ C) Hl Htv Hbk). cbn [op_key] in Hm.
  set (f := fun t => set_buckets (match last l1 with
      | None => alter (set_first (e_next e)) (bucket_of (cc_tab s) k) (kt_buckets t) | Some _ => kt_buckets t end)
    (set_entries (unlink_entries (last l1) i (e_next e) (kt_entries t)) t)).
  assert (s' = goto tid (DelTop k i) (log_op tid (KDel k) (KvOut NOS_OK None []) (on_tab f s))) as E.
  { rewrite Es'. unfold f, unlink_entries. destruct (last l1); [|done]. unfold upd_entry, on_tab. cbn. by destruct (cc_tab s). }
  clear Es'. subst s'. set (s' := goto tid _ _).
  assert (section_pc s' = Some (DelTop k i)) as Hsp' by (unfold section_pc; cbn; rewrite Hs; apply lookup_insert_eq).
  eapply (touch_inv tid (DelUnlink k (last l1) i) (DelTop k i) (KDel k) f s' _ _ (delete k m)); try exact Hw; try done.
  - right. eexists. split; [done|]. cbn [map_step]. by rewrite Hm.
  - intros b Hb. by apply list_lookup_insert_ne.
  - intros b l j Hb Hbl Hj. by eapply unlink_elsewhere.
  - intros k' Hk'. by apply lookup_delete_ne.
  - destruct Me. split; try done.
    + cbn. by rewrite me_buckets0.
    + cbn. apply (agree_ext (pend s)); [intros j n; by apply (pend_goto s s' tid (DelUnlink k (last l1) i) (DelTop k i))|].
      by eapply (agree_unlink tid).
    + cbn. rewrite me_free0. unfold view_free. by rewrite Hsp, Hsp'.
    + cbn. rewrite me_used0. unfold view_used. by rewrite Hsp, Hsp'.
  - split; [|done|done|].
    + intros o [= <-]. exact (op_of tid _ _ Hpc eq_refl).
    + by eapply fresh_logs; [exact (fresh_of tid _ Hpc eq_refl)|..].
Qed.

(** Every step keeps the invariant. *)
Lemma thread_step_inv tid s' : thread_step true tid s = Some s' -> conc_inv m0 s'.
Proof.
  intros H. pose proof H as H0. unfold thread_step in H. destruct (cc_pcs s !! tid) as [pc|] eqn:Hpc; [|done].
  destruct pc; try done.
  - by eapply start_inv.
  - destruct (m !! op_key op) eqn:Hm; [by eapply search_some_inv|by eapply search_none_inv].
  - apply bind_Some in H as (e & He & [= <-]). by apply store_inv.
  - apply bind_Some in H as (e & He & [= <-]). by apply len_inv.
  - by eapply put_test_inv.
  - injection H as <-. by apply put_pop_inv.
  - injection H as <-. by apply put_dec_inv.
  - case_bool_decide; [|done]. apply bind_Some in H as (i & Hi & [= <-]). by apply put_idx_inv.
  - injection H as <-. by apply put_fill_inv.
  - apply bind_Some in H as (bk & Hbk & [= <-]). by eapply put_link_inv.
  - injection H as <-. by apply put_count_inv.
  - injection H as <-. by apply put_countw_inv.
  - apply bind_Some in H as (e & He & [= <-]). by eapply del_unlink_inv.
  - injection H as <-. by apply del_top_inv.
  - injection H as <-. by apply del_inc_inv.
  - case_bool_decide; [|done]. injection H as <-. by apply del_push_inv.
  - injection H as <-. by apply del_count_inv.
  - injection H as <-. by apply del_countw_inv.
  - apply bind_Some in H as (e & He & [= <-]). by apply get_len_inv.
  - apply bind_Some in H as (e & He & [= <-]). by eapply get_copy_inv.
  - injection H as <-. by apply unlock_inv.
Qed.
End step.

(** ** Runs *)

Lemma conc_init_inv name ks mv cap bc tids :
  0 < bc -> (Z.of_nat cap < 2 ^ 32)%Z -> conc_inv ∅ (conc_init (new_table name ks mv cap bc) tids).
Proof.
  intros Hbc Hcap. destruct (new_table_ok name ks mv cap bc Hbc Hcap) as [[chains W] _].
  assert (forall tid pc, gset_to_gmap Idle tids !! tid = Some pc -> pc = Idle) as Hidle
    by (intros tid pc H; by apply lookup_gset_to_gmap_Some in H as [_ <-]).
  exists (new_table name ks mv cap bc), chains, ∅. split.
  - split; cbn [conc_init cc_stack cc_top cc_tab cc_section cc_hist]; try done; [|by rewrite length_seq|cbn; lia].
    split; try done.
    + split; [by intros|]. intros j n (tid & k & v & H & _). by apply Hidle in H.
    + unfold view_free. cbn [section_pc conc_init cc_section mbind option_bind]. unfold free_prefix. cbn.
      rewrite take_ge; [done|]. rewrite length_seq. lia.
  - intros tid pc H. apply Hidle in H as ->. by split.
Qed.

Lemma kv_step_inv m0 s s' : conc_inv m0 s -> conc_step true s s' -> conc_inv m0 s'.
Proof.
  intros (tv & chains & m & C & P) H. destruct H as [s tid op Hpc Hop|s tid s' H].
  - exact (call_inv C P tid op Hpc Hop).
  - exact (thread_step_inv C P tid s' H).
Qed.

(** What every step keeps. *)
Definition frame (s s' : kv_conc) : Prop :=
  kt_capacity (cc_tab s') = kt_capacity (cc_tab s) /\
  kt_key_size (cc_tab s') = kt_key_size (cc_tab s) /\ kt_bucket_count (cc_tab s') = kt_bucket_count (cc_tab s) /\
  cc_hist s `prefix_of` cc_hist s'.

Lemma frame_bucket s s' k : frame s s' -> bucket_of (cc_tab s') k = bucket_of (cc_tab s) k.
Proof. intros (_ & E1 & E2 & _). unfold bucket_of. by rewrite E1, E2. Qed.

Lemma frame_plain s s' : cc_tab s' = cc_tab s -> cc_hist s' = cc_hist s -> frame s s'.
Proof. unfold frame. by intros -> ->. Qed.

Lemma search_frame excl tid op s s' : search excl tid op s = Some s' -> frame s s'.
Proof.
  unfold search, enter. intros H.
  destruct (kv_lookup _ _) as [[[[p i] e]|]| |], op; cbn in H; repeat case_match; simplify_eq; split_and!; try done;
    by eexists.
Qed.

Lemma acquire_frame tid op s s' : acquire tid op s = Some s' -> frame s s'.
Proof. intros (L & -> & _)%acquire_spec. by apply frame_plain. Qed.

Lemma release_same tid op s : cc_tab (release tid op s) = cc_tab s /\ cc_hist (release tid op s) = cc_hist s.
Proof. unfold release. by repeat case_match. Qed.

Lemma thread_step_frame excl tid s s' : thread_step excl tid s = Some s' -> frame s s'.
Proof.
  unfold thread_step. intros H. destruct (cc_pcs s !! tid) as [pc|]; [|done].
  destruct pc; try done;
    try (by apply search_frame in H);
    try (apply fmap_Some in H as (s1 & Ha & ->); exact (acquire_frame _ _ _ _ Ha));
    try (case_bool_decide; [|done]);
    try (apply bind_Some in H as (? & _ & H));
    repeat case_match; injection H as <-;
    try (by apply frame_plain); try (split_and!; [done..|first [reflexivity|by eexists]]).
  by destruct (release_same tid op s) as [E1 E2]; apply frame_plain.
Qed.

Lemma frame_run excl s s' : rtc (conc_step excl) s s' -> frame s s'.
Proof.
  induction 1 as [s|s s1 s2 H _ (IH1 & IH2 & IH3 & IH4)]; [by apply frame_plain|].
  assert (frame s s1) as (E1 & E2 & E3 & E4) by (destruct H as [s tid op _ _|s tid s' H]; [by apply frame_plain|by eapply thread_step_frame]).
  split_and!; [congruence..|by etrans].
Qed.

(** The states threads reach from a new table. *)
Definition reached (name : string) (ks mv cap bc : nat) (tids : gset nat) (s : kv_conc) : Prop :=
  0 < bc /\ (Z.of_nat cap < 2 ^ 32)%Z /\ rtc (conc_step true) (conc_init (new_table name ks mv cap bc) tids) s.

Lemma reached_inv name ks mv cap bc tids s :
  reached name ks mv cap bc tids s -> conc_inv ∅ s /\ kt_capacity (cc_tab s) = cap.
Proof.
  intros (Hbc & Hcap & Hr). split; [|by destruct (frame_run _ _ _ Hr)].
  pose proof (conc_init_inv name ks mv cap bc tids Hbc Hcap) as Hi. clear Hbc Hcap.
  induction Hr as [|s s1 s2 H _ IH]; [done|]. by apply IH, (kv_step_inv ∅ s).
Qed.

(** The operation a thread is in, and what of it is in the log. *)
Definition in_flight (pc : kv_pc) (rest : list (kv_op * kv_out)) : Prop :=
  rest = [] \/ exists op o, pc_op pc = Some op /\ rest = [(op, o)].

Lemma pc_in_flight s chains m tid pc :
  pc_ok s chains m tid pc ->
  exists rest, of_thread tid (cc_hist s) = of_thread tid (cc_rets s) ++ rest /\ in_flight pc rest.
Proof.
  intros [_ _ Hf Hd]. destruct (before pc) eqn:Hb.
  - exists []. split; [|by left]. rewrite app_nil_r. by apply Hf.
  - assert (exists op o, pc_op pc = Some op /\ logged s tid op o) as (op & o & Hop & Hl).
    { destruct pc; try done; cbn in Hd; naive_solver. }
    exists [(op, o)]. split; [exact Hl|]. right. by exists op, o.
Qed.

(** The table of the memory when nobody is inside an operation. *)
Definition settled (s : kv_conc) : nos_kv_table := set_free (free_prefix s (cc_top s)) (cc_used s) (cc_tab s).

Lemma settled_means s tv chains m :
  core ∅ s tv chains m -> (forall tid pc, cc_pcs s !! tid = Some pc -> pc = Idle) -> tv = settled s.
Proof.
  intros C Hidle. assert (cc_section s = None) as Hn.
  { destruct (cc_section s) as [t|] eqn:E; [|done].
    destruct (co_section _ _ _ _ _ C t E) as (pc & Hpc & Hi). by rewrite (Hidle t pc Hpc) in Hi. }
  assert (section_pc s = None) as Hsp by (unfold section_pc; by rewrite Hn).
  destruct (co_means _ _ _ _ _ C). unfold view_free, view_used in *. rewrite Hsp in *.
  assert (kt_entries tv = kt_entries (cc_tab s)) as Ee.
  { apply list_eq. intros j. apply (proj1 me_ent0). intros n (t & k & v & Ht & _). by apply Hidle in Ht. }
  destruct tv, s as [[]]. unfold settled. cbn in *. by subst.
Qed.

(** *** Nobody is stuck *)

Section progress.
Context {m0 : kv_map} {s : kv_conc} {tv : nos_kv_table} {chains : list (list nat)} {m : kv_map}.
Context (C : core m0 s tv chains m) (P : pcs_ok s chains m).

Lemma enter_free tid pc : cc_section s = None -> is_Some (enter true tid pc s).
Proof. intros E. unfold enter. rewrite bool_decide_false by congruence. by eexists. Qed.

Lemma search_runs tid op :
  cc_pcs s !! tid = Some (Locked op) -> cc_section s = None -> is_Some (search true tid op s).
Proof.
  intros Hpc Hn. pose proof (search_spec C P tid op Hpc) as Hs. unfold search.
  destruct (m !! op_key op) as [x|].
  - destruct Hs as (l1 & i & l2 & e & _ & _ & _ & _ & _ & ->).
    destruct op; try (by eexists); [by apply enter_free|]. case_bool_decide; by eexists.
  - rewrite Hs. destruct op; try (by eexists). by apply enter_free.
Qed.

(** Every access of a thread is to an entry, a slot or a bucket the table
    has. *)
Lemma thread_runs tid pc :
  cc_pcs s !! tid = Some pc -> pc <> Idle ->
  is_Some (thread_step true tid s) \/
  (exists op, pc = Start op /\ acquire tid op s = None) \/
  (exists op t, pc = Locked op /\ cc_section s = Some t /\ t <> tid).
Proof.
  intros Hpc Hne. pose proof (po_data _ _ _ _ _ (P tid pc Hpc)) as Hd. unfold thread_step. rewrite Hpc.
  destruct pc; try done; cbn [pc_data] in Hd; try (left; by eexists);
    try (destruct Hd as (e & (_ & He & _) & _) || destruct Hd as (e & _ & He & _); unfold entry_at in He;
      left; rewrite He; by eexists).
  - destruct (acquire tid op s) eqn:Ha; [left; by eexists|right; left; by eexists].
  - destruct (cc_section s) as [t|] eqn:Hs; [|left; by apply search_runs].
    right. right. exists op, t. split_and!; [done..|]. intros ->.
    by apply (not_in_section C tid (Locked op)).
  - left. destruct (cc_top s <? 0)%Z; by eexists.
  - left. destruct Hd as (_ & Hz & _). rewrite bool_decide_true by lia.
    assert (is_Some (cc_stack s !! Z.to_nat t)) as [i ->]; [|by eexists].
    apply lookup_lt_is_Some. rewrite (co_stack _ _ _ _ _ C). lia.
  - left. destruct (chain_of C k) as [l Hl]. destruct (kw_lseg _ _ _ (co_wf _ _ _ _ _ C) _ _ Hl) as (bk & Hbk & _).
    rewrite (me_buckets _ _ (co_means _ _ _ _ _ C)) in Hbk. rewrite Hbk. by eexists.
  - left. destruct Hd as (l1 & l2 & e & _ & _ & He & _). unfold entry_at in He. rewrite He. by eexists.
  - left. destruct Hd as (_ & Hz & Ht). pose proof (co_top _ _ _ _ _ C). pose proof (co_stack _ _ _ _ _ C).
    rewrite bool_decide_true by lia. by eexists.
Qed.

Lemma section_runs t : cc_section s = Some t -> is_Some (thread_step true t s).
Proof.
  intros Hs. destruct (co_section _ _ _ _ _ C t Hs) as (pc & Hpc & Hi).
  destruct (thread_runs t pc Hpc) as [H|[(op & -> & _)|(op & t' & -> & _)]]; try done. by intros ->.
Qed.
End progress.
(** A lock that is held is held by threads inside an operation on its
    bucket. *)
Definition inside (s : kv_conc) (b tid : nat) : Prop :=
  exists pc op, cc_pcs s !! tid = Some pc /\ pc_op pc = Some op /\ bucket_of (cc_tab s) (op_key op) = b.

Definition held (s : kv_conc) : Prop :=
  forall b w, cc_locks s !! b = Some w ->
    match w with WLock t => inside s b t | RLock X => X <> ∅ /\ forall t, t ∈ X -> inside s b t end.

Lemma held_mono s s' :
  (forall b t, inside s b t -> inside s' b t) -> cc_locks s' = cc_locks s -> held s -> held s'.
Proof.
  intros Hi El Hh b w Hw. rewrite El in Hw. specialize (Hh b w Hw).
  destruct w; [by apply Hi|]. destruct Hh as [? Hh]. split; [done|]. intros t Ht. by apply Hi, Hh.
Qed.

(** A step that stays inside the operation, or outside of any. *)
Lemma inside_goto tid pc pc' s s' :
  frame s s' -> cc_pcs s !! tid = Some pc -> cc_pcs s' = <[tid := pc']> (cc_pcs s) ->
  (forall op, pc_op pc = Some op -> pc_op pc' = Some op) -> forall b t, inside s b t -> inside s' b t.
Proof.
  intros F Hpc Ep Hop b t (q & op & Hq & Ho & Hb). rewrite <-(frame_bucket s s' _ F) in Hb. unfold inside. rewrite Ep.
  destruct (decide (t = tid)) as [->|Hne].
  - simplify_eq. exists pc', op. rewrite lookup_insert_eq. auto.
  - exists q, op. by rewrite lookup_insert_ne.
Qed.

Lemma search_stays excl tid op s s' :
  search excl tid op s = Some s' ->
  cc_locks s' = cc_locks s /\ exists pc', cc_pcs s' = <[tid := pc']> (cc_pcs s) /\ pc_op pc' = Some op.
Proof.
  unfold search, enter. intros H.
  destruct (kv_lookup _ _) as [[[[p i] e]|]| |], op; cbn in H; repeat case_match; simplify_eq; (split; [done|]);
    by eexists.
Qed.

Lemma thread_stays excl tid pc op s s' :
  thread_step excl tid s = Some s' -> cc_pcs s !! tid = Some pc -> pc_op pc = Some op ->
  (forall o r, pc <> Unlock o r) ->
  cc_locks s' = cc_locks s /\ exists pc', cc_pcs s' = <[tid := pc']> (cc_pcs s) /\ pc_op pc' = Some op.
Proof.
  unfold thread_step. intros H Hpc Hop Hu. rewrite Hpc in H.
  destruct pc; try done; cbn [pc_op] in Hop; injection Hop as <-;
    try (by eapply search_stays);
    try (case_bool_decide; [|done]);
    try (apply bind_Some in H as (? & _ & H));
    repeat case_match; try injection H as <-; try ((split; [done|]); by eexists).
  by destruct (Hu op0 o).
Qed.

(** The lock a thread takes and the one it gives back. *)
Lemma acquire_locks tid op s s' :
  acquire tid op s = Some s' ->
  forall b w, cc_locks s' !! b = Some w ->
    cc_locks s !! b = Some w \/ b = bucket_of (cc_tab s) (op_key op) /\
    match w with
    | WLock t => t = tid
    | RLock X => X <> ∅ /\ forall t, t ∈ X -> t = tid \/ exists Y, cc_locks s !! b = Some (RLock Y) /\ t ∈ Y
    end.
Proof.
  unfold acquire. set (c := bucket_of _ _). intros H b w Hw.
  destruct (decide (c = b)) as [<-|Hne].
  - right. split; [done|]. destruct (cc_locks s !! c) as [[t|Y]|], (is_read op); simplify_eq;
      cbn in Hw; rewrite lookup_insert_eq in Hw; injection Hw as <-; [| |done].
    + split; [set_solver|]. intros t [->%elem_of_singleton|Ht]%elem_of_union; [by left|right; by exists Y].
    + split; [set_solver|]. intros t ->%elem_of_singleton. by left.
  - left. destruct (cc_locks s !! c) as [[t|Y]|], (is_read op); simplify_eq; cbn in Hw;
      by rewrite lookup_insert_ne in Hw.
Qed.

Lemma release_locks tid op s b w :
  cc_locks (release tid op s) !! b = Some w ->
  (b <> bucket_of (cc_tab s) (op_key op) /\ cc_locks s !! b = Some w) \/
  exists X, w = RLock (X ∖ {[tid]}) /\ X ∖ {[tid]} <> ∅ /\ cc_locks s !! b = Some (RLock X).
Proof.
  unfold release. set (c := bucket_of _ _). intros Hw. destruct (decide (c = b)) as [<-|Hne].
  - right. destruct (cc_locks s !! c) as [[t|X]|]; [|case_decide|]; cbn in Hw;
      rewrite ?lookup_delete_eq, ?lookup_insert_eq in Hw; try done. exists X. by simplify_eq.
  - left. split; [done|]. destruct (cc_locks s !! c) as [[t|X]|]; [|case_decide|]; cbn in Hw;
      by rewrite ?lookup_delete_ne, ?lookup_insert_ne in Hw by done.
Qed.
Lemma held_start tid op s s1 :
  cc_pcs s !! tid = Some (Start op) -> acquire tid op s = Some s1 -> held s -> held (goto tid (Locked op) s1).
Proof.
  intros Hpc Ha Hh. set (s' := goto tid (Locked op) s1).
  destruct (acquire_spec _ _ _ _ Ha) as (L & Es1 & _).
  assert (frame s s') as F by (apply frame_plain; subst s'; by rewrite Es1).
  assert (cc_pcs s' = <[tid := Locked op]> (cc_pcs s)) as Ep by (subst s'; by rewrite Es1).
  assert (forall b t, inside s b t -> inside s' b t) as Hi by (by eapply inside_goto).
  assert (inside s' (bucket_of (cc_tab s) (op_key op)) tid) as Hme.
  { exists (Locked op), op. rewrite Ep, lookup_insert_eq. split_and!; [done..|]. by apply frame_bucket. }
  intros b w Hw. destruct (acquire_locks _ _ _ _ Ha b w Hw) as [Hold|[-> Hnew]].
  - specialize (Hh b w Hold). destruct w; [by apply Hi|]. destruct Hh as [? Hh]. split; [done|]. auto.
  - destruct w; [by subst|]. destruct Hnew as [HX Hnew]. split; [done|]. intros t Ht.
    destruct (Hnew t Ht) as [->|(Y & HY & HtY)]; [done|]. by apply Hi, (proj2 (Hh _ _ HY)).
Qed.

Lemma held_unlock tid op o s :
  cc_pcs s !! tid = Some (Unlock op o) -> held s -> held (log_ret tid op o (goto tid Idle (release tid op s))).
Proof.
  intros Hpc Hh. set (s' := log_ret _ _ _ _). destruct (release_same tid op s) as [E1 E2].
  assert (frame s s') as F by by apply frame_plain.
  assert (cc_pcs s' = <[tid := Idle]> (cc_pcs s)) as Ep by (subst s'; unfold release; by repeat case_match).
  assert (forall b t, t <> tid -> inside s b t -> inside s' b t) as Hi.
  { intros b t Hne (pc & op' & Ht & Hop & Hb). exists pc, op'. rewrite Ep, lookup_insert_ne by done.
    by rewrite (frame_bucket s s' _ F). }
  assert (forall b, inside s b tid -> b = bucket_of (cc_tab s) (op_key op)) as Hme
    by (intros b (pc & op' & Ht & Hop & <-); simplify_eq; cbn in Hop; by simplify_eq).
  intros b w Hw. destruct (release_locks tid op s b w Hw) as [[Hne Hold]|(X & -> & HX & Hold)].
  - specialize (Hh b w Hold). destruct w as [t|X]; [|destruct Hh as [? Hh]; split; [done|]; intros t Ht; specialize (Hh t Ht)];
      (apply Hi; [intros ->; by apply Hne, Hme|done]).
  - split; [done|]. intros t [Ht Hne]%elem_of_difference. apply Hi; [set_solver|]. by apply (proj2 (Hh _ _ Hold)).
Qed.

Lemma held_step excl s s' : conc_step excl s s' -> held s -> held s'.
Proof.
  intros H Hh. destruct H as [s tid op Hpc _|s tid s' H].
  - apply (held_mono s); [|done..]. by eapply inside_goto; [by apply frame_plain|..].
  - pose proof (thread_step_frame _ _ _ _ H) as F. destruct (cc_pcs s !! tid) as [pc|] eqn:Hpc;
      [|unfold thread_step in H; by rewrite Hpc in H].
    destruct (pc_op pc) as [op|] eqn:Hop.
    + assert ((exists o r, pc = Unlock o r) \/ forall o r, pc <> Unlock o r) as [(o & r & ->)|Hn]
        by (destruct pc; eauto; right; congruence).
      * unfold thread_step in H. rewrite Hpc in H. injection H as <-. by apply held_unlock.
      * destruct (thread_stays excl tid pc op s s' H Hpc Hop Hn) as (El & pc' & Ep & Hop').
        apply (held_mono s); [|done..]. eapply inside_goto; [done..|]. congruence.
    + unfold thread_step in H. rewrite Hpc in H. destruct pc; try done.
      apply fmap_Some in H as (s1 & Ha & ->). by eapply held_start.
Qed.
(** Who waits for a lock waits for a thread inside an operation. *)
Lemma waits_for tid op s :
  acquire tid op s = None -> held s -> exists t q, cc_pcs s !! t = Some q /\ q <> Idle /\ forall o, q <> Start o.
Proof.
  intros Ha Hh. assert (exists w, cc_locks s !! bucket_of (cc_tab s) (op_key op) = Some w) as [w Hw].
  { unfold acquire in Ha. destruct (cc_locks s !! _) as [w|]; [by exists w|]. by destruct (is_read op). }
  assert (exists t, inside s (bucket_of (cc_tab s) (op_key op)) t) as (t & q & o & Hq & Ho & _).
  { specialize (Hh _ _ Hw). destruct w as [t|X]; [by exists t|]. destruct Hh as [HX Hh].
    destruct (set_choose_L X HX) as [t Ht]. exists t. by apply Hh. }
  exists t, q. split; [done|]. split; [by intros ->|intros o' ->; done].
Qed.

Lemma reached_held name ks mv cap bc tids s : reached name ks mv cap bc tids s -> held s.
Proof.
  intros (_ & _ & Hr). assert (held (conc_init (new_table name ks mv cap bc) tids)) as Hi
    by (intros b w Hw; cbn in Hw; by rewrite lookup_empty in Hw).
  induction Hr as [|s s1 s2 H _ IH]; [done|]. by apply IH, (held_step true s).
Qed.

(** C6. The engine under threads is linearizable as long as the free stack is
    used by one thread at a time: the answers so far are those of the bounded
    map for the operations in one order; each thread's part of that order is
    what it was answered, followed at most by the operation it is in, so an
    operation takes effect once, after its call and before its return; the
    order only grows at its end; and when no operation is running the memory
    represents the map. *)
Theorem kv_linearizable name ks mv cap bc tids s :
  reached name ks mv cap bc tids s ->
  exists m,
    map_run cap ∅ (cc_hist s).*2.*1 = (m, (cc_hist s).*2.*2) /\
    (forall tid pc, cc_pcs s !! tid = Some pc ->
       exists rest, of_thread tid (cc_hist s) = of_thread tid (cc_rets s) ++ rest /\ in_flight pc rest) /\
    (forall s', conc_step true s s' -> cc_hist s `prefix_of` cc_hist s') /\
    ((forall tid pc, cc_pcs s !! tid = Some pc -> pc = Idle) -> kv_rep (settled s) m).
Proof.
  intros Hr. destruct (reached_inv _ _ _ _ _ _ _ Hr) as ((tv & chains & m & C & P) & E). exists m. split_and!.
  - rewrite <-E. apply C.
  - intros tid pc Hpc. by eapply pc_in_flight, P.
  - intros s' H. by apply (frame_run true), rtc_once.
  - intros Hidle. rewrite <-(settled_means s tv chains m C Hidle). exists chains. apply C.
Qed.

(** C39. As long as one thread at a time uses the free stack, which the code
    does not ensure ([insert_race] and [pop_race] are what happens without
    it), no thread of the engine is ever stuck: each access it makes is to an
    entry, a free-stack slot or a bucket of the table, an access out of them
    being no step; so a thread inside an operation goes on unless it waits for
    a lock that another operation has or for another thread's part of an
    insertion or a deletion; and while operations are running, one of them can
    go on: there is no deadlock. *)
Theorem kv_threads_safe name ks mv cap bc tids s tid pc :
  reached name ks mv cap bc tids s -> cc_pcs s !! tid = Some pc -> pc <> Idle ->
  (is_Some (thread_step true tid s) \/
   (exists op, pc = Start op /\ acquire tid op s = None) \/
   (exists op t, pc = Locked op /\ cc_section s = Some t /\ t <> tid)) /\
  exists t, is_Some (thread_step true t s).
Proof.
  intros Hr Hpc Hne. pose proof (reached_held _ _ _ _ _ _ _ Hr) as Hh.
  destruct (reached_inv _ _ _ _ _ _ _ Hr) as ((tv & chains & m & C & P) & _).
  pose proof (thread_runs C P tid pc Hpc Hne) as H. split; [done|].
  destruct H as [H|[(op & -> & Ha)|(op & t & -> & Hs & _)]]; [by exists tid| |exists t; by apply (section_runs C P)].
  destruct (waits_for tid op s Ha Hh) as (t & q & Hq & Hin & Hst).
  destruct (thread_runs C P t q Hq Hin) as [H|[(o & -> & _)|(o & t' & -> & Hs & _)]].
  - by exists t.
  - by destruct (Hst o).
  - exists t'. by apply (section_runs C P).
Qed.

(** Two insertions; the second waits until the first has left the section. *)
Definition taking_turns : list nat := replicate 4 0 ++ [1] ++ replicate 7 0 ++ replicate 10 1.

Definition after_turns (n : nat) : kv_conc := default two_puts (conc_run true (take n taking_turns) two_puts).

Lemma turns_reached n : is_Some (conc_run true (take n taking_turns) two_puts) ->
  reached "t" 1 1 2 16 {[0; 1]} (after_turns n).
Proof.
  intros [s Hs]. split; [lia|]. split; [done|]. unfold after_turns. rewrite Hs. cbn [default].
  etrans; [apply two_puts_reached|by eapply conc_run_rtc].
Qed.

Lemma kv_linearizable_witness :
  cc_hist (after_turns 22) = [(0, (KPut [1%Z] [7%Z], KvOut NOS_OK None [])); (1, (KPut [2%Z] [8%Z], KvOut NOS_OK None []))] /\
  exists m,
    map_run 2 ∅ (cc_hist (after_turns 22)).*2.*1 = (m, (cc_hist (after_turns 22)).*2.*2) /\
    (forall tid pc, cc_pcs (after_turns 22) !! tid = Some pc ->
       exists rest, of_thread tid (cc_hist (after_turns 22)) = of_thread tid (cc_rets (after_turns 22)) ++ rest /\
         in_flight pc rest) /\
    (forall s', conc_step true (after_turns 22) s' -> cc_hist (after_turns 22) `prefix_of` cc_hist s') /\
    ((forall tid pc, cc_pcs (after_turns 22) !! tid = Some pc -> pc = Idle) -> kv_rep (settled (after_turns 22)) m).
Proof.
  split; [by vm_compute|].
  apply (kv_linearizable "t" 1 1 2 16 {[0; 1]}). apply turns_reached. vm_compute. by eexists.
Defined.

Lemma kv_threads_safe_witness :
  cc_pcs (after_turns 5) !! 1 = Some (Locked (KPut [2%Z] [8%Z])) /\
  (is_Some (thread_step true 1 (after_turns 5)) \/
   (exists op, Locked (KPut [2%Z] [8%Z]) = Start op /\ acquire 1 op (after_turns 5) = None) \/
   (exists op t, Locked (KPut [2%Z] [8%Z]) = Locked op /\ cc_section (after_turns 5) = Some t /\ t <> 1)) /\
  exists t, is_Some (thread_step true t (after_turns 5)).
Proof.
  split; [by vm_compute|].
  apply (kv_threads_safe "t" 1 1 2 16 {[0; 1]}); [apply turns_reached; vm_compute; by eexists|by vm_compute|done].
Defined.
