(* ===== verification/Stats.v ===== *)
(** * The statistics registry (src/infra/stats/nos_stats.c)

    A fixed table of named counters and gauges.  A counter is the address of
    a 64-bit variable, a gauge a function with its argument; what they read
    is a parameter of the dump. *)

From stdpp Require Import base list strings.
From S2P Require Import Prelude CArray Kv.

Definition NOS_STATS_MAX_ITEMS : nat := 128.
Definition NOS_STATS_NAME_MAX : nat := 32.

Inductive stats_source :=
  | NOS_STATS_COUNTER (counter : nat)
  | NOS_STATS_GAUGE (read_fn arg : nat).

Record nos_stats_item := StatsItem {
  st_module : string;      (* char[32] *)
  st_name : string;        (* char[32] *)
  st_source : stats_source;
}.

Abbreviation stats := (carr nos_stats_item).

Definition zero_item : nos_stats_item := StatsItem "" "" (NOS_STATS_COUNTER 0).

Definition nos_stats_init : stats := CArr (replicate NOS_STATS_MAX_ITEMS zero_item) 0.

Definition item_named (module name : string) (i : nos_stats_item) : bool :=
  String.eqb (st_module i) module && String.eqb (st_name i) name.

(** A registration that finds the name keeps the old item. *)
Definition stats_register_item (module name : option string) (src : stats_source) (s : stats)
    : nos_status * stats :=
  match module, name with
  | Some module, Some name =>
      match carr_find (item_named module name) s with
      | Some _ => (NOS_OK, s)
      | None =>
          if NOS_STATS_MAX_ITEMS <=? count s then (NOS_ERR_BUSY, s)
          else (NOS_OK, carr_push (StatsItem (strncpy_field NOS_STATS_NAME_MAX module)
                                     (strncpy_field NOS_STATS_NAME_MAX name) src) s)
      end
  | _, _ => (NOS_ERR, s)
  end.

Definition nos_stats_register_counter (module name : option string) (value : option nat) (s : stats)
    : nos_status * stats :=
  match value with
  | None => (NOS_ERR, s)
  | Some v => stats_register_item module name (NOS_STATS_COUNTER v) s
  end.

Definition nos_stats_register_gauge (module name : option string) (read_fn : option nat) (arg : nat)
    (s : stats) : nos_status * stats :=
  match read_fn with
  | None => (NOS_ERR, s)
  | Some f => stats_register_item module name (NOS_STATS_GAUGE f arg) s
  end.

Section read.
Context (load : nat -> Z) (run_read : nat -> nat -> Z).

Definition stats_read_item (i : nos_stats_item) : Z :=
  match st_source i with
  | NOS_STATS_COUNTER c => load c
  | NOS_STATS_GAUGE f a => run_read f a
  end.

(** The rows printed, and how many. *)
Definition stats_dump_locked (module : option string) (s : stats) : list (string * string * Z) * nat :=
  let rows := List.filter (fun i => match module with
                                    | Some m => String.eqb (st_module i) m
                                    | None => true end) (live s) in
  (map (fun i => (st_module i, st_name i, stats_read_item i)) rows, length rows).

Definition nos_stats_dump_all (s : stats) : list (string * string * Z) * nat := stats_dump_locked None s.

Definition nos_stats_dump_module (module : string) (s : stats) : list (string * string * Z) * nat :=
  stats_dump_locked (Some module) s.
End read.

Definition stats_ok (s : stats) : Prop :=
  length (slots s) = NOS_STATS_MAX_ITEMS /\ carr_wf s.

(** Registering a statistic whose names fit the 32-byte fields: a new
    name is added with its source until the 128 slots are used, when the
    answer is NOS_ERR_BUSY; registering the same name again succeeds and
    keeps the first source, so repeated initialisation is harmless. *)
Theorem stats_register_spec module name src src' s :
  stats_ok s -> String.length module < 32 -> String.length name < 32 ->
  let res := stats_register_item (Some module) (Some name) src s in
  match carr_find (item_named module name) s with
  | Some _ => res = (NOS_OK, s)
  | None =>
      if NOS_STATS_MAX_ITEMS <=? count s then res = (NOS_ERR_BUSY, s)
      else res.1 = NOS_OK /\ stats_ok res.2 /\ live res.2 = live s ++ [StatsItem module name src] /\
        stats_register_item (Some module) (Some name) src' res.2 = (NOS_OK, res.2)
  end.
Proof.
  intros [Hl Hw] Hm Hn. unfold stats_register_item.
  destruct (carr_find (item_named module name) s) as [i|] eqn:Hf; [done|].
  destruct (Nat.leb_spec NOS_STATS_MAX_ITEMS (count s)) as [|Hc]; [done|]. cbn [fst snd].
  unfold NOS_STATS_NAME_MAX. rewrite (strncpy_field_short 32 module), (strncpy_field_short 32 name) by done.
  set (s' := carr_push _ s).
  assert (live s' = live s ++ [StatsItem module name src]) as Hlive by (apply live_push; lia).
  split_and!; [done|split| done|].
  - simpl. by rewrite length_insert.
  - apply carr_push_wf. lia.
  - assert (carr_find (item_named module name) s' = Some (length (live s))) as ->; [|done].
    unfold carr_find in *. rewrite Hlive, (find_idx_app_r _ _ _ Hf). simpl.
    unfold item_named. simpl. rewrite !String.eqb_refl. simpl. by rewrite Nat.add_0_r.
Qed.

Lemma stats_register_spec_witness :
  (stats_register_item (Some "shm") (Some "rx_bytes") (NOS_STATS_COUNTER 3) nos_stats_init).1 = NOS_OK.
Proof.
  pose proof (stats_register_spec "shm" "rx_bytes" (NOS_STATS_COUNTER 3) (NOS_STATS_COUNTER 4) nos_stats_init)
    as H.
  apply H; [split; [done|unfold carr_wf; simpl; lia]|simpl; lia|simpl; lia].
Defined.
