(* ===== verification/Log.v ===== *)
(** * The log engine (src/infra/log/nos_log.c)

    Producers claim a slot of a 1024-entry ring by incrementing [write_idx],
    take it with a compare-and-swap (empty 0, writing 1, ready 2) and fill
    it; one consumer prints the slots in order.  Slots are claimed even when
    the message is then dropped because its slot is not empty. *)

From stdpp Require Import base list strings relations.
From S2P Require Import Prelude.
Local Open Scope Z_scope.

Definition LOG_BUFFER_SIZE : nat := 1024.
Definition LOG_MSG_MAX : nat := 256.
Definition MAX_COMP_ID : Z := 256.

Inductive nos_log_level :=
  | NOS_LOG_LEVEL_DEBUG | NOS_LOG_LEVEL_INFO | NOS_LOG_LEVEL_WARN | NOS_LOG_LEVEL_ERROR.

Definition level_code (l : nos_log_level) : Z :=
  match l with
  | NOS_LOG_LEVEL_DEBUG => 0 | NOS_LOG_LEVEL_INFO => 1
  | NOS_LOG_LEVEL_WARN => 2 | NOS_LOG_LEVEL_ERROR => 3
  end.

Definition level_to_str (l : nos_log_level) : string :=
  match l with
  | NOS_LOG_LEVEL_DEBUG => "DEBUG" | NOS_LOG_LEVEL_INFO => "INFO "
  | NOS_LOG_LEVEL_WARN => "WARN " | NOS_LOG_LEVEL_ERROR => "ERROR"
  end.

(** What a slot holds; the time stamp is left out. *)
Record log_record := LogRec {
  lr_level : nos_log_level;
  lr_comp : Z;
  lr_message : string;     (* char[256] *)
}.

Record nos_log_entry := LogEntry { le_rec : log_record; le_ready : Z }.

Record nos_comp_info := CompInfo {
  ci_name : string;        (* char[32] *)
  ci_filter : nos_log_level;
  ci_registered : bool;
}.

Record nos_log_context := LogCtx {
  lg_ring : list nos_log_entry;
  lg_write : Z;
  lg_read : Z;
  lg_global : nos_log_level;
  lg_comp : list nos_comp_info;
  lg_dropped : Z;
  lg_running : bool;
  lg_initialized : bool;
}.

Definition set_ring (r : list nos_log_entry) (c : nos_log_context) : nos_log_context :=
  LogCtx r (lg_write c) (lg_read c) (lg_global c) (lg_comp c) (lg_dropped c) (lg_running c) (lg_initialized c).
Definition set_write (w : Z) (c : nos_log_context) : nos_log_context :=
  LogCtx (lg_ring c) w (lg_read c) (lg_global c) (lg_comp c) (lg_dropped c) (lg_running c) (lg_initialized c).
Definition set_dropped (d : Z) (c : nos_log_context) : nos_log_context :=
  LogCtx (lg_ring c) (lg_write c) (lg_read c) (lg_global c) (lg_comp c) d (lg_running c) (lg_initialized c).
Definition set_comps (l : list nos_comp_info) (c : nos_log_context) : nos_log_context :=
  LogCtx (lg_ring c) (lg_write c) (lg_read c) (lg_global c) l (lg_dropped c) (lg_running c) (lg_initialized c).
Definition set_global (l : nos_log_level) (c : nos_log_context) : nos_log_context :=
  LogCtx (lg_ring c) (lg_write c) (lg_read c) l (lg_comp c) (lg_dropped c) (lg_running c) (lg_initialized c).

Definition slot_of (idx : Z) : nat := Z.to_nat (idx mod Z.of_nat LOG_BUFFER_SIZE).

Definition zero_rec : log_record := LogRec NOS_LOG_LEVEL_DEBUG 0 "".

(** The static context. *)
Definition g_log_ctx : nos_log_context :=
  LogCtx (replicate LOG_BUFFER_SIZE (LogEntry zero_rec 0)) 0 0 NOS_LOG_LEVEL_DEBUG
         (replicate (Z.to_nat MAX_COMP_ID) (CompInfo "" NOS_LOG_LEVEL_DEBUG false)) 0 true false.

Definition comp_in_range (id : Z) : bool := (0 <? id) && (id <? MAX_COMP_ID).

Definition registered_info (c : nos_log_context) (id : Z) : option nos_comp_info :=
  if comp_in_range id then
    match lg_comp c !! Z.to_nat id with
    | Some i => if ci_registered i then Some i else None
    | None => None
    end
  else None.

Definition filter_level (c : nos_log_context) (id : Z) : nos_log_level :=
  match registered_info c id with Some i => ci_filter i | None => lg_global c end.

Definition passes (c : nos_log_context) (level : nos_log_level) (id : Z) : bool :=
  negb (level_code level <? level_code (filter_level c id)).

(** [ready] becomes 1, then the slot is filled and [ready] becomes 2. *)
Definition claim (i : nat) (c : nos_log_context) : nos_log_context :=
  set_ring (alter (fun e => LogEntry (le_rec e) 1) i (lg_ring c)) c.

Definition publish (i : nat) (r : log_record) (c : nos_log_context) : nos_log_context :=
  set_ring (<[i := LogEntry r 2]> (lg_ring c)) c.

(** [message] is the formatted text, cut to the slot. *)
Definition nos_log_impl (level : nos_log_level) (id : Z) (message : string) (c : nos_log_context)
    : nos_log_context :=
  if passes c level id then
    let i := slot_of (lg_write c) in
    let c1 := set_write (u32 (lg_write c + 1)) c in
    match lg_ring c !! i with
    | Some e =>
        if le_ready e =? 0
        then publish i (LogRec level id (strncpy_field LOG_MSG_MAX message)) (claim i c1)
        else set_dropped (u64 (lg_dropped c + 1)) c1
    | None => c1
    end
  else c.

(** The name printed for a record. *)
Definition print_name (c : nos_log_context) (r : log_record) : string :=
  match registered_info c (lr_comp r) with Some i => ci_name i | None => "System" end.

(** One turn of the consumer: the record printed, if any. *)
Definition consume (c : nos_log_context) : nos_log_context * option log_record :=
  let i := slot_of (lg_read c) in
  match lg_ring c !! i with
  | Some e =>
      if le_ready e =? 2 then
        (LogCtx (<[i := LogEntry (le_rec e) 0]> (lg_ring c)) (lg_write c) (u32 (lg_read c + 1))
                (lg_global c) (lg_comp c) (lg_dropped c) (lg_running c) (lg_initialized c),
         Some (le_rec e))
      else (c, None)
  | None => (c, None)
  end.

(** Whether the consumer thread goes on. *)
Definition consumer_continues (c : nos_log_context) : bool :=
  lg_running c ||
  match lg_ring c !! slot_of (lg_read c) with Some e => le_ready e =? 2 | None => false end.

Definition nos_set_level_impl (level : nos_log_level) (c : nos_log_context) : nos_log_context :=
  nos_log_impl NOS_LOG_LEVEL_INFO 0
    (String.append "Global filter level set to " (level_to_str level)) (set_global level c).

(** [msg] is the text with the id formatted. *)
Definition nos_set_comp_level_impl (msg : string) (id : Z) (level : nos_log_level)
    (c : nos_log_context) : nos_log_context :=
  if comp_in_range id then
    nos_log_impl NOS_LOG_LEVEL_INFO 0 msg
      (set_comps (alter (fun i => CompInfo (ci_name i) level (ci_registered i)) (Z.to_nat id) (lg_comp c)) c)
  else c.

Definition nos_log_set_comp_info (id : Z) (name : option string) (c : nos_log_context) : nos_log_context :=
  match name with
  | Some name =>
      if comp_in_range id then
        set_comps (alter (fun _ => CompInfo (strncpy_field 32 name) (lg_global c) true)
                     (Z.to_nat id) (lg_comp c)) c
      else c
  | None => c
  end.

Definition nos_log_get_dropped_count (c : nos_log_context) : Z := lg_dropped c.

(** [sizeof(nos_log_context_t)]: the ring of 284-byte entries, three words,
    the 40-byte component rows, padding, the thread id, the counter and two
    words. *)
Definition nos_log_get_mem_usage : Z :=
  Z.of_nat LOG_BUFFER_SIZE * 284 + 12 + MAX_COMP_ID * 40 + 4 + 8 + 8 + 8.

Definition nos_log_init (c : nos_log_context) : nos_log_context :=
  if lg_initialized c then c
  else LogCtx (map (fun e => LogEntry (le_rec e) 0) (lg_ring c)) (lg_write c) (lg_read c)
              (lg_global c) (lg_comp c) (lg_dropped c) true true.

(** The consumer is told to stop; the caller then waits for it. *)
Definition nos_log_deinit (c : nos_log_context) : nos_log_context :=
  if lg_initialized c then
    LogCtx (lg_ring c) (lg_write c) (lg_read c) (lg_global c) (lg_comp c) (lg_dropped c) false false
  else c.

(** ** Runs of one producer and the consumer *)

Inductive log_op :=
  | OLog (level : nos_log_level) (id : Z) (message : string)
  | OSetLevel (level : nos_log_level)
  | OSetCompLevel (msg : string) (id : Z) (level : nos_log_level)
  | OSetCompInfo (id : Z) (name : option string)
  | OConsume.

Definition log_step (op : log_op) (c : nos_log_context) : nos_log_context :=
  match op with
  | OLog level id message => nos_log_impl level id message c
  | OSetLevel level => nos_set_level_impl level c
  | OSetCompLevel msg id level => nos_set_comp_level_impl msg id level c
  | OSetCompInfo id name => nos_log_set_comp_info id name c
  | OConsume => (consume c).1
  end.

(** The record an operation puts in, if its message passes the filter. *)
Definition submitted (c : nos_log_context) (level : nos_log_level) (id : Z) (message : string)
    : list log_record :=
  if passes c level id then [LogRec level id (strncpy_field LOG_MSG_MAX message)] else [].

Definition log_input (op : log_op) (c : nos_log_context) : list log_record :=
  match op with
  | OLog level id message => submitted c level id message
  | OSetLevel level =>
      submitted (set_global level c) NOS_LOG_LEVEL_INFO 0
        (String.append "Global filter level set to " (level_to_str level))
  | OSetCompLevel msg id level =>
      if comp_in_range id then submitted c NOS_LOG_LEVEL_INFO 0 msg else []
  | _ => []
  end.

Definition log_output (op : log_op) (c : nos_log_context) : list log_record :=
  match op with OConsume => option_list (consume c).2 | _ => [] end.

(** An input meets a slot that is not empty: it is dropped. *)
Definition log_drops (op : log_op) (c : nos_log_context) : bool :=
  match log_input op c, lg_ring c !! slot_of (lg_write c) with
  | _ :: _, Some e => negb (le_ready e =? 0)
  | _, _ => false
  end.

Fixpoint log_run (ops : list log_op) (c : nos_log_context) : nos_log_context :=
  match ops with [] => c | op :: ops => log_run ops (log_step op c) end.

Fixpoint log_inputs (ops : list log_op) (c : nos_log_context) : list log_record :=
  match ops with [] => [] | op :: ops => log_input op c ++ log_inputs ops (log_step op c) end.

Fixpoint log_outputs (ops : list log_op) (c : nos_log_context) : list log_record :=
  match ops with [] => [] | op :: ops => log_output op c ++ log_outputs ops (log_step op c) end.

Fixpoint log_any_drop (ops : list log_op) (c : nos_log_context) : bool :=
  match ops with [] => false | op :: ops => log_drops op c || log_any_drop ops (log_step op c) end.

(** The ring holds exactly the records [l], in order from [read_idx]. *)
Record log_ok (c : nos_log_context) (l : list log_record) : Prop := {
  lo_ring : length (lg_ring c) = LOG_BUFFER_SIZE;
  lo_read : in_u32 (lg_read c);
  lo_len : (length l <= LOG_BUFFER_SIZE)%nat;
  lo_write : lg_write c = u32 (lg_read c + Z.of_nat (length l));
  lo_full k r : l !! k = Some r -> lg_ring c !! slot_of (lg_read c + Z.of_nat k) = Some (LogEntry r 2);
  lo_free k : (length l <= k < LOG_BUFFER_SIZE)%nat ->
    exists e, lg_ring c !! slot_of (lg_read c + Z.of_nat k) = Some e /\ le_ready e = 0;
}.

Lemma slot_of_u32 x : slot_of (u32 x) = slot_of x.
Proof.
  unfold slot_of, u32. f_equal. change (2 ^ 32) with (Z.of_nat LOG_BUFFER_SIZE * 2 ^ 22).
  symmetry. apply Znumtheory.Zmod_div_mod; [done..|]. by exists (2 ^ 22); rewrite Z.mul_comm.
Qed.

Lemma slot_of_lt x : (slot_of x < LOG_BUFFER_SIZE)%nat.
Proof. unfold slot_of, LOG_BUFFER_SIZE. pose proof (Z.mod_pos_bound x 1024). lia. Qed.

Lemma slot_of_inj x (j k : nat) :
  (j < LOG_BUFFER_SIZE)%nat -> (k < LOG_BUFFER_SIZE)%nat ->
  slot_of (x + Z.of_nat j) = slot_of (x + Z.of_nat k) -> j = k.
Proof.
  unfold slot_of, LOG_BUFFER_SIZE. intros Hj Hk H.
  pose proof (Z.mod_pos_bound (x + Z.of_nat j) 1024). pose proof (Z.mod_pos_bound (x + Z.of_nat k) 1024).
  pose proof (Z.div_mod (x + Z.of_nat j) 1024). pose proof (Z.div_mod (x + Z.of_nat k) 1024). lia.
Qed.

Lemma slot_of_wrap x : slot_of (x + Z.of_nat LOG_BUFFER_SIZE) = slot_of x.
Proof.
  unfold slot_of. apply (f_equal Z.to_nat). rewrite <-(Z.mod_add x 1 (Z.of_nat LOG_BUFFER_SIZE)) by done.
  by rewrite Z.mul_1_l.
Qed.

Lemma ring_init_lookup k :
  (k < LOG_BUFFER_SIZE)%nat -> lg_ring (nos_log_init g_log_ctx) !! k = Some (LogEntry zero_rec 0).
Proof.
  intros Hk. cbn [nos_log_init g_log_ctx lg_initialized lg_ring].
  change (map ?f ?l) with (f <$> l). rewrite list_lookup_fmap.
  by rewrite lookup_replicate_2 by done.
Qed.

Lemma log_ok_init : log_ok (nos_log_init g_log_ctx) [].
Proof.
  split.
  - by vm_compute.
  - done.
  - unfold LOG_BUFFER_SIZE. simpl. lia.
  - done.
  - intros k r Hk. by rewrite lookup_nil in Hk.
  - intros k Hk. exists (LogEntry zero_rec 0). split; [|done].
    apply ring_init_lookup, slot_of_lt.
Qed.

(** The settings play no part in [log_ok]. *)
Lemma log_ok_ext c c' l :
  lg_ring c' = lg_ring c -> lg_write c' = lg_write c -> lg_read c' = lg_read c ->
  log_ok c l -> log_ok c' l.
Proof. intros E1 E2 E3 []. split; rewrite ?E1, ?E2, ?E3; auto. Qed.

(** One message: it joins the end of the queue, unless its slot is taken. *)
Lemma log_impl_ok c l level id message :
  log_ok c l ->
  (match submitted c level id message, lg_ring c !! slot_of (lg_write c) with
   | _ :: _, Some e => negb (le_ready e =? 0) | _, _ => false end) = false ->
  log_ok (nos_log_impl level id message c) (l ++ submitted c level id message).
Proof.
  intros [Hring Hread Hlen Hwrite Hfull Hfree]. unfold submitted, nos_log_impl.
  destruct (passes c level id); [|by rewrite app_nil_r].
  set (r := LogRec level id (strncpy_field LOG_MSG_MAX message)). cbn zeta iota beta.
  assert (slot_of (lg_write c) = slot_of (lg_read c + Z.of_nat (length l))) as Hw
    by (by rewrite Hwrite, slot_of_u32).
  rewrite Hw. intros Hnd.
  assert (length l < LOG_BUFFER_SIZE)%nat as Hlt.
  { destruct (decide (length l = LOG_BUFFER_SIZE)) as [E|]; [|lia]. exfalso.
    destruct l as [|r0 l0]; [done|]. rewrite E, slot_of_wrap in Hnd.
    specialize (Hfull 0%nat r0 eq_refl). rewrite Z.add_0_r in Hfull. by rewrite Hfull in Hnd. }
  destruct (Hfree (length l)) as (e & He & Hr0); [lia|]. rewrite He, Hr0 in *. cbn [Z.eqb].
  unfold publish, claim, set_ring, set_write. split; cbn [lg_ring lg_read lg_write].
  - by rewrite length_insert, length_alter.
  - done.
  - rewrite length_app. simpl. lia.
  - rewrite length_app, Hwrite. cbn [length]. unfold u32. rewrite Zplus_mod_idemp_l. f_equal. lia.
  - intros k r' Hk. destruct (decide (k = length l)) as [->|Hne].
    + rewrite lookup_app_r, Nat.sub_diag in Hk by lia. simplify_eq/=.
      rewrite list_lookup_insert_eq; [done|]. rewrite length_alter, Hring. apply slot_of_lt.
    + pose proof (lookup_lt_Some _ _ _ Hk) as Hkl. rewrite length_app in Hkl. simpl in Hkl.
      rewrite lookup_app_l in Hk by lia.
      assert (slot_of (lg_read c + Z.of_nat (length l)) <> slot_of (lg_read c + Z.of_nat k)).
      { intros E. apply slot_of_inj in E; lia. }
      rewrite list_lookup_insert_ne, list_lookup_alter_ne by done. by apply Hfull.
  - intros k Hk. rewrite length_app in Hk. simpl in Hk.
    assert (slot_of (lg_read c + Z.of_nat (length l)) <> slot_of (lg_read c + Z.of_nat k)).
    { intros E. apply slot_of_inj in E; lia. }
    rewrite list_lookup_insert_ne, list_lookup_alter_ne by done. apply Hfree. lia.
Qed.

(** The consumer prints the oldest record, and nothing when there is none. *)
Lemma consume_ok c l :
  log_ok c l -> (consume c).2 = head l /\ log_ok (consume c).1 (tail l).
Proof.
  intros [Hring Hread Hlen Hwrite Hfull Hfree]. unfold consume.
  destruct l as [|r l]; cbn [head tail].
  - destruct (Hfree 0%nat) as (e & He & Hr0); [unfold LOG_BUFFER_SIZE; simpl; lia|].
    rewrite Z.add_0_r in He. rewrite He, Hr0. split; [done|]. by split.
  - pose proof (Hfull 0%nat r eq_refl) as H0. rewrite Z.add_0_r in H0. rewrite H0. cbn [le_ready Z.eqb Pos.eqb fst snd le_rec].
    split; [done|]. simpl in Hlen.
    assert (forall k, slot_of (u32 (lg_read c + 1) + Z.of_nat k) = slot_of (lg_read c + Z.of_nat (S k))) as Hsl.
    { intros k. rewrite <-slot_of_u32. unfold u32. rewrite Zplus_mod_idemp_l. fold (u32 (lg_read c + 1 + Z.of_nat k)).
      rewrite slot_of_u32. f_equal. lia. }
    split; cbn [lg_ring lg_read lg_write].
    + by rewrite length_insert.
    + apply u32_range.
    + lia.
    + rewrite Hwrite. unfold u32. rewrite Zplus_mod_idemp_l. f_equal. simpl. lia.
    + intros k r' Hk. rewrite Hsl. pose proof (lookup_lt_Some _ _ _ Hk).
      rewrite list_lookup_insert_ne; [by apply Hfull|].
      intros E. rewrite <-(Z.add_0_r (lg_read c)) in E at 1. apply (slot_of_inj _ 0) in E; lia.
    + intros k Hk. rewrite Hsl. destruct (decide (S k = LOG_BUFFER_SIZE)) as [E|].
      * rewrite E, slot_of_wrap. exists (LogEntry r 0). split; [|done].
        apply list_lookup_insert_eq. rewrite Hring. apply slot_of_lt.
      * rewrite list_lookup_insert_ne; [apply Hfree; simpl; lia|].
        intros E. rewrite <-(Z.add_0_r (lg_read c)) in E at 1. apply (slot_of_inj _ 0) in E; lia.
Qed.

Lemma passes_set_comps c f level : passes (set_comps f c) level 0 = passes c level 0.
Proof. done. Qed.

Lemma log_step_ok op c l :
  log_ok c l -> log_drops op c = false ->
  exists l', log_ok (log_step op c) l' /\ l ++ log_input op c = log_output op c ++ l'.
Proof.
  intros Hok. destruct op as [level id message|level|msg id level|id name|];
    unfold log_drops, log_step, log_input, log_output.
  - intros Hd. eexists. split; [by apply log_impl_ok|done].
  - intros Hd. eexists. split; [apply log_impl_ok; [by eapply log_ok_ext; [..|exact Hok]|exact Hd]|done].
  - unfold nos_set_comp_level_impl. destruct (comp_in_range id); [|exists l; by rewrite app_nil_r].
    intros Hd. eexists. split; [apply log_impl_ok; [by eapply log_ok_ext; [..|exact Hok]|exact Hd]|done].
  - intros _. exists l. rewrite app_nil_r. split; [|done].
    unfold nos_log_set_comp_info. destruct name, (comp_in_range id); try done.
    by eapply log_ok_ext; [..|exact Hok].
  - intros _. destruct (consume_ok c l Hok) as [E H]. exists (tail l). split; [done|].
    rewrite E, app_nil_r. by destruct l.
Qed.

Lemma log_run_ok ops c l :
  log_ok c l -> log_any_drop ops c = false ->
  exists l', log_ok (log_run ops c) l' /\ l ++ log_inputs ops c = log_outputs ops c ++ l'.
Proof.
  revert c l. induction ops as [|op ops IH]; intros c l Hok Hd;
    cbn [log_run log_inputs log_outputs log_any_drop] in *.
  - exists l. by rewrite app_nil_r.
  - apply orb_false_elim in Hd as [Hd1 Hd2].
    destruct (log_step_ok op c l Hok Hd1) as (l1 & Hok1 & E1).
    destruct (IH _ _ Hok1 Hd2) as (l2 & Hok2 & E2).
    exists l2. split; [done|]. rewrite app_assoc, E1, <-!app_assoc. by f_equal.
Qed.

(** [n] turns of the consumer on its own. *)
Lemma log_drain c l :
  log_ok c l -> log_outputs (replicate (length l) OConsume) c = l.
Proof.
  revert c. induction l as [|r l IH]; intros c Hok; [done|].
  destruct (consume_ok c (r :: l) Hok) as [E H]. cbn [length replicate log_outputs log_output log_step].
  rewrite E. cbn [head option_list]. simpl. f_equal. by apply IH.
Qed.

(** ** Concurrent producers

    [nos_log_impl] cut at its atomic accesses and at its two groups of slot
    writes; every thread that logs is one entry of [cl_prods].  The consumer's
    print and its store of 0 are one step: in between the slot is ready, and
    a ready slot is touched by nobody else. *)

Inductive prod_pc :=
  | P_claim (i : nat) (r : log_record)     (* index taken, before the CAS *)
  | P_head (i : nat) (r : log_record)      (* slot owned, level and id to write *)
  | P_body (i : nat) (r : log_record)      (* message to write *)
  | P_ready (i : nat) (r : log_record).    (* slot filled, to be marked ready *)

Record conc_log := ConcLog {
  cl_ctx : nos_log_context;
  cl_prods : list prod_pc;
  cl_logged : list log_record;    (* every record submitted *)
  cl_printed : list log_record;
  cl_lost : list log_record;      (* those that met a slot in use *)
}.

Definition alter_slot (f : nos_log_entry -> nos_log_entry) (i : nat) (c : nos_log_context) : nos_log_context :=
  set_ring (alter f i (lg_ring c)) c.

Definition put_head (r : log_record) (e : nos_log_entry) : nos_log_entry :=
  LogEntry (LogRec (lr_level r) (lr_comp r) (lr_message (le_rec e))) (le_ready e).
Definition put_body (r : log_record) (e : nos_log_entry) : nos_log_entry :=
  LogEntry (LogRec (lr_level (le_rec e)) (lr_comp (le_rec e)) (lr_message r)) (le_ready e).
Definition put_ready (e : nos_log_entry) : nos_log_entry := LogEntry (le_rec e) 2.

Inductive conc_step : conc_log -> conc_log -> Prop :=
  | C_log c ps lo pr lt level id message :
      passes c level id = true ->
      let r := LogRec level id (strncpy_field LOG_MSG_MAX message) in
      conc_step (ConcLog c ps lo pr lt)
        (ConcLog (set_write (u32 (lg_write c + 1)) c) (ps ++ [P_claim (slot_of (lg_write c)) r])
                 (lo ++ [r]) pr lt)
  | C_cas c i r a b lo pr lt e :
      lg_ring c !! i = Some e -> le_ready e = 0 ->
      conc_step (ConcLog c (a ++ P_claim i r :: b) lo pr lt)
        (ConcLog (claim i c) (a ++ P_head i r :: b) lo pr lt)
  | C_drop c i r a b lo pr lt e :
      lg_ring c !! i = Some e -> le_ready e <> 0 ->
      conc_step (ConcLog c (a ++ P_claim i r :: b) lo pr lt)
        (ConcLog (set_dropped (u64 (lg_dropped c + 1)) c) (a ++ b) lo pr (lt ++ [r]))
  | C_head c i r a b lo pr lt :
      conc_step (ConcLog c (a ++ P_head i r :: b) lo pr lt)
        (ConcLog (alter_slot (put_head r) i c) (a ++ P_body i r :: b) lo pr lt)
  | C_body c i r a b lo pr lt :
      conc_step (ConcLog c (a ++ P_body i r :: b) lo pr lt)
        (ConcLog (alter_slot (put_body r) i c) (a ++ P_ready i r :: b) lo pr lt)
  | C_ready c i r a b lo pr lt :
      conc_step (ConcLog c (a ++ P_ready i r :: b) lo pr lt)
        (ConcLog (alter_slot put_ready i c) (a ++ b) lo pr lt)
  | C_consume c c' r ps lo pr lt :
      consume c = (c', Some r) ->
      conc_step (ConcLog c ps lo pr lt) (ConcLog c' ps lo (pr ++ [r]) lt)
  | C_global c level ps lo pr lt :
      conc_step (ConcLog c ps lo pr lt) (ConcLog (set_global level c) ps lo pr lt)
  | C_comp c ci ps lo pr lt :
      conc_step (ConcLog c ps lo pr lt) (ConcLog (set_comps ci c) ps lo pr lt).

Definition conc_init (c : nos_log_context) : conc_log := ConcLog c [] [] [] [].

Definition prod_rec (p : prod_pc) : log_record :=
  match p with P_claim _ r | P_head _ r | P_body _ r | P_ready _ r => r end.

(** The slot a producer owns. *)
Definition owned_slot (p : prod_pc) : option nat :=
  match p with P_claim _ _ => None | P_head i _ | P_body i _ | P_ready i _ => Some i end.

(** What the producer already wrote. *)
Definition written (p : prod_pc) (e : nos_log_entry) : Prop :=
  match p with
  | P_claim _ _ | P_head _ _ => True
  | P_body _ r => lr_level (le_rec e) = lr_level r /\ lr_comp (le_rec e) = lr_comp r
  | P_ready _ r => le_rec e = r
  end.

Definition ready_rec (e : nos_log_entry) : option log_record :=
  if le_ready e =? 2 then Some (le_rec e) else None.
Definition ready_recs (c : nos_log_context) : list log_record := omap ready_rec (lg_ring c).

(** Every slot being written has exactly one writer. *)
Record conc_inv (s : conc_log) : Prop := {
  ci_ring : length (lg_ring (cl_ctx s)) = LOG_BUFFER_SIZE;
  ci_owned p i : p ∈ cl_prods s -> owned_slot p = Some i ->
    exists e, lg_ring (cl_ctx s) !! i = Some e /\ le_ready e = 1 /\ written p e;
  ci_nodup : NoDup (omap owned_slot (cl_prods s));
  ci_states i e : lg_ring (cl_ctx s) !! i = Some e ->
    le_ready e = 0 \/ le_ready e = 2 \/ (le_ready e = 1 /\ i ∈ omap owned_slot (cl_prods s));
  ci_count : lg_dropped (cl_ctx s) = u64 (Z.of_nat (length (cl_lost s)));
  ci_conserve : cl_logged s ≡ₚ
    cl_printed s ++ ready_recs (cl_ctx s) ++ map prod_rec (cl_prods s) ++ cl_lost s;
}.

Lemma omap_insert_new {A B} (f : A -> option B) (l : list A) i x y b :
  l !! i = Some x -> f x = None -> f y = Some b -> omap f (<[i:=y]> l) ≡ₚ b :: omap f l.
Proof.
  intros Hx Hfx Hfy. rewrite insert_take_drop by (by eapply lookup_lt_Some).
  rewrite <-(take_drop_middle l i x Hx) at 3. rewrite !omap_app. cbn [omap list_omap]. rewrite Hfx, Hfy.
  rewrite Permutation_middle. done.
Qed.

Lemma omap_insert_none {A B} (f : A -> option B) (l : list A) i x y :
  l !! i = Some x -> f x = f y -> omap f (<[i:=y]> l) = omap f l.
Proof.
  intros Hx Hf. rewrite insert_take_drop by (by eapply lookup_lt_Some).
  rewrite <-(take_drop_middle l i x Hx) at 3. rewrite !omap_app. cbn [omap list_omap]. by rewrite Hf.
Qed.

Lemma alter_insert {A} (f : A -> A) (l : list A) i x : l !! i = Some x -> alter f i l = <[i:=f x]> l.
Proof.
  intros Hx. apply list_eq. intros j. destruct (decide (j = i)) as [->|].
  - rewrite list_lookup_alter_eq, Hx. rewrite list_lookup_insert_eq; [done|by eapply lookup_lt_Some].
  - by rewrite list_lookup_alter_ne, list_lookup_insert_ne by done.
Qed.

Definition slots_held (ring : list nos_log_entry) (ps : list prod_pc) : Prop :=
  forall p i, p ∈ ps -> owned_slot p = Some i ->
    exists e, ring !! i = Some e /\ le_ready e = 1 /\ written p e.

Definition slots_known (ring : list nos_log_entry) (ps : list prod_pc) : Prop :=
  forall i e, ring !! i = Some e ->
    le_ready e = 0 \/ le_ready e = 2 \/ (le_ready e = 1 /\ i ∈ omap owned_slot ps).

(** A slot that no producer of [ps] owns may be overwritten. *)
Lemma slots_held_insert ring ps i e :
  slots_held ring ps -> i ∉ omap owned_slot ps -> slots_held (<[i:=e]> ring) ps.
Proof.
  intros H Hi p j Hp Hj. assert (j <> i) as Hne.
  { intros ->. apply Hi. apply list_elem_of_omap. eauto. }
  destruct (H p j Hp Hj) as (e' & He & ?). exists e'. by rewrite list_lookup_insert_ne.
Qed.

(** The whole list of producers when one of them moves. *)
Lemma slots_held_middle ring a p b i e :
  slots_held ring (a ++ b) -> i ∉ omap owned_slot (a ++ b) -> owned_slot p = Some i ->
  (i < length ring)%nat -> le_ready e = 1 -> written p e ->
  slots_held (<[i:=e]> ring) (a ++ p :: b).
Proof.
  intros H Hi Hp Hlen Hr Hw q j Hq Hj.
  rewrite elem_of_app, elem_of_cons in Hq. destruct Hq as [Hq|[->|Hq]].
  - eapply slots_held_insert; eauto. rewrite elem_of_app. by left.
  - rewrite Hp in Hj. simplify_eq. exists e. by rewrite list_lookup_insert_eq.
  - eapply slots_held_insert; eauto. rewrite elem_of_app. by right.
Qed.

Lemma omap_owned_middle a p b :
  omap owned_slot (a ++ p :: b) ≡ₚ option_list (owned_slot p) ++ omap owned_slot (a ++ b).
Proof.
  rewrite !omap_app. cbn [omap list_omap]. destruct (owned_slot p); simpl; [|done].
  by rewrite Permutation_middle.
Qed.

Lemma recs_middle a p b : map prod_rec (a ++ p :: b) ≡ₚ prod_rec p :: map prod_rec (a ++ b).
Proof. rewrite !map_app. simpl. by rewrite Permutation_middle. Qed.

Lemma slots_known_insert ring ps ps' i e :
  slots_known ring ps ->
  (forall j, j <> i -> j ∈ omap owned_slot ps -> j ∈ omap owned_slot ps') ->
  (le_ready e = 0 \/ le_ready e = 2 \/ (le_ready e = 1 /\ i ∈ omap owned_slot ps')) ->
  slots_known (<[i:=e]> ring) ps'.
Proof.
  intros H Hsub He j e' Hj. apply list_lookup_insert_Some in Hj as [(-> & -> & _)|(Hne & Hj)]; [done|].
  destruct (H j e' Hj) as [|[|[? ?]]]; auto 6.
Qed.

Lemma slots_known_sub ring ps ps' :
  slots_known ring ps -> (forall j, j ∈ omap owned_slot ps -> j ∈ omap owned_slot ps') ->
  slots_known ring ps'.
Proof. intros H Hs i e He. destruct (H i e He) as [|[|[? ?]]]; auto 6. Qed.

Lemma slots_held_drop ring a p b : slots_held ring (a ++ p :: b) -> slots_held ring (a ++ b).
Proof.
  intros H q j Hq. apply H. rewrite elem_of_app in Hq. rewrite elem_of_app, elem_of_cons. tauto.
Qed.

(** A producer writes part of the slot it owns. *)
Lemma owned_write_inv c a p p' b lo pr lt i f :
  owned_slot p = Some i -> owned_slot p' = Some i -> prod_rec p' = prod_rec p ->
  (forall e, le_ready (f e) = le_ready e) -> (forall e, written p e -> written p' (f e)) ->
  conc_inv (ConcLog c (a ++ p :: b) lo pr lt) ->
  conc_inv (ConcLog (alter_slot f i c) (a ++ p' :: b) lo pr lt).
Proof.
  intros Hp Hp' Hr Hf Hw [Hlen Hown Hnd Hst Hct Hcons]. cbn [cl_ctx cl_prods cl_logged cl_printed cl_lost] in *.
  destruct (Hown p i) as (e & He & He1 & Hwe); [apply elem_of_app; right; left|done|].
  rewrite omap_owned_middle, Hp in Hnd. cbn [option_list] in Hnd. simpl in Hnd.
  apply NoDup_cons in Hnd as [Hni Hnd].
  assert (lg_ring (alter_slot f i c) = <[i:=f e]> (lg_ring c)) as ER by by apply alter_insert.
  split; cbn [cl_ctx cl_prods cl_logged cl_printed cl_lost]; try rewrite ER.
  - by rewrite length_insert.
  - eapply slots_held_middle; eauto using slots_held_drop, lookup_lt_Some. by rewrite Hf.
  - rewrite omap_owned_middle, Hp'. simpl. by constructor.
  - eapply slots_known_insert; [exact Hst| |].
    + intros j _. rewrite !omap_owned_middle, Hp, Hp'. done.
    + right; right. rewrite Hf, omap_owned_middle, Hp'. split; [done|]. left.
  - done.
  - rewrite Hcons. unfold ready_recs. rewrite ER.
    rewrite (omap_insert_none ready_rec _ i e) by (done || by unfold ready_rec; rewrite Hf, He1).
    by rewrite !recs_middle, Hr.
Qed.

Lemma cas_inv c i r a b lo pr lt e :
  lg_ring c !! i = Some e -> le_ready e = 0 ->
  conc_inv (ConcLog c (a ++ P_claim i r :: b) lo pr lt) ->
  conc_inv (ConcLog (claim i c) (a ++ P_head i r :: b) lo pr lt).
Proof.
  intros He He0 [Hlen Hown Hnd Hst Hct Hcons]. cbn [cl_ctx cl_prods cl_logged cl_printed cl_lost] in *.
  rewrite omap_owned_middle in Hnd. simpl in Hnd.
  assert (i ∉ omap owned_slot (a ++ b)) as Hni.
  { intros (q & Hq & Hqi)%list_elem_of_omap.
    destruct (Hown q i) as (e' & He' & ? & _); [|done|simplify_eq; lia].
    rewrite elem_of_app in Hq. rewrite elem_of_app, elem_of_cons. tauto. }
  assert (lg_ring (claim i c) = <[i:=LogEntry (le_rec e) 1]> (lg_ring c)) as ER.
  { unfold claim. cbn [set_ring lg_ring]. by rewrite (alter_insert _ _ _ e). }
  split; cbn [cl_ctx cl_prods cl_logged cl_printed cl_lost]; try rewrite ER.
  - by rewrite length_insert.
  - eapply slots_held_middle; eauto using slots_held_drop, lookup_lt_Some. done.
  - rewrite omap_owned_middle. simpl. by constructor.
  - eapply slots_known_insert; [exact Hst| |].
    + intros j _. rewrite !omap_owned_middle. simpl. by right.
    + right; right. rewrite omap_owned_middle. split; [done|]. left.
  - done.
  - rewrite Hcons. unfold ready_recs. rewrite ER.
    rewrite (omap_insert_none ready_rec _ i e) by (done || by unfold ready_rec; rewrite He0).
    by rewrite !recs_middle.
Qed.

Lemma ready_inv c i r a b lo pr lt :
  conc_inv (ConcLog c (a ++ P_ready i r :: b) lo pr lt) ->
  conc_inv (ConcLog (alter_slot put_ready i c) (a ++ b) lo pr lt).
Proof.
  intros [Hlen Hown Hnd Hst Hct Hcons]. cbn [cl_ctx cl_prods cl_logged cl_printed cl_lost] in *.
  destruct (Hown (P_ready i r) i) as (e & He & He1 & Hwe); [apply elem_of_app; right; left|done|].
  rewrite omap_owned_middle in Hnd. simpl in Hnd. apply NoDup_cons in Hnd as [Hni Hnd].
  assert (lg_ring (alter_slot put_ready i c) = <[i:=put_ready e]> (lg_ring c)) as ER by by apply alter_insert.
  split; cbn [cl_ctx cl_prods cl_logged cl_printed cl_lost]; try rewrite ER.
  - by rewrite length_insert.
  - eapply slots_held_insert; eauto using slots_held_drop.
  - done.
  - eapply slots_known_insert; [exact Hst| |by auto].
    intros j Hj. rewrite omap_owned_middle. simpl. rewrite elem_of_cons. tauto.
  - done.
  - rewrite Hcons. unfold ready_recs. rewrite ER.
    rewrite (omap_insert_new ready_rec _ i e _ r);
      [|done|by unfold ready_rec; rewrite He1|by unfold ready_rec, put_ready; simpl in *; rewrite Hwe].
    rewrite recs_middle. cbn [prod_rec]. simpl. by rewrite <-!Permutation_middle.
Qed.

Lemma consume_inv c c' r ps lo pr lt :
  consume c = (c', Some r) -> conc_inv (ConcLog c ps lo pr lt) ->
  conc_inv (ConcLog c' ps lo (pr ++ [r]) lt).
Proof.
  unfold consume. set (i := slot_of (lg_read c)). intros Hc [Hlen Hown Hnd Hst Hct Hcons].
  cbn [cl_ctx cl_prods cl_logged cl_printed cl_lost] in *.
  destruct (lg_ring c !! i) as [e|] eqn:He; [|done].
  destruct (Z.eqb_spec (le_ready e) 2) as [E2|]; [|done]. injection Hc as <- <-.
  assert (i ∉ omap owned_slot ps) as Hni.
  { intros (q & Hq & Hqi)%list_elem_of_omap. destruct (Hown q i) as (e' & He' & ? & _); [done..|]. simplify_eq. lia. }
  split; cbn [cl_ctx cl_prods cl_logged cl_printed cl_lost lg_ring lg_dropped].
  - by rewrite length_insert.
  - by apply slots_held_insert.
  - done.
  - eapply slots_known_insert; [exact Hst|done|by auto].
  - done.
  - rewrite Hcons. unfold ready_recs. cbn [lg_ring].
    assert (omap ready_rec (lg_ring c) ≡ₚ le_rec e :: omap ready_rec (<[i:=LogEntry (le_rec e) 0]> (lg_ring c))) as ->.
    { rewrite <-(omap_insert_new ready_rec (<[i:=LogEntry (le_rec e) 0]> (lg_ring c)) i (LogEntry (le_rec e) 0) e).
      - by rewrite list_insert_insert_eq, list_insert_id.
      - apply list_lookup_insert_eq. by eapply lookup_lt_Some.
      - done.
      - unfold ready_rec. by rewrite E2. }
    by rewrite <-app_assoc.
Qed.

Lemma conc_step_inv s s' : conc_step s s' -> conc_inv s -> conc_inv s'.
Proof.
  intros Hs Hi. destruct Hs.
  - destruct Hi as [Hlen Hown Hnd Hst Hct Hcons]. cbn [cl_ctx cl_prods cl_logged cl_printed cl_lost] in *.
    assert (omap owned_slot (ps ++ [P_claim (slot_of (lg_write c)) r]) = omap owned_slot ps) as E
      by (rewrite omap_app; simpl; by rewrite app_nil_r).
    split; cbn [cl_ctx cl_prods cl_logged cl_printed cl_lost]; rewrite ?E; try done.
    + intros p i [Hp|Hp%list_elem_of_singleton]%elem_of_app Hi; [by apply Hown|by subst].
    + by rewrite Hcons, map_app, <-!app_assoc, (Permutation_app_comm lt [r]).
  - by eapply cas_inv.
  - destruct Hi as [Hlen Hown Hnd Hst Hct Hcons]. cbn [cl_ctx cl_prods cl_logged cl_printed cl_lost] in *.
    rewrite omap_owned_middle in Hnd.
    split; cbn [cl_ctx cl_prods cl_logged cl_printed cl_lost]; try done.
    + exact (slots_held_drop _ _ _ _ Hown).
    + eapply slots_known_sub; [exact Hst|]. intros j. by rewrite omap_owned_middle.
    + unfold set_dropped. cbn [lg_dropped]. rewrite length_app, Hct. simpl. unfold u64.
      rewrite Zplus_mod_idemp_l. f_equal. lia.
    + rewrite Hcons, recs_middle, (Permutation_app_comm lt [r]). cbn [prod_rec app].
      by rewrite <-(Permutation_middle (map prod_rec (a ++ b))).
  - eapply (owned_write_inv _ _ (P_head i r)); [done..|by intros; split|done].
  - eapply (owned_write_inv _ _ (P_body i r)); [done..| |done].
    intros e [H1 H2]. cbn. destruct r. simpl in *. by subst.
  - by eapply ready_inv.
  - by eapply consume_inv.
  - destruct Hi. split; done.
  - destruct Hi. split; done.
Qed.

Lemma conc_inv_init : conc_inv (conc_init (nos_log_init g_log_ctx)).
Proof.
  pose proof log_ok_init as [Hlen _ _ _ _ _].
  split; cbn [cl_ctx cl_prods cl_logged cl_printed cl_lost conc_init]; try done.
  - by intros p i ?%elem_of_nil.
  - constructor.
  - intros i e Hi. left. assert (i < LOG_BUFFER_SIZE)%nat by (rewrite <-Hlen; by eapply lookup_lt_Some).
    rewrite ring_init_lookup in Hi by done. by simplify_eq.
Qed.

Lemma conc_reach_inv s : rtc conc_step (conc_init (nos_log_init g_log_ctx)) s -> conc_inv s.
Proof.
  intros H. pose proof conc_inv_init as Hi. revert Hi. induction H; [done|]. eauto using conc_step_inv.
Qed.

(** [nos_log_impl] is these steps run without interruption. *)
Lemma nos_log_impl_steps c level id message ps lo pr lt :
  length (lg_ring c) = LOG_BUFFER_SIZE ->
  exists lo' lt', rtc conc_step (ConcLog c ps lo pr lt)
                      (ConcLog (nos_log_impl level id message c) ps lo' pr lt').
Proof.
  intros Hlen. unfold nos_log_impl. destruct (passes c level id) eqn:Hp; [|by eauto using rtc_refl].
  set (r := LogRec level id (strncpy_field LOG_MSG_MAX message)). set (i := slot_of (lg_write c)). cbn zeta.
  set (c1 := set_write (u32 (lg_write c + 1)) c).
  destruct (lookup_lt_is_Some_2 (lg_ring c) i) as [e He]; [rewrite Hlen; apply slot_of_lt|]. rewrite He.
  destruct (Z.eqb_spec (le_ready e) 0) as [E|E]; exists (lo ++ [r]).
  - exists lt. eapply rtc_l; [by apply C_log|]. eapply rtc_l; [by apply (C_cas _ i r ps [] _ _ _ e)|].
    eapply rtc_l; [apply (C_head _ i r ps [])|]. eapply rtc_l; [apply (C_body _ i r ps [])|].
    eapply rtc_l; [apply (C_ready _ i r ps [])|]. rewrite app_nil_r.
    match goal with |- rtc _ (ConcLog ?a _ _ _ _) (ConcLog ?b _ _ _ _) => assert (a = b) as ->; [|apply rtc_refl] end.
    assert (i < length (lg_ring c))%nat by by eapply lookup_lt_Some.
    unfold publish, claim, alter_slot, set_ring, c1, set_write. cbn [lg_ring lg_write lg_read lg_global lg_comp lg_dropped lg_running lg_initialized].
    f_equal. rewrite (alter_insert _ (lg_ring c) i e He).
    erewrite (alter_insert (put_head r)) by by apply list_lookup_insert_eq. rewrite list_insert_insert_eq.
    erewrite (alter_insert (put_body r)) by by apply list_lookup_insert_eq. rewrite list_insert_insert_eq.
    erewrite (alter_insert put_ready) by by apply list_lookup_insert_eq. rewrite !list_insert_insert_eq.
    by destruct r.
  - exists (lt ++ [r]). eapply rtc_l; [by apply C_log|].
    eapply rtc_l; [by apply (C_drop _ i r ps [] _ _ _ e)|]. rewrite app_nil_r. apply rtc_refl.
Qed.

(** ** Properties *)

(** C17. Without drops the log is a queue: from initialisation, whatever
    messages are logged, levels changed and records printed in between, the
    printed records followed by those that further turns of the consumer
    print are exactly the messages that passed the filter, in order. *)
Theorem log_fifo ops :
  log_any_drop ops (nos_log_init g_log_ctx) = false ->
  exists l, log_outputs ops (nos_log_init g_log_ctx) ++ l = log_inputs ops (nos_log_init g_log_ctx) /\
    log_outputs (replicate (length l) OConsume) (log_run ops (nos_log_init g_log_ctx)) = l.
Proof.
  intros Hd. destruct (log_run_ok ops _ [] log_ok_init Hd) as (l & Hok & E).
  exists l. split; [done|]. by apply log_drain.
Qed.

Definition demo_log_ops : list log_op :=
  [OSetCompInfo 3 (Some "ping"%string); OLog NOS_LOG_LEVEL_DEBUG 3 "a"; OConsume;
   OSetCompLevel "Component ID [3] filter level set to WARN "%string 3 NOS_LOG_LEVEL_WARN;
   OLog NOS_LOG_LEVEL_INFO 3 "b"; OLog NOS_LOG_LEVEL_ERROR 3 "c"; OConsume].

Lemma log_fifo_witness :
  log_any_drop demo_log_ops (nos_log_init g_log_ctx) = false /\
  length (log_inputs demo_log_ops (nos_log_init g_log_ctx)) = 3%nat /\
  exists l, log_outputs demo_log_ops (nos_log_init g_log_ctx) ++ l
            = log_inputs demo_log_ops (nos_log_init g_log_ctx) /\
    log_outputs (replicate (length l) OConsume) (log_run demo_log_ops (nos_log_init g_log_ctx)) = l.
Proof.
  split; [by vm_compute|]. split; [by vm_compute|].
  apply (log_fifo demo_log_ops). by vm_compute.
Defined.

(** C16. The compare-and-swap gives every slot one writer: in every
    interleaving of logging threads, the consumer and level changes, each
    record is printed, waiting in the ring, still being written or counted as
    dropped exactly once, none is torn or invented, and when no thread is
    logging every slot is empty or ready. *)
Theorem log_conservation s :
  rtc conc_step (conc_init (nos_log_init g_log_ctx)) s ->
  cl_logged s ≡ₚ cl_printed s ++ ready_recs (cl_ctx s) ++ map prod_rec (cl_prods s) ++ cl_lost s /\
  nos_log_get_dropped_count (cl_ctx s) = u64 (Z.of_nat (length (cl_lost s))) /\
  NoDup (omap owned_slot (cl_prods s)) /\
  (cl_prods s = [] -> forall i e, lg_ring (cl_ctx s) !! i = Some e -> le_ready e = 0 \/ le_ready e = 2).
Proof.
  intros H. destruct (conc_reach_inv s H) as [_ _ Hnd Hst Hct Hcons]. split_and!; [done..|].
  intros E i e He. destruct (Hst i e He) as [|[|[_ Hi]]]; auto. rewrite E in Hi. by apply elem_of_nil in Hi.
Qed.

(** The log after one message and a second one half way through. *)
Definition demo_conc : conc_log :=
  let r1 := LogRec NOS_LOG_LEVEL_INFO 1 "one" in
  let c := nos_log_init g_log_ctx in
  ConcLog (claim 0 (set_write 1 c)) [P_head 0 r1] [r1] [] [].

Lemma log_conservation_witness :
  rtc conc_step (conc_init (nos_log_init g_log_ctx)) demo_conc /\
  NoDup (omap owned_slot (cl_prods demo_conc)).
Proof.
  assert (rtc conc_step (conc_init (nos_log_init g_log_ctx)) demo_conc) as H.
  { eapply rtc_l; [apply (C_log _ [] [] [] [] NOS_LOG_LEVEL_INFO 1 "one"); reflexivity|].
    eapply rtc_l; [apply (C_cas _ 0 _ [] [] _ _ _ (LogEntry zero_rec 0)); reflexivity|]. apply rtc_refl. }
  split; [exact H|]. apply (log_conservation demo_conc H).
Defined.

(** [n] messages numbered from [k] by their component id. *)
Fixpoint burst (n : nat) (k : Z) : list log_op :=
  match n with O => [] | S n => OLog NOS_LOG_LEVEL_ERROR k "m" :: burst n (k + 1) end.

(** A single drop stalls the log: after 1025 messages the 1025th is
    dropped but has used up an index, so once the ring is printed the next
    message is ready in slot 1 while the consumer waits on slot 0.  It stays
    there until 1022 more messages fill the ring, and the one after them is
    printed before them. *)
Theorem log_drop_stalls :
  let c0 := nos_log_init g_log_ctx in
  let c1 := log_run (burst 1025 0) c0 in
  let drain := replicate LOG_BUFFER_SIZE OConsume in
  let c2 := log_run drain c1 in
  let c3 := log_run (burst 1 1025) c2 in
  let c4 := log_run (burst 1022 1026) c3 in
  let c5 := log_run (burst 1 2048) c4 in
  nos_log_get_dropped_count c5 = 1 /\
  length (log_outputs drain c1) = LOG_BUFFER_SIZE /\
  map lr_comp (ready_recs c3) = [1025] /\ log_outputs drain c3 = [] /\
  log_outputs drain c4 = [] /\
  map lr_comp (take 3 (log_outputs drain c5)) = [2048; 1025; 1026].
Proof. vm_compute. repeat split. Qed.
