(* ===== verification/Refs.v ===== *)
(** * Buffer references between components

    Every holder of a buffer (a thread's queue, a connection's transmit
    queue, the code that is handling a message) owns one reference.
    [refs_ok held n] says that the reference counts are exactly the entries
    of the node's queues and the references [held] elsewhere: nothing is
    freed early and nothing leaks.  The lemmas follow the operations of the
    pool and the scheduler.  [IpcLaws] is what the scheduler relies on when
    it hands a buffer to the IPC layer; the routing functions of
    nos_scheduler.c are proved against it, and Ipc.v discharges it. *)

From stdpp Require Import base list gmap strings.
From S2P Require Import Prelude CArray Ring Mem Buffer Service Node Timer Scheduler.
Import Registry.

(** The reference counts are exactly the entries of [l]. *)
Record refs_exact (p : pool) (l : list buf_ref) : Prop := {
  re_in r : r ∈ l -> ref_bin r < g_bin_count p /\ is_Some (get_buf r p);
  re_cnt r b : ref_bin r < g_bin_count p -> get_buf r p = Some b ->
    b_ref_cnt b = Z.of_nat (occurrences r l);
}.

Lemma occurrences_perm r l k : l ≡ₚ k -> occurrences r l = occurrences r k.
Proof. intros E. unfold occurrences. by rewrite E. Qed.

Lemma refs_exact_perm p l k : l ≡ₚ k -> refs_exact p l -> refs_exact p k.
Proof.
  intros E [Hin Hc]. split.
  - intros r Hr. apply Hin. by rewrite E.
  - intros r b Hb Hg. rewrite (Hc r b Hb Hg). by rewrite (occurrences_perm _ _ _ E).
Qed.

Lemma refs_exact_held p l : refs_exact p l -> queue_held p l.
Proof.
  intros [Hin Hc] r Hr. destruct (Hin r Hr) as [Hb [b Hg]]. split; [done|]. exists b. split; [done|].
  rewrite (Hc r b Hb Hg). done.
Qed.

(** A step that only moves the counts of [r] from [x] to [y]. *)
Lemma refs_exact_step p p' r l k :
  refs_exact p l -> g_bin_count p' = g_bin_count p ->
  (forall s, s <> r -> get_buf s p' = get_buf s p) ->
  (forall s, s <> r -> occurrences s k = occurrences s l) ->
  (forall b, ref_bin r < g_bin_count p -> get_buf r p' = Some b -> b_ref_cnt b = Z.of_nat (occurrences r k)) ->
  (r ∈ k -> ref_bin r < g_bin_count p /\ is_Some (get_buf r p')) ->
  (forall s, s <> r -> s ∈ k -> s ∈ l) ->
  refs_exact p' k.
Proof.
  intros [Hin Hc] Hn Hne Ho Hr Hrk Hsub. split; rewrite Hn.
  - intros s Hs. destruct (decide (s = r)) as [->|Hsr]; [by apply Hrk|].
    rewrite Hne by done. by apply Hin, Hsub.
  - intros s b Hb Hg. destruct (decide (s = r)) as [->|Hsr]; [by apply Hr|].
    rewrite Hne in Hg by done. rewrite Ho by done. by apply Hc.
Qed.

Lemma occurrences_cons_ne r s l : s <> r -> occurrences r (s :: l) = occurrences r l.
Proof. intros. by rewrite occurrences_cons, decide_False. Qed.

Lemma occurrences_cons_eq r l : occurrences r (r :: l) = S (occurrences r l).
Proof. by rewrite occurrences_cons, decide_True. Qed.

Lemma refs_exact_retain p r l :
  buf_live r p -> refs_exact p l -> refs_exact (nos_buffer_retain (Some r) p) (r :: l).
Proof.
  intros (Hb & b & Hg & _) He. pose proof He as [Hin Hc]. cbn [nos_buffer_retain].
  apply (refs_exact_step p _ r l); try done.
  - intros s Hs. by apply get_buf_upd_ne.
  - intros s Hs. by apply occurrences_cons_ne.
  - intros b' _. rewrite get_buf_upd_eq, Hg. intros [= <-]. cbn [b_ref_cnt set_ref].
    rewrite (Hc r b Hb Hg), occurrences_cons_eq. lia.
  - intros _. rewrite get_buf_upd_eq, Hg. eauto.
  - intros s Hs. rewrite elem_of_cons. tauto.
Qed.

Lemma refs_exact_release p r l :
  pool_wf p -> refs_exact p (r :: l) -> refs_exact (nos_buffer_release (Some r) p) l.
Proof.
  intros Hw He. pose proof He as [Hin Hc]. destruct (Hin r) as [Hb [b Hg]]; [by left|].
  assert (buf_live r p) as Hl by (eapply queue_held_live; [by apply refs_exact_held|by left]).
  pose proof (release_post_holds p r b Hw Hl Hg) as [Hne Heq].
  pose proof (Hc r b Hb Hg) as Hcnt. rewrite occurrences_cons_eq in Hcnt.
  assert (exists b', get_buf r (nos_buffer_release (Some r) p) = Some b' /\ b_ref_cnt b' = (b_ref_cnt b - 1)%Z) as (b' & Hg' & Hr').
  { destruct (Z.eqb_spec (b_ref_cnt b) 1) as [E|].
    - destruct Heq as (Hg' & _). eexists. split; [exact Hg'|]. cbn. lia.
    - destruct Heq as (Hg' & _). eexists. split; [exact Hg'|]. done. }
  apply (refs_exact_step p _ r (r :: l)); try done.
  - by apply g_bin_count_release.
  - intros s Hs. symmetry. by apply occurrences_cons_ne.
  - intros b2 _ Hb2. simplify_eq. lia.
  - intros s Hs Hsl. by right.
Qed.

Lemma g_bin_count_alloc size hr p : g_bin_count (nos_buffer_alloc size hr p).1 = g_bin_count p.
Proof. unfold nos_buffer_alloc. by repeat case_match. Qed.

Lemma refs_exact_alloc p l size hr :
  pool_wf p -> req_ok size hr -> refs_exact p l ->
  match nos_buffer_alloc size hr p with
  | (p', Some r) => refs_exact p' (r :: l)
  | (p', None) => p' = p
  end.
Proof.
  intros Hw Hr He. pose proof He as [Hin Hc]. pose proof (alloc_post_holds p size hr Hw Hr) as Hpost.
  pose proof (g_bin_count_alloc size hr p) as Hn.
  assert (match nos_buffer_alloc size hr p with (_, Some r) => ref_bin r < g_bin_count p | _ => True end) as Hlt.
  { unfold nos_buffer_alloc. destruct (find_idx _ _) as [i|] eqn:Hi; [|done].
    apply find_idx_lt in Hi. rewrite length_take in Hi. destruct (g_bins p !! i); [|done]. simpl. lia. }
  destruct (nos_buffer_alloc size hr p) as [p' [r|]]; simpl in *; [|by destruct Hpost].
  destruct Hpost as ((x & Hx & Hx0 & Hx' & _) & Hne & _).
  pose proof (Hc r x Hlt Hx) as H0. rewrite Hx0 in H0.
  apply (refs_exact_step p _ r l); try done.
  - intros s Hs. by apply occurrences_cons_ne.
  - intros b _. rewrite Hx'. intros [= <-]. cbn [b_ref_cnt set_ref]. rewrite occurrences_cons_eq. lia.
  - intros s Hs. rewrite elem_of_cons. tauto.
Qed.

(** Writes to the chunk or to the reply context. *)
Lemma refs_exact_edit p p' l :
  g_bin_count p' = g_bin_count p ->
  (forall r, b_ref_cnt <$> get_buf r p' = b_ref_cnt <$> get_buf r p) ->
  refs_exact p l -> refs_exact p' l.
Proof.
  intros Hn Hg [Hin Hc]. split; rewrite Hn.
  - intros r Hr. destruct (Hin r Hr) as [Hb [b Hb']]. split; [done|].
    specialize (Hg r). rewrite Hb' in Hg. simpl in Hg. apply fmap_Some in Hg as (b2 & ? & _). eauto.
  - intros r b Hb Hr. specialize (Hg r). rewrite Hr in Hg. simpl in Hg. symmetry in Hg.
    apply fmap_Some in Hg as (b2 & H2 & ->). by apply Hc.
Qed.

(** ** The node *)

Record refs_ok (held : list buf_ref) (n : node) : Prop := {
  rk_pool : pool_wf (n_pool n);
  rk_ring th T : n_threads n !! th = Some T ->
    ring_ok (msg_queue T) /\ ring_size (msg_queue T) = MAX_QUEUE_SIZE;
  rk_refs : refs_exact (n_pool n) (queued n ++ held);
}.

Lemma refs_ok_perm held held' n : held ≡ₚ held' -> refs_ok held n -> refs_ok held' n.
Proof.
  intros E [Hp Hr Hh]. split; [done..|]. eapply refs_exact_perm; [|exact Hh]. by rewrite E.
Qed.

Lemma refs_ok_live held n r : refs_ok held n -> r ∈ held -> buf_live r (n_pool n).
Proof.
  intros Hk Hr. eapply queue_held_live; [apply refs_exact_held, Hk|]. apply elem_of_app. by right.
Qed.

Lemma refs_ok_msg held n r : refs_ok held n -> r ∈ held -> is_Some (buf_msg r (n_pool n)).
Proof.
  intros Hk Hr. eapply queue_held_msg; [apply refs_exact_held, Hk|]. apply elem_of_app. by right.
Qed.

(** Steps that leave the threads alone. *)
Lemma refs_ok_pool held held' n p :
  refs_ok held n -> pool_wf p -> refs_exact p (queued n ++ held') -> refs_ok held' (upd_pool (fun _ => p) n).
Proof. intros [Hp Hr Hh] Hp' Hh'. by split. Qed.

Lemma refs_ok_retain held r n :
  refs_ok held n -> r ∈ held -> refs_ok (r :: held) (upd_pool (nos_buffer_retain (Some r)) n).
Proof.
  intros Hk Hr. pose proof (refs_ok_live _ _ _ Hk Hr) as Hl.
  apply (refs_ok_pool held (r :: held) n (nos_buffer_retain (Some r) (n_pool n))); [done| |].
  - eapply pool_step_wf; [by apply ps_retain|apply Hk].
  - eapply refs_exact_perm; [|apply refs_exact_retain; [done|apply Hk]]. by rewrite <-Permutation_middle.
Qed.

Lemma refs_ok_release held r n :
  refs_ok (r :: held) n -> refs_ok held (upd_pool (nos_buffer_release (Some r)) n).
Proof.
  intros Hk. assert (buf_live r (n_pool n)) as Hl by (eapply refs_ok_live; [exact Hk|left]).
  apply (refs_ok_pool (r :: held) held n (nos_buffer_release (Some r) (n_pool n))); [done| |].
  - apply pool_wf_release; [apply Hk|done].
  - apply refs_exact_release; [apply Hk|]. eapply refs_exact_perm; [|apply Hk]. by rewrite <-Permutation_middle.
Qed.

Lemma refs_ok_alloc held n size hr :
  refs_ok held n -> req_ok size hr ->
  match nos_buffer_alloc size hr (n_pool n) with
  | (p, Some r) => refs_ok (r :: held) (upd_pool (fun _ => p) n)
  | (p, None) => p = n_pool n
  end.
Proof.
  intros Hk Hr. pose proof (pool_wf_alloc size hr _ (rk_pool _ _ Hk) Hr) as Hw.
  pose proof (refs_exact_alloc _ _ size hr (rk_pool _ _ Hk) Hr (rk_refs _ _ Hk)) as Hh.
  destruct (nos_buffer_alloc size hr (n_pool n)) as [p [r|]]; [|done].
  apply (refs_ok_pool held); [done..|]. eapply refs_exact_perm; [|exact Hh]. by rewrite <-Permutation_middle.
Qed.

Lemma refs_ok_edit held r f n :
  (forall b, b_ref_cnt (f b) = b_ref_cnt b) -> pool_wf (upd_buf r f (n_pool n)) ->
  refs_ok held n -> refs_ok held (upd_pool (upd_buf r f) n).
Proof.
  intros Hf Hw Hk. apply (refs_ok_pool held held n (upd_buf r f (n_pool n))); [done..|].
  eapply refs_exact_edit; [| |apply Hk]; [done|].
  intros s. destruct (decide (r = s)) as [<-|]; [|by rewrite get_buf_upd_ne].
  rewrite get_buf_upd_eq. destruct (get_buf r (n_pool n)); simpl; [by rewrite Hf|done].
Qed.

Lemma refs_ok_write held r f n :
  (forall off m, length (f off m) = length m) -> r ∈ held ->
  refs_ok held n -> refs_ok held (upd_pool (upd_buf r (write_raw f)) n).
Proof.
  intros Hf Hr Hk. apply refs_ok_edit; [done| |done].
  eapply pool_step_wf; [by apply ps_write; [eapply refs_ok_live|]|apply Hk].
Qed.

(** Only the queues of the threads matter. *)
Lemma refs_ok_threads held n n' :
  n_pool n' = n_pool n ->
  (forall th, msg_queue <$> n_threads n' !! th = msg_queue <$> n_threads n !! th) ->
  refs_ok held n -> refs_ok held n'.
Proof.
  intros Hp Ht [Hw Hr Hh]. split; rewrite ?Hp; [done| |].
  - intros th T HT. specialize (Ht th). rewrite HT in Ht. simpl in Ht. symmetry in Ht.
    apply fmap_Some in Ht as (T' & HT' & ->). by eapply Hr.
  - eapply refs_exact_perm; [|exact Hh]. apply Permutation_app_tail.
    unfold queued, queued_in.
    assert (forall m : gmap nat nos_thread, (map_to_list m ≫= fun kv => thread_queue kv.2) =
      (map_to_list (msg_queue <$> m) ≫= fun kv => ring_view kv.2)) as E.
    { intros m. rewrite map_to_list_fmap. induction (map_to_list m) as [|[a b] l IH]; [done|].
      cbn. f_equal. exact IH. }
    rewrite !E. assert (msg_queue <$> n_threads n = msg_queue <$> n_threads n') as ->; [|done].
    apply map_eq. intros th. by rewrite !lookup_fmap, Ht.
Qed.

Lemma local_send_shape r th T n :
  n_threads n !! th = Some T -> ring_full (msg_queue T) = false ->
  exists g, (forall U, msg_queue (g U) = ring_put r (msg_queue U)) /\
    n_threads (nos_transport_local_send r (Some th) n).2 = alter g th (n_threads n) /\
    n_pool (nos_transport_local_send r (Some th) n).2 = nos_buffer_retain (Some r) (n_pool n).
Proof.
  intros HT Hf. unfold nos_transport_local_send. cbn [mbind option_bind]. rewrite HT.
  cbn [fmap option_fmap option_map]. rewrite Hf. cbn [snd].
  set (g := fun T => set_queue (ring_put r (msg_queue T)) T).
  destruct (is_sleeping T).
  - exists (notify ∘ g). split; [done|]. split; [|done]. cbn. apply map_eq. intros k.
    destruct (decide (th = k)) as [<-|]; [|by rewrite !lookup_alter_ne].
    by rewrite !lookup_alter_eq, HT.
  - exists g. done.
Qed.

Lemma refs_ok_send held r th n :
  refs_ok held n -> r ∈ held -> refs_ok held (nos_transport_local_send r th n).2.
Proof.
  intros Hk Hr. destruct th as [th|]; [|done].
  destruct (n_threads n !! th) as [T|] eqn:HT; [|by unfold nos_transport_local_send; simpl; rewrite HT].
  destruct (ring_full (msg_queue T)) eqn:Hf;
    [by unfold nos_transport_local_send; simpl; rewrite HT; simpl; rewrite Hf|].
  destruct (local_send_shape r th T n HT Hf) as (g & Hg & Et & Ep).
  pose proof (refs_ok_retain _ _ _ Hk Hr) as Hk'. destruct (rk_ring _ _ Hk th T HT) as [Hro Hsz].
  pose proof (ring_put_rep r _ _ (ring_ok_rep _ Hro) Hf) as Hrep.
  split; rewrite ?Ep.
  - apply Hk'.
  - intros th' T'. rewrite Et. destruct (decide (th = th')) as [<-|].
    + rewrite lookup_alter_eq, HT. intros [= <-]. rewrite Hg. split; [by eexists|by rewrite ring_size_put].
    + rewrite lookup_alter_ne by done. apply Hk.
  - eapply refs_exact_perm; [|apply Hk']. unfold queued. rewrite Et.
    rewrite (queued_in_alter _ th T) by done. unfold thread_queue at 1. rewrite Hg, (ring_rep_view _ _ Hrep).
    cbn [upd_pool n_threads]. rewrite (queued_in_split _ th T) by done.
    fold (thread_queue T). rewrite <-!app_assoc. cbn [app]. by rewrite <-!Permutation_middle.
Qed.

(** A thread takes a message off its queue and now holds it. *)
Lemma refs_ok_take held th T r q n :
  refs_ok held n -> n_threads n !! th = Some T -> queue_take (msg_queue T) = (Some r, q) ->
  refs_ok (r :: held) (upd_thread th (set_queue q) n).
Proof.
  intros Hk HT Ht. destruct (rk_ring _ _ Hk th T HT) as [Hro Hsz].
  pose proof (ring_ok_rep _ Hro) as Hrep. destruct (ring_view (msg_queue T)) as [|r' l] eqn:Hv.
  { by rewrite (queue_take_nil _ Hrep) in Ht. }
  destruct (queue_take_cons _ _ _ Hrep) as [Ht' Hrep']. rewrite Ht' in Ht. injection Ht as <- <-.
  split; [apply Hk| |].
  - intros th' T'. cbn. destruct (decide (th = th')) as [<-|].
    + rewrite lookup_alter_eq, HT. intros [= <-]. split; [by eexists|done].
    + rewrite lookup_alter_ne by done. apply Hk.
  - eapply refs_exact_perm; [|apply Hk]. unfold queued. cbn.
    rewrite (queued_in_alter _ th T), (queued_in_split (n_threads n) th T) by done.
    unfold thread_queue. cbn [msg_queue set_queue]. rewrite Hv, (ring_rep_view _ _ Hrep').
    cbn [app]. by rewrite <-!Permutation_middle.
Qed.

Lemma refs_ok_set_fds held th (f : nos_thread -> nos_thread) n :
  (forall T, msg_queue (f T) = msg_queue T) -> refs_ok held n -> refs_ok held (upd_thread th f n).
Proof.
  intros Hf. apply refs_ok_threads; [done|]. intros th'. cbn.
  destruct (decide (th = th')) as [<-|]; [|by rewrite lookup_alter_ne].
  rewrite lookup_alter_eq. destruct (n_threads n !! th); simpl; [by rewrite Hf|done].
Qed.

Lemma refs_ok_add_fd held ok th fd cb arg n :
  refs_ok held n -> refs_ok held (nos_scheduler_add_fd_ex ok th fd cb arg n).2.
Proof.
  intros Hk. unfold nos_scheduler_add_fd_ex. destruct (th ≫= _) as [[t T]|]; [|done].
  case_match; [done|]. cbn [snd]. by apply refs_ok_set_fds.
Qed.

Lemma refs_ok_remove_fd held th fd n :
  refs_ok held n -> refs_ok held (nos_scheduler_remove_fd th fd n).2.
Proof.
  intros Hk. unfold nos_scheduler_remove_fd. destruct (th ≫= _) as [[t T]|]; [|done].
  cbv zeta. case_match; cbn [snd]; by apply refs_ok_set_fds.
Qed.

(** ** The contract of the IPC layer

    [ipc_refs held n x]: the reference counts are exactly the node's queues,
    the references held by the IPC layer in state [x], and [held]. *)
Class IpcLaws (X : Type) `{!IpcTransport X} := {
  ipc_refs : list buf_ref -> node -> X -> Prop;
  ipc_refs_live held n x r : ipc_refs held n x -> r ∈ held -> buf_live r (n_pool n);
  ipc_refs_pool held n x : ipc_refs held n x -> pool_wf (n_pool n);
  ipc_refs_alloc held n x size hr :
    ipc_refs held n x -> req_ok size hr ->
    match nos_buffer_alloc size hr (n_pool n) with
    | (p, Some r) => ipc_refs (r :: held) (upd_pool (fun _ => p) n) x
    | (p, None) => p = n_pool n
    end;
  ipc_refs_release held n x r :
    ipc_refs (r :: held) n x -> ipc_refs held (upd_pool (nos_buffer_release (Some r)) n) x;
  ipc_refs_local held n x r th :
    ipc_refs held n x -> r ∈ held -> ipc_refs held (nos_transport_local_send r th n).2 x;
  ipc_refs_write held n x r f :
    (forall off m, length (f off m) = length m) -> r ∈ held ->
    ipc_refs held n x -> ipc_refs held (upd_pool (upd_buf r (write_raw f)) n) x;
  ipc_refs_enqueue held n x r node path :
    ipc_refs held n x -> r ∈ held ->
    let '(_, n', x') := ipc_send_enqueue node path r n x in ipc_refs held n' x';
  ipc_refs_reply held n x r conn gen :
    ipc_refs held n x -> r ∈ held ->
    let '(_, n', x') := ipc_send_reply conn gen r n x in ipc_refs held n' x';
}.

Section routing.
Context {X : Type} `{!IpcTransport X, !IpcLaws X}.

(** Sending keeps the caller's reference and the counts exact. *)
Lemma msg_send_refs held n (x : X) r :
  ipc_refs held n x -> (forall r', r = Some r' -> r' ∈ held) ->
  let '(_, n', x') := nos_service_msg_send r n x in ipc_refs held n' x'.
Proof.
  intros Hk Hr. unfold nos_service_msg_send. destruct r as [r|]; [|done].
  specialize (Hr r eq_refl). cbn [mbind option_bind]. destruct (buf_msg r (n_pool n)) as [h|]; [|done].
  cbn [fmap option_fmap option_map]. destruct (is_reply h).
  - destruct (find_loaded_component_info n (dst_component h)) as [info|]; [|done].
    pose proof (ipc_refs_local held n x r (li_owner_thread info) Hk Hr).
    by destruct (nos_transport_local_send _ _ _).
  - destruct (svc_lookup (dst_service h) (n_registry n)) as [e|]; [|done].
    destruct (is_remote e).
    + by apply ipc_refs_enqueue.
    + pose proof (ipc_refs_local held n x r (local_thread e) Hk Hr).
      by destruct (nos_transport_local_send _ _ _).
Qed.

Lemma upd_pool_comp f g n : upd_pool f (upd_pool g n) = upd_pool (fun p => f (g p)) n.
Proof. done. Qed.

Lemma stamp_reply_refs held n (x : X) c r :
  ipc_refs held n x -> r ∈ held -> ipc_refs held (upd_pool (stamp_reply c r) n) x.
Proof.
  intros Hk Hr. unfold stamp_reply, buf_set_field.
  set (fl := match buf_msg r (n_pool n) with Some h => flags h | None => 0%Z end).
  change (ipc_refs held (upd_pool (upd_buf r (write_raw (set_field F_dst_component (rc_requester_component c))))
    (upd_pool (upd_buf r (write_raw (set_field F_seq (rc_corr_id c))))
      (upd_pool (upd_buf r (write_raw (set_field F_flags (Z.lor fl NOS_MSG_F_REPLY)))) n))) x).
  do 3 (apply ipc_refs_write; [intros; apply length_set_field|done|]). done.
Qed.

Lemma service_reply_refs held n (x : X) ctx r :
  ipc_refs held n x -> (forall r', r = Some r' -> r' ∈ held) ->
  let '(_, n', x') := nos_service_reply ctx r n x in ipc_refs held n' x'.
Proof.
  intros Hk Hr. unfold nos_service_reply. destruct (ctx ≫= _) as [c|]; [|done].
  destruct r as [r|]; [|done]. specialize (Hr r eq_refl).
  apply ipc_refs_reply; [|done]. by apply stamp_reply_refs.
Qed.
End routing.
