(* ===== verification/Shm.v ===== *)
(** * Shared-memory channels (src/infra/shm/nos_shm_ipc.c)

    Two processes share a region with one ring per direction; each ring has
    one writer and one reader.  This file models the channel set-up on a
    name space of shared objects, the two ring operations, and the accesses
    of a concurrent writer and reader. *)

From stdpp Require Import base list gmap strings relations.
From S2P Require Import Prelude Stats.

Definition NOS_SHM_NAME_MAX : nat := 64.
Definition NOS_SHM_SLOT_SIZE : nat := 8192.
Definition NOS_SHM_SLOT_COUNT : nat := 256.
Definition NOS_SHM_MAGIC : Z := 0x4E53484D.
Definition NOS_SHM_VERSION : Z := 1.

(** ** The shared region *)

Record shm_slot := ShmSlot { ss_ready : bool; ss_len : nat; ss_data : list Z }.

Record shm_ring := ShmRing { sr_head : nat; sr_tail : nat; sr_slots : list shm_slot }.

Record shm_region := ShmRegion { rg_magic : Z; rg_version : Z; rg_ab : shm_ring; rg_ba : shm_ring }.

(** [data] is [uint8_t[8192]], never reset by the code. *)
Definition zero_slot : shm_slot := ShmSlot false 0 (replicate NOS_SHM_SLOT_SIZE 0%Z).
Definition zero_ring : shm_ring := ShmRing 0 0 (replicate NOS_SHM_SLOT_COUNT zero_slot).
(** What [ftruncate] leaves in a new object. *)
Definition zero_region : shm_region := ShmRegion 0 0 zero_ring zero_ring.

Definition ring_init (r : shm_ring) : shm_ring :=
  ShmRing 0 0 (map (fun s => ShmSlot false 0 (ss_data s)) (sr_slots r)).

Definition set_head (h : nat) (r : shm_ring) : shm_ring := ShmRing h (sr_tail r) (sr_slots r).
Definition set_tail (t : nat) (r : shm_ring) : shm_ring := ShmRing (sr_head r) t (sr_slots r).
Definition alter_slot (f : shm_slot -> shm_slot) (i : nat) (r : shm_ring) : shm_ring :=
  ShmRing (sr_head r) (sr_tail r) (alter f i (sr_slots r)).

(** [memcpy(slot->data, data, len)] *)
Definition copy_data (data : list Z) (s : shm_slot) : shm_slot :=
  ShmSlot (ss_ready s) (ss_len s) (data ++ drop (length data) (ss_data s)).
Definition set_len (len : nat) (s : shm_slot) : shm_slot := ShmSlot (ss_ready s) len (ss_data s).
Definition set_ready (b : bool) (s : shm_slot) : shm_slot := ShmSlot b (ss_len s) (ss_data s).

(** [slot->data, slot->len] as handed to the reader's callback. *)
Definition slot_msg (s : shm_slot) : list Z := take (ss_len s) (ss_data s).

(** ** Counters *)

Record shm_stats := ShmStats {
  st_tx_packets : Z; st_rx_packets : Z; st_tx_bytes : Z; st_rx_bytes : Z;
  st_ring_full : Z; st_fallback_uds : Z; st_open_errors : Z;
}.

Definition shm_stats_zero : shm_stats := ShmStats 0 0 0 0 0 0 0.

Local Open Scope Z_scope.
Definition count_tx_packet (s : shm_stats) : shm_stats :=
  ShmStats (u64 (st_tx_packets s + 1)) (st_rx_packets s) (st_tx_bytes s) (st_rx_bytes s)
           (st_ring_full s) (st_fallback_uds s) (st_open_errors s).
Definition count_tx_bytes (n : nat) (s : shm_stats) : shm_stats :=
  ShmStats (st_tx_packets s) (st_rx_packets s) (u64 (st_tx_bytes s + Z.of_nat n)) (st_rx_bytes s)
           (st_ring_full s) (st_fallback_uds s) (st_open_errors s).
Definition count_rx_packet (s : shm_stats) : shm_stats :=
  ShmStats (st_tx_packets s) (u64 (st_rx_packets s + 1)) (st_tx_bytes s) (st_rx_bytes s)
           (st_ring_full s) (st_fallback_uds s) (st_open_errors s).
Definition count_rx_bytes (n : nat) (s : shm_stats) : shm_stats :=
  ShmStats (st_tx_packets s) (st_rx_packets s) (st_tx_bytes s) (u64 (st_rx_bytes s + Z.of_nat n))
           (st_ring_full s) (st_fallback_uds s) (st_open_errors s).
Definition count_full (s : shm_stats) : shm_stats :=
  ShmStats (st_tx_packets s) (st_rx_packets s) (st_tx_bytes s) (st_rx_bytes s)
           (u64 (st_ring_full s + 1)) (u64 (st_fallback_uds s + 1)) (st_open_errors s).
Definition count_open_error (s : shm_stats) : shm_stats :=
  ShmStats (st_tx_packets s) (st_rx_packets s) (st_tx_bytes s) (st_rx_bytes s)
           (st_ring_full s) (st_fallback_uds s) (u64 (st_open_errors s + 1)).
Local Close Scope Z_scope.

(** ** The ring operations *)

Definition next_idx (i : nat) : nat := (i + 1) mod NOS_SHM_SLOT_COUNT.

Definition write_slot (data : list Z) (i : nat) (r : shm_ring) : shm_ring :=
  alter_slot (set_ready true) i (alter_slot (set_len (length data)) i (alter_slot (copy_data data) i r)).

(** [nos_shm_channel_write] on the transmit ring; [data] is the caller's
    block of [len] bytes. *)
Definition ring_write (data : list Z) (r : shm_ring) (st : shm_stats) : nos_status * shm_ring * shm_stats :=
  if (length data =? 0) || (NOS_SHM_SLOT_SIZE <? length data) then (NOS_ERR, r, st)
  else
    let next_tail := next_idx (sr_tail r) in
    if next_tail =? sr_head r then (NOS_ERR_BUSY, r, count_full st)
    else (NOS_OK, set_tail next_tail (write_slot data (sr_tail r) r),
          count_tx_bytes (length data) (count_tx_packet st)).

(** ** Channels *)

(** The shared objects of the host and the names that lead to them: a name
    can be unlinked while the object stays mapped. *)
Record shm_host := ShmHost { sh_names : gmap string nat; sh_objects : list shm_region }.

Record nos_shm_channel := ShmChannel {
  ch_name : string;        (* char[64] *)
  ch_owner : bool;
  ch_tx_ab : bool;
  ch_region : nat;         (* the mapped object *)
}.

(** What the kernel answers to [ftruncate], [mmap] and [calloc]. *)
Record map_answers := MapAnswers { ma_trunc : bool; ma_mmap : bool; ma_calloc : bool }.

Definition shm_unlink (name : string) (h : shm_host) : shm_host :=
  ShmHost (delete name (sh_names h)) (sh_objects h).

(** [shm_open]: an existing object, or with [O_CREAT] a new one. *)
Definition shm_open (name : string) (create : bool) (h : shm_host) : option nat * shm_host :=
  match sh_names h !! name with
  | Some i => (Some i, h)
  | None =>
      if create
      then (Some (length (sh_objects h)),
            ShmHost (<[name := length (sh_objects h)]> (sh_names h)) (sh_objects h ++ [zero_region]))
      else (None, h)
  end.

Definition init_region (r : shm_region) : shm_region :=
  ShmRegion NOS_SHM_MAGIC NOS_SHM_VERSION (ring_init (rg_ab r)) (ring_init (rg_ba r)).

Definition channel_map (a : map_answers) (name : string) (tx_ab create : bool) (h : shm_host)
    (st : shm_stats) : option nos_shm_channel * shm_host * shm_stats :=
  match shm_open name create h with
  | (None, h) => (None, h, count_open_error st)
  | (Some i, h) =>
      if create && negb (ma_trunc a) then (None, h, count_open_error st)
      else if negb (ma_mmap a) then (None, h, count_open_error st)
      else if negb (ma_calloc a) then (None, h, st)
      else
        let fresh := match sh_objects h !! i with
                     | Some r => negb (Z.eqb (rg_magic r) NOS_SHM_MAGIC) | None => false end in
        let h := if create || fresh then ShmHost (sh_names h) (alter init_region i (sh_objects h)) else h in
        (Some (ShmChannel (strncpy_field NOS_SHM_NAME_MAX name) create tx_ab i), h, st)
  end.

Definition starts_with_slash (name : string) : bool := str_prefix "/" name.

Definition nos_shm_channel_create (a : map_answers) (name : option string) (tx_ab : bool)
    (h : shm_host) (st : shm_stats) : option nos_shm_channel * shm_host * shm_stats :=
  match name with
  | Some name =>
      if starts_with_slash name then channel_map a name tx_ab true (shm_unlink name h) st
      else (None, h, st)
  | None => (None, h, st)
  end.

Definition nos_shm_channel_open (a : map_answers) (name : option string) (tx_ab : bool)
    (h : shm_host) (st : shm_stats) : option nos_shm_channel * shm_host * shm_stats :=
  match name with
  | Some name =>
      if starts_with_slash name then channel_map a name tx_ab false h st else (None, h, st)
  | None => (None, h, st)
  end.

Definition nos_shm_channel_close (ch : option nos_shm_channel) (h : shm_host) : shm_host :=
  match ch with
  | Some ch =>
      if ch_owner ch && negb (String.eqb (ch_name ch) "") then shm_unlink (ch_name ch) h else h
  | None => h
  end.

(** The ring of a region a channel transmits on, resp. receives from. *)
Definition dir_ring (ab : bool) (r : shm_region) : shm_ring := if ab then rg_ab r else rg_ba r.
Definition set_dir_ring (ab : bool) (q : shm_ring) (r : shm_region) : shm_region :=
  if ab then ShmRegion (rg_magic r) (rg_version r) q (rg_ba r)
  else ShmRegion (rg_magic r) (rg_version r) (rg_ab r) q.

Definition tx_ring (ch : nos_shm_channel) (h : shm_host) : option shm_ring :=
  dir_ring (ch_tx_ab ch) <$> sh_objects h !! ch_region ch.
Definition rx_ring (ch : nos_shm_channel) (h : shm_host) : option shm_ring :=
  dir_ring (negb (ch_tx_ab ch)) <$> sh_objects h !! ch_region ch.

Definition store_ring (i : nat) (ab : bool) (q : shm_ring) (h : shm_host) : shm_host :=
  ShmHost (sh_names h) (alter (set_dir_ring ab q) i (sh_objects h)).

Definition nos_shm_channel_write (ch : option nos_shm_channel) (data : option (list Z))
    (h : shm_host) (st : shm_stats) : nos_status * shm_host * shm_stats :=
  match ch, data with
  | Some ch, Some data =>
      match tx_ring ch h with
      | Some r =>
          let '(res, r, st) := ring_write data r st in
          (res, store_ring (ch_region ch) (ch_tx_ab ch) r h, st)
      | None => (NOS_ERR, h, st)
      end
  | _, _ => (NOS_ERR, h, st)
  end.

(** The receiving process: its state [S] gives access to the shared objects
    and the counters, which the callback may change as well. *)
Class ShmState (S : Type) := {
  shm_get : S -> shm_host * shm_stats;
  shm_set : shm_host * shm_stats -> S -> S;
  shm_get_set v s : shm_get (shm_set v s) = v;
}.

(** [slot->ready = 0; hdr.head = head + 1; rx_packets++; rx_bytes += slot->len] *)
Definition release_slot (i : nat) (ab : bool) (head : nat) (v : shm_host * shm_stats)
    : shm_host * shm_stats :=
  let r := default zero_ring (dir_ring ab <$> sh_objects v.1 !! i) in
  let r' := set_head (next_idx head) (alter_slot (set_ready false) head r) in
  let len := match sr_slots r' !! head with Some slot => ss_len slot | None => 0 end in
  (store_ring i ab r' v.1, count_rx_bytes len (count_rx_packet v.2)).

Section drain.
Context {S : Type} `{!ShmState S} (on_msg : list Z -> S -> S).

(** The loop on ring [ab] of object [i]: the number drained. *)
Fixpoint drain_loop (fuel : nat) (i : nat) (ab : bool) (s : S) (drained : nat) : nat * S :=
  match fuel with
  | O => (drained, s)
  | Datatypes.S fuel =>
      match dir_ring ab <$> sh_objects (shm_get s).1 !! i with
      | None => (drained, s)
      | Some r =>
          let head := sr_head r in
          if head =? sr_tail r then (drained, s)
          else
            match sr_slots r !! head with
            | Some slot =>
                if ss_ready slot then
                  let s1 := on_msg (slot_msg slot) s in
                  drain_loop fuel i ab (shm_set (release_slot i ab head (shm_get s1)) s1) (drained + 1)
                else (drained, s)
            | None => (drained, s)
            end
      end
  end.
End drain.

Definition nos_shm_channel_drain {S} `{!ShmState S} (on_msg : option (list Z -> S -> S)) (fuel : nat)
    (ch : option nos_shm_channel) (s : S) : nat * S :=
  match ch, on_msg with
  | Some ch, Some on_msg => drain_loop on_msg fuel (ch_region ch) (negb (ch_tx_ab ch)) s 0
  | _, _ => (0, s)
  end.

(** A receiver whose callback works on a state [T] of its own. *)
#[export] Instance shm_pair (T : Type) : ShmState ((shm_host * shm_stats) * T) := {|
  shm_get := fst;
  shm_set := fun v s => (v, s.2);
  shm_get_set := fun v s => eq_refl;
|}.

Definition lift_msg {T} (f : list Z -> T -> T) (m : list Z) (s : (shm_host * shm_stats) * T)
    : (shm_host * shm_stats) * T := (s.1, f m s.2).

(** ** Concurrent writer and reader

    The accesses of [nos_shm_channel_write] and [nos_shm_channel_drain] to the
    ring, one step each. *)

Inductive writer_pc :=
  | W_idle
  | W_tail (data : list Z) (h : nat)     (* [head] read *)
  | W_copy (data : list Z) (t : nat)     (* there is room at [t] *)
  | W_len (data : list Z) (t : nat)
  | W_ready (data : list Z) (t : nat)
  | W_publish (data : list Z) (t : nat)
  | W_packet (data : list Z)             (* [tail] stored *)
  | W_bytes (data : list Z).

Inductive reader_pc :=
  | R_idle
  | R_tail (h : nat)                     (* [head] read *)
  | R_check (h : nat)                    (* [tail] differs *)
  | R_deliver (h : nat)                  (* the slot is ready *)
  | R_clear (h : nat)
  | R_advance (h : nat)
  | R_packet (h : nat)                   (* [head] stored *)
  | R_bytes (h : nat).

Record spsc := Spsc {
  sp_ring : shm_ring;
  sp_stats : shm_stats;
  sp_w : writer_pc;
  sp_r : reader_pc;
  sp_sent : list (list Z);               (* published by the writer *)
  sp_got : list (list Z);                (* handed to [on_msg] *)
}.

Inductive writer_step : spsc -> spsc -> Prop :=
  | WS_start q st rp sent got data :
      0 < length data <= NOS_SHM_SLOT_SIZE ->
      writer_step (Spsc q st W_idle rp sent got) (Spsc q st (W_tail data (sr_head q)) rp sent got)
  | WS_full q st rp sent got data h :
      next_idx (sr_tail q) = h ->
      writer_step (Spsc q st (W_tail data h) rp sent got) (Spsc q (count_full st) W_idle rp sent got)
  | WS_room q st rp sent got data h :
      next_idx (sr_tail q) <> h ->
      writer_step (Spsc q st (W_tail data h) rp sent got) (Spsc q st (W_copy data (sr_tail q)) rp sent got)
  | WS_copy q st rp sent got data t :
      writer_step (Spsc q st (W_copy data t) rp sent got)
        (Spsc (alter_slot (copy_data data) t q) st (W_len data t) rp sent got)
  | WS_len q st rp sent got data t :
      writer_step (Spsc q st (W_len data t) rp sent got)
        (Spsc (alter_slot (set_len (length data)) t q) st (W_ready data t) rp sent got)
  | WS_ready q st rp sent got data t :
      writer_step (Spsc q st (W_ready data t) rp sent got)
        (Spsc (alter_slot (set_ready true) t q) st (W_publish data t) rp sent got)
  | WS_publish q st rp sent got data t :
      writer_step (Spsc q st (W_publish data t) rp sent got)
        (Spsc (set_tail (next_idx t) q) st (W_packet data) rp (sent ++ [data]) got)
  | WS_packet q st rp sent got data :
      writer_step (Spsc q st (W_packet data) rp sent got)
        (Spsc q (count_tx_packet st) (W_bytes data) rp sent got)
  | WS_bytes q st rp sent got data :
      writer_step (Spsc q st (W_bytes data) rp sent got)
        (Spsc q (count_tx_bytes (length data) st) W_idle rp sent got).

Inductive reader_step : spsc -> spsc -> Prop :=
  | RS_start q st wp sent got :
      reader_step (Spsc q st wp R_idle sent got) (Spsc q st wp (R_tail (sr_head q)) sent got)
  | RS_empty q st wp sent got h :
      h = sr_tail q ->
      reader_step (Spsc q st wp (R_tail h) sent got) (Spsc q st wp R_idle sent got)
  | RS_some q st wp sent got h :
      h <> sr_tail q ->
      reader_step (Spsc q st wp (R_tail h) sent got) (Spsc q st wp (R_check h) sent got)
  | RS_unready q st wp sent got h s :
      sr_slots q !! h = Some s -> ss_ready s = false ->
      reader_step (Spsc q st wp (R_check h) sent got) (Spsc q st wp R_idle sent got)
  | RS_ready q st wp sent got h s :
      sr_slots q !! h = Some s -> ss_ready s = true ->
      reader_step (Spsc q st wp (R_check h) sent got) (Spsc q st wp (R_deliver h) sent got)
  | RS_deliver q st wp sent got h s :
      sr_slots q !! h = Some s ->
      reader_step (Spsc q st wp (R_deliver h) sent got)
        (Spsc q st wp (R_clear h) sent (got ++ [slot_msg s]))
  | RS_clear q st wp sent got h :
      reader_step (Spsc q st wp (R_clear h) sent got)
        (Spsc (alter_slot (set_ready false) h q) st wp (R_advance h) sent got)
  | RS_advance q st wp sent got h :
      reader_step (Spsc q st wp (R_advance h) sent got)
        (Spsc (set_head (next_idx h) q) st wp (R_packet h) sent got)
  | RS_packet q st wp sent got h :
      reader_step (Spsc q st wp (R_packet h) sent got)
        (Spsc q (count_rx_packet st) wp (R_bytes h) sent got)
  | RS_bytes q st wp sent got h s :
      sr_slots q !! h = Some s ->
      reader_step (Spsc q st wp (R_bytes h) sent got)
        (Spsc q (count_rx_bytes (ss_len s) st) wp R_idle sent got).

Definition spsc_step (s s' : spsc) : Prop := writer_step s s' \/ reader_step s s'.

Definition spsc_init : spsc :=
  Spsc (ring_init zero_ring) shm_stats_zero W_idle R_idle [] [].

(** ** Slot arithmetic *)

Definition idx (k : nat) : nat := k mod NOS_SHM_SLOT_COUNT.

Lemma idx_lt k : idx k < NOS_SHM_SLOT_COUNT.
Proof. apply Nat.mod_upper_bound. done. Qed.

Lemma idx_ne j k : j < k -> k < j + NOS_SHM_SLOT_COUNT -> idx j <> idx k.
Proof.
  unfold idx, NOS_SHM_SLOT_COUNT. intros H1 H2 E.
  pose proof (Nat.div_mod_eq j 256). pose proof (Nat.div_mod_eq k 256). lia.
Qed.

Lemma next_idx_idx k : next_idx (idx k) = idx (S k).
Proof.
  unfold next_idx, idx. rewrite Nat.Div0.add_mod_idemp_l. f_equal. lia.
Qed.

Lemma idx_eq j k : idx j = idx k -> j <= k -> k < j + NOS_SHM_SLOT_COUNT -> j = k.
Proof. intros E H1 H2. destruct (decide (j = k)); [done|]. exfalso. apply (idx_ne j k); [lia|done..]. Qed.

(** ** The invariant of the two sides *)

Definition total_len (l : list (list Z)) : Z := Z.of_nat (sum_list_with length l).

(** Messages handed over whose slot is not yet given back. *)
Definition unfreed (rp : reader_pc) : nat := match rp with R_clear _ | R_advance _ => 1 | _ => 0 end.
(** Messages not yet in [rx_packets], resp. [rx_bytes]. *)
Definition uncounted (rp : reader_pc) : nat :=
  match rp with R_clear _ | R_advance _ | R_packet _ => 1 | _ => 0 end.
Definition unsized (rp : reader_pc) : nat :=
  match rp with R_clear _ | R_advance _ | R_packet _ | R_bytes _ => 1 | _ => 0 end.
Definition w_uncounted (wp : writer_pc) : nat := match wp with W_packet _ => 1 | _ => 0 end.
Definition w_unsized (wp : writer_pc) : nat := match wp with W_packet _ | W_bytes _ => 1 | _ => 0 end.

(** A slot holds message [m]. *)
Definition holds (q : shm_ring) (k : nat) (m : list Z) (ready : bool) : Prop :=
  exists s, sr_slots q !! idx k = Some s /\ ss_len s = length m /\ slot_msg s = m /\
    (ready = true -> ss_ready s = true).

(** The [k]-th message may already be unready when the reader is done with it. *)
Definition must_be_ready (rp : reader_pc) (c k : nat) : bool :=
  match rp with R_advance _ => negb (k =? c) | _ => true end.

(** What the writer knows about its slot [p]. *)
Definition writer_ok (q : shm_ring) (c p : nat) (wp : writer_pc) : Prop :=
  match wp with
  | W_idle | W_packet _ | W_bytes _ => True
  | W_tail data h => 0 < length data <= NOS_SHM_SLOT_SIZE /\
      exists c', c' <= c /\ h = idx c' /\ p < c' + NOS_SHM_SLOT_COUNT
  | W_copy data t => 0 < length data <= NOS_SHM_SLOT_SIZE /\ t = idx p /\ S p < c + NOS_SHM_SLOT_COUNT
  | W_len data t => 0 < length data <= NOS_SHM_SLOT_SIZE /\ t = idx p /\ S p < c + NOS_SHM_SLOT_COUNT /\
      exists s, sr_slots q !! t = Some s /\ take (length data) (ss_data s) = data
  | W_ready data t => 0 < length data <= NOS_SHM_SLOT_SIZE /\ t = idx p /\ S p < c + NOS_SHM_SLOT_COUNT /\
      holds q p data false
  | W_publish data t => 0 < length data <= NOS_SHM_SLOT_SIZE /\ t = idx p /\ S p < c + NOS_SHM_SLOT_COUNT /\
      holds q p data true
  end.

Definition reader_ok (q : shm_ring) (c p : nat) (got : list (list Z)) (rp : reader_pc) : Prop :=
  match rp with
  | R_idle => True
  | R_tail h => h = idx c
  | R_check h | R_deliver h | R_clear h | R_advance h => h = idx c /\ c < p
  | R_packet h | R_bytes h =>
      exists g m s, got = g ++ [m] /\ h = idx (length g) /\
        sr_slots q !! h = Some s /\ ss_len s = length m
  end.

(** [c] messages were given back, [p] published. *)
Record spsc_inv (s : spsc) (c p : nat) : Prop := {
  si_slots : length (sr_slots (sp_ring s)) = NOS_SHM_SLOT_COUNT;
  si_data : Forall (fun sl => length (ss_data sl) = NOS_SHM_SLOT_SIZE) (sr_slots (sp_ring s));
  si_p : p = length (sp_sent s);
  si_c : length (sp_got s) = c + unfreed (sp_r s);
  si_head : sr_head (sp_ring s) = idx c;
  si_tail : sr_tail (sp_ring s) = idx p;
  si_room : length (sp_got s) <= p < c + NOS_SHM_SLOT_COUNT;
  si_got : sp_got s = take (length (sp_got s)) (sp_sent s);
  si_held k m : c <= k -> sp_sent s !! k = Some m ->
    holds (sp_ring s) k m (must_be_ready (sp_r s) c k);
  si_writer : writer_ok (sp_ring s) c p (sp_w s);
  si_reader : reader_ok (sp_ring s) c p (sp_got s) (sp_r s);
}.

(** The counters, up to what each side has not counted yet. *)
Record stats_inv (s : spsc) : Prop := {
  sn_rxp : st_rx_packets (sp_stats s) = u64 (Z.of_nat (length (sp_got s) - uncounted (sp_r s)));
  sn_rxb : st_rx_bytes (sp_stats s) = u64 (total_len (take (length (sp_got s) - unsized (sp_r s)) (sp_got s)));
  sn_txp : st_tx_packets (sp_stats s) = u64 (Z.of_nat (length (sp_sent s) - w_uncounted (sp_w s)));
  sn_txb : st_tx_bytes (sp_stats s) = u64 (total_len (take (length (sp_sent s) - w_unsized (sp_w s)) (sp_sent s)));
  sn_last data : sp_w s = W_packet data \/ sp_w s = W_bytes data -> last (sp_sent s) = Some data;
}.

(** ** Preservation *)

Lemma alter_slot_ne f i j q : i <> j -> sr_slots (alter_slot f i q) !! j = sr_slots q !! j.
Proof. intros. by apply list_lookup_alter_ne. Qed.

Lemma alter_slot_eq f i q s : sr_slots q !! i = Some s -> sr_slots (alter_slot f i q) !! i = Some (f s).
Proof. intros H. cbn. by rewrite list_lookup_alter_eq, H. Qed.

Lemma holds_ne f i q k m b : idx k <> i -> holds q k m b -> holds (alter_slot f i q) k m b.
Proof. intros Hne (s & Hs & ?). exists s. by rewrite alter_slot_ne. Qed.

Lemma holds_weaken q k m b b' : (b' = true -> b = true) -> holds q k m b -> holds q k m b'.
Proof. intros Hb (s & ? & ? & ? & H). exists s. split_and!; auto. Qed.

Lemma slot_in q k : length (sr_slots q) = NOS_SHM_SLOT_COUNT -> is_Some (sr_slots q !! idx k).
Proof. intros H. apply lookup_lt_is_Some. rewrite H. apply idx_lt. Qed.

Lemma data_alter f i q :
  (forall s, length (ss_data s) = NOS_SHM_SLOT_SIZE -> length (ss_data (f s)) = NOS_SHM_SLOT_SIZE) ->
  Forall (fun s => length (ss_data s) = NOS_SHM_SLOT_SIZE) (sr_slots q) ->
  Forall (fun s => length (ss_data s) = NOS_SHM_SLOT_SIZE) (sr_slots (alter_slot f i q)).
Proof.
  rewrite !Forall_lookup. intros Hf H j s Hj. cbn in Hj.
  destruct (decide (j = i)) as [->|].
  - rewrite list_lookup_alter_eq in Hj. apply fmap_Some in Hj as (s' & Hs' & ->). eauto.
  - rewrite list_lookup_alter_ne in Hj by done. eauto.
Qed.

Lemma copy_data_length data s :
  length data <= NOS_SHM_SLOT_SIZE ->
  length (ss_data s) = NOS_SHM_SLOT_SIZE -> length (ss_data (copy_data data s)) = NOS_SHM_SLOT_SIZE.
Proof. intros H E. unfold copy_data. cbn [ss_data]. rewrite length_app, length_drop. lia. Qed.

(** A write to the writer's slot is seen by nobody else. *)
Lemma writer_slot_inv q st wp wp' rp sent got c p f :
  spsc_inv (Spsc q st wp rp sent got) c p ->
  S p < c + NOS_SHM_SLOT_COUNT ->
  (forall s, length (ss_data s) = NOS_SHM_SLOT_SIZE -> length (ss_data (f s)) = NOS_SHM_SLOT_SIZE) ->
  writer_ok (alter_slot f (idx p) q) c p wp' ->
  spsc_inv (Spsc (alter_slot f (idx p) q) st wp' rp sent got) c p.
Proof.
  intros [Hsl Hda Hp Hc Hhd Htl Hroom Hgot Hheld Hw Hr] Hlt Hf Hw'.
  cbn [sp_ring sp_stats sp_w sp_r sp_sent sp_got] in *.
  split; cbn [sp_ring sp_stats sp_w sp_r sp_sent sp_got]; try done.
  - cbn. by rewrite length_alter.
  - by apply data_alter.
  - intros k m Hk Hm. apply holds_ne; [|by apply Hheld].
    apply lookup_lt_Some in Hm. apply idx_ne; lia.
  - destruct rp; cbn [reader_ok] in *; try done;
      destruct Hr as (g & m & s & -> & -> & Hs & Hl); exists g, m, s; split_and!; try done;
      rewrite alter_slot_ne; try done; rewrite length_app in *; cbn [length unfreed] in *;
      apply not_eq_sym, idx_ne; lia.
Qed.

Lemma writer_step_inv s s' c p :
  spsc_inv s c p -> writer_step s s' -> exists p', spsc_inv s' c p'.
Proof.
  intros Hi Hs. destruct Hs; pose proof Hi as [Hsl Hda Hp Hc Hhd Htl Hroom Hgot Hheld Hw Hr];
    cbn [sp_ring sp_stats sp_w sp_r sp_sent sp_got writer_ok] in *.
  - exists p. split; try done. cbn [sp_ring sp_stats sp_w sp_r sp_sent sp_got writer_ok]. split; [done|]. exists c. split_and!; lia || done.
  - exists p. split; done.
  - exists p. split; try done. cbn [sp_ring sp_stats sp_w sp_r sp_sent sp_got writer_ok]. destruct Hw as (Hd & c' & Hc' & -> & Hlt).
    split_and!; [lia|lia|done|]. rewrite Htl, next_idx_idx in H.
    destruct (decide (S p = c' + NOS_SHM_SLOT_COUNT)) as [E|]; [|lia].
    exfalso. apply H. rewrite E. unfold idx. rewrite <-(Nat.mul_1_l NOS_SHM_SLOT_COUNT) at 1. by rewrite Nat.Div0.mod_add.
  - destruct Hw as (Hd & -> & Hlt). exists p. eapply writer_slot_inv; [done|done| |].
    + intros sl. apply copy_data_length. lia.
    + cbn [sp_ring sp_stats sp_w sp_r sp_sent sp_got writer_ok]. split_and!; try done; try lia. destruct (slot_in q p Hsl) as [sl Hsl'].
      eexists. split; [by apply alter_slot_eq|]. cbn. by rewrite take_app_length.
  - destruct Hw as (Hd & -> & Hlt & sl & Hsl' & Hdata). exists p. eapply writer_slot_inv; [done|done|done|].
    cbn [sp_ring sp_stats sp_w sp_r sp_sent sp_got writer_ok]. split_and!; try done; try lia. eexists. split; [by apply alter_slot_eq|]. by cbn.
  - destruct Hw as (Hd & -> & Hlt & sl & Hsl' & Hl & Hm & _). exists p.
    eapply writer_slot_inv; [done|done|done|].
    cbn [sp_ring sp_stats sp_w sp_r sp_sent sp_got writer_ok]. split_and!; try done; try lia. eexists. split; [by apply alter_slot_eq|]. by cbn.
  - destruct Hw as (Hd & -> & Hlt & Hh). exists (S p).
    split; cbn [sp_ring sp_stats sp_w sp_r sp_sent sp_got writer_ok]; try done.
    + rewrite length_app. simpl. lia.
    + by rewrite next_idx_idx.
    + lia.
    + rewrite take_app_le by lia. done.
    + intros k m Hk Hm. destruct (decide (k = p)) as [->|].
      * rewrite Hp, lookup_app_r, Nat.sub_diag in Hm by lia. simplify_eq/=.
        by eapply holds_weaken; [|exact Hh].
      * pose proof (lookup_lt_Some _ _ _ Hm) as Hk'. rewrite length_app in Hk'. simpl in Hk'.
        rewrite lookup_app_l in Hm by lia. by apply (Hheld k m).
    + destruct rp; cbn [reader_ok] in *; try exact Hr; destruct Hr; split; done || lia.
  - exists p. split; done.
  - exists p. split; done.
Qed.

Lemma take_snoc_lookup {A} (l : list A) n x : l !! n = Some x -> take (n + 1) l = take n l ++ [x].
Proof. intros H. rewrite Nat.add_1_r. by apply take_S_r. Qed.

Lemma reader_deliver_inv q st wp h sent got sl c p :
  spsc_inv (Spsc q st wp (R_deliver h) sent got) c p -> sr_slots q !! h = Some sl ->
  spsc_inv (Spsc q st wp (R_clear h) sent (got ++ [slot_msg sl])) c p /\
  sent !! length got = Some (slot_msg sl).
Proof.
  intros [Hsl Hda Hp Hc Hhd Htl Hroom Hgot Hheld Hw Hr] Hs.
  cbn [sp_ring sp_stats sp_w sp_r sp_sent sp_got writer_ok reader_ok unfreed] in *.
  destruct Hr as [-> Hlt].
  destruct (lookup_lt_is_Some_2 sent c) as [m Hm]; [lia|].
  destruct (Hheld c m) as (s' & Hs' & Hl & Hm' & _); [lia|done|]. simplify_eq.
  assert (length got = c) as Eg by lia. rewrite Eg. split; [|done].
  split; cbn [sp_ring sp_stats sp_w sp_r sp_sent sp_got reader_ok unfreed must_be_ready]; try done.
  - rewrite length_app. simpl. lia.
  - rewrite length_app. simpl. lia.
  - rewrite length_app. cbn [length]. rewrite Eg, (take_snoc_lookup _ _ _ Hm). f_equal. by rewrite <-Eg.
Qed.

Lemma reader_clear_inv q st wp h sent got c p :
  spsc_inv (Spsc q st wp (R_clear h) sent got) c p ->
  spsc_inv (Spsc (alter_slot (set_ready false) h q) st wp (R_advance h) sent got) c p.
Proof.
  intros [Hsl Hda Hp Hc Hhd Htl Hroom Hgot Hheld Hw Hr].
  cbn [sp_ring sp_stats sp_w sp_r sp_sent sp_got writer_ok reader_ok unfreed] in *.
  destruct Hr as [-> Hlt].
  split; cbn [sp_ring sp_stats sp_w sp_r sp_sent sp_got reader_ok unfreed]; try done.
  - cbn. by rewrite length_alter.
  - by apply data_alter.
  - intros k m Hk Hm. pose proof (lookup_lt_Some _ _ _ Hm).
    destruct (decide (k = c)) as [->|].
    + destruct (Hheld c m Hk Hm) as (s & Hs & ? & ? & ?).
      exists (set_ready false s). split_and!; try done; [by apply alter_slot_eq|].
      cbn [must_be_ready]. by rewrite Nat.eqb_refl.
    + apply holds_ne; [apply not_eq_sym, idx_ne; lia|].
      eapply holds_weaken; [|by apply Hheld]. done.
  - assert (S p < c + NOS_SHM_SLOT_COUNT -> idx p <> idx c) as Hne by (intros; apply not_eq_sym, idx_ne; lia).
    destruct wp; cbn [writer_ok] in *; try done.
    + destruct Hw as (? & -> & ? & s & Hs & ?). split_and!; try done; try lia.
      exists s. rewrite alter_slot_ne by (apply not_eq_sym; auto). done.
    + destruct Hw as (? & -> & ? & ?). split_and!; try done; try lia. by apply holds_ne; [auto|].
    + destruct Hw as (? & -> & ? & ?). split_and!; try done; try lia. by apply holds_ne; [auto|].
Qed.

Lemma reader_advance_inv q st wp h sent got c p :
  spsc_inv (Spsc q st wp (R_advance h) sent got) c p ->
  spsc_inv (Spsc (set_head (next_idx h) q) st wp (R_packet h) sent got) (S c) p.
Proof.
  intros [Hsl Hda Hp Hc Hhd Htl Hroom Hgot Hheld Hw Hr].
  cbn [sp_ring sp_stats sp_w sp_r sp_sent sp_got writer_ok reader_ok unfreed] in *.
  destruct Hr as [-> Hlt].
  split; cbn [sp_ring sp_stats sp_w sp_r sp_sent sp_got reader_ok unfreed]; try done.
  - lia.
  - by rewrite next_idx_idx.
  - lia.
  - intros k m Hk Hm. eapply (holds_weaken q); [|apply (Hheld k m); [lia|done]].
    cbn [must_be_ready]. intros _. destruct (Nat.eqb_spec k c); [lia|done].
  - destruct wp; cbn [writer_ok] in *; try done.
    + destruct Hw as (? & c' & ? & ? & ?). split; [done|]. exists c'. split_and!; done || lia.
    + destruct Hw as (? & ? & ?). split_and!; done || lia.
    + destruct Hw as (? & ? & ? & ?). split_and!; done || lia.
    + destruct Hw as (? & ? & ? & ?). split_and!; done || lia.
    + destruct Hw as (? & ? & ? & ?). split_and!; done || lia.
  - destruct (lookup_lt_is_Some_2 sent c) as [m Hm]; [lia|].
    destruct (Hheld c m) as (s & Hs & Hl & _); [lia|done|].
    exists (take c sent), m, s. split_and!; try done.
    + rewrite Hgot, Hc. by apply take_snoc_lookup.
    + rewrite length_take. f_equal. lia.
Qed.

Lemma reader_step_inv s s' c p :
  spsc_inv s c p -> reader_step s s' -> exists c', spsc_inv s' c' p.
Proof.
  intros Hi Hs. destruct Hs.
  1-5, 9-10: exists c; destruct Hi; cbn [sp_ring sp_stats sp_w sp_r sp_sent sp_got reader_ok unfreed must_be_ready] in *;
    split; cbn [sp_ring sp_stats sp_w sp_r sp_sent sp_got reader_ok unfreed must_be_ready]; try done.
  - split; [done|]. destruct (decide (c = p)) as [->|]; [congruence|]. lia.
  - exists c. eapply reader_deliver_inv; eauto.
  - exists c. by apply reader_clear_inv.
  - exists (S c). by apply reader_advance_inv.
Qed.

Lemma total_len_snoc l x : total_len (l ++ [x]) = (total_len l + Z.of_nat (length x))%Z.
Proof. unfold total_len. rewrite sum_list_with_app. simpl. lia. Qed.

Lemma u64_succ n : u64 (u64 (Z.of_nat (n - 1)) + 1) = u64 (Z.of_nat (n - 1) + 1).
Proof. unfold u64. by rewrite Zplus_mod_idemp_l. Qed.

Lemma take_but_last {A} (l : list A) x : take (length (l ++ [x]) - 1) (l ++ [x]) = l.
Proof. rewrite length_app. simpl. rewrite Nat.add_sub. apply take_app_length. Qed.

Lemma stats_step_inv s s' c p :
  spsc_inv s c p -> stats_inv s -> spsc_step s s' -> stats_inv s'.
Proof.
  intros Hi [Hrp Hrb Htp Htb Hlast] [Hs|Hs]; destruct Hs;
    pose proof Hi as [_ _ _ _ _ _ _ _ _ _ Hr];
    cbn [sp_ring sp_stats sp_w sp_r sp_sent sp_got reader_ok uncounted unsized w_uncounted w_unsized] in *;
    rewrite ?Nat.sub_0_r, ?firstn_all in *;
    (split; cbn [sp_ring sp_stats sp_w sp_r sp_sent sp_got uncounted unsized w_uncounted w_unsized
                 count_tx_packet count_tx_bytes count_rx_packet count_rx_bytes count_full
                 st_tx_packets st_rx_packets st_tx_bytes st_rx_bytes];
     rewrite ?take_but_last, ?Nat.sub_0_r, ?firstn_all; try done; try (intros ? [?|?]; done)).
  - rewrite length_app. simpl. by rewrite Nat.add_sub.
  - intros d [[= ->]|[=]]. by rewrite last_snoc.
  - rewrite Htp. destruct (last_Some sent data) as [[l ->] _]; [by apply Hlast; left|].
    rewrite length_app. simpl. rewrite u64_succ. f_equal. lia.
  - intros d [[=]|[= ->]]. apply Hlast. by left.
  - rewrite Htb. destruct (last_Some sent data) as [[l ->] _]; [by apply Hlast; right|].
    rewrite take_but_last, total_len_snoc. unfold u64. by rewrite Zplus_mod_idemp_l.
  - rewrite length_app. simpl. by rewrite Nat.add_sub.
  - destruct Hr as (g & m & s' & -> & _). rewrite Hrp, length_app. simpl. rewrite u64_succ. f_equal. lia.
  - destruct Hr as (g & m & s' & -> & -> & Hs' & Hl). simplify_eq. rewrite Hrb, Hl, take_but_last, total_len_snoc.
    unfold u64. by rewrite Zplus_mod_idemp_l.
Qed.

Lemma spsc_init_inv : spsc_inv spsc_init 0 0 /\ stats_inv spsc_init.
Proof.
  split; split; try done.
  - apply Forall_fmap, Forall_replicate. done.
  - cbn [sp_got spsc_init length]. unfold NOS_SHM_SLOT_COUNT. lia.
  - by intros d [?|?].
Qed.

Lemma spsc_reach s :
  rtc spsc_step spsc_init s -> exists c p, spsc_inv s c p /\ stats_inv s.
Proof.
  intros H. assert (exists c p, spsc_inv spsc_init c p /\ stats_inv spsc_init) as Hi
    by (exists 0, 0; apply spsc_init_inv).
  revert Hi. induction H as [|s1 s2 s3 Hs _ IH]; [done|]. intros (c & p & Hi & Hst). apply IH.
  pose proof (stats_step_inv _ _ _ _ Hi Hst Hs). destruct Hs as [Hs|Hs].
  - destruct (writer_step_inv _ _ _ _ Hi Hs) as [p' ?]. eauto.
  - destruct (reader_step_inv _ _ _ _ Hi Hs) as [c' ?]. eauto.
Qed.

(** ** The operations as uninterrupted runs *)

Definition valid_msg (data : list Z) : Prop := 0 < length data <= NOS_SHM_SLOT_SIZE.

Lemma writer_run_inv s s' c p :
  rtc writer_step s s' -> spsc_inv s c p -> exists p', spsc_inv s' c p'.
Proof.
  intros H. revert p. induction H as [|s1 s2 s3 Hs _ IH]; [eauto|]. intros p Hi.
  destruct (writer_step_inv _ _ _ _ Hi Hs) as [p' Hi']. eauto.
Qed.

Lemma reader_run_inv s s' c p :
  rtc reader_step s s' -> spsc_inv s c p -> exists c', spsc_inv s' c' p.
Proof.
  intros H. revert c. induction H as [|s1 s2 s3 Hs _ IH]; [eauto|]. intros c Hi.
  destruct (reader_step_inv _ _ _ _ Hi Hs) as [c' Hi']. eauto.
Qed.

Lemma ring_write_run data q st rp sent got :
  valid_msg data -> (next_idx (sr_tail q) =? sr_head q) = false ->
  let q' := set_tail (next_idx (sr_tail q)) (write_slot data (sr_tail q) q) in
  let st' := count_tx_bytes (length data) (count_tx_packet st) in
  ring_write data q st = (NOS_OK, q', st') /\
  rtc writer_step (Spsc q st W_idle rp sent got) (Spsc q' st' W_idle rp (sent ++ [data]) got).
Proof.
  intros [H1 H2] Hn. unfold ring_write. rewrite Hn. apply Nat.eqb_neq in Hn.
  destruct (Nat.eqb_spec (length data) 0); [lia|].
  destruct (Nat.ltb_spec NOS_SHM_SLOT_SIZE (length data)); [lia|]. split; [done|].
  eapply rtc_l; [by apply (WS_start _ _ _ _ _ data)|]. eapply rtc_l; [by apply WS_room|].
  eapply rtc_l; [apply WS_copy|]. eapply rtc_l; [apply WS_len|]. eapply rtc_l; [apply WS_ready|].
  eapply rtc_l; [apply WS_publish|]. eapply rtc_l; [apply WS_packet|]. eapply rtc_l; [apply WS_bytes|].
  apply rtc_refl.
Qed.

(** One turn of the drain loop. *)
Lemma ring_drain_turn q st wp sent got s :
  sr_head q <> sr_tail q -> sr_slots q !! sr_head q = Some s -> ss_ready s = true ->
  rtc reader_step (Spsc q st wp R_idle sent got)
    (Spsc (set_head (next_idx (sr_head q)) (alter_slot (set_ready false) (sr_head q) q))
          (count_rx_bytes (ss_len s) (count_rx_packet st)) wp R_idle sent (got ++ [slot_msg s])).
Proof.
  intros Hne Hs Hr. eapply rtc_l; [apply RS_start|]. eapply rtc_l; [by apply RS_some|].
  eapply rtc_l; [by eapply RS_ready|]. eapply rtc_l; [by eapply RS_deliver|].
  eapply rtc_l; [apply RS_clear|]. eapply rtc_l; [apply RS_advance|]. eapply rtc_l; [apply RS_packet|].
  eapply rtc_l; [|apply rtc_refl].
  apply (RS_bytes _ _ _ _ _ _ (set_ready false s)). cbn [set_head sr_slots]. by apply alter_slot_eq.
Qed.

(** A ring at rest that holds the messages [l]. *)
Definition ring_holds (q : shm_ring) (l : list (list Z)) : Prop :=
  exists sent got c p st, spsc_inv (Spsc q st W_idle R_idle sent got) c p /\ l = drop c sent.

Lemma ring_holds_init : ring_holds (ring_init zero_ring) [].
Proof. exists [], [], 0, 0, shm_stats_zero. split; [apply spsc_init_inv|done]. Qed.

Lemma idx_full c p :
  c <= p < c + NOS_SHM_SLOT_COUNT ->
  (next_idx (idx p) =? idx c) = (p - c =? 255).
Proof.
  intros H. rewrite next_idx_idx. destruct (Nat.eqb_spec (p - c) 255) as [E|E].
  - apply Nat.eqb_eq. replace (S p) with (c + 1 * NOS_SHM_SLOT_COUNT) by (unfold NOS_SHM_SLOT_COUNT in *; lia).
    unfold idx. by rewrite Nat.Div0.mod_add.
  - apply Nat.eqb_neq, not_eq_sym, idx_ne; unfold NOS_SHM_SLOT_COUNT in *; lia.
Qed.

Lemma ring_write_holds q l data st :
  ring_holds q l -> valid_msg data ->
  if length l =? 255 then ring_write data q st = (NOS_ERR_BUSY, q, count_full st)
  else exists q' st', ring_write data q st = (NOS_OK, q', st') /\ ring_holds q' (l ++ [data]).
Proof.
  intros (sent & got & c & p & st0 & Hi & ->) Hd.
  pose proof Hi as [Hsl Hda Hp Hc Hhd Htl Hroom Hgot Hheld Hw Hr].
  cbn [sp_ring sp_stats sp_w sp_r sp_sent sp_got unfreed] in *.
  assert ((next_idx (sr_tail q) =? sr_head q) = (length (drop c sent) =? 255)) as E
    by (rewrite Hhd, Htl, length_drop, <-Hp; apply idx_full; lia).
  destruct (length (drop c sent) =? 255).
  - unfold ring_write. rewrite E. destruct Hd.
    destruct (Nat.eqb_spec (length data) 0); [lia|].
    destruct (Nat.ltb_spec NOS_SHM_SLOT_SIZE (length data)); [lia|]. done.
  - destruct (ring_write_run data q st R_idle sent got Hd E) as [E' _].
    destruct (ring_write_run data q st0 R_idle sent got Hd E) as [_ Hrun].
    eexists _, _. split; [exact E'|].
    destruct (writer_run_inv _ _ _ _ Hrun Hi) as [p' Hi'].
    eexists _, _, c, p', _. split; [exact Hi'|]. rewrite drop_app_le by lia. done.
Qed.

Lemma dir_set_eq ab q r : dir_ring ab (set_dir_ring ab q r) = q.
Proof. by destruct ab. Qed.

Lemma store_ring_eq i ab q h r :
  sh_objects h !! i = Some r -> dir_ring ab <$> sh_objects (store_ring i ab q h) !! i = Some q.
Proof. intros H. cbn [store_ring sh_objects]. rewrite list_lookup_alter_eq, H. cbn. by rewrite dir_set_eq. Qed.

(** A ring that holds nothing looks empty to the reader. *)
Lemma ring_holds_nil q : ring_holds q [] -> sr_head q = sr_tail q.
Proof.
  intros (sent & got & c & p & st & Hi & E). pose proof Hi as [_ _ Hp Hc Hhd Htl Hroom _ _ _ _].
  cbn [sp_ring sp_sent sp_got unfreed sp_r] in *.
  assert (length (drop c sent) = 0) as E' by by rewrite <-E.
  rewrite length_drop in E'. assert (c = p) as -> by lia. congruence.
Qed.

(** The ring after the reader's turn. *)
Definition ring_taken (q : shm_ring) : shm_ring :=
  set_head (next_idx (sr_head q)) (alter_slot (set_ready false) (sr_head q) q).

(** Otherwise its turn finds the oldest message and leaves the others. *)
Lemma ring_holds_cons q m l :
  ring_holds q (m :: l) -> sr_head q <> sr_tail q /\
  exists s, sr_slots q !! sr_head q = Some s /\ ss_ready s = true /\ slot_msg s = m /\ ring_holds (ring_taken q) l.
Proof.
  intros (sent & got & c & p & st & Hi & E). pose proof Hi as [Hsl Hda Hp Hc Hhd Htl Hroom Hgot Hheld Hw Hr].
  cbn [sp_ring sp_stats sp_w sp_r sp_sent sp_got unfreed must_be_ready] in *.
  assert (sent !! c = Some m) as Hm by (by rewrite <-(Nat.add_0_r c), <-lookup_drop, <-E).
  assert (c < p) by (rewrite Hp; by eapply lookup_lt_Some).
  destruct (Hheld c m) as (s & Hs & Hl & Hsm & Hrd); [lia|done|].
  assert (sr_head q <> sr_tail q) as Hne by (rewrite Hhd, Htl; apply idx_ne; lia).
  split; [done|]. exists s. rewrite <-Hhd in Hs. split_and!; [done|by apply Hrd|done|].
  pose proof (ring_drain_turn q st W_idle sent got s Hne Hs (Hrd eq_refl)) as Hrun.
  destruct (reader_run_inv _ _ _ _ Hrun Hi) as [c' Hi']. assert (c' = Datatypes.S c) as ->.
  { pose proof (si_c _ _ _ Hi') as E2. cbn [sp_got sp_r unfreed] in E2. rewrite length_app in E2. simpl in E2. lia. }
  eexists _, _, _, _, _. split; [exact Hi'|]. by rewrite <-Nat.add_1_r, <-drop_drop, <-E.
Qed.

(** One turn of the drain loop, for a callback that leaves the shared memory
    alone. *)
Lemma drain_loop_turn {S} `{!ShmState S} (f : list Z -> S -> S) i ab q m l s d fuel :
  dir_ring ab <$> sh_objects (shm_get s).1 !! i = Some q -> ring_holds q (m :: l) ->
  shm_get (f m s) = shm_get s ->
  exists st', drain_loop f (Datatypes.S fuel) i ab s d =
    drain_loop f fuel i ab (shm_set (store_ring i ab (ring_taken q) (shm_get s).1, st') (f m s)) (d + 1).
Proof.
  intros Hq Hh Hf. destruct (ring_holds_cons q m l Hh) as (Hne & sl & Hs & Hr & <- & _).
  cbn [drain_loop]. rewrite Hq, Hs, Hr. destruct (Nat.eqb_spec (sr_head q) (sr_tail q)); [done|].
  rewrite Hf. unfold release_slot. rewrite Hq. cbn [default]. eexists. reflexivity.
Qed.

Lemma drain_loop_empty {S} `{!ShmState S} (f : list Z -> S -> S) i ab q s d fuel :
  dir_ring ab <$> sh_objects (shm_get s).1 !! i = Some q -> ring_holds q [] ->
  drain_loop f fuel i ab s d = (d, s).
Proof.
  intros Hq Hh%ring_holds_nil. destruct fuel as [|fuel]; cbn [drain_loop]; [done|].
  by rewrite Hq, Hh, Nat.eqb_refl.
Qed.

Lemma drain_loop_holds {T} (f : list Z -> T -> T) i ab l : forall q h st x d fuel,
  dir_ring ab <$> sh_objects h !! i = Some q -> ring_holds q l -> length l < fuel ->
  exists q' h' st', drain_loop (lift_msg f) fuel i ab ((h, st), x) d
                      = (d + length l, ((h', st'), foldl (flip f) x l)) /\
    dir_ring ab <$> sh_objects h' !! i = Some q' /\ ring_holds q' [].
Proof.
  induction l as [|m l IH]; intros q h st x d fuel Hq Hh Hf; simpl in Hf.
  - exists q, h, st. rewrite (drain_loop_empty _ i ab q) by done. cbn. by rewrite Nat.add_0_r.
  - destruct fuel as [|fuel]; [lia|].
    destruct (drain_loop_turn (ShmState0 := shm_pair T) (lift_msg f) i ab q m l ((h, st), x) d fuel Hq Hh eq_refl) as [st1 ->].
    destruct (ring_holds_cons q m l Hh) as (_ & sl & _ & _ & _ & Hh').
    pose proof Hq as (g & Hg & _)%fmap_Some.
    destruct (IH (ring_taken q) (store_ring i ab (ring_taken q) h) st1 (f m x) (d + 1) fuel)
      as (q' & h' & st' & E' & Hq' & Hh2); [by eapply store_ring_eq|done|lia|].
    exists q', h', st'. split; [|done]. cbn [shm_set shm_pair lift_msg fst snd shm_get]. rewrite E'.
    cbn. f_equal. lia.
Qed.

(** ** A pair of channels *)

Lemma tx_ring_store ch q h r :
  tx_ring ch h = Some r -> tx_ring ch (store_ring (ch_region ch) (ch_tx_ab ch) q h) = Some q.
Proof.
  unfold tx_ring, store_ring. cbn [sh_objects]. intros (g & Hg & _)%fmap_Some.
  rewrite list_lookup_alter_eq, Hg. simpl. by rewrite dir_set_eq.
Qed.

(** The sender's ring is the receiver's. *)
Definition connected (a b : nos_shm_channel) : Prop :=
  ch_region a = ch_region b /\ ch_tx_ab a = negb (ch_tx_ab b).

Lemma connected_ring a b h : connected a b -> rx_ring b h = tx_ring a h.
Proof. intros [E1 E2]. unfold rx_ring, tx_ring. by rewrite E1, E2. Qed.

(** What waits in the direction a channel sends, resp. receives. *)
Definition tx_holds (ch : nos_shm_channel) (h : shm_host) (l : list (list Z)) : Prop :=
  exists q, tx_ring ch h = Some q /\ ring_holds q l.
Definition rx_holds (ch : nos_shm_channel) (h : shm_host) (l : list (list Z)) : Prop :=
  exists q, rx_ring ch h = Some q /\ ring_holds q l.

Lemma connected_holds a b h l : connected a b -> rx_holds b h l <-> tx_holds a h l.
Proof. intros Hc. unfold rx_holds, tx_holds. by rewrite (connected_ring a b). Qed.

(** The two directions do not meet. *)
Lemma dir_store_other i ab q h :
  dir_ring (negb ab) <$> sh_objects (store_ring i ab q h) !! i = dir_ring (negb ab) <$> sh_objects h !! i.
Proof.
  cbn [store_ring sh_objects]. rewrite list_lookup_alter_eq. destruct (sh_objects h !! i) as [g|]; [|done].
  by destruct ab.
Qed.

(** A message written to an empty direction waits there. *)
Lemma channel_write_holds ch data h st l :
  tx_holds ch h [] -> rx_holds ch h l -> valid_msg data ->
  exists h' st', nos_shm_channel_write (Some ch) (Some data) h st = (NOS_OK, h', st') /\
    tx_holds ch h' [data] /\ rx_holds ch h' l.
Proof.
  intros (q & Hq & Hh) Hrx Hv. destruct (ring_write_holds q [] data st Hh Hv) as (q' & st' & E & Hh').
  unfold nos_shm_channel_write. rewrite Hq, E. eexists _, _. split; [done|]. split.
  - exists q'. split; [by eapply tx_ring_store|done].
  - unfold rx_holds, rx_ring in *. by rewrite dir_store_other.
Qed.

(** Draining a single message leaves the direction empty, for a callback that
    does not use the shared memory. *)
Lemma channel_drain_one {S} `{!ShmState S} (f : list Z -> S -> S) ch m s fuel :
  rx_holds ch (shm_get s).1 [m] -> tx_holds ch (shm_get s).1 [] -> shm_get (f m s) = shm_get s ->
  exists h' st', nos_shm_channel_drain (Some f) (Datatypes.S fuel) (Some ch) s = (1, shm_set (h', st') (f m s)) /\
    rx_holds ch h' [] /\ tx_holds ch h' [].
Proof.
  intros (q & Hq & Hh) Htx Hf. unfold nos_shm_channel_drain.
  destruct (drain_loop_turn f (ch_region ch) (negb (ch_tx_ab ch)) q m [] s 0 fuel Hq Hh Hf) as [st' ->].
  destruct (ring_holds_cons q m [] Hh) as (_ & _ & _ & _ & _ & Hh').
  set (h' := store_ring _ _ _ _). pose proof Hq as (g & Hg & _)%fmap_Some.
  assert (rx_ring ch h' = Some (ring_taken q)) as Hrx by (unfold rx_ring; by eapply store_ring_eq).
  exists h', st'. split_and!.
  - rewrite (drain_loop_empty _ _ _ (ring_taken q)); [done|by rewrite shm_get_set|done].
  - by exists (ring_taken q).
  - unfold tx_holds, tx_ring in *. 
    pose proof (dir_store_other (ch_region ch) (negb (ch_tx_ab ch)) (ring_taken q) (shm_get s).1) as E.
    rewrite negb_involutive in E. fold h' in E. by rewrite E.
Qed.

Fixpoint write_all (ch : nos_shm_channel) (msgs : list (list Z)) (h : shm_host) (st : shm_stats)
    : list nos_status * shm_host * shm_stats :=
  match msgs with
  | [] => ([], h, st)
  | m :: msgs =>
      let '(res, h, st) := nos_shm_channel_write (Some ch) (Some m) h st in
      let '(ress, h, st) := write_all ch msgs h st in (res :: ress, h, st)
  end.

Lemma write_all_holds ch msgs : forall q l h st,
  tx_ring ch h = Some q -> ring_holds q l -> Forall valid_msg msgs -> length l + length msgs <= 255 ->
  exists q' h' st', write_all ch msgs h st = (replicate (length msgs) NOS_OK, h', st') /\
    tx_ring ch h' = Some q' /\ ring_holds q' (l ++ msgs).
Proof.
  induction msgs as [|m msgs IH]; intros q l h st Hq Hl Hv Hlen; cbn [write_all].
  - exists q, h, st. by rewrite app_nil_r.
  - apply Forall_cons in Hv as [Hm Hv]. simpl in Hlen.
    pose proof (ring_write_holds q l m st Hl Hm) as Hw.
    destruct (Nat.eqb_spec (length l) 255); [lia|]. destruct Hw as (q1 & st1 & E & Hh).
    unfold nos_shm_channel_write. rewrite Hq, E.
    destruct (IH q1 (l ++ [m]) (store_ring (ch_region ch) (ch_tx_ab ch) q1 h) st1) as (q' & h' & st' & E' & Hq' & Hh').
    + by eapply tx_ring_store.
    + done.
    + done.
    + rewrite length_app. simpl. lia.
    + exists q', h', st'. rewrite E'. cbn. split_and!; [done..|]. by rewrite <-app_assoc in Hh'.
Qed.

Lemma create_then_open a a' name b h0 st0 chA h1 st1 chB h2 st2 :
  nos_shm_channel_create a (Some name) b h0 st0 = (Some chA, h1, st1) ->
  nos_shm_channel_open a' (Some name) (negb b) h1 st1 = (Some chB, h2, st2) ->
  connected chA chB /\ tx_ring chA h2 = Some (ring_init zero_ring) /\
  tx_ring chB h2 = Some (ring_init zero_ring).
Proof.
  unfold nos_shm_channel_create, nos_shm_channel_open. destruct (starts_with_slash name); [|done].
  unfold channel_map, shm_open, shm_unlink. cbn [sh_names sh_objects]. rewrite lookup_delete_eq.
  destruct (ma_trunc a), (ma_mmap a), (ma_calloc a); cbn [negb andb orb]; try done.
  intros E1; injection E1 as <- <- <-. cbn [sh_names sh_objects]. rewrite lookup_insert_eq.
  rewrite (alter_app_r_alt _ _ _ (length (sh_objects h0))), Nat.sub_diag by lia.
  destruct (ma_mmap a'), (ma_calloc a'); cbn [negb andb orb]; try done.
  cbn [sh_objects]. rewrite lookup_app_r, Nat.sub_diag by lia.
  cbn [alter list_alter lookup list_lookup init_region rg_magic]. rewrite Z.eqb_refl. cbn [negb].
  intros E2; injection E2 as <- <- <-. unfold connected, tx_ring. cbn [ch_region ch_tx_ab sh_objects].
  rewrite lookup_app_r, Nat.sub_diag by lia. by destruct b.
Qed.

(** [nos_shm_register_stats]: the seven counters, numbered in the order of
    [shm_stats]. *)
Definition shm_counters : list (string * nat) :=
  [("tx_packets", 0); ("rx_packets", 1); ("tx_bytes", 2); ("rx_bytes", 3);
   ("ring_full", 4); ("fallback_uds", 5); ("open_errors", 6)]%string.

Definition nos_shm_register_stats (s : stats) : stats :=
  foldl (fun s '(name, i) => (nos_stats_register_counter (Some "shm"%string) (Some name) (Some i) s).2)
        s shm_counters.

(** ** Properties *)

(** C5. The lock-free ring is safe for one writer and one reader: in every
    interleaving of their accesses the messages handed over are, whole and in
    order, the first ones published, at most 255 are in flight, the reader
    never finds a published slot unready, and a side that is at rest has
    counted exactly its packets and bytes (modulo 2^64). *)
Theorem shm_spsc s :
  rtc spsc_step spsc_init s ->
  sp_got s = take (length (sp_got s)) (sp_sent s) /\
  length (sp_got s) <= length (sp_sent s) <= length (sp_got s) + 255 /\
  (forall h sl, sp_r s = R_check h -> sr_slots (sp_ring s) !! h = Some sl -> ss_ready sl = true) /\
  (sp_r s = R_idle ->
     st_rx_packets (sp_stats s) = u64 (Z.of_nat (length (sp_got s))) /\
     st_rx_bytes (sp_stats s) = u64 (total_len (sp_got s))) /\
  (sp_w s = W_idle ->
     st_tx_packets (sp_stats s) = u64 (Z.of_nat (length (sp_sent s))) /\
     st_tx_bytes (sp_stats s) = u64 (total_len (sp_sent s))).
Proof.
  intros H. destruct (spsc_reach s H) as (c & p & Hi & [Hrp Hrb Htp Htb _]).
  destruct Hi as [Hsl Hda Hp Hc Hhd Htl Hroom Hgot Hheld Hw Hr].
  split_and!; [done|lia| |..].
  - unfold NOS_SHM_SLOT_COUNT in *. lia.
  - intros h sl E Hs. rewrite E in Hr. destruct Hr as [-> Hlt].
    destruct (lookup_lt_is_Some_2 (sp_sent s) c) as [m Hm]; [lia|].
    destruct (Hheld c m (le_n _) Hm) as (s' & Hs' & _ & _ & Hrd). rewrite E in Hrd. simplify_eq. by apply Hrd.
  - intros E. rewrite Hrp, Hrb, E. cbn [uncounted unsized]. by rewrite Nat.sub_0_r, firstn_all.
  - intros E. rewrite Htp, Htb, E. cbn [w_uncounted w_unsized]. by rewrite Nat.sub_0_r, firstn_all.
Qed.

Lemma shm_spsc_witness :
  exists s, rtc spsc_step spsc_init s /\ sp_sent s = [[7%Z]] /\ length (sp_sent s) <= length (sp_got s) + 255.
Proof.
  assert (valid_msg [7%Z]) as Hv by (split; apply Nat.leb_le; reflexivity).
  pose proof (ring_write_run [7%Z] (ring_init zero_ring) shm_stats_zero R_idle [] [] Hv eq_refl) as [_ Hrun].
  match type of Hrun with rtc _ _ ?s =>
    assert (rtc spsc_step spsc_init s) as Hs
      by (apply (rtc_subrel writer_step); [by left|exact Hrun]);
    exists s
  end.
  split; [exact Hs|]. split; [reflexivity|]. apply (shm_spsc _ Hs).
Defined.

(** C31. A channel pair carries messages whole and in order: when one side
    created the name and the other opened it with the opposite direction, up
    to 255 messages of 1 to 8192 bytes are accepted, and the other side's
    drain hands over exactly these, in order, then finds the ring empty. *)
Theorem shm_channel_fifo {T} (on_msg : list Z -> T -> T) a a' name b h0 st0 chA h1 st1 chB h2 st2
    msgs fuel x :
  nos_shm_channel_create a (Some name) b h0 st0 = (Some chA, h1, st1) ->
  nos_shm_channel_open a' (Some name) (negb b) h1 st1 = (Some chB, h2, st2) ->
  Forall valid_msg msgs -> length msgs <= 255 -> length msgs < fuel ->
  exists h3 st3 h4 st4,
    write_all chA msgs h2 st2 = (replicate (length msgs) NOS_OK, h3, st3) /\
    nos_shm_channel_drain (Some (lift_msg on_msg)) fuel (Some chB) ((h3, st3), x)
      = (length msgs, ((h4, st4), foldl (flip on_msg) x msgs)) /\
    rx_ring chB h4 = tx_ring chA h4 /\ exists q, tx_ring chA h4 = Some q /\ ring_holds q [].
Proof.
  intros Hc Ho Hv Hlen Hf. destruct (create_then_open _ _ _ _ _ _ _ _ _ _ _ _ Hc Ho) as (Hco & Htx & _).
  destruct (write_all_holds chA msgs _ [] h2 st2 Htx ring_holds_init Hv) as (q3 & h3 & st3 & E3 & Hq3 & Hh3); [done|].
  rewrite <-(connected_ring _ _ _ Hco) in Hq3.
  destruct (drain_loop_holds on_msg (ch_region chB) (negb (ch_tx_ab chB)) msgs q3 h3 st3 x 0 fuel Hq3 Hh3 Hf)
    as (q4 & h4 & st4 & E4 & Hq4 & Hh4).
  exists h3, st3, h4, st4. split_and!; [done|done|by apply connected_ring|].
  exists q4. split; [|done]. by rewrite <-(connected_ring _ _ _ Hco).
Qed.

Lemma shm_channel_fifo_witness :
  let ok := MapAnswers true true true in
  let A := nos_shm_channel_create ok (Some "/nos"%string) true (ShmHost ∅ []) shm_stats_zero in
  let B := nos_shm_channel_open ok (Some "/nos"%string) false A.1.2 A.2 in
  exists chA chB h3 st3 h4 st4,
    write_all chA [[1; 2]; [3]]%Z B.1.2 B.2 = ([NOS_OK; NOS_OK], h3, st3) /\
    nos_shm_channel_drain (Some (lift_msg (fun m l => l ++ [m]))) 3 (Some chB) ((h3, st3), [])
      = (2, ((h4, st4), [[1; 2]; [3]]%Z)).
Proof.
  intros ok A B.
  assert (exists chA h1 st1, A = (Some chA, h1, st1)) as (chA & h1 & st1 & EA) by (eexists _, _, _; reflexivity).
  assert (exists chB h2 st2, B = (Some chB, h2, st2)) as (chB & h2 & st2 & EB) by (eexists _, _, _; reflexivity).
  assert (Forall valid_msg [[1; 2]; [3]]%Z) as Hv.
  { repeat apply Forall_cons_2; try apply Forall_nil_2; split; apply Nat.leb_le; reflexivity. }
  pose proof EB as EB'. unfold B in EB'. rewrite EA in EB'. cbn [fst snd] in EB'.
  destruct (shm_channel_fifo (fun m l => l ++ [m]) ok ok "/nos" true (ShmHost ∅ []) shm_stats_zero
              chA h1 st1 chB h2 st2 [[1; 2]; [3]]%Z 3 []) as (h3 & st3 & h4 & st4 & E1 & E2 & _).
  - exact EA.
  - exact EB'.
  - exact Hv.
  - simpl. lia.
  - simpl. lia.
  - exists chA, chB, h3, st3, h4, st4. rewrite EB. split; [exact E1|exact E2].
Defined.
