(* ===== verification/Ipc.v ===== *)
(** * IPC between nodes (src/infra/nos_ipc_p2p.c)

    A pool of sixteen connections over SEQPACKET sockets, each with a
    transmit queue of buffers, a reconnection back-off and an optional
    shared-memory channel.  This is the implementation behind the class
    [IpcTransport] of Scheduler.v.

    Kernel calls take their answers from a [kernel] record, indexed by the
    number of calls made so far; what the program sends is recorded on
    [i_wire], what it can receive waits in [i_rx].  The code sends as many
    bytes as a message's header announces; [sent_bytes] takes those behind
    the end of the chunk from the kernel record too.  Descriptors are
    registered edge-triggered: which events arrive is up to the callers of
    [nos_ipc_event_handler]. *)

From stdpp Require Import base list gmap strings relations.
From S2P Require Import Prelude Stats Shm CArray Ring Mem Buffer Service Node Timer Scheduler Refs.
Import Registry.
Local Open Scope Z_scope.

Definition TX_QUEUE_SIZE : nat := 1024.
Definition MAX_REMOTE_CONNS : nat := 16.
Definition NOS_IPC_MAX_PAYLOAD_LEN : Z := 4096.
Definition IPC_RETRY_INITIAL_MS : Z := 100.
Definition IPC_RETRY_MAX_MS : Z := 5000.
Definition NOS_IPC_CTRL_SHM_SETUP : Z := 0x53484D31.
Definition NOS_IPC_CTRL_SHM_NOTIFY : Z := 0x53484D32.
#[global] Arguments TX_QUEUE_SIZE : simpl never.

Inductive nos_ipc_conn_state :=
  | NOS_IPC_DISCONNECTED | NOS_IPC_CONNECTING | NOS_IPC_CONNECTED | NOS_IPC_BACKOFF.

#[export] Instance nos_ipc_conn_state_eq_dec : EqDecision nos_ipc_conn_state.
Proof. solve_decision. Defined.

(** ** Connections *)

(** The traffic counters of a connection. *)
Record conn_counters := ConnCounters {
  cc_tx_packets : Z; cc_tx_bytes : Z; cc_tx_errors : Z;
  cc_rx_packets : Z; cc_rx_bytes : Z; cc_rx_errors : Z; cc_dropped_full : Z;
}.
Definition zero_counters : conn_counters := ConnCounters 0 0 0 0 0 0 0.

Record nos_ipc_conn := Conn {
  cn_uds_path : string;         (* char[108] *)
  cn_fd : Z;
  cn_queue : ring buf_ref;      (* tx_queue, head, tail *)
  cn_is_connected : bool;
  cn_state : nos_ipc_conn_state;
  cn_next_retry_ms : Z;
  cn_retry_delay_ms : Z;
  cn_connect_fail_count : Z;
  cn_counters : conn_counters;
  cn_generation : Z;
  cn_is_passive : bool;
  cn_remote_node : string;      (* char[32] *)
  cn_shm_name : string;         (* char[64] *)
  cn_shm : option nos_shm_channel;
  cn_owner_thread : option thread_ptr;
}.

(** The static zero state of a connection slot. *)
Definition zero_conn : nos_ipc_conn :=
  Conn "" 0 (ring_init TX_QUEUE_SIZE) false NOS_IPC_DISCONNECTED 0 0 0 zero_counters 0 false "" "" None None.

Definition cn_set_queue (q : ring buf_ref) (c : nos_ipc_conn) : nos_ipc_conn :=
  Conn (cn_uds_path c) (cn_fd c) q (cn_is_connected c) (cn_state c) (cn_next_retry_ms c)
       (cn_retry_delay_ms c) (cn_connect_fail_count c) (cn_counters c) (cn_generation c)
       (cn_is_passive c) (cn_remote_node c) (cn_shm_name c) (cn_shm c) (cn_owner_thread c).
Definition cn_set_counters (k : conn_counters) (c : nos_ipc_conn) : nos_ipc_conn :=
  Conn (cn_uds_path c) (cn_fd c) (cn_queue c) (cn_is_connected c) (cn_state c) (cn_next_retry_ms c)
       (cn_retry_delay_ms c) (cn_connect_fail_count c) k (cn_generation c)
       (cn_is_passive c) (cn_remote_node c) (cn_shm_name c) (cn_shm c) (cn_owner_thread c).
Definition cn_set_state (s : nos_ipc_conn_state) (c : nos_ipc_conn) : nos_ipc_conn :=
  Conn (cn_uds_path c) (cn_fd c) (cn_queue c) (cn_is_connected c) s (cn_next_retry_ms c)
       (cn_retry_delay_ms c) (cn_connect_fail_count c) (cn_counters c) (cn_generation c)
       (cn_is_passive c) (cn_remote_node c) (cn_shm_name c) (cn_shm c) (cn_owner_thread c).
Definition cn_set_shm (node shm_name : string) (ch : option nos_shm_channel) (c : nos_ipc_conn) : nos_ipc_conn :=
  Conn (cn_uds_path c) (cn_fd c) (cn_queue c) (cn_is_connected c) (cn_state c) (cn_next_retry_ms c)
       (cn_retry_delay_ms c) (cn_connect_fail_count c) (cn_counters c) (cn_generation c)
       (cn_is_passive c) node shm_name ch (cn_owner_thread c).

(** [fd = -1; is_connected = 0; state = DISCONNECTED; generation++; shm = NULL] *)
Definition cn_disconnected (c : nos_ipc_conn) : nos_ipc_conn :=
  Conn (cn_uds_path c) (-1) (cn_queue c) false NOS_IPC_DISCONNECTED (cn_next_retry_ms c)
       (cn_retry_delay_ms c) (cn_connect_fail_count c) (cn_counters c) (u32 (cn_generation c + 1))
       (cn_is_passive c) (cn_remote_node c) (cn_shm_name c) None (cn_owner_thread c).

Definition cn_connected (fd : Z) (c : nos_ipc_conn) : nos_ipc_conn :=
  Conn (cn_uds_path c) fd (cn_queue c) true NOS_IPC_CONNECTED 0
       IPC_RETRY_INITIAL_MS 0 (cn_counters c) (u32 (cn_generation c + 1))
       (cn_is_passive c) (cn_remote_node c) (cn_shm_name c) (cn_shm c) (cn_owner_thread c).

(** [delay]: how long this failure makes the connection wait. *)
Definition retry_delay (c : nos_ipc_conn) : Z :=
  if cn_retry_delay_ms c =? 0 then IPC_RETRY_INITIAL_MS else cn_retry_delay_ms c.

Definition next_delay (delay : Z) : Z :=
  if delay >=? IPC_RETRY_MAX_MS / 2 then IPC_RETRY_MAX_MS else u32 (delay * 2).

(** [nos_ipc_mark_connect_failed] at time [now] *)
Definition cn_connect_failed (now : Z) (c : nos_ipc_conn) : nos_ipc_conn :=
  Conn (cn_uds_path c) (cn_fd c) (cn_queue c) false NOS_IPC_BACKOFF (u64 (now + retry_delay c))
       (next_delay (retry_delay c)) (u32 (cn_connect_fail_count c + 1)) (cn_counters c) (cn_generation c)
       (cn_is_passive c) (cn_remote_node c) (cn_shm_name c) (cn_shm c) (cn_owner_thread c).

Definition count_tx (len : Z) (k : conn_counters) : conn_counters :=
  ConnCounters (u64 (cc_tx_packets k + 1)) (u64 (cc_tx_bytes k + len)) (cc_tx_errors k)
    (cc_rx_packets k) (cc_rx_bytes k) (cc_rx_errors k) (cc_dropped_full k).
Definition count_tx_error (k : conn_counters) : conn_counters :=
  ConnCounters (cc_tx_packets k) (cc_tx_bytes k) (u64 (cc_tx_errors k + 1))
    (cc_rx_packets k) (cc_rx_bytes k) (cc_rx_errors k) (cc_dropped_full k).
Definition count_rx (len : Z) (k : conn_counters) : conn_counters :=
  ConnCounters (cc_tx_packets k) (cc_tx_bytes k) (cc_tx_errors k)
    (u64 (cc_rx_packets k + 1)) (u64 (cc_rx_bytes k + len)) (cc_rx_errors k) (cc_dropped_full k).
Definition count_rx_error (k : conn_counters) : conn_counters :=
  ConnCounters (cc_tx_packets k) (cc_tx_bytes k) (cc_tx_errors k)
    (cc_rx_packets k) (cc_rx_bytes k) (u64 (cc_rx_errors k + 1)) (cc_dropped_full k).
Definition count_dropped (k : conn_counters) : conn_counters :=
  ConnCounters (cc_tx_packets k) (cc_tx_bytes k) (cc_tx_errors k)
    (cc_rx_packets k) (cc_rx_bytes k) (cc_rx_errors k) (u64 (cc_dropped_full k + 1)).

Definition cn_count (f : conn_counters -> conn_counters) (c : nos_ipc_conn) : nos_ipc_conn :=
  cn_set_counters (f (cn_counters c)) c.

(** [g_node_ctx.stats] *)
Record nos_ipc_stats := IpcStats {
  is_tx_packets : Z; is_rx_packets : Z; is_tx_bytes : Z; is_rx_bytes : Z;
  is_tx_errors : Z; is_rx_errors : Z; is_dropped_full : Z; is_buffer_alloc_fails : Z;
}.

Definition st_tx (len : Z) (s : nos_ipc_stats) : nos_ipc_stats :=
  IpcStats (u64 (is_tx_packets s + 1)) (is_rx_packets s) (u64 (is_tx_bytes s + len)) (is_rx_bytes s)
    (is_tx_errors s) (is_rx_errors s) (is_dropped_full s) (is_buffer_alloc_fails s).
Definition st_rx (len : Z) (s : nos_ipc_stats) : nos_ipc_stats :=
  IpcStats (is_tx_packets s) (u64 (is_rx_packets s + 1)) (is_tx_bytes s) (u64 (is_rx_bytes s + len))
    (is_tx_errors s) (is_rx_errors s) (is_dropped_full s) (is_buffer_alloc_fails s).
Definition st_tx_error (s : nos_ipc_stats) : nos_ipc_stats :=
  IpcStats (is_tx_packets s) (is_rx_packets s) (is_tx_bytes s) (is_rx_bytes s)
    (u64 (is_tx_errors s + 1)) (is_rx_errors s) (is_dropped_full s) (is_buffer_alloc_fails s).
Definition st_rx_error (s : nos_ipc_stats) : nos_ipc_stats :=
  IpcStats (is_tx_packets s) (is_rx_packets s) (is_tx_bytes s) (is_rx_bytes s)
    (is_tx_errors s) (u64 (is_rx_errors s + 1)) (is_dropped_full s) (is_buffer_alloc_fails s).
Definition st_dropped (s : nos_ipc_stats) : nos_ipc_stats :=
  IpcStats (is_tx_packets s) (is_rx_packets s) (is_tx_bytes s) (is_rx_bytes s)
    (is_tx_errors s) (is_rx_errors s) (u64 (is_dropped_full s + 1)) (is_buffer_alloc_fails s).
Definition st_alloc_fail (s : nos_ipc_stats) : nos_ipc_stats :=
  IpcStats (is_tx_packets s) (is_rx_packets s) (is_tx_bytes s) (is_rx_bytes s)
    (is_tx_errors s) (is_rx_errors s) (is_dropped_full s) (u64 (is_buffer_alloc_fails s + 1)).

(** ** The kernel *)

(** [send]: the whole datagram was taken, or EAGAIN, or anything else. *)
Inductive send_answer := SentAll | SendAgain | SendError.

Record kernel := Kernel {
  k_clock : nat -> Z;
  k_socket : nat -> option Z;        (* a descriptor *)
  k_connect : nat -> bool;
  k_send : nat -> send_answer;
  k_epoll : nat -> bool;
  k_map : nat -> map_answers;
  k_calloc : nat -> bool;
  k_accept : nat -> option Z;
  k_bind : nat -> bool;
  k_listen : nat -> bool;
  k_stack : nat -> list Z;           (* what an uninitialised local holds *)
  k_beyond : buf_ref -> nat -> Z;    (* the memory that follows a buffer's chunk *)
}.

(** What a descriptor has to receive: the datagrams, and whether the peer
    has closed. *)
Record rx_side := RxSide { rx_packets : list (list Z); rx_closed : bool }.

Record ipc_state := Ipc {
  i_conns : carr nos_ipc_conn;       (* g_remote_conns, g_remote_conn_count *)
  i_stats : nos_ipc_stats;
  i_host : shm_host;
  i_shm : shm_stats;
  i_tick : nat;
  i_wire : list (Z * list Z);        (* descriptor and datagram, in order *)
  i_rx : gmap Z rx_side;
}.

Definition set_conns (c : carr nos_ipc_conn) (x : ipc_state) : ipc_state :=
  Ipc c (i_stats x) (i_host x) (i_shm x) (i_tick x) (i_wire x) (i_rx x).
Definition upd_stats (f : nos_ipc_stats -> nos_ipc_stats) (x : ipc_state) : ipc_state :=
  Ipc (i_conns x) (f (i_stats x)) (i_host x) (i_shm x) (i_tick x) (i_wire x) (i_rx x).
Definition set_shm (v : shm_host * shm_stats) (x : ipc_state) : ipc_state :=
  Ipc (i_conns x) (i_stats x) v.1 v.2 (i_tick x) (i_wire x) (i_rx x).
Definition tick (x : ipc_state) : ipc_state :=
  Ipc (i_conns x) (i_stats x) (i_host x) (i_shm x) (S (i_tick x)) (i_wire x) (i_rx x).
Definition set_wire (w : list (Z * list Z)) (x : ipc_state) : ipc_state :=
  Ipc (i_conns x) (i_stats x) (i_host x) (i_shm x) (i_tick x) w (i_rx x).
Definition upd_rx (f : gmap Z rx_side -> gmap Z rx_side) (x : ipc_state) : ipc_state :=
  Ipc (i_conns x) (i_stats x) (i_host x) (i_shm x) (i_tick x) (i_wire x) (f (i_rx x)).

(** A [nos_ipc_conn_t *] is its index in the array. *)
Abbreviation conn_ptr := nat.

Definition conn_at (i : conn_ptr) (x : ipc_state) : option nos_ipc_conn := slots (i_conns x) !! i.
Definition upd_conn (i : conn_ptr) (f : nos_ipc_conn -> nos_ipc_conn) (x : ipc_state) : ipc_state :=
  set_conns (CArr (alter f i (slots (i_conns x))) (count (i_conns x))) x.

(** Static initial state of the IPC layer on a host. *)
Definition ipc_static (h : shm_host) : ipc_state :=
  Ipc (CArr (replicate MAX_REMOTE_CONNS zero_conn) 0) (IpcStats 0 0 0 0 0 0 0 0) h shm_stats_zero 0 [] ∅.

(** The node and its IPC layer. *)
Abbreviation world := (node * ipc_state)%type.

#[export] Instance shm_world : ShmState world := {|
  shm_get := fun w => (i_host w.2, i_shm w.2);
  shm_set := fun v w => (w.1, set_shm v w.2);
  shm_get_set := fun v w => match v with (h, s) => eq_refl end;
|}.

(** ** Small helpers of the code *)

Definition ipc_is_ctrl_msg (h : nos_service_msg) : bool := has_flag (flags h) NOS_MSG_F_IPC_CTRL.

(** [snprintf(out, 64, "/nos_shm_%s_%s", local, remote)] *)
Definition ipc_make_shm_name (loc remote : option string) : string :=
  strncpy_field NOS_SHM_NAME_MAX
    (String.append "/nos_shm_" (String.append (default "local"%string loc)
       (String.append "_" (default "remote"%string remote)))).

Definition ipc_state_name (s : nos_ipc_conn_state) : string :=
  match s with
  | NOS_IPC_DISCONNECTED => "DISCONNECTED" | NOS_IPC_CONNECTING => "CONNECTING"
  | NOS_IPC_CONNECTED => "CONNECTED" | NOS_IPC_BACKOFF => "BACKOFF"
  end.

(** A [char[n]] field and the C string in it. *)
Definition string_bytes (s : string) : list Z :=
  map (fun c => Z.of_nat (Ascii.nat_of_ascii c)) (String.list_ascii_of_string s).
Definition cstr_field (n : nat) (s : string) : list Z :=
  take n (string_bytes s ++ replicate n 0).
Fixpoint cstr_read (m : list Z) : string :=
  match m with
  | [] => ""
  | b :: m => if b =? 0 then "" else String (Ascii.ascii_of_nat (Z.to_nat b)) (cstr_read m)
  end.

(** [nos_ipc_shm_setup_t]: the channel's name and the sender's node. *)
Definition SETUP_SIZE : nat := 96.
Definition setup_bytes (shm_name peer : string) : list Z :=
  cstr_field NOS_SHM_NAME_MAX (strncpy_field NOS_SHM_NAME_MAX shm_name) ++ cstr_field 32 (strncpy_field 32 peer).

(** The first [len] bytes at [buf->data], as far as the chunk goes. *)
Definition buf_bytes (r : buf_ref) (len : nat) (p : pool) : list Z :=
  match get_buf r p with
  | Some b => take len (drop (Z.to_nat (b_data b)) (b_raw b))
  | None => []
  end.

Definition full_len (h : nos_service_msg) : Z := Z.of_nat MSG_SIZE + payload_len h.

Section ipc.
Context (k : kernel).

(** What a [send] of [len] bytes at [buf->data] reads.  The code takes [len]
    from the message's own [payload_len] and never compares it with the
    chunk: past the chunk's end it sends whatever memory follows. *)
Definition sent_bytes (r : buf_ref) (len : nat) (p : pool) : list Z :=
  let bs := buf_bytes r len p in bs ++ map (k_beyond k r) (seq (length bs) (len - length bs)).

(** [send] of a datagram; the answer also tells the caller what happened. *)
Definition k_send_call (fd : Z) (data : list Z) (x : ipc_state) : send_answer * ipc_state :=
  match k_send k (i_tick x) with
  | SentAll => (SentAll, set_wire (i_wire x ++ [(fd, data)]) (tick x))
  | a => (a, tick x)
  end.

Definition ipc_send_ctrl (fd code : Z) (payload : list Z) (x : ipc_state) : ipc_state :=
  if (SETUP_SIZE <? length payload)%nat then x
  else (k_send_call fd (msg_encode (Msg NOS_IPC_MAGIC NOS_IPC_VERSION 0 0 0 code 0 NOS_MSG_F_IPC_CTRL
                                     (Z.of_nat (length payload))) ++ payload) x).2.

(** [close(fd)]: what was waiting on it is gone. *)
Definition close_fd (fd : Z) (x : ipc_state) : ipc_state := upd_rx (delete fd) x.

Definition nos_ipc_mark_disconnected (i : conn_ptr) (w : world) : world :=
  match conn_at i w.2 with
  | None => w
  | Some c =>
      let '(n, x) := w in
      let '(n, x) := if 0 <=? cn_fd c
                     then ((nos_scheduler_remove_fd (cn_owner_thread c) (cn_fd c) n).2, close_fd (cn_fd c) x)
                     else (n, x) in
      let x := match cn_shm c with
               | Some ch => set_shm (nos_shm_channel_close (Some ch) (i_host x), i_shm x) x
               | None => x end in
      (n, upd_conn i cn_disconnected x)
  end.

Definition nos_ipc_mark_connect_failed (i : conn_ptr) (x : ipc_state) : ipc_state :=
  upd_conn i (cn_connect_failed (k_clock k (i_tick x))) (tick x).

(** The callbacks registered with the scheduler. *)
Definition CB_EVENT : nat := 1.
Definition CB_ACCEPT : nat := 2.

(** The shared-memory channel set up after a connection: created on our
    side, then announced to the peer. *)
Definition setup_shm (i : conn_ptr) (d : nos_node_def) (fd : Z) (x : ipc_state) : ipc_state :=
  match conn_at i x with
  | None => x
  | Some c =>
      let name := ipc_make_shm_name (Some (nd_name d)) (Some (cn_remote_node c)) in
      let '(ch, h, st) := nos_shm_channel_create (k_map k (i_tick x)) (Some name) true (i_host x) (i_shm x) in
      let x := upd_conn i (cn_set_shm (cn_remote_node c) name ch) (set_shm (h, st) (tick x)) in
      match ch with
      | Some _ => ipc_send_ctrl fd NOS_IPC_CTRL_SHM_SETUP (setup_bytes name (nd_name d)) x
      | None => x
      end
  end.

Definition nos_ipc_try_connect_locked (i : conn_ptr) (w : world) : bool * world :=
  match conn_at i w.2 with
  | None => (false, w)
  | Some c =>
      let '(n, x) := w in
      let now := k_clock k (i_tick x) in
      let x := tick x in
      if bool_decide (cn_state c = NOS_IPC_BACKOFF) && (now <? cn_next_retry_ms c) then (false, (n, x))
      else
        let x := upd_conn i (cn_set_state NOS_IPC_CONNECTING) x in
        match k_socket k (i_tick x) with
        | None => (false, (n, nos_ipc_mark_connect_failed i (tick x)))
        | Some fd =>
            let x := tick x in
            if k_connect k (i_tick x) then
              let x := upd_conn i (cn_connected fd) (tick x) in
              let n := (nos_scheduler_add_fd_ex (k_epoll k (i_tick x)) (cn_owner_thread c) fd (Some CB_EVENT) i n).2 in
              let x := tick x in
              (true, (n,
                match cn_shm c, n_def n with
                | None, Some d =>
                    if String.eqb (cn_remote_node c) "" then x else setup_shm i d fd x
                | _, _ => x
                end))
            else (false, (n, nos_ipc_mark_connect_failed i (tick x)))
        end
  end.

(** One message is out: count it, drop the reference, advance [head]. *)
Definition tx_done (i : conn_ptr) (r : buf_ref) (len : Z) (w : world) : world :=
  (upd_pool (nos_buffer_release (Some r)) w.1,
   upd_conn i (fun c => cn_set_queue (ring_advance (cn_queue c)) (cn_count (count_tx len) c)) w.2).

(** The attempt to use shared memory: whether it took the message. *)
Definition tx_shm (c : nos_ipc_conn) (h : nos_service_msg) (data : list Z) (x : ipc_state)
    : bool * ipc_state :=
  match cn_shm c with
  | Some ch =>
      if negb (ipc_is_ctrl_msg h) && (full_len h <=? Z.of_nat NOS_SHM_SLOT_SIZE) then
        let '(st, host, sst) := nos_shm_channel_write (Some ch) (Some data) (i_host x) (i_shm x) in
        (bool_decide (st = NOS_OK), set_shm (host, sst) x)
      else (false, x)
  | None => (false, x)
  end.

Fixpoint tx_loop (fuel : nat) (i : conn_ptr) (w : world) : world :=
  match fuel with
  | O => w
  | S fuel =>
      match conn_at i w.2 with
      | None => w
      | Some c =>
          if ring_empty (cn_queue c) then w
          else
            match ring_front (cn_queue c) ≫= fun r => pair r <$> buf_msg r (n_pool w.1) with
            | None => w
            | Some (r, h) =>
                let data := sent_bytes r (Z.to_nat (full_len h)) (n_pool w.1) in
                let '(taken, x) := tx_shm c h data w.2 in
                if (taken : bool) then
                  tx_loop fuel i (tx_done i r (full_len h)
                                   (w.1, ipc_send_ctrl (cn_fd c) NOS_IPC_CTRL_SHM_NOTIFY [] x))
                else
                  match k_send_call (cn_fd c) data x with
                  | (SentAll, x) =>
                      tx_loop fuel i (tx_done i r (full_len h) (w.1, upd_stats (st_tx (full_len h)) x))
                  | (SendAgain, x) => (w.1, x)
                  | (SendError, x) =>
                      nos_ipc_mark_disconnected i
                        (w.1, upd_conn i (cn_count count_tx_error) (upd_stats st_tx_error x))
                  end
            end
      end
  end.

Definition nos_ipc_process_tx (i : conn_ptr) (w : world) : world :=
  match conn_at i w.2 with
  | None => w
  | Some c =>
      if bool_decide (cn_state c <> NOS_IPC_CONNECTED) || (cn_fd c <? 0) then w
      else tx_loop TX_QUEUE_SIZE i w
  end.

(** [retain(buf); tx_queue[tail] = buf; tail = next] *)
Definition tx_enqueue (i : conn_ptr) (r : buf_ref) (w : world) : world :=
  (upd_pool (nos_buffer_retain (Some r)) w.1,
   upd_conn i (fun c => cn_set_queue (ring_put r (cn_queue c)) c) w.2).

Definition drop_full (i : conn_ptr) (w : world) : world :=
  (w.1, upd_stats st_dropped (upd_conn i (cn_count count_dropped) w.2)).

Definition nos_ipc_send_reply (reply_conn : option conn_ptr) (generation : Z) (r : buf_ref) (n : node)
    (x : ipc_state) : nos_status * node * ipc_state :=
  match reply_conn ≫= fun i => pair i <$> conn_at i x with
  | None => (NOS_ERR, n, x)
  | Some (i, c) =>
      if bool_decide (cn_state c <> NOS_IPC_CONNECTED) || (cn_fd c <? 0) || negb (cn_generation c =? generation)
      then (NOS_ERR, n, x)
      else if ring_full (cn_queue c) then
        let '(n, x) := drop_full i (n, x) in (NOS_ERR_BUSY, n, x)
      else
        let '(n, x) := nos_ipc_process_tx i (tx_enqueue i r (n, x)) in (NOS_OK, n, x)
  end.

(** ** The pool of connections *)

Definition conn_init (path node : string) (fd : Z) (connected passive : bool) (th : option thread_ptr)
    (c : nos_ipc_conn) : nos_ipc_conn :=
  Conn path fd (Ring (r_slots (cn_queue c)) 0 0) connected
       (if connected then NOS_IPC_CONNECTED else NOS_IPC_DISCONNECTED) 0 IPC_RETRY_INITIAL_MS 0
       zero_counters 1 passive node (cn_shm_name c) (cn_shm c) th.

(** Takes the next free slot of the array. *)
Definition new_conn (f : nos_ipc_conn -> nos_ipc_conn) (x : ipc_state) : option conn_ptr * ipc_state :=
  let i := count (i_conns x) in
  if (MAX_REMOTE_CONNS <=? i)%nat then (None, x)
  else (Some i, set_conns (CArr (alter f i (slots (i_conns x))) (S i)) x).

Definition get_or_create_conn (node_name : option string) (uds_path : string) (n : node) (x : ipc_state)
    : option conn_ptr * ipc_state :=
  match carr_find (fun c => String.eqb (cn_uds_path c) uds_path) (i_conns x) with
  | Some i => (Some i, x)
  | None =>
      new_conn (fun c => conn_init (strncpy_field 108 uds_path)
                  (match node_name with Some s => strncpy_field 32 s | None => cn_remote_node c end)
                  (-1) false false (n_mgmt n) c) x
  end.

(** [passive_path] is the text "passive:<fd>". *)
Definition create_passive_conn (passive_path : string) (fd : Z) (th : option thread_ptr) (x : ipc_state)
    : option conn_ptr * ipc_state :=
  new_conn (fun c => conn_init passive_path (cn_remote_node c) fd true true th c) x.

Definition nos_ipc_send_enqueue (node_name uds_path : string) (r : buf_ref) (n : node) (x : ipc_state)
    : nos_status * node * ipc_state :=
  let '(i, x) := get_or_create_conn (Some node_name) uds_path n x in
  match i ≫= fun i => pair i <$> conn_at i x with
  | None => (NOS_ERR, n, x)
  | Some (i, c) =>
      if ring_full (cn_queue c) then
        let '(n, x) := drop_full i (n, x) in (NOS_ERR_BUSY, n, x)
      else
        let w := tx_enqueue i r (n, x) in
        let w := if (cn_fd c <? 0) || bool_decide (cn_state c <> NOS_IPC_CONNECTED)
                 then (nos_ipc_try_connect_locked i w).2 else w in
        let w := match conn_at i w.2 with
                 | Some c => if decide (cn_state c = NOS_IPC_CONNECTED) then nos_ipc_process_tx i w else w
                 | None => w
                 end in
        (NOS_OK, w.1, w.2)
  end.

#[local] Instance ipc_transport : IpcTransport ipc_state := {|
  ipc_send_enqueue := nos_ipc_send_enqueue;
  ipc_send_reply := nos_ipc_send_reply;
|}.

(** ** Receiving *)

(** [memcpy(buf->data, data, len)] and [buf->reply_ctx = c] *)
Definition put_data (data : list Z) (r : buf_ref) (p : pool) : pool :=
  upd_buf r (write_raw (fun off raw => list_inserts off data raw)) p.

Definition attach_ctx (cs : ctx_store * option nat) (r : buf_ref) (p : pool) : pool :=
  upd_buf r (set_reply_ctx cs.2) (Pool (g_bins p) (g_bin_count p) cs.1).

Definition conn_rx_error (ci : option conn_ptr) (x : ipc_state) : ipc_state :=
  match ci with Some i => upd_conn i (cn_count count_rx_error) x | None => x end.

Definition ipc_deliver_rx_data (data : list Z) (ci : option conn_ptr) (w : world) : world :=
  let '(n, x) := w in
  let len := Z.of_nat (length data) in
  if len <? Z.of_nat MSG_SIZE then w
  else
    let header := msg_read 0 data in
    if (payload_len header >? NOS_IPC_MAX_PAYLOAD_LEN) || negb (len =? full_len header)
    then (n, conn_rx_error ci (upd_stats st_rx_error x))
    else
      match nos_buffer_alloc (full_len header) 0 (n_pool n) with
      | (p, None) => (upd_pool (fun _ => p) n, conn_rx_error ci (upd_stats st_alloc_fail x))
      | (p, Some r) =>
          let p := put_data data r p in
          let '(p, x) :=
            match ci ≫= fun i => pair i <$> conn_at i x with
            | Some (i, c) =>
                let cs := nos_reply_ctx_create (k_calloc k (i_tick x)) (Some i) (cn_generation c)
                            (seq_no header) (src_component header) (reply_ctxs p) in
                (attach_ctx cs r p, upd_conn i (cn_count (count_rx (full_len header))) (tick x))
            | None => (p, x)
            end in
          let x := upd_stats (st_rx (full_len header)) x in
          let '(_, n, x) := nos_service_msg_send (Some r) (upd_pool (fun _ => p) n) x in
          (upd_pool (nos_buffer_release (Some r)) n, x)
      end.

Definition ipc_shm_drain_cb (i : conn_ptr) (data : list Z) (w : world) : world :=
  ipc_deliver_rx_data data (Some i) w.

(** [msg] is the datagram: the header and the payload behind it. *)
Definition ipc_handle_ctrl_msg (ci : option conn_ptr) (msg : list Z) (w : world) : world :=
  match ci ≫= fun i => pair i <$> conn_at i w.2 with
  | None => w
  | Some (i, c) =>
      let h := msg_read 0 msg in
      if (msg_code h =? NOS_IPC_CTRL_SHM_SETUP) && (payload_len h >=? Z.of_nat SETUP_SIZE) then
        let payload := drop MSG_SIZE msg in
        let shm_name := cstr_read (take (NOS_SHM_NAME_MAX - 1) payload) in
        let peer := cstr_read (take 31 (drop NOS_SHM_NAME_MAX payload)) in
        let x := w.2 in
        match cn_shm c with
        | Some ch => (w.1, upd_conn i (cn_set_shm peer shm_name (Some ch)) x)
        | None =>
            let '(ch, host, st) := nos_shm_channel_open (k_map k (i_tick x)) (Some shm_name) false
                                     (i_host x) (i_shm x) in
            (w.1, upd_conn i (cn_set_shm peer shm_name ch) (set_shm (host, st) (tick x)))
        end
      else if msg_code h =? NOS_IPC_CTRL_SHM_NOTIFY then
        match cn_shm c with
        | Some ch => (nos_shm_channel_drain (Some (ipc_shm_drain_cb i)) NOS_SHM_SLOT_COUNT (Some ch) w).2
        | None => w
        end
      else w
  end.

(** The next datagram leaves the socket. *)
Definition rx_pop (fd : Z) (x : ipc_state) : ipc_state :=
  upd_rx (alter (fun s => RxSide (tail (rx_packets s)) (rx_closed s)) fd) x.

(** A datagram is a list of octets. *)
Definition octets (m : list Z) : list Z := map (fun b => b mod 256) m.

Definition rx_head (fd : Z) (x : ipc_state) : option (list Z) :=
  i_rx x !! fd ≫= fun s => octets <$> head (rx_packets s).

(** Nothing to read, and the peer is still there: EAGAIN. *)
Definition rx_idle (fd : Z) (x : ipc_state) : bool :=
  match i_rx x !! fd with Some (RxSide [] false) => true | _ => false end.

Definition drop_link (fd : Z) (ci : option conn_ptr) (th : option thread_ptr) (w : world) : world :=
  match ci with
  | Some i => nos_ipc_mark_disconnected i w
  | None => ((nos_scheduler_remove_fd th fd w.1).2, close_fd fd w.2)
  end.

(** [MSG_PEEK] of 32 bytes into a local: a shorter datagram leaves the rest
    of it as it was. *)
Definition peek_header (garbage pkt : list Z) : nos_service_msg :=
  msg_read 0 (take MSG_SIZE pkt ++ drop (length pkt) (octets garbage)).

Definition nos_ipc_recv_handler (fd : Z) (ci : option conn_ptr) (th : option thread_ptr) (w : world) : world :=
  let '(n, x) := w in
  match rx_head fd x with
  | None | Some [] => if rx_idle fd x then w else drop_link fd ci th w
  | Some pkt =>
      let h := peek_header (k_stack k (i_tick x)) pkt in
      let x := tick x in
      if negb (magic h =? NOS_IPC_MAGIC) then drop_link fd ci th (n, conn_rx_error ci x)
      else if payload_len h >? NOS_IPC_MAX_PAYLOAD_LEN
      then (n, rx_pop fd (conn_rx_error ci (upd_stats st_rx_error x)))
      else
        match nos_buffer_alloc (full_len h) 0 (n_pool n) with
        | (p, None) =>
            (upd_pool (fun _ => p) n, rx_pop fd (conn_rx_error ci (upd_stats st_alloc_fail x)))
        | (p, Some r) =>
            let got := take (Z.to_nat (full_len h)) pkt in
            let n := upd_pool (fun _ => put_data got r p) n in
            let x := rx_pop fd x in
            let '(n, x) :=
              if Z.of_nat (length got) =? full_len h then
                if ipc_is_ctrl_msg (msg_read 0 got) then ipc_handle_ctrl_msg ci got (n, x)
                else ipc_deliver_rx_data got ci (n, x)
              else (n, conn_rx_error ci (upd_stats st_rx_error x)) in
            (upd_pool (nos_buffer_release (Some r)) n, x)
        end
  end.

Definition nos_ipc_event_handler (fd : Z) (i : conn_ptr) (w : world) : world :=
  if fd <? 0 then w
  else
    let w := nos_ipc_process_tx i w in
    match conn_at i w.2 with
    | None => w
    | Some c =>
        if bool_decide (cn_state c <> NOS_IPC_CONNECTED) || (cn_fd c <? 0) then w
        else nos_ipc_recv_handler fd (Some i) (cn_owner_thread c) w
    end.

(** ** Listening *)

(** [path fd] is the text "passive:<fd>". *)
Definition nos_ipc_accept_handler (path : Z -> string) (th : option thread_ptr) (w : world) : world :=
  let '(n, x) := w in
  match k_accept k (i_tick x) with
  | None => (n, tick x)
  | Some fd =>
      match create_passive_conn (path fd) fd th (tick x) with
      | (None, x) => (n, close_fd fd x)
      | (Some i, x) =>
          ((nos_scheduler_add_fd_ex (k_epoll k (i_tick x)) th fd (Some CB_EVENT) i n).2, tick x)
      end
  end.

Definition nos_ipc_init (th : option thread_ptr) (w : world) : nos_status * world :=
  let '(n, x) := w in
  match k_socket k (i_tick x) with
  | None => (NOS_ERR, (n, tick x))
  | Some fd =>
      let x := tick x in
      if negb (k_bind k (i_tick x)) then (NOS_ERR, (n, close_fd fd (tick x)))
      else if negb (k_listen k (S (i_tick x))) then (NOS_ERR, (n, close_fd fd (tick (tick x))))
      else
        let x := tick (tick x) in
        let '(st, n) := nos_scheduler_add_fd (k_epoll k (i_tick x)) th fd (Some CB_ACCEPT) (default 0%nat th) n in
        (st, (n, tick x))
  end.
End ipc.

(** ** Statistics *)

Definition ipc_counters : list (string * nat) :=
  [("tx_packets", 0); ("rx_packets", 1); ("tx_errors", 2); ("rx_errors", 3);
   ("dropped_full", 4); ("buffer_alloc_fails", 5)]%nat%string.

Definition nos_ipc_register_stats (s : stats) : stats :=
  nos_shm_register_stats
    (foldl (fun s '(name, i) => (nos_stats_register_counter (Some "ipc"%string) (Some name) (Some i) s).2)
           s ipc_counters).

Definition retry_left (now : Z) (c : nos_ipc_conn) : Z :=
  if bool_decide (cn_state c = NOS_IPC_BACKOFF) && (cn_next_retry_ms c >? now)
  then cn_next_retry_ms c - now else 0.

(** The rows of the connection table and of the traffic table. *)
Definition nos_ipc_dump_stats (now : Z) (x : ipc_state)
    : list (string * string * Z * nat * Z * Z) * list (string * conn_counters) :=
  (map (fun c => (cn_uds_path c, ipc_state_name (cn_state c), cn_fd c, ring_len (cn_queue c),
                  retry_left now c, cn_connect_fail_count c)) (live (i_conns x)),
   map (fun c => (cn_uds_path c, cn_counters c)) (live (i_conns x))).

(** ** References held by transmit queues *)

Definition tx_view (c : nos_ipc_conn) : list buf_ref := ring_view (cn_queue c).
Definition tx_queued (x : ipc_state) : list buf_ref := slots (i_conns x) ≫= tx_view.

Section inv.
(** At least the first [m] slots are in use. *)
Context (m : nat).

Record ipc_inv (held : list buf_ref) (n : node) (x : ipc_state) : Prop := {
  iv_refs : refs_ok (tx_queued x ++ held) n;
  iv_len : length (slots (i_conns x)) = MAX_REMOTE_CONNS;
  iv_ring i c : conn_at i x = Some c -> ring_ok (cn_queue c) /\ ring_size (cn_queue c) = TX_QUEUE_SIZE;
  iv_fresh i c : (count (i_conns x) <= i)%nat -> conn_at i x = Some c ->
    tx_view c = [] /\ cn_state c = NOS_IPC_DISCONNECTED;
  iv_known : (m <= count (i_conns x))%nat;
}.

Lemma bind_alter_perm {A B} (g : A -> list B) (f : A -> A) (l : list A) i c :
  l !! i = Some c -> exists rest, l ≫= g ≡ₚ g c ++ rest /\ alter f i l ≫= g ≡ₚ g (f c) ++ rest.
Proof.
  intros Hi. exists ((take i l ++ drop (S i) l) ≫= g).
  assert (forall y, (take i l ++ y :: drop (S i) l) ≫= g ≡ₚ g y ++ (take i l ++ drop (S i) l) ≫= g) as H.
  { intros y. rewrite !bind_app. cbn. rewrite !(assoc (++)). apply Permutation_app_tail, Permutation_app_comm. }
  split.
  - rewrite <-(take_drop_middle l i c Hi) at 1. apply H.
  - assert (alter f i l = take i l ++ f c :: drop (S i) l) as ->; [|apply H].
    rewrite <-insert_take_drop by (by eapply lookup_lt_Some).
    apply list_eq. intros j. destruct (decide (j = i)) as [->|].
    + rewrite list_lookup_alter_eq, Hi, list_lookup_insert_eq; [done|by eapply lookup_lt_Some].
    + by rewrite list_lookup_alter_ne, list_lookup_insert_ne.
Qed.

Lemma tx_queued_upd i f x c :
  conn_at i x = Some c ->
  exists rest, tx_queued x ≡ₚ tx_view c ++ rest /\ tx_queued (upd_conn i f x) ≡ₚ tx_view (f c) ++ rest.
Proof. apply bind_alter_perm. Qed.

Lemma upd_conn_eq i f x : conn_at i (upd_conn i f x) = f <$> conn_at i x.
Proof. apply list_lookup_alter_eq. Qed.

Lemma upd_conn_ne i j f x : i <> j -> conn_at j (upd_conn i f x) = conn_at j x.
Proof. apply list_lookup_alter_ne. Qed.

(** [i] is a slot in use. *)
Definition conn_known (i : conn_ptr) (x : ipc_state) : Prop := (i < count (i_conns x))%nat.

(** A connection changes its queue, and the pool with it. *)
Lemma ipc_inv_upd held held' n n' x i f c :
  ipc_inv held n x -> conn_at i x = Some c -> conn_known i x ->
  ring_ok (cn_queue (f c)) -> ring_size (cn_queue (f c)) = TX_QUEUE_SIZE ->
  (forall rest, refs_ok ((tx_view c ++ rest) ++ held) n -> refs_ok ((tx_view (f c) ++ rest) ++ held') n') ->
  ipc_inv held' n' (upd_conn i f x).
Proof.
  intros [Hk Hlen Hr Hf Hm] Hc Hi Hro Hsz Href.
  destruct (tx_queued_upd i f x c Hc) as (rest & E1 & E2). split.
  - eapply refs_ok_perm; [symmetry; apply Permutation_app_tail, E2|]. apply Href.
    eapply refs_ok_perm; [apply Permutation_app_tail, E1|done].
  - cbn. by rewrite length_alter.
  - intros j d. destruct (decide (i = j)) as [<-|].
    + rewrite upd_conn_eq, Hc. intros [= <-]. done.
    + rewrite upd_conn_ne by done. apply Hr.
  - intros j d Hj. destruct (decide (i = j)) as [<-|].
    + cbn in Hj. unfold conn_known in Hi. lia.
    + rewrite upd_conn_ne by done. apply Hf. exact Hj.
  - exact Hm.
Qed.

Lemma upd_conn_none i f x : conn_at i x = None -> upd_conn i f x = x.
Proof.
  intros H. unfold upd_conn, set_conns, conn_at in *. destruct x as [[sl ct] ? ? ? ? ? ?]. cbn in *.
  f_equal. f_equal. apply list_eq. intros j. destruct (decide (i = j)) as [<-|].
  - by rewrite list_lookup_alter_eq, H.
  - by rewrite list_lookup_alter_ne.
Qed.

Lemma upd_conn_count i f x : count (i_conns (upd_conn i f x)) = count (i_conns x).
Proof. done. Qed.

(** Updates that leave the queue alone. *)
Lemma ipc_inv_conn held n x i f :
  (forall c, cn_queue (f c) = cn_queue c) -> conn_known i x ->
  ipc_inv held n x -> ipc_inv held n (upd_conn i f x).
Proof.
  intros Hf Hlt Hi. destruct (conn_at i x) as [c|] eqn:Hc; [|by rewrite upd_conn_none].
  destruct (iv_ring _ _ _ Hi i c Hc) as [? ?].
  eapply ipc_inv_upd; [exact Hi|exact Hc|exact Hlt| | |]; unfold tx_view; rewrite ?Hf; auto.
Qed.

(** The rest of the state plays no part. *)
Lemma ipc_inv_ext held n x x' : i_conns x' = i_conns x -> ipc_inv held n x -> ipc_inv held n x'.
Proof.
  intros E [Hk Hlen Hr Hf]. unfold tx_queued, conn_at in *. split; unfold tx_queued, conn_at; by rewrite E.
Qed.

Lemma ipc_inv_node held n n' x :
  (forall l, refs_ok l n -> refs_ok l n') -> ipc_inv held n x -> ipc_inv held n' x.
Proof. intros H [Hk Hlen Hr Hf]. split; auto. Qed.

Lemma ipc_inv_perm held held' n x : held ≡ₚ held' -> ipc_inv held n x -> ipc_inv held' n x.
Proof.
  intros E [Hk Hlen Hr Hf]. split; auto. eapply refs_ok_perm; [|exact Hk]. by rewrite E.
Qed.

Lemma ipc_inv_live held n x r : ipc_inv held n x -> r ∈ held -> buf_live r (n_pool n).
Proof. intros Hi Hr. eapply refs_ok_live; [apply Hi|]. apply elem_of_app. by right. Qed.

Lemma ipc_inv_release held n x r :
  ipc_inv (r :: held) n x -> ipc_inv held (upd_pool (nos_buffer_release (Some r)) n) x.
Proof.
  intros [Hk Hlen Hr Hf Hm]. split; auto. apply refs_ok_release.
  eapply refs_ok_perm; [|exact Hk]. by rewrite <-Permutation_middle.
Qed.

Lemma ipc_inv_alloc held n x size hr :
  ipc_inv held n x -> req_ok size hr ->
  match nos_buffer_alloc size hr (n_pool n) with
  | (p, Some r) => ipc_inv (r :: held) (upd_pool (fun _ => p) n) x
  | (p, None) => p = n_pool n
  end.
Proof.
  intros [Hk Hlen Hr Hf Hm] Hq. pose proof (refs_ok_alloc _ n size hr Hk Hq) as Ha.
  destruct (nos_buffer_alloc size hr (n_pool n)) as [p [r|]]; [|done].
  split; auto. eapply refs_ok_perm; [|exact Ha]. by rewrite <-Permutation_middle.
Qed.

(** ** Every operation keeps the counts exact *)

Context (k : kernel).

Lemma send_call_conns fd data x : i_conns (k_send_call k fd data x).2 = i_conns x.
Proof. unfold k_send_call. by destruct (k_send k (i_tick x)). Qed.

Lemma send_ctrl_conns fd code payload x : i_conns (ipc_send_ctrl k fd code payload x) = i_conns x.
Proof. unfold ipc_send_ctrl. case_match; [done|]. apply send_call_conns. Qed.

Lemma mark_disconnected_inv held i n x :
  conn_known i x -> ipc_inv held n x ->
  ipc_inv held (nos_ipc_mark_disconnected i (n, x)).1 (nos_ipc_mark_disconnected i (n, x)).2.
Proof.
  intros Hlt Hi. unfold nos_ipc_mark_disconnected. cbn [snd]. destruct (conn_at i x) as [c|]; [|done].
  destruct (0 <=? cn_fd c); destruct (cn_shm c) as [ch|]; cbn [fst snd];
    (apply ipc_inv_conn; [done|done|]); (eapply ipc_inv_node; [|by eapply ipc_inv_ext; [|exact Hi]]);
    try done; intros l; apply refs_ok_remove_fd.
Qed.

Lemma tx_enqueue_inv held i c r n x :
  ipc_inv held n x -> r ∈ held -> conn_at i x = Some c -> conn_known i x ->
  ring_full (cn_queue c) = false ->
  ipc_inv held (tx_enqueue i r (n, x)).1 (tx_enqueue i r (n, x)).2.
Proof.
  intros Hi Hr Hc Hlt Hf. destruct (iv_ring _ _ _ Hi i c Hc) as [Hro Hsz].
  pose proof (ring_put_rep r _ _ (ring_ok_rep _ Hro) Hf) as Hrep. cbn [tx_enqueue fst snd].
  eapply ipc_inv_upd; [exact Hi|exact Hc|done|by eexists|by cbn [cn_queue cn_set_queue]; rewrite ring_size_put|].
  intros rest Hk. unfold tx_view. cbn [cn_queue cn_set_queue]. rewrite (ring_rep_view _ _ Hrep).
  eapply refs_ok_perm; [|apply (refs_ok_retain ((tx_view c ++ rest) ++ held) r n); [exact Hk|]].
  - rewrite <-!(assoc (++)). cbn [app]. by rewrite Permutation_middle.
  - apply elem_of_app. by right.
Qed.

(** The message at the head of a queue is one the queue holds. *)
Lemma tx_front held i c n x :
  ipc_inv held n x -> conn_at i x = Some c -> ring_empty (cn_queue c) = false ->
  exists r l h, tx_view c = r :: l /\ ring_front (cn_queue c) = Some r /\ buf_msg r (n_pool n) = Some h /\
    ring_rep (ring_advance (cn_queue c)) l.
Proof.
  intros Hi Hc He. destruct (iv_ring _ _ _ Hi i c Hc) as [Hro Hsz].
  pose proof (ring_ok_rep _ Hro) as Hrep. fold (tx_view c) in Hrep.
  destruct (tx_view c) as [|r l] eqn:Hv; [by rewrite (ring_rep_empty _ Hrep) in He|].
  destruct (refs_ok_msg (tx_queued x ++ held) n r) as [h Hh].
  - apply Hi.
  - apply elem_of_app. left. destruct (tx_queued_upd i id x c Hc) as (rest & E & _).
    rewrite E, Hv. by left.
  - exists r, l, h. split_and!; [done|by eapply ring_front_rep|done|by eapply ring_advance_rep].
Qed.

Lemma tx_done_inv held i c r l len n x :
  ipc_inv held n x -> conn_at i x = Some c -> conn_known i x ->
  tx_view c = r :: l -> ring_rep (ring_advance (cn_queue c)) l ->
  ipc_inv held (tx_done i r len (n, x)).1 (tx_done i r len (n, x)).2.
Proof.
  intros Hi Hc Hlt Hv Hrep. destruct (iv_ring _ _ _ Hi i c Hc) as [Hro Hsz]. cbn [tx_done fst snd].
  eapply ipc_inv_upd; [exact Hi|exact Hc|done|by eexists|done|].
  intros rest Hk. unfold tx_view. cbn [cn_queue cn_set_queue cn_count]. rewrite (ring_rep_view _ _ Hrep).
  apply refs_ok_release. by rewrite Hv in Hk.
Qed.

Lemma tx_shm_conns c h data x : i_conns (tx_shm c h data x).2 = i_conns x.
Proof.
  unfold tx_shm. destruct (cn_shm c); [|done]. case_match; [|done].
  by destruct (nos_shm_channel_write _ _ _ _) as [[? ?] ?].
Qed.

Lemma tx_loop_inv held fuel i : forall n x,
  ipc_inv held n x -> conn_known i x ->
  ipc_inv held (tx_loop k fuel i (n, x)).1 (tx_loop k fuel i (n, x)).2.
Proof.
  induction fuel as [|fuel IH]; intros n x Hi Hlt; [done|]. cbn [tx_loop fst snd].
  destruct (conn_at i x) as [c|] eqn:Hc; [|done].
  destruct (ring_empty (cn_queue c)) eqn:He; [done|].
  destruct (tx_front held i c n x Hi Hc He) as (r & l & h & Hv & Hfr & Hm & Hrep).
  rewrite Hfr. cbn [mbind option_bind]. rewrite Hm. cbn [fmap option_fmap option_map].
  set (data := sent_bytes k r (Z.to_nat (full_len h)) (n_pool n)).
  pose proof (tx_shm_conns c h data x) as Es. destruct (tx_shm c h data x) as [taken x1]. cbn [snd] in Es.
  assert (forall y, i_conns y = i_conns x -> ipc_inv held (tx_done i r (full_len h) (n, y)).1
            (tx_done i r (full_len h) (n, y)).2) as Hdone.
  { intros y Ey. eapply tx_done_inv; [by eapply ipc_inv_ext; [exact Ey|]|unfold conn_at; by rewrite Ey|unfold conn_known; by rewrite Ey|done..]. }
  destruct taken.
  - specialize (Hdone (ipc_send_ctrl k (cn_fd c) NOS_IPC_CTRL_SHM_NOTIFY [] x1)).
    rewrite send_ctrl_conns in Hdone. specialize (Hdone Es).
    cbn [tx_done fst snd] in Hdone |- *. apply IH; [exact Hdone|]. unfold conn_known. rewrite upd_conn_count. cbn [snd]. by rewrite send_ctrl_conns, Es.
  - pose proof (send_call_conns (cn_fd c) data x1) as E2.
    destruct (k_send_call k (cn_fd c) data x1) as [a x2]. cbn [snd] in E2. destruct a.
    + specialize (Hdone (upd_stats (st_tx (full_len h)) x2)). cbn [i_conns upd_stats] in Hdone.
      rewrite E2 in Hdone. specialize (Hdone Es).
      cbn [tx_done fst snd] in Hdone |- *. apply IH; [exact Hdone|]. unfold conn_known. rewrite upd_conn_count. cbn [snd i_conns upd_stats]. by rewrite E2, Es.
    + cbn [fst snd]. eapply ipc_inv_ext; [|exact Hi]. by rewrite E2.
    + assert (conn_known i (upd_stats st_tx_error x2)) by (unfold conn_known; cbn [i_conns upd_stats]; by rewrite E2, Es).
      apply mark_disconnected_inv; [done|]. apply ipc_inv_conn; [done..|]. eapply ipc_inv_ext; [|exact Hi]. cbn [i_conns upd_stats]. by rewrite E2.
Qed.

Lemma process_tx_inv held i n x :
  ipc_inv held n x -> conn_known i x ->
  ipc_inv held (nos_ipc_process_tx k i (n, x)).1 (nos_ipc_process_tx k i (n, x)).2.
Proof.
  intros Hi Hlt. unfold nos_ipc_process_tx. destruct (conn_at i (n, x).2); [|done].
  case_match; [done|]. by apply tx_loop_inv.
Qed.

Lemma connect_failed_inv held i n x :
  conn_known i x -> ipc_inv held n x -> ipc_inv held n (nos_ipc_mark_connect_failed k i x).
Proof. intros Hlt Hi. apply ipc_inv_conn; [done..|]. by eapply ipc_inv_ext; [|exact Hi]. Qed.

Lemma setup_shm_inv held i d fd n x : conn_known i x -> ipc_inv held n x -> ipc_inv held n (setup_shm k i d fd x).
Proof.
  intros Hlt Hi. unfold setup_shm. destruct (conn_at i x) as [c|]; [|done].
  destruct (nos_shm_channel_create _ _ _ _ _) as [[ch h] st].
  assert (ipc_inv held n (upd_conn i (cn_set_shm (cn_remote_node c)
    (ipc_make_shm_name (Some (nd_name d)) (Some (cn_remote_node c))) ch) (set_shm (h, st) (tick x)))) as H.
  { apply ipc_inv_conn; [done..|]. by eapply ipc_inv_ext; [|exact Hi]. }
  destruct ch; [|done]. eapply ipc_inv_ext; [|exact H]. apply send_ctrl_conns.
Qed.

Lemma try_connect_inv held i n x :
  conn_known i x -> ipc_inv held n x ->
  ipc_inv held (nos_ipc_try_connect_locked k i (n, x)).2.1 (nos_ipc_try_connect_locked k i (n, x)).2.2.
Proof.
  intros Hlt Hi. unfold nos_ipc_try_connect_locked. cbn [snd]. destruct (conn_at i x) as [c|]; [|done].
  set (y := upd_conn i (cn_set_state NOS_IPC_CONNECTING) (tick x)).
  assert (ipc_inv held n y) as Hy.
  { apply ipc_inv_conn; [done..|]. by eapply ipc_inv_ext; [|exact Hi]. }
  assert (conn_known i y) as Hlt' by done.
  case_match; [by eapply ipc_inv_ext; [|exact Hi]|].
  destruct (k_socket k _) as [fd|]; cbn [fst snd];
    [|by apply connect_failed_inv; [|by eapply ipc_inv_ext; [|exact Hy]]].
  case_match; cbn [fst snd]; [|by apply connect_failed_inv; [|by eapply ipc_inv_ext; [|exact Hy]]].
  set (n1 := (nos_scheduler_add_fd_ex _ _ _ _ _ n).2).
  set (z := tick (upd_conn i (cn_connected fd) (tick (tick y)))).
  assert (ipc_inv held n1 z) as Hz.
  { eapply ipc_inv_node; [intros l; apply refs_ok_add_fd|].
    eapply (ipc_inv_ext held n (upd_conn i (cn_connected fd) y)); [done|]. by apply ipc_inv_conn. }
  destruct (cn_shm c); [done|]. destruct (n_def n1); [|done].
  case_match; [done|]. by apply setup_shm_inv.
Qed.

Lemma drop_full_inv held i n x :
  conn_known i x -> ipc_inv held n x -> ipc_inv held (drop_full i (n, x)).1 (drop_full i (n, x)).2.
Proof. intros Hlt Hi. eapply ipc_inv_ext; [|apply (ipc_inv_conn held n x i (cn_count count_dropped)); [done|done|exact Hi]]. done. Qed.

Lemma inv_known held n x i : ipc_inv held n x -> (i < m)%nat -> conn_known i x.
Proof. intros Hi Hlt. pose proof (iv_known _ _ _ Hi). unfold conn_known. lia. Qed.

Lemma ring_reset_rep {A} (r : ring A) : (0 < ring_size r)%nat -> ring_rep (Ring (r_slots r) 0 0) [].
Proof. intros H. unfold ring_rep, ring_size in *. cbn. split_and!; [lia|lia|unfold wrap; by case_match|done]. Qed.

Lemma alter_same_view f i x :
  (forall c, conn_at i x = Some c -> tx_view (f c) = tx_view c) ->
  alter f i (slots (i_conns x)) ≫= tx_view ≡ₚ tx_queued x.
Proof.
  intros Hf. destruct (conn_at i x) as [c|] eqn:Hc.
  - destruct (tx_queued_upd i f x c Hc) as (rest & E1 & E2). rewrite E1. etransitivity; [exact E2|].
    by rewrite Hf.
  - pose proof (upd_conn_none i f x Hc) as E. apply (f_equal tx_queued) in E. unfold tx_queued at 1 in E.
    cbn [upd_conn set_conns i_conns slots] in E. by rewrite E.
Qed.

(** A fresh slot has an empty queue, so resetting it loses nothing. *)
Lemma new_conn_inv held n x f :
  (forall c, cn_queue (f c) = Ring (r_slots (cn_queue c)) 0 0) -> ipc_inv held n x ->
  match new_conn f x with
  | (Some i, x') => ipc_inv held n x' /\ conn_known i x' /\ x' = set_conns (i_conns x') x
  | (None, x') => x' = x
  end.
Proof.
  intros Hf [Hk Hlen Hr Hfr Hm]. unfold new_conn. set (i := count (i_conns x)).
  destruct (Nat.leb_spec MAX_REMOTE_CONNS i) as [|Hi]; [done|].
  assert (forall c, conn_at i x = Some c -> ring_rep (cn_queue (f c)) []) as Hrep.
  { intros c Hc. rewrite Hf. apply ring_reset_rep. destruct (Hr i c Hc) as [_ ->]. unfold TX_QUEUE_SIZE. lia. }
  split_and!; [|unfold conn_known; cbn; lia|done]. split; cbn [i_conns set_conns slots count].
  - eapply refs_ok_perm; [|exact Hk]. apply Permutation_app_tail. symmetry. apply (alter_same_view f i).
    intros c Hc. unfold tx_view at 1. rewrite (ring_rep_view _ _ (Hrep c Hc)).
    symmetry. by apply (Hfr i).
  - by rewrite length_alter.
  - intros j c. unfold conn_at. cbn [i_conns set_conns slots]. destruct (decide (i = j)) as [<-|].
    + rewrite list_lookup_alter_eq. intros (d & Hd & ->)%fmap_Some. split; [by eexists; apply Hrep|].
      rewrite Hf. destruct (Hr i d Hd) as [_ Hs]. exact Hs.
    + rewrite list_lookup_alter_ne by done. apply Hr.
  - intros j c Hj. unfold conn_at. cbn [i_conns set_conns slots].
    rewrite list_lookup_alter_ne by (subst i; lia). apply Hfr. lia.
  - lia.
Qed.

Lemma get_or_create_inv held n x node path :
  ipc_inv held n x ->
  match get_or_create_conn node path n x with
  | (Some i, x') => ipc_inv held n x' /\ conn_known i x'
  | (None, x') => x' = x
  end.
Proof.
  intros Hi. unfold get_or_create_conn. destruct (carr_find _ (i_conns x)) as [i|] eqn:Hf.
  - split; [done|]. by apply carr_find_Some in Hf as [? _].
  - match goal with |- context [new_conn ?f x] =>
      pose proof (new_conn_inv held n x f ltac:(done) Hi) as H; destruct (new_conn f x) as [[i|] x'] end; [|done].
    destruct H as (? & ? & _). done.
Qed.

Lemma try_connect_known i j w : conn_known i w.2 -> conn_known i (nos_ipc_try_connect_locked k j w).2.2.
Proof.
  destruct w as [n x]. unfold conn_known, nos_ipc_try_connect_locked. cbn [snd].
  assert (forall d fd y, count (i_conns (setup_shm k j d fd y)) = count (i_conns y)) as Hs.
  { intros d fd y. unfold setup_shm. destruct (conn_at j y) as [c|]; [|done].
    destruct (nos_shm_channel_create _ _ _ _ _) as [[ch h] st]. destruct ch; [|done].
    by rewrite send_ctrl_conns. }
  destruct (conn_at j x) as [c|]; [|done]. repeat case_match; cbn [fst snd]; rewrite ?Hs; done.
Qed.

Lemma send_enqueue_inv held n x r node path :
  ipc_inv held n x -> r ∈ held ->
  let '(_, n', x') := nos_ipc_send_enqueue k node path r n x in ipc_inv held n' x'.
Proof.
  intros Hi Hr. unfold nos_ipc_send_enqueue.
  pose proof (get_or_create_inv held n x (Some node) path Hi) as Hg.
  destruct (get_or_create_conn (Some node) path n x) as [[i|] x1]; [|by subst].
  destruct Hg as [Hi1 Hlt]. cbn [mbind option_bind]. destruct (conn_at i x1) as [c|] eqn:Hc; [|done].
  cbn [fmap option_fmap option_map]. destruct (ring_full (cn_queue c)) eqn:Hf.
  - pose proof (drop_full_inv held i n x1 Hlt Hi1). by destruct (drop_full i (n, x1)).
  - pose proof (tx_enqueue_inv held i c r n x1 Hi1 Hr Hc Hlt Hf) as H2.
    assert (conn_known i (tx_enqueue i r (n, x1)).2) as Hlt2 by done.
    destruct (tx_enqueue i r (n, x1)) as [n2 x2]. cbn [fst snd] in *.
    set (w3 := if (cn_fd c <? 0) || bool_decide (cn_state c <> NOS_IPC_CONNECTED)
               then (nos_ipc_try_connect_locked k i (n2, x2)).2 else (n2, x2)).
    assert (ipc_inv held w3.1 w3.2 /\ conn_known i w3.2) as [H3 Hlt3].
    { subst w3. case_match; [|done]. split; [by apply try_connect_inv|by apply try_connect_known]. }
    destruct w3 as [n3 x3]. cbn [fst snd] in *.
    destruct (conn_at i x3) as [c3|]; [|done]. destruct (decide _); [by apply process_tx_inv|done].
Qed.

Lemma send_reply_inv held n x r conn gen :
  ipc_inv held n x -> r ∈ held ->
  let '(_, n', x') := nos_ipc_send_reply k conn gen r n x in ipc_inv held n' x'.
Proof.
  intros Hi Hr. unfold nos_ipc_send_reply. destruct conn as [i|]; [|done]. cbn [mbind option_bind].
  destruct (conn_at i x) as [c|] eqn:Hc; [|done]. cbn [fmap option_fmap option_map].
  destruct (bool_decide _ || _ || _) eqn:E; [done|]. bool_hyps.
  assert (conn_known i x) as Hlt.
  { unfold conn_known. destruct (decide (count (i_conns x) <= i)%nat) as [Hle|]; [|lia].
    destruct (iv_fresh _ _ _ Hi i c Hle Hc) as [_ Hd].
    exfalso. match goal with H : bool_decide _ = false |- _ => apply bool_decide_eq_false in H; apply H end. by rewrite Hd. }
  destruct (ring_full (cn_queue c)) eqn:Hf.
  - pose proof (drop_full_inv held i n x Hlt Hi). by destruct (drop_full i (n, x)).
  - pose proof (tx_enqueue_inv held i c r n x Hi Hr Hc Hlt Hf) as H2.
    assert (conn_known i (tx_enqueue i r (n, x)).2) as Hlt2 by done.
    destruct (tx_enqueue i r (n, x)) as [n2 x2]. cbn [fst snd] in *.
    pose proof (process_tx_inv held i n2 x2 H2 Hlt2). by destruct (nos_ipc_process_tx k i (n2, x2)).
Qed.

#[local] Instance ipc_here : IpcTransport ipc_state := ipc_transport k.

Lemma ipc_inv_local held n x r th :
  ipc_inv held n x -> r ∈ held -> ipc_inv held (nos_transport_local_send r th n).2 x.
Proof.
  intros [Hk Hlen Hrg Hf Hm] Hr. split; auto. apply refs_ok_send; [done|]. apply elem_of_app. by right.
Qed.

Lemma ipc_inv_write held n x r f :
  (forall off m, length (f off m) = length m) -> r ∈ held ->
  ipc_inv held n x -> ipc_inv held (upd_pool (upd_buf r (write_raw f)) n) x.
Proof.
  intros Hf Hr [Hk Hlen Hrg Hfr Hm]. split; auto. apply refs_ok_write; [done| |done].
  apply elem_of_app. by right.
Qed.

#[local] Instance ipc_laws : IpcLaws ipc_state := {|
  ipc_refs := ipc_inv;
  ipc_refs_live := ipc_inv_live;
  ipc_refs_pool := fun held n x H => rk_pool _ _ (iv_refs _ _ _ H);
  ipc_refs_alloc := ipc_inv_alloc;
  ipc_refs_release := ipc_inv_release;
  ipc_refs_local := ipc_inv_local;
  ipc_refs_write := ipc_inv_write;
  ipc_refs_enqueue := fun held n x r node path => send_enqueue_inv held n x r node path;
  ipc_refs_reply := fun held n x r conn gen => send_reply_inv held n x r conn gen;
|}.

Lemma le_val_range (l : list Z) : Forall (fun b => 0 <= b < 256) l -> 0 <= le_val l < 256 ^ Z.of_nat (length l).
Proof.
  induction 1 as [|b l Hb Hl IH]; cbn [le_val length]; [done|].
  rewrite Nat2Z.inj_succ, Z.pow_succ_r by lia. lia.
Qed.

Lemma mem_read_range n off (l : list Z) :
  Forall (fun b => 0 <= b < 256) l -> 0 <= mem_read n off l < 256 ^ Z.of_nat n.
Proof.
  intros Hl. unfold mem_read.
  pose proof (le_val_range (map (fun k => default 0 (l !! (off + k)%nat)) (seq 0 n))) as H.
  rewrite length_map, length_seq in H. apply H. apply Forall_forall. intros b Hb%list_elem_of_In. apply in_map_iff in Hb as (j & <- & _).
  destruct (l !! (off + j)%nat) eqn:E; cbn; [|lia]. by eapply Forall_lookup_1 in Hl.
Qed.

Lemma octets_range l : Forall (fun b => 0 <= b < 256) (octets l).
Proof. apply Forall_forall. intros b Hb%list_elem_of_In. apply in_map_iff in Hb as (j & <- & _). apply Z.mod_pos_bound. lia. Qed.

Lemma peek_payload garbage pkt :
  Forall (fun b => 0 <= b < 256) pkt -> 0 <= payload_len (peek_header garbage pkt).
Proof.
  intros Hp. apply mem_read_range. apply Forall_app. split.
  - by apply Forall_take.
  - apply Forall_drop, octets_range.
Qed.

Lemma pool_wf_ctxs p cs : pool_wf p -> pool_wf (Pool (g_bins p) (g_bin_count p) cs).
Proof. intros []. by split. Qed.

Lemma ipc_inv_attach held n x r cs :
  ipc_inv held n x -> r ∈ held -> ipc_inv held (upd_pool (attach_ctx cs r) n) x.
Proof.
  intros [Hk Hlen Hrg Hfr Hm] Hr. split; auto.
  assert (refs_ok (tx_queued x ++ held) (upd_pool (fun p => Pool (g_bins p) (g_bin_count p) cs.1) n)) as H1.
  { apply (refs_ok_pool (tx_queued x ++ held) _ n (Pool (g_bins (n_pool n)) (g_bin_count (n_pool n)) cs.1)); [done| |].
    - apply pool_wf_ctxs, Hk.
    - eapply refs_exact_edit; [| |apply Hk]; done. }
  apply (refs_ok_edit _ r (set_reply_ctx cs.2)) in H1; [exact H1|done|].
  eapply pool_step_wf; [by apply ps_reply; eapply refs_ok_live; [exact H1|apply elem_of_app; by right]|apply H1].
Qed.

Lemma conn_rx_error_inv held n x ci :
  (forall i, ci = Some i -> (i < m)%nat) -> ipc_inv held n x -> ipc_inv held n (conn_rx_error ci x).
Proof.
  intros Hci Hi. unfold conn_rx_error. destruct ci as [i|]; [|done].
  apply ipc_inv_conn; [done| |done]. eapply inv_known; eauto.
Qed.

Lemma deliver_rx_inv held data ci n x :
  (forall i, ci = Some i -> (i < m)%nat) -> ipc_inv held n x ->
  ipc_inv held (ipc_deliver_rx_data k data ci (n, x)).1 (ipc_deliver_rx_data k data ci (n, x)).2.
Proof.
  intros Hci Hi. unfold ipc_deliver_rx_data. case_match; [done|]. cbv zeta.
  destruct (_ || _) eqn:E; cbn [fst snd].
  { apply conn_rx_error_inv; [done|]. by eapply ipc_inv_ext; [|exact Hi]. }
  bool_hyps.
  pose proof (ipc_inv_alloc held n x (full_len (msg_read 0 data)) 0 Hi) as Ha.
  destruct (nos_buffer_alloc (full_len (msg_read 0 data)) 0 (n_pool n)) as [p [r|]].
  2: { cbn [fst snd]. rewrite Ha; [|split_and!; unfold full_len, MSG_SIZE, NOS_IPC_MAX_PAYLOAD_LEN in *; lia].
       apply conn_rx_error_inv; [done|]. eapply ipc_inv_ext; [|by destruct n]. done. }
  set (n1 := upd_pool (fun _ => p) n) in *.
  assert (ipc_inv (r :: held) n1 x) as Hi1 by (apply Ha; split_and!; unfold full_len, MSG_SIZE, NOS_IPC_MAX_PAYLOAD_LEN in *; lia).
  clear Ha.
  pose proof (ipc_inv_write (r :: held) n1 x r (fun off raw => list_inserts off data raw)
    (fun off m => length_inserts m off data) ltac:(by left) Hi1) as Hi2.
  set (n2 := upd_pool _ n1) in Hi2. fold (put_data data r) in n2.
  assert (exists p3 x3, (match ci ≫= fun i => pair i <$> conn_at i x with
    | Some (i, c) => _ | None => _ end) = (p3, x3) /\ ipc_inv (r :: held) (upd_pool (fun _ => p3) n) x3)
    as (p3 & x3 & -> & Hi3).
  { destruct ci as [i|]; [|by exists (put_data data r p), x]. cbn [mbind option_bind].
    destruct (conn_at i x) as [c|]; [|by exists (put_data data r p), x]. cbn [fmap option_fmap option_map].
    eexists _, _. split; [reflexivity|].
    apply ipc_inv_conn; [done|exact (inv_known held n x i Hi (Hci i eq_refl))|].
    eapply ipc_inv_ext; [|apply (ipc_inv_attach (r :: held) n2 x r); [exact Hi2|by left]]. done. }
  pose proof (msg_send_refs (r :: held) (upd_pool (fun _ => p3) n) (upd_stats (st_rx (full_len (msg_read 0 data))) x3)
    (Some r)) as Hi4.
  destruct (nos_service_msg_send _ _ _) as [[st n4] x4]. cbn [fst snd].
  apply ipc_inv_release. apply Hi4.
  - eapply ipc_inv_ext; [|exact Hi3]. done.
  - intros ? [= <-]. by left.
Qed.

(** The drain loop keeps what its callback keeps. *)
Lemma drain_loop_keeps (P : world -> Prop) f ab i fuel : forall w d,
  (forall data w, P w -> P (f data w)) -> (forall v w, P w -> P (shm_set v w)) ->
  P w -> P (drain_loop f fuel i ab w d).2.
Proof.
  induction fuel as [|fuel IH]; intros w d Hf Hs Hw; [done|]. cbn [drain_loop].
  repeat (case_match; try done). apply IH; [done..|]. apply Hs. by apply Hf.
Qed.

Lemma ctrl_inv held ci msg n x :
  (forall i, ci = Some i -> (i < m)%nat) -> ipc_inv held n x ->
  ipc_inv held (ipc_handle_ctrl_msg k ci msg (n, x)).1 (ipc_handle_ctrl_msg k ci msg (n, x)).2.
Proof.
  intros Hci Hi. unfold ipc_handle_ctrl_msg. destruct ci as [i|]; [|done]. cbn [mbind option_bind snd fst].
  pose proof (inv_known held n x i Hi (Hci i eq_refl)) as Hlt.
  destruct (conn_at i x) as [c|]; [|done]. cbn [fmap option_fmap option_map].
  destruct (_ && _).
  - destruct (cn_shm c) as [ch|]; [by apply ipc_inv_conn|].
    destruct (nos_shm_channel_open _ _ _ _ _) as [[ch h] st]. cbn [fst snd].
    apply ipc_inv_conn; [done..|]. by eapply ipc_inv_ext; [|exact Hi].
  - case_match; [|done]. destruct (cn_shm c) as [ch|]; [|done]. unfold nos_shm_channel_drain.
    apply (drain_loop_keeps (fun w => ipc_inv held w.1 w.2)); [| |done].
    + intros data [n' x'] Hw. by apply deliver_rx_inv.
    + intros v [n' x'] Hw. by eapply ipc_inv_ext; [|exact Hw].
Qed.

Lemma drop_link_inv held fd ci th n x :
  (forall i, ci = Some i -> (i < m)%nat) -> ipc_inv held n x ->
  ipc_inv held (drop_link fd ci th (n, x)).1 (drop_link fd ci th (n, x)).2.
Proof.
  intros Hci Hi. unfold drop_link. destruct ci as [i|].
  - apply mark_disconnected_inv; [|done]. eapply inv_known; eauto.
  - cbn [fst snd]. eapply ipc_inv_node; [intros l; apply refs_ok_remove_fd|]. by eapply ipc_inv_ext; [|exact Hi].
Qed.

Lemma rx_head_octets fd x pkt : rx_head fd x = Some pkt -> Forall (fun b => 0 <= b < 256) pkt.
Proof.
  unfold rx_head. destruct (i_rx x !! fd) as [s|]; [|done]. cbn.
  intros (p & _ & ->)%fmap_Some. apply octets_range.
Qed.

Lemma recv_inv held fd ci th n x :
  (forall i, ci = Some i -> (i < m)%nat) -> ipc_inv held n x ->
  ipc_inv held (nos_ipc_recv_handler k fd ci th (n, x)).1 (nos_ipc_recv_handler k fd ci th (n, x)).2.
Proof.
  intros Hci Hi. unfold nos_ipc_recv_handler.
  destruct (rx_head fd x) as [[|b pkt]|] eqn:Hhd;
    [destruct (rx_idle fd x); [done|by apply drop_link_inv]
    | |destruct (rx_idle fd x); [done|by apply drop_link_inv]].
  apply rx_head_octets in Hhd. cbv zeta. set (h := peek_header _ _).
  assert (0 <= payload_len h) as Hpl by by apply peek_payload.
  assert (forall y, i_conns y = i_conns x -> ipc_inv held n y) as Hx by (intros y Ey; by eapply ipc_inv_ext; [|exact Hi]).
  destruct (negb _); [apply drop_link_inv; [done|]; apply conn_rx_error_inv; [done|]; by apply Hx|].
  assert (forall y, i_conns y = i_conns x -> ipc_inv held n (rx_pop fd (conn_rx_error ci y))) as Hpop.
  { intros y Ey. eapply ipc_inv_ext; [|apply (conn_rx_error_inv held n y ci Hci); by apply Hx]. done. }
  destruct (payload_len h >? NOS_IPC_MAX_PAYLOAD_LEN) eqn:Hmax; cbn [fst snd]; [by apply Hpop|].
  assert (req_ok (full_len h) 0) as Hreq by (split_and!; unfold full_len, MSG_SIZE, NOS_IPC_MAX_PAYLOAD_LEN in *; lia).
  pose proof (ipc_inv_alloc held n x _ _ Hi Hreq) as Ha.
  destruct (nos_buffer_alloc (full_len h) 0 (n_pool n)) as [p [r|]].
  2: { cbn [fst snd]. rewrite Ha. eapply ipc_inv_node; [|apply (Hpop (upd_stats st_alloc_fail (tick x))); done]. by destruct n. }
  set (got := take (Z.to_nat (full_len h)) (b :: pkt)).
  set (n2 := upd_pool (fun _ => put_data got r p) n).
  assert (ipc_inv (r :: held) n2 (rx_pop fd (tick x))) as H2.
  { eapply ipc_inv_ext; [|apply (ipc_inv_write (r :: held) (upd_pool (fun _ => p) n) x r
      (fun off raw => list_inserts off got raw)); [intros; apply length_inserts|by left|exact Ha]]. done. }
  set (w := if Z.of_nat (length got) =? full_len h then _ else _).
  assert (ipc_inv (r :: held) w.1 w.2) as H3.
  { subst w. case_match; [case_match|].
    - by apply ctrl_inv.
    - by apply deliver_rx_inv.
    - cbn [fst snd]. apply conn_rx_error_inv; [done|]. by eapply ipc_inv_ext; [|exact H2]. }
  destruct w as [n3 x3]. cbn [fst snd] in *. by apply ipc_inv_release.
Qed.

Lemma event_inv held fd i n x :
  (i < m)%nat -> ipc_inv held n x ->
  ipc_inv held (nos_ipc_event_handler k fd i (n, x)).1 (nos_ipc_event_handler k fd i (n, x)).2.
Proof.
  intros Hlt Hi. unfold nos_ipc_event_handler. case_match; [done|].
  pose proof (process_tx_inv held i n x Hi (inv_known _ _ _ _ Hi Hlt)) as H1.
  destruct (nos_ipc_process_tx k i (n, x)) as [n1 x1]. cbn [fst snd] in *.
  destruct (conn_at i x1) as [c|]; [|done]. case_match; [done|].
  apply recv_inv; [|done]. by intros ? [= <-].
Qed.

Lemma accept_inv held path th n x :
  ipc_inv held n x ->
  ipc_inv held (nos_ipc_accept_handler k path th (n, x)).1 (nos_ipc_accept_handler k path th (n, x)).2.
Proof.
  intros Hi. unfold nos_ipc_accept_handler. destruct (k_accept k (i_tick x)) as [fd|];
    [|by eapply ipc_inv_ext; [|exact Hi]].
  assert (ipc_inv held n (tick x)) as Hi1 by by eapply ipc_inv_ext; [|exact Hi].
  unfold create_passive_conn.
  match goal with |- context [new_conn ?f ?y] => pose proof (new_conn_inv held n y f ltac:(done) Hi1) as H;
    destruct (new_conn f y) as [[i|] x1] end.
  - destruct H as (H1 & H2 & _). cbn [fst snd]. eapply ipc_inv_node; [intros l; apply refs_ok_add_fd|].
    by eapply ipc_inv_ext; [|exact H1].
  - subst x1. by eapply ipc_inv_ext; [|exact Hi1].
Qed.

Lemma init_inv held th n x :
  ipc_inv held n x ->
  ipc_inv held (nos_ipc_init k th (n, x)).2.1 (nos_ipc_init k th (n, x)).2.2.
Proof.
  intros Hi. unfold nos_ipc_init. destruct (k_socket k (i_tick x)) as [fd|]; [|by eapply ipc_inv_ext; [|exact Hi]].
  cbv zeta. case_match; [by eapply ipc_inv_ext; [|exact Hi]|].
  case_match; [by eapply ipc_inv_ext; [|exact Hi]|]. unfold nos_scheduler_add_fd.
  match goal with |- context [nos_scheduler_add_fd_ex ?a ?b ?c ?d ?e ?n] =>
    assert (ipc_inv held (nos_scheduler_add_fd_ex a b c d e n).2 x) as Hn
      by (eapply ipc_inv_node; [intros l; apply refs_ok_add_fd|exact Hi]);
    destruct (nos_scheduler_add_fd_ex a b c d e n) as [st n1] end.
  cbn [fst snd] in *. by eapply ipc_inv_ext; [|exact Hn].
Qed.
End inv.

(** ** The node with its holders

    [held] are the references the running code holds: buffers being built or
    handled. *)

Record system := System { sy_held : list buf_ref; sy_node : node; sy_ipc : ipc_state }.

Section system.
Context (k : kernel) (path : Z -> string).
#[local] Instance ipc_sys : IpcTransport ipc_state := ipc_transport k.

Inductive sys_step : system -> system -> Prop :=
  | ss_alloc held n x size hr p r :
      req_ok size hr -> nos_buffer_alloc size hr (n_pool n) = (p, Some r) ->
      sys_step (System held n x) (System (r :: held) (upd_pool (fun _ => p) n) x)
  | ss_release held held' n x r :
      held ≡ₚ r :: held' ->
      sys_step (System held n x) (System held' (upd_pool (nos_buffer_release (Some r)) n) x)
  | ss_retain held n x r :
      r ∈ held -> sys_step (System held n x) (System (r :: held) (upd_pool (nos_buffer_retain (Some r)) n) x)
  | ss_write held n x r f :
      r ∈ held -> (forall off m, length (f off m) = length m) ->
      sys_step (System held n x) (System held (upd_pool (upd_buf r (write_raw f)) n) x)
  | ss_take held n x th T r q :
      n_threads n !! th = Some T -> queue_take (msg_queue T) = (Some r, q) ->
      sys_step (System held n x) (System (r :: held) (upd_thread th (set_queue q) n) x)
  | ss_send held n x r st n' x' :
      r ∈ held -> nos_service_msg_send (Some r) n x = (st, n', x') ->
      sys_step (System held n x) (System held n' x')
  | ss_reply held n x ctx r st n' x' :
      r ∈ held -> nos_service_reply ctx (Some r) n x = (st, n', x') ->
      sys_step (System held n x) (System held n' x')
  | ss_event held n x fd i :
      conn_known i x ->
      let w := nos_ipc_event_handler k fd i (n, x) in
      sys_step (System held n x) (System held w.1 w.2)
  | ss_accept held n x th :
      let w := nos_ipc_accept_handler k path th (n, x) in
      sys_step (System held n x) (System held w.1 w.2)
  | ss_listen held n x th :
      let w := (nos_ipc_init k th (n, x)).2 in
      sys_step (System held n x) (System held w.1 w.2)
  | ss_packet held n x f :
      (* the kernel hands over datagrams *)
      sys_step (System held n x) (System held n (upd_rx f x)).

Definition sys_inv (s : system) : Prop := ipc_inv 0 (sy_held s) (sy_node s) (sy_ipc s).

Lemma ipc_inv_weaken m m' held n x : (m' <= count (i_conns x))%nat -> ipc_inv m held n x -> ipc_inv m' held n x.
Proof. intros Hm []. by split. Qed.

Lemma sys_step_inv s s' : sys_step s s' -> sys_inv s -> sys_inv s'.
Proof.
  intros Hs Hi. unfold sys_inv in *. destruct Hs; cbn [sy_held sy_node sy_ipc] in *.
  - pose proof (ipc_inv_alloc 0 held n x size hr Hi H) as Ha. by rewrite H0 in Ha.
  - apply ipc_inv_release. by eapply ipc_inv_perm.
  - destruct Hi as [Hk Hlen Hr Hf Hm]. split; auto.
    eapply refs_ok_perm; [|apply (refs_ok_retain (tx_queued x ++ held) r n); [done|apply elem_of_app; by right]].
    by rewrite <-Permutation_middle.
  - by apply ipc_inv_write.
  - destruct Hi as [Hk Hlen Hr Hf Hm]. split; auto.
    eapply refs_ok_perm; [|by eapply refs_ok_take]. by rewrite <-Permutation_middle.
  - pose proof (msg_send_refs (IpcLaws0 := ipc_laws 0 k) held n x (Some r) Hi) as H1.
    cbn [ipc_refs ipc_laws] in H1. unfold ipc_here in H1. unfold ipc_sys in H0. rewrite H0 in H1.
    apply H1. by intros ? [= <-].
  - pose proof (service_reply_refs (IpcLaws0 := ipc_laws 0 k) held n x ctx (Some r) Hi) as H1.
    cbn [ipc_refs ipc_laws] in H1. unfold ipc_here in H1. unfold ipc_sys in H0. rewrite H0 in H1.
    apply H1. by intros ? [= <-].
  - pose proof (event_inv (count (i_conns x)) k held fd i n x H) as H1.
    eapply ipc_inv_weaken; [lia|]. apply H1. by eapply ipc_inv_weaken; [|exact Hi].
  - by apply accept_inv.
  - by apply init_inv.
  - by eapply ipc_inv_ext; [|exact Hi].
Qed.
End system.

(** ** Transmission *)

Lemma buf_bytes_le r len p : (length (buf_bytes r len p) <= len)%nat.
Proof. unfold buf_bytes. case_match; [rewrite length_take; lia|cbn; lia]. Qed.

(** The message in a queued buffer, and the datagram it becomes: the same
    bytes when the message ends inside the chunk. *)
Definition packet (p : pool) (r : buf_ref) : list Z :=
  match buf_msg r p with Some h => buf_bytes r (Z.to_nat (full_len h)) p | None => [] end.

Definition sent_packet (k : kernel) (p : pool) (r : buf_ref) : list Z :=
  match buf_msg r p with Some h => sent_bytes k r (Z.to_nat (full_len h)) p | None => [] end.

Lemma sent_packet_length k p r h :
  buf_msg r p = Some h -> length (sent_packet k p r) = Z.to_nat (full_len h).
Proof.
  intros E. unfold sent_packet. rewrite E. unfold sent_bytes. rewrite length_app, length_map, length_seq.
  pose proof (buf_bytes_le r (Z.to_nat (full_len h)) p). lia.
Qed.

(** A message that ends inside its chunk is sent as it is. *)
Lemma sent_bytes_fits k r len p : length (buf_bytes r len p) = len -> sent_bytes k r len p = buf_bytes r len p.
Proof. intros E. unfold sent_bytes. cbn zeta. by rewrite E, Nat.sub_diag, app_nil_r. Qed.

Lemma release_packet k p r l s :
  pool_wf p -> refs_exact p (r :: l) -> s ∈ l ->
  sent_packet k (nos_buffer_release (Some r) p) s = sent_packet k p s.
Proof.
  intros Hw He Hs. pose proof (refs_exact_held _ _ He) as Hh.
  destruct (queue_held_release p r l Hw Hh) as (_ & _ & Hm). unfold sent_packet. rewrite (Hm s Hs).
  destruct (buf_msg s p) as [h|]; [|done]. unfold sent_bytes, buf_bytes.
  destruct (re_in _ _ He r) as [Hb [b Hg]]; [by left|].
  assert (buf_live r p) as Hl by (eapply queue_held_live; [exact Hh|by left]).
  pose proof (release_post_holds p r b Hw Hl Hg) as [Hne Heq].
  destruct (decide (s = r)) as [->|]; [|by rewrite Hne].
  pose proof (re_cnt _ _ He r b Hb Hg) as Hcnt. rewrite occurrences_cons_eq in Hcnt.
  pose proof (occurrences_pos r l Hs). destruct (Z.eqb_spec (b_ref_cnt b) 1); [lia|].
  destruct Heq as (-> & _). by rewrite Hg.
Qed.

(** How a pass over the queue ends. *)
Definition tx_end (k : kernel) (c c' : nos_ipc_conn) (rest : list buf_ref) (x' : ipc_state) : Prop :=
  (rest = [] /\ cn_state c' = cn_state c /\ cn_fd c' = cn_fd c /\ cn_generation c' = cn_generation c) \/
  (rest <> [] /\ k_send k (Nat.pred (i_tick x')) = SendAgain /\
     cn_state c' = cn_state c /\ cn_fd c' = cn_fd c /\ cn_generation c' = cn_generation c) \/
  (rest <> [] /\ k_send k (Nat.pred (i_tick x')) = SendError /\
     cn_state c' = NOS_IPC_DISCONNECTED /\ cn_fd c' = -1 /\ cn_generation c' = u32 (cn_generation c + 1)).

Lemma remove_fd_pool th fd n : n_pool (nos_scheduler_remove_fd th fd n).2 = n_pool n.
Proof. unfold nos_scheduler_remove_fd. by repeat case_match. Qed.

Lemma mark_disconnected_conn i c n x :
  conn_at i x = Some c ->
  let w := nos_ipc_mark_disconnected i (n, x) in
  conn_at i w.2 = Some (cn_disconnected c) /\ i_wire w.2 = i_wire x /\ i_tick w.2 = i_tick x /\
  n_pool w.1 = n_pool n.
Proof.
  intros Hc. unfold nos_ipc_mark_disconnected. cbn [snd]. rewrite Hc.
  destruct (0 <=? cn_fd c), (cn_shm c); cbn [fst snd]; rewrite upd_conn_eq;
    (split_and!; [unfold conn_at in *; cbn; by rewrite Hc|done|done|by rewrite ?remove_fd_pool]).
Qed.

Lemma pool_upd_pool f n : n_pool (upd_pool f n) = f (n_pool n).
Proof. done. Qed.

(** Releasing the packet at the head of a queue leaves the packets behind it. *)
Lemma queued_packet_kept k held i c r l n x s :
  ipc_inv 0 held n x -> conn_at i x = Some c -> tx_view c = r :: l -> s ∈ l ->
  sent_packet k (nos_buffer_release (Some r) (n_pool n)) s = sent_packet k (n_pool n) s.
Proof.
  intros Hi Hc Hv Hs. destruct (tx_queued_upd i id x c Hc) as (others & E & _). rewrite Hv in E.
  apply (release_packet _ _ _ (l ++ others ++ queued n ++ held)).
  - apply Hi.
  - eapply refs_exact_perm; [|apply Hi]. rewrite E. cbn [app]. rewrite <-!app_assoc.
    rewrite <-Permutation_middle. apply perm_skip. rewrite !app_assoc.
    apply Permutation_app_tail. solve_Permutation.
  - apply elem_of_app. by left.
Qed.

Lemma tx_loop_spec k held i l : forall fuel n x c,
  ipc_inv 0 held n x -> conn_known i x -> conn_at i x = Some c -> tx_view c = l -> cn_shm c = None ->
  (length l < fuel)%nat ->
  let w := tx_loop k fuel i (n, x) in
  exists sent rest c', l = sent ++ rest /\ conn_at i w.2 = Some c' /\ tx_view c' = rest /\
    i_wire w.2 = i_wire x ++ map (fun r => (cn_fd c, sent_packet k (n_pool n) r)) sent /\
    n_pool w.1 = release_all sent (n_pool n) /\ tx_end k c c' rest w.2.
Proof.
  induction l as [|r l IH]; intros [|fuel] n x c Hi Hlt Hc Hv Hshm Hf; simpl in Hf; try lia;
    cbn zeta; cbn [tx_loop snd fst]; rewrite Hc;
    destruct (iv_ring _ _ _ _ Hi i c Hc) as [Hro Hsz]; pose proof (ring_ok_rep _ Hro) as Hrep;
    fold (tx_view c) in Hrep; rewrite Hv in Hrep.
  - rewrite (ring_rep_empty _ Hrep). exists [], [], c. cbn. rewrite app_nil_r.
    split_and!; try done. left. done.
  - rewrite (ring_rep_nonempty _ _ _ Hrep), (ring_front_rep _ _ _ Hrep). cbn [mbind option_bind].
    destruct (refs_ok_msg (tx_queued x ++ held) n r) as [h Hh]; [apply Hi| |].
    { apply elem_of_app. left. destruct (tx_queued_upd i id x c Hc) as (rest & E & _). rewrite E, Hv. by left. }
    rewrite Hh. cbn [fmap option_fmap option_map].
    assert (sent_packet k (n_pool n) r = sent_bytes k r (Z.to_nat (full_len h)) (n_pool n)) as Ep
      by (unfold sent_packet; by rewrite Hh).
    rewrite <-Ep. unfold tx_shm. rewrite Hshm. unfold k_send_call.
    destruct (k_send k (i_tick x)) eqn:Hk; cbn [fst snd].
    + set (x1 := upd_stats (st_tx (full_len h)) (set_wire (i_wire x ++ [(cn_fd c, sent_packet k (n_pool n) r)]) (tick x))).
      assert (ipc_inv 0 held n x1) as Hi1 by by eapply ipc_inv_ext; [|exact Hi].
      pose proof (ring_advance_rep _ _ _ Hrep) as Hrep'.
      pose proof (tx_done_inv 0 held i c r l (full_len h) n x1 Hi1 Hc Hlt Hv Hrep') as Hi2.
      unfold tx_done in *. cbn [fst snd] in *.
      set (f := fun c0 => cn_set_queue (ring_advance (cn_queue c0)) (cn_count (count_tx (full_len h)) c0)) in *.
      edestruct (IH fuel _ _ (f c) Hi2) as (sent & rest & c' & E1 & E2 & E3 & E4 & E5 & E6).
      * done.
      * rewrite upd_conn_eq. change (conn_at i x1) with (conn_at i x). by rewrite Hc.
      * unfold tx_view. cbn [cn_queue f cn_set_queue]. by apply ring_rep_view.
      * done.
      * lia.
      * exists (r :: sent), rest, c'. rewrite E1. split_and!; try done.
        -- rewrite E4. cbn [i_wire upd_conn set_conns x1 upd_stats set_wire]. rewrite <-app_assoc. cbn [app map].
           do 2 f_equal. apply map_ext_in. intros s Hs. f_equal. rewrite pool_upd_pool.
           apply (queued_packet_kept k held i c r l n x s Hi Hc Hv). rewrite E1. apply elem_of_app. left.
           by apply list_elem_of_In.
    + exists [], (r :: l), c. cbn [snd fst map]. rewrite app_nil_r. split_and!; try done.
      right; left. split_and!; done.
    + set (x1 := upd_conn i (cn_count count_tx_error) (upd_stats st_tx_error (tick x))).
      assert (conn_at i x1 = Some (cn_count count_tx_error c)) as Hc1.
      { unfold x1. rewrite upd_conn_eq. change (conn_at i (upd_stats st_tx_error (tick x))) with (conn_at i x). by rewrite Hc. }
      destruct (mark_disconnected_conn i _ n x1 Hc1) as (E1 & E2 & E3 & E4).
      exists [], (r :: l), (cn_disconnected (cn_count count_tx_error c)). cbn [map]. rewrite app_nil_r.
      split_and!; try done.
      right; right. rewrite E3. split_and!; done.
Qed.

Lemma ipc_static_inv held n h : refs_ok held n -> sys_inv (System held n (ipc_static h)).
Proof.
  intros Hk. assert (forall i c, conn_at i (ipc_static h) = Some c -> c = zero_conn) as Hz.
  { intros i c H. unfold conn_at, ipc_static in H. cbn [i_conns slots] in H.
    by apply lookup_replicate in H as [-> _]. }
  assert (tx_view zero_conn = []) as Hv by (apply ring_init_view; unfold TX_QUEUE_SIZE; lia).
  split; cbn [sy_held sy_node sy_ipc].
  - assert (tx_queued (ipc_static h) = []) as ->; [|done]. unfold tx_queued, ipc_static. cbn [i_conns slots].
    generalize MAX_REMOTE_CONNS as j. induction j as [|j IH]; [done|]. cbn [replicate mbind list_bind]. by rewrite Hv.
  - done.
  - intros i c ->%Hz. split; [|by vm_compute]. apply ring_init_ok. unfold TX_QUEUE_SIZE. lia.
  - intros i c _ ->%Hz. done.
  - lia.
Qed.

(** ** Properties *)

(** C1. Buffers are never lost and never freed early: in every run of a node
    with its IPC layer, where code allocates, retains, writes, releases,
    sends and replies with buffers it holds, threads take messages, and the
    kernel answers connects, sends and receives as it likes, the reference
    count of every buffer is exactly the number of its places in thread
    queues, transmit queues and the hands of running code; so each queued
    buffer is live, and when all are empty every chunk is free. *)
Theorem ipc_references_exact k path held n h s :
  refs_ok held n -> rtc (sys_step k path) (System held n (ipc_static h)) s ->
  refs_exact (n_pool (sy_node s)) (queued (sy_node s) ++ tx_queued (sy_ipc s) ++ sy_held s) /\
  (forall r, r ∈ tx_queued (sy_ipc s) -> buf_live r (n_pool (sy_node s))) /\
  (queued (sy_node s) = [] -> tx_queued (sy_ipc s) = [] -> sy_held s = [] ->
   forall r b, (ref_bin r < g_bin_count (n_pool (sy_node s)))%nat ->
     get_buf r (n_pool (sy_node s)) = Some b -> b_ref_cnt b = 0).
Proof.
  intros Hk Hs. assert (sys_inv s) as Hi.
  { assert (sys_inv (System held n (ipc_static h))) as H0 by by apply ipc_static_inv.
    induction Hs as [|s1 s2 s3 H _ IH]; [done|]. apply IH. by eapply sys_step_inv. }
  pose proof (rk_refs _ _ (iv_refs _ _ _ _ Hi)) as He. split_and!.
  - exact He.
  - intros r Hr. eapply queue_held_live; [apply refs_exact_held, He|].
    apply elem_of_app. right. apply elem_of_app. by left.
  - intros E1 E2 E3 r b Hb Hg. rewrite E1, E2, E3 in He. by rewrite (re_cnt _ _ He r b Hb Hg).
Qed.

Lemma process_tx_sends k held n x i c :
  ipc_inv 0 held n x -> conn_known i x -> conn_at i x = Some c ->
  cn_state c = NOS_IPC_CONNECTED -> 0 <= cn_fd c -> cn_shm c = None ->
  let w := nos_ipc_process_tx k i (n, x) in
  exists sent rest c', tx_view c = sent ++ rest /\ conn_at i w.2 = Some c' /\ tx_view c' = rest /\
    i_wire w.2 = i_wire x ++ map (fun r => (cn_fd c, sent_packet k (n_pool n) r)) sent /\
    n_pool w.1 = release_all sent (n_pool n) /\ tx_end k c c' rest w.2.
Proof.
  intros Hi Hlt Hc Hs Hfd Hshm. unfold nos_ipc_process_tx. cbn [snd]. rewrite Hc, Hs.
  destruct (Z.ltb_spec (cn_fd c) 0); [lia|]. rewrite bool_decide_eq_false_2 by tauto. cbn [orb].
  eapply tx_loop_spec; [done..|]. destruct (iv_ring _ _ _ _ Hi i c Hc) as [Hro Hsz].
  pose proof (ring_ok_rep _ Hro) as (_ & Hl & _). unfold tx_view. by rewrite <-Hsz.
Qed.

(** C24. A pass over a socket connection's transmit queue ends and sends a
    prefix of it: the datagrams leave in queue order, each whole (its header
    and the [payload_len] bytes it announces, which past the end of the chunk
    are the memory that follows), each sent buffer is released once, and the
    rest stays queued.  It stops at the end
    of the queue, at EAGAIN with the link kept, or at an error, when the link
    is marked down with a new generation and nothing unsent is lost. *)
Theorem process_tx_spec k held n x i c :
  ipc_inv 0 held n x -> conn_known i x -> conn_at i x = Some c ->
  cn_state c = NOS_IPC_CONNECTED -> 0 <= cn_fd c -> cn_shm c = None ->
  let w := nos_ipc_process_tx k i (n, x) in
  exists sent rest c', tx_view c = sent ++ rest /\ conn_at i w.2 = Some c' /\ tx_view c' = rest /\
    i_wire w.2 = i_wire x ++ map (fun r => (cn_fd c, sent_packet k (n_pool n) r)) sent /\
    n_pool w.1 = release_all sent (n_pool n) /\ tx_end k c c' rest w.2.
Proof. apply process_tx_sends. Qed.

(** [nows]: the times of consecutive failed attempts. *)
Definition fail_all (nows : list Z) (c : nos_ipc_conn) : nos_ipc_conn :=
  fold_left (fun c now => cn_connect_failed now c) nows c.

Lemma fail_all_delay nows c :
  cn_retry_delay_ms c = IPC_RETRY_INITIAL_MS ->
  retry_delay (fail_all nows c) = Z.min IPC_RETRY_MAX_MS (IPC_RETRY_INITIAL_MS * 2 ^ Z.of_nat (length nows)).
Proof.
  intros Hc. induction nows as [|now nows IH] using rev_ind; [unfold retry_delay; cbn; by rewrite Hc|].
  unfold fail_all in *. rewrite fold_left_app, length_app. cbn [fold_left length].
  set (c1 := fold_left _ nows c) in *. unfold retry_delay at 1. cbn [cn_retry_delay_ms cn_connect_failed].
  rewrite IH. rewrite Nat.add_1_r, Nat2Z.inj_succ, Z.pow_succ_r by lia.
  unfold next_delay, IPC_RETRY_MAX_MS, IPC_RETRY_INITIAL_MS. rewrite Z.geb_leb.
  assert (0 < 2 ^ Z.of_nat (length nows)) by (apply Z.pow_pos_nonneg; lia).
  set (q := 2 ^ Z.of_nat (length nows)) in *. change (5000 / 2) with 2500.
  destruct (Z.leb_spec 2500 (Z.min 5000 (100 * q))).
  - cbn [Z.eqb Pos.eqb]. lia.
  - rewrite u32_small by lia. destruct (Z.eqb_spec (Z.min 5000 (100 * q) * 2) 0); lia.
Qed.

(** Reconnection backs off exponentially: after [j] failures in a row the
    next one keeps the link waiting min(5000, 100 * 2^j) ms, its queue
    untouched; until that time an attempt makes no system call but reading
    the clock; and the first success resets the delay to 100 ms. *)
Theorem backoff_schedule nows now c :
  cn_retry_delay_ms c = IPC_RETRY_INITIAL_MS ->
  let c' := fail_all (nows ++ [now]) c in
  cn_state c' = NOS_IPC_BACKOFF /\ tx_view c' = tx_view c /\
  cn_next_retry_ms c' = u64 (now + Z.min IPC_RETRY_MAX_MS (IPC_RETRY_INITIAL_MS * 2 ^ Z.of_nat (length nows))) /\
  (forall k i n x, conn_at i x = Some c' -> k_clock k (i_tick x) < cn_next_retry_ms c' ->
     nos_ipc_try_connect_locked k i (n, x) = (false, (n, tick x))) /\
  (forall fd, retry_delay (cn_connected fd c') = IPC_RETRY_INITIAL_MS).
Proof.
  intros Hc. pose proof (fail_all_delay nows c Hc) as Hd. cbn zeta.
  unfold fail_all in *. rewrite fold_left_app. cbn [fold_left]. set (c1 := fold_left _ nows c) in *.
  split_and!; [done| | | |done].
  - unfold tx_view. cbn [cn_connect_failed cn_queue].
    assert (forall l d, cn_queue (fold_left (fun c now => cn_connect_failed now c) l d) = cn_queue d) as H.
    { induction l as [|y l IH]; intros d; [done|]. cbn [fold_left]. by rewrite IH. }
    subst c1. by rewrite H.
  - cbn [cn_next_retry_ms cn_connect_failed]. by rewrite Hd.
  - intros k i n x Hx Hlt. unfold nos_ipc_try_connect_locked. cbn [snd]. rewrite Hx.
    cbn [cn_state cn_connect_failed]. rewrite bool_decide_eq_true_2 by done.
    apply Z.ltb_lt in Hlt. by rewrite Hlt.
Qed.

(** The link goes down ([None]) or comes up on a new descriptor. *)
Definition relink (l : list (option Z)) (c : nos_ipc_conn) : nos_ipc_conn :=
  fold_left (fun c o => match o with None => cn_disconnected c | Some fd => cn_connected fd c end) l c.

Lemma relink_generation l c :
  in_u32 (cn_generation c) -> cn_generation (relink l c) = u32 (cn_generation c + Z.of_nat (length l)).
Proof.
  intros Hg. induction l as [|o l IH] using rev_ind; [cbn; by rewrite Z.add_0_r, u32_small|].
  unfold relink in *. rewrite fold_left_app, length_app. cbn [fold_left length].
  assert (forall d, cn_generation (match o with None => cn_disconnected d | Some fd => cn_connected fd d end)
            = u32 (cn_generation d + 1)) as -> by by destruct o.
  rewrite IH. unfold u32. rewrite Zplus_mod_idemp_l. f_equal. lia.
Qed.

(** C25. A reply never reaches a later link: once the connection a request
    came over has gone down or come up again (fewer than 2^32 times), replies
    that carry the request's generation are refused and change nothing. *)
Theorem stale_reply_refused k r n x i c c' l :
  in_u32 (cn_generation c) -> (0 < length l)%nat -> Z.of_nat (length l) < 2 ^ 32 ->
  conn_at i x = Some c' -> cn_generation c' = cn_generation (relink l c) ->
  nos_ipc_send_reply k (Some i) (cn_generation c) r n x = (NOS_ERR, n, x).
Proof.
  intros Hg Hl Hl' Hc Hgen. rewrite relink_generation in Hgen by done.
  unfold nos_ipc_send_reply. cbn [mbind option_bind]. rewrite Hc. cbn [fmap option_fmap option_map].
  assert (cn_generation c' =? cn_generation c = false) as E.
  { apply Z.eqb_neq. rewrite Hgen. unfold in_u32, u32 in *. intros E.
    pose proof (Z.div_mod (cn_generation c + Z.of_nat (length l)) (2 ^ 32) ltac:(done)) as Hm. rewrite E in Hm.
    assert (Z.of_nat (length l) = 2 ^ 32 * ((cn_generation c + Z.of_nat (length l)) / 2 ^ 32)) by lia. nia. }
  rewrite E. cbn [negb]. by rewrite orb_true_r.
Qed.

(** ** Witnesses *)

(** A kernel at time 0 that connects on descriptor 9 and whose [send]s
    answer as [sends] says. *)
Definition demo_kernel (sends : nat -> send_answer) : kernel :=
  Kernel (fun _ => 0) (fun _ => Some 9) (fun _ => true) sends (fun _ => true)
         (fun _ => MapAnswers true true true) (fun _ => true) (fun _ => None) (fun _ => true)
         (fun _ => true) (fun _ => []) (fun _ _ => 170).

Definition idle_refs (p : pool) : bool :=
  forallb (fun bn => forallb (fun b => b_ref_cnt b =? 0) (buffers bn)) (g_bins p).

Lemma idle_refs_exact p : idle_refs p = true -> refs_exact p [].
Proof.
  intros H. split; [by intros r ?%elem_of_nil|]. intros r b _ Hg. unfold get_buf in Hg.
  destruct (g_bins p !! ref_bin r) as [bn|] eqn:Hb; [|done]. cbn in Hg.
  unfold idle_refs in H. rewrite forallb_forall in H.
  pose proof (H bn ltac:(by eapply list_elem_of_In, list_elem_of_lookup_2)) as H1.
  rewrite forallb_forall in H1.
  pose proof (H1 b ltac:(by eapply list_elem_of_In, list_elem_of_lookup_2)) as H2. by apply Z.eqb_eq in H2.
Qed.

Lemma demo_node_refs : refs_ok [] demo_node.
Proof.
  split.
  - exact demo_pool_wf.
  - intros th T HT. unfold demo_node in HT. cbn [n_threads] in HT.
    apply lookup_singleton_Some in HT as [<- <-]. split; [|by vm_compute].
    apply ring_init_ok. unfold MAX_QUEUE_SIZE. lia.
  - assert (queued demo_node ++ [] = []) as -> by (by vm_compute). apply idle_refs_exact. by vm_compute.
Qed.

Definition demo_alloc : node := upd_pool (fun _ => (nos_buffer_alloc 32 0 (n_pool demo_node)).1) demo_node.

Lemma demo_alloc_refs : refs_ok [demo_ref] demo_alloc.
Proof.
  pose proof (refs_ok_alloc [] demo_node 32 0 demo_node_refs ltac:(unfold req_ok; lia)) as H.
  assert (nos_buffer_alloc 32 0 (n_pool demo_node) =
    ((nos_buffer_alloc 32 0 (n_pool demo_node)).1, Some demo_ref)) as E.
  { rewrite (surjective_pairing (nos_buffer_alloc _ _ _)) at 1. f_equal. }
  rewrite E in H. exact H.
Qed.

(** A service 7 on the node "b" listening at "/b"; [demo_ref] is for it. *)
Definition demo_remote : node :=
  upd_pool (upd_buf demo_ref (write_raw (msg_write demo_header)))
    (upd_registry (fun r => (nos_service_register_remote 7 (Some "b"%string) "/b" r).2) demo_alloc).

Lemma demo_remote_refs : refs_ok [demo_ref] demo_remote.
Proof.
  apply refs_ok_write; [intros; apply length_msg_write|by left|].
  eapply refs_ok_threads; [| |exact demo_alloc_refs]; done.
Qed.

Definition demo_host : shm_host := ShmHost ∅ [].

(** The message queued on a connection that is up but congested. *)
Definition demo_congested : kernel := demo_kernel (fun t => if (t <? 5)%nat then SendAgain else SentAll).

Definition demo_tx : nos_status * node * ipc_state :=
  nos_ipc_send_enqueue demo_congested "b" "/b" demo_ref demo_remote (ipc_static demo_host).
Definition demo_tx_conn : nos_ipc_conn := default zero_conn (conn_at 0 demo_tx.2).

Lemma demo_tx_inv : ipc_inv 0 [demo_ref] demo_tx.1.2 demo_tx.2.
Proof.
  pose proof (send_enqueue_inv 0 demo_congested [demo_ref] demo_remote (ipc_static demo_host) demo_ref "b" "/b"
    (ipc_static_inv [demo_ref] demo_remote demo_host demo_remote_refs) ltac:(by left)) as H.
  unfold demo_tx. by destruct (nos_ipc_send_enqueue _ _ _ _ _ _) as [[? ?] ?].
Qed.

Lemma ipc_references_exact_witness :
  exists s, rtc (sys_step demo_congested (fun _ => ""%string)) (System [demo_ref] demo_remote (ipc_static demo_host)) s /\
    tx_queued (sy_ipc s) = [demo_ref] /\ sy_held s = [] /\
    refs_exact (n_pool (sy_node s)) (queued (sy_node s) ++ tx_queued (sy_ipc s) ++ sy_held s).
Proof.
  set (s1 := System [demo_ref] demo_tx.1.2 demo_tx.2).
  set (s2 := System [] (upd_pool (nos_buffer_release (Some demo_ref)) demo_tx.1.2) demo_tx.2).
  assert (rtc (sys_step demo_congested (fun _ => ""%string))
            (System [demo_ref] demo_remote (ipc_static demo_host)) s2) as Hs.
  { apply (rtc_l _ _ s1).
    - eapply (ss_send demo_congested _ [demo_ref] demo_remote (ipc_static demo_host) demo_ref demo_tx.1.1); [by left|].
      change demo_tx with (nos_ipc_send_enqueue demo_congested "b" "/b" demo_ref demo_remote (ipc_static demo_host)).
      assert (forall m : nos_status * node * ipc_state, m = (m.1.1, m.1.2, m.2)) as E by by intros [[? ?] ?].
      rewrite <-E. unfold nos_service_msg_send. cbn [mbind option_bind].
      assert (buf_msg demo_ref (n_pool demo_remote) = Some demo_header) as -> by (by vm_compute).
      cbn [fmap option_fmap option_map].
      assert (is_reply demo_header = false) as -> by (by vm_compute).
      assert (exists e, svc_lookup (dst_service demo_header) (n_registry demo_remote) = Some e /\
        is_remote e = true /\ remote_node e = "b"%string /\ remote_uds_path e = "/b"%string) as (e & -> & -> & Er & Ep)
        by (eexists; split; [by vm_compute|by vm_compute]).
      unfold nos_transport_remote_node_send. rewrite Er, Ep. reflexivity.
    - apply rtc_once. apply ss_release. reflexivity. }
  exists s2. split; [exact Hs|]. split; [by vm_compute|]. split; [reflexivity|].
  apply (ipc_references_exact demo_congested _ [demo_ref] demo_remote demo_host s2 demo_remote_refs Hs).
Defined.

Lemma process_tx_spec_witness :
  tx_view demo_tx_conn = [demo_ref] /\
  exists sent rest c', tx_view demo_tx_conn = sent ++ rest /\
    conn_at 0 (nos_ipc_process_tx demo_congested 0 (demo_tx.1.2, demo_tx.2)).2 = Some c' /\
    tx_view c' = rest /\
    i_wire (nos_ipc_process_tx demo_congested 0 (demo_tx.1.2, demo_tx.2)).2 =
      i_wire demo_tx.2 ++ map (fun r => (cn_fd demo_tx_conn, sent_packet demo_congested (n_pool demo_tx.1.2) r)) sent.
Proof.
  assert (forall k held n x i c w, ipc_inv 0 held n x -> conn_known i x -> conn_at i x = Some c ->
    cn_state c = NOS_IPC_CONNECTED -> 0 <= cn_fd c -> cn_shm c = None -> nos_ipc_process_tx k i (n, x) = w ->
    exists sent rest c', tx_view c = sent ++ rest /\ conn_at i w.2 = Some c' /\ tx_view c' = rest /\
      i_wire w.2 = i_wire x ++ map (fun r => (cn_fd c, sent_packet k (n_pool n) r)) sent) as H.
  { intros k held n x i c w H1 H2 H3 H4 H5 H6 <-.
    destruct (process_tx_spec k held n x i c H1 H2 H3 H4 H5 H6) as (sent & rest & c' & ? & ? & ? & ? & _).
    by exists sent, rest, c'. }
  split; [by vm_compute|]. eapply (H demo_congested [demo_ref]); [exact demo_tx_inv| | | | | |reflexivity].
  - apply Nat.ltb_lt. by vm_compute.
  - assert (forall o : option nos_ipc_conn, is_Some o -> o = Some (default zero_conn o)) as Ho by by intros ? [? ->].
    apply Ho. assert (forall o : option nos_ipc_conn, (if o then true else false) = true -> is_Some o) as Hs
      by (intros [?|]; [eauto|done]). apply Hs. by vm_compute.
  - by vm_compute.
  - apply Z.leb_le. by vm_compute.
  - by vm_compute.
Defined.

Lemma backoff_schedule_witness :
  let c := conn_init "/b" "b" (-1) false false None zero_conn in
  cn_next_retry_ms (fail_all ([0; 100; 300] ++ [700]) c) = 1500.
Proof.
  intros c. destruct (backoff_schedule [0; 100; 300] 700 c) as (_ & _ & H & _); [by vm_compute|].
  rewrite H. by vm_compute.
Defined.

(** The congested connection above after an error and a reconnection. *)
Lemma stale_reply_refused_witness :
  let x := upd_conn 0 (relink [None; Some 11]) demo_tx.2 in
  nos_ipc_send_reply demo_congested (Some 0%nat) (cn_generation demo_tx_conn) demo_ref demo_tx.1.2 x =
  (NOS_ERR, demo_tx.1.2, x).
Proof.
  intros x.
  assert (cn_generation demo_tx_conn = 2) as Hg by (by vm_compute).
  assert (exists c', conn_at 0 x = Some c' /\ cn_generation c' = 4) as (c' & Hc & Hg').
  { assert (forall o : option nos_ipc_conn, match o with Some c => cn_generation c =? 4 | None => false end = true ->
      exists c', o = Some c' /\ cn_generation c' = 4) as Ho.
    { intros [c|] Ho; [|done]. exists c. split; [done|]. by apply Z.eqb_eq. }
    apply Ho. by vm_compute. }
  apply (stale_reply_refused demo_congested demo_ref demo_tx.1.2 x 0%nat demo_tx_conn c' [None; Some 11]).
  - rewrite Hg. unfold in_u32. lia.
  - simpl. lia.
  - simpl. lia.
  - exact Hc.
  - rewrite Hg', relink_generation by (rewrite Hg; unfold in_u32; lia). rewrite Hg. by vm_compute.
Defined.

(** A message can be stranded in shared memory: when the socket has no
    room, [ipc_send_ctrl] drops the notification without a trace, and the
    message, already in the ring, counts as sent.  The sender reports
    NOS_OK, its queue is empty, the buffer is released, nothing is on the
    wire, and the peer is not told. *)
Theorem shm_notify_lost :
  let k := demo_kernel (fun _ => SendAgain) in
  let d := NodeDef "a" "/a" [] [] [] 0 in
  let n0 := Node (n_comps demo_remote) (n_timers demo_remote) (n_threads demo_remote) (Some d) (n_loaded demo_remote)
              (n_mgmt demo_remote) (n_workers demo_remote) (n_worker_count demo_remote) (n_registry demo_remote)
              (n_pool demo_remote) in
  let '(st, n, x) := nos_ipc_send_enqueue k "b" "/b" demo_ref n0 (ipc_static demo_host) in
  st = NOS_OK /\ i_wire x = [] /\ tx_queued x = [] /\
  (cc_tx_packets ∘ cn_counters <$> conn_at 0 x) = Some 1 /\
  (b_ref_cnt <$> get_buf demo_ref (n_pool n)) = Some 1 /\
  (map (fun r => (sr_head (rg_ab r), sr_tail (rg_ab r))) (sh_objects (i_host x))) = [(0, 1)]%nat.
Proof. vm_compute. repeat split. Qed.
