(* ===== verification/Remote.v ===== *)
(** * Request and reply between two nodes

    The composition of the message path: [nos_service_msg_send] and
    [nos_service_reply] (nos_scheduler.c), the transmit queue, the receive
    handler and the delivery of nos_ipc_p2p.c, the buffer pool and the reply
    contexts.  A message that fits leaves in a slot of the connection's
    shared-memory channel, with a notice on the socket ([via_shm]), and on the
    socket otherwise.  What one node writes to the socket the kernel hands to
    the other node, whole and in order; the channel is the memory they share.

    [event_delivers] is the receiving leg, [request_sends] and
    [reply_sends] the sending legs; [remote_request_reply] puts two nodes
    together. *)

From stdpp Require Import base list gmap strings relations.
From S2P Require Import Prelude CArray Ring Mem Buffer Service Node Timer Scheduler Refs Stats Shm Ipc.
Import Registry.
Local Open Scope Z_scope.

(** ** Envelopes and the bytes that carry them *)

(** Only the 32 bytes of the envelope matter. *)
Lemma msg_read_ext off off' m m' :
  (forall j, (j < MSG_SIZE)%nat -> m !! (off + j)%nat = m' !! (off' + j)%nat) ->
  msg_read off m = msg_read off' m'.
Proof.
  intros H. assert (forall f, get_field f off m = get_field f off' m') as Hf.
  { intros f. unfold get_field, mem_read. f_equal. apply map_ext_in. intros j Hj%in_seq.
    f_equal. rewrite <-!Nat.add_assoc. apply H. unfold MSG_SIZE. destruct f; simpl in *; lia. }
  unfold msg_read. by rewrite !Hf.
Qed.

Lemma msg_read_window off len m :
  (MSG_SIZE <= len)%nat -> msg_read 0 (take len (drop off m)) = msg_read off m.
Proof.
  intros Hl. apply msg_read_ext. intros j Hj. rewrite lookup_take_lt, lookup_drop by lia. done.
Qed.

Lemma peek_header_whole garbage pkt :
  (MSG_SIZE <= length pkt)%nat -> peek_header garbage pkt = msg_read 0 pkt.
Proof.
  intros Hl. apply msg_read_ext. intros j Hj. rewrite lookup_app_l by (rewrite length_take; lia).
  by rewrite lookup_take_lt by lia.
Qed.

(** [octet] values, and what reading them keeps. *)
Abbreviation bytes := (Forall (fun b => 0 <= b < 256)).

Lemma octets_id l : bytes l -> octets l = l.
Proof.
  intros H. induction H as [|b l Hb _ IH]; [done|]. unfold octets in *. cbn. rewrite IH. f_equal.
  by apply Z.mod_small.
Qed.

Lemma le_bytes_bytes n v : bytes (le_bytes n v).
Proof.
  revert v. induction n as [|n IH]; intros v; cbn; constructor; [apply Z.mod_pos_bound; lia|apply IH].
Qed.

(** A datagram a receiver accepts and passes on. *)
Record datagram_ok (pkt : list Z) : Prop := {
  dg_magic : magic (msg_read 0 pkt) = NOS_IPC_MAGIC;
  dg_len : Z.of_nat (length pkt) = full_len (msg_read 0 pkt);
  dg_payload : payload_len (msg_read 0 pkt) <= NOS_IPC_MAX_PAYLOAD_LEN;
  dg_ctrl : ipc_is_ctrl_msg (msg_read 0 pkt) = false;
  dg_bytes : bytes pkt;
}.

#[export] Instance datagram_ok_dec pkt : Decision (datagram_ok pkt).
Proof.
  refine (cast_if (decide (magic (msg_read 0 pkt) = NOS_IPC_MAGIC /\
    Z.of_nat (length pkt) = full_len (msg_read 0 pkt) /\
    payload_len (msg_read 0 pkt) <= NOS_IPC_MAX_PAYLOAD_LEN /\
    ipc_is_ctrl_msg (msg_read 0 pkt) = false /\ bytes pkt)));
    [by destruct_and!; split|by intros []; apply n; split_and!].
Defined.

Lemma datagram_size pkt : datagram_ok pkt -> (MSG_SIZE <= length pkt)%nat /\ 0 <= payload_len (msg_read 0 pkt).
Proof.
  intros [_ Hl _ _ Hb]. pose proof (get_field_range F_payload_len 0 pkt Hb).
  change (get_field F_payload_len 0 pkt) with (payload_len (msg_read 0 pkt)) in *.
  unfold full_len in Hl. lia.
Qed.

Lemma datagram_req pkt : datagram_ok pkt -> req_ok (full_len (msg_read 0 pkt)) 0.
Proof.
  intros Hd. pose proof (datagram_size pkt Hd) as [Hs Hp]. destruct Hd as [_ _ Hm _ _].
  unfold req_ok, full_len, NOS_IPC_MAX_PAYLOAD_LEN, MSG_SIZE in *. lia.
Qed.

(** ** The pool *)

Lemma find_idx_alter {A} (P : A -> bool) f i (l : list A) :
  (forall x, P (f x) = P x) -> find_idx P (alter f i l) = find_idx P l.
Proof.
  intros H. revert i. induction l as [|x l IH]; intros [|i]; cbn; [done..| |].
  - by rewrite H.
  - by rewrite IH.
Qed.

Lemma take_alter_comm {A} (f : A -> A) n i (l : list A) : take n (alter f i l) = alter f i (take n l).
Proof.
  revert n i. induction l as [|x l IH]; intros [|n] [|i]; cbn; [done..| |]; f_equal. apply IH.
Qed.

(** The next chunk does not depend on what the buffers hold. *)
Lemma alloc_after_edit size hr r f p :
  (nos_buffer_alloc size hr (upd_buf r f p)).2 = (nos_buffer_alloc size hr p).2.
Proof.
  unfold nos_buffer_alloc, upd_buf, upd_bin. cbn [g_bins g_bin_count].
  rewrite take_alter_comm, find_idx_alter by done. destruct (find_idx _ _) as [j|]; [|done].
  destruct (decide (ref_bin r = j)) as [<-|Hne].
  - rewrite list_lookup_alter_eq. by destruct (g_bins p !! ref_bin r).
  - rewrite list_lookup_alter_ne by done. by destruct (g_bins p !! j).
Qed.

Lemma release_shared r p b :
  get_buf r p = Some b -> b_ref_cnt b <> 1 ->
  nos_buffer_release (Some r) p = upd_buf r (fun b => set_ref (b_ref_cnt b - 1) b) p.
Proof. intros Hb Hne. unfold nos_buffer_release. rewrite Hb. by destruct (Z.eqb_spec (b_ref_cnt b) 1). Qed.

Lemma alter_back {A} (f g : A -> A) i (l : list A) :
  (forall x, l !! i = Some x -> f (g x) = x) -> alter f i (alter g i l) = l.
Proof.
  intros H. apply list_eq. intros j. destruct (decide (i = j)) as [<-|]; [|by rewrite !list_lookup_alter_ne].
  rewrite !list_lookup_alter_eq. destruct (l !! i) as [x|]; [|done]. cbn. by rewrite H.
Qed.

(** Retaining a held buffer and giving the reference back changes nothing. *)
Lemma retain_release r p :
  pool_wf p -> buf_live r p -> nos_buffer_release (Some r) (nos_buffer_retain (Some r) p) = p.
Proof.
  intros Hw [_ (b & Hb & Hr)]. unfold nos_buffer_retain.
  rewrite (release_shared r _ (set_ref (b_ref_cnt b + 1) b)); [|by rewrite get_buf_upd_eq, Hb|cbn; lia].
  unfold upd_buf, upd_bin. destruct p as [bins cnt cs]. cbn in *. f_equal.
  apply alter_back. intros bn _. destruct bn. unfold set_buffers. cbn. f_equal.
  apply alter_back. intros [] _. unfold set_ref. cbn. f_equal. lia.
Qed.

(** ** Receiving *)

(** What a connection keeps while it carries traffic. *)
Definition same_link (c c' : nos_ipc_conn) : Prop :=
  cn_state c' = cn_state c /\ cn_fd c' = cn_fd c /\ cn_generation c' = cn_generation c /\
  cn_shm c' = cn_shm c /\ cn_uds_path c' = cn_uds_path c.

(** [n'], [x'] come from [n], [x] by the arrival of [data] on connection [i]:
    one more buffer [r] at the end of the queue of thread [th], with those
    bytes, a reference of its own and a reply context that leads back. *)
Record received (th : thread_ptr) (T : nos_thread) (data : list Z) (i : conn_ptr) (c : nos_ipc_conn)
    (n : node) (x : ipc_state) (r : buf_ref) (n' : node) (x' : ipc_state) : Prop := {
  rv_thread : exists T', n_threads n' !! th = Some T' /\ thread_queue T' = thread_queue T ++ [r];
  rv_bytes : buf_bytes r (length data) (n_pool n') = data;
  rv_msg : buf_msg r (n_pool n') = Some (msg_read 0 data);
  rv_ctx : exists a, nos_service_get_reply_ctx (Some r) (n_pool n') = Some a /\
    reply_ctxs (n_pool n') !! a =
      Some (ReplyCtx 1 (Some i) (cn_generation c) (seq_no (msg_read 0 data)) (src_component (msg_read 0 data)));
  rv_other s : buf_live s (n_pool n) -> s <> r /\ get_buf s (n_pool n') = get_buf s (n_pool n);
  rv_link : exists c', conn_at i x' = Some c' /\ same_link c c' /\ cn_queue c' = cn_queue c;
  rv_wire : i_wire x' = i_wire x;
}.

(** A queued message leaves everything but the thread and the pool. *)
Lemma local_send_queue r th T n l :
  n_threads n !! th = Some T -> ring_rep (msg_queue T) l -> ring_full (msg_queue T) = false ->
  exists n', nos_transport_local_send r (Some th) n = (NOS_OK, n') /\
    n_pool n' = nos_buffer_retain (Some r) (n_pool n) /\
    exists T', n_threads n' !! th = Some T' /\ thread_queue T' = l ++ [r].
Proof.
  intros HT Hl Hf. destruct (local_send_shape r th T n HT Hf) as (g & Hg & Ht & Hp).
  exists (nos_transport_local_send r (Some th) n).2. split_and!; [|exact Hp|].
  - unfold nos_transport_local_send. cbn [mbind option_bind]. rewrite HT.
    cbn [fmap option_fmap option_map]. by rewrite Hf.
  - exists (g T). rewrite Ht, lookup_alter_eq, HT. split; [done|].
    unfold thread_queue. rewrite Hg. by apply ring_rep_view, ring_put_rep.
Qed.

(** A fresh buffer filled with [data]. *)
Lemma alloc_put data p p' r :
  pool_wf p -> pool_wf p' -> buf_live r p' -> req_ok (Z.of_nat (length data)) 0 ->
  nos_buffer_alloc (Z.of_nat (length data)) 0 p = (p', Some r) ->
  (exists b, get_buf r (put_data data r p') = Some b /\ b_data b = 0 /\ b_ref_cnt b = 1 /\
     b_reply_ctx b = None /\ take (length data) (b_raw b) = data) /\
  (forall s, buf_live s p -> s <> r) /\
  (forall s, s <> r -> get_buf s (put_data data r p') = get_buf s p).
Proof.
  intros Hw Hw' Hl Hq Ha. pose proof (alloc_post_holds p _ 0 Hw Hq) as Hpost. rewrite Ha in Hpost.
  destruct Hpost as ((x & Hx & Hx0 & Hb & Hcap) & Hne & _).
  destruct (buf_live_lookup r p' Hw' Hl) as (bn & b & Hbn & Hbb & Hb' & Hr & Hbw & _).
  pose proof (bw_buf _ _ Hbw _ _ Hbb) as [Hbc Hraw _ _ _ _ _].
  assert (b = Buf (b_raw x) 0 (b_capacity x) (Z.of_nat (length data)) 0 (b_capacity x - 0 - Z.of_nat (length data)) 1
    (b_bin_idx x) (b_pool_idx x) None) as -> by congruence. cbn in Hbc, Hraw.
  split_and!.
  - unfold put_data. rewrite get_buf_upd_eq, Hb. cbn. eexists. split; [done|]. cbn. split_and!; [done..|].
    rewrite <-(take_drop (length data) (b_raw x)).
    rewrite list_inserts_0_r by (rewrite length_take; lia). apply take_app_length.
  - intros s [_ (y & Hy & ?)] ->. assert (y = x) as -> by congruence. lia.
  - intros s Hs. unfold put_data. rewrite get_buf_upd_ne by done. by apply Hne.
Qed.

(** The routes of a node. *)
Definition same_routes (n n' : node) : Prop :=
  n_comps n' = n_comps n /\ n_loaded n' = n_loaded n /\ n_registry n' = n_registry n.

Lemma local_send_routes r th n : same_routes n (nos_transport_local_send r th n).2.
Proof. unfold nos_transport_local_send. repeat (case_match; try done). Qed.

Section receive.
Context (k : kernel) (m : nat).
#[local] Instance ipc_remote : IpcTransport ipc_state := ipc_transport k.

(** The pool once [data] is in the fresh buffer [r] with its reply context. *)
Definition filled (data : list Z) (cs : ctx_store * option nat) (r : buf_ref) (p : pool) : pool :=
  attach_ctx cs r (put_data data r p).

Lemma fill_inv held data cs n x p r size :
  ipc_inv m held n x -> req_ok size 0 -> nos_buffer_alloc size 0 (n_pool n) = (p, Some r) ->
  ipc_inv m (r :: held) (upd_pool (fun _ => p) n) x /\
  ipc_inv m (r :: held) (upd_pool (fun _ => filled data cs r p) n) x.
Proof.
  intros Hi Hq Ha. pose proof (ipc_inv_alloc m held n x size 0 Hi Hq) as H. rewrite Ha in H.
  split; [done|].
  pose proof (ipc_inv_write m (r :: held) _ x r (fun off raw => list_inserts off data raw)
    (fun off l => length_inserts l off data) ltac:(by left) H) as H2.
  exact (ipc_inv_attach m (r :: held) _ x r cs H2 ltac:(by left)).
Qed.

(** What the buffer then holds. *)
Lemma filled_spec held data cs n x p r :
  ipc_inv m held n x -> req_ok (Z.of_nat (length data)) 0 -> (MSG_SIZE <= length data)%nat ->
  nos_buffer_alloc (Z.of_nat (length data)) 0 (n_pool n) = (p, Some r) ->
  let p' := filled data cs r p in
  (exists b, get_buf r p' = Some b /\ b_ref_cnt b = 1) /\
  buf_bytes r (length data) p' = data /\ buf_msg r p' = Some (msg_read 0 data) /\
  nos_service_get_reply_ctx (Some r) p' = cs.2 /\ reply_ctxs p' = cs.1 /\
  nos_buffer_release (Some r) (nos_buffer_retain (Some r) p') = p' /\
  (forall s, buf_live s (n_pool n) -> s <> r /\ get_buf s p' = get_buf s (n_pool n)).
Proof.
  intros Hi Hq Hs Ha p'. destruct (fill_inv held data cs n x p r _ Hi Hq Ha) as [Hi1 Hi2].
  pose proof (ipc_inv_live m _ _ _ r Hi1 ltac:(by left)) as Hl1.
  pose proof (ipc_inv_live m _ _ _ r Hi2 ltac:(by left)) as Hl2.
  destruct (alloc_put data (n_pool n) p r) as ((b & Hb & Hb0 & Hbr & _ & Hbd) & Hfresh & Hne);
    [apply Hi|apply Hi1|exact Hl1|done..|].
  assert (get_buf r p' = Some (set_reply_ctx cs.2 b)) as Hg.
  { unfold p', filled, attach_ctx. rewrite get_buf_upd_eq.
    change (get_buf r (Pool _ _ _)) with (get_buf r (put_data data r p)). by rewrite Hb. }
  assert (drop (Z.to_nat (b_data (set_reply_ctx cs.2 b))) (b_raw (set_reply_ctx cs.2 b)) = b_raw b) as Hdrop
    by (cbn; by rewrite Hb0).
  split_and!.
  - eexists. by split.
  - unfold buf_bytes. by rewrite Hg, Hdrop.
  - unfold buf_msg. rewrite Hg. cbn [fmap option_fmap option_map]. f_equal.
    rewrite <-(msg_read_window _ (length data)) by done. by rewrite Hdrop, Hbd.
  - unfold nos_service_get_reply_ctx. cbn [mbind option_bind]. by rewrite Hg.
  - done.
  - apply retain_release; [apply Hi2|exact Hl2].
  - intros s Hs'. pose proof (Hfresh s Hs') as Hsr. split; [done|]. rewrite <-(Hne s Hsr).
    unfold p', filled, attach_ctx. rewrite get_buf_upd_ne by done. done.
Qed.

Lemma deliver_received held data i c n x h th T p r :
  ipc_inv m held n x -> conn_at i x = Some c ->
  datagram_ok data -> h = msg_read 0 data ->
  local_route n h = Some th -> n_threads n !! th = Some T -> ring_full (msg_queue T) = false ->
  nos_buffer_alloc (full_len h) 0 (n_pool n) = (p, Some r) -> k_calloc k (i_tick x) = true ->
  let w := ipc_deliver_rx_data k data (Some i) (n, x) in
  received th T data i c n x r w.1 w.2 /\ same_routes n w.1 /\ i_rx w.2 = i_rx x /\
  shm_get w = shm_get (n, x).
Proof.
  intros Hi Hc Hd -> Hroute HT Hf Ha Hcal. pose proof (datagram_size _ Hd) as [Hs _].
  pose proof (datagram_req _ Hd) as Hq. pose proof (dg_len _ Hd) as Hlen.
  pose proof (dg_payload _ Hd) as Hpl. unfold ipc_deliver_rx_data. rewrite Hlen.
  destruct (Z.ltb_spec (full_len (msg_read 0 data)) (Z.of_nat MSG_SIZE)); [lia|]. cbv zeta.
  rewrite Z.eqb_refl, Z.gtb_ltb, (proj2 (Z.ltb_ge _ _)) by done. cbn [orb negb].
  rewrite Ha. cbn [mbind option_bind]. rewrite Hc. cbn [fmap option_fmap option_map]. rewrite Hcal.
  unfold nos_reply_ctx_create. cbn [negb].
  set (a := fresh (dom (reply_ctxs (put_data data r p)))).
  set (ctx := ReplyCtx _ _ _ _ _).
  set (cs := (<[a := ctx]> (reply_ctxs (put_data data r p)), Some a)).
  fold (filled data cs r p). rewrite <-Hlen in Ha, Hq.
  destruct (filled_spec held data cs n x p r Hi Hq Hs Ha) as (_ & Hbytes & Hmsg & Hctx & Hcs & Hrel & Hother).
  destruct (fill_inv held data cs n x p r _ Hi Hq Ha) as [_ Hi2].
  set (n2 := upd_pool (fun _ => filled data cs r p) n).
  assert (ring_rep (msg_queue T) (thread_queue T)) as Hrep
    by (apply ring_ok_rep; by apply (rk_ring _ _ (iv_refs _ _ _ _ Hi) th T)).
  rewrite (msg_send_route r (msg_read 0 data) th n2) by done.
  destruct (local_send_queue r th T n2 (thread_queue T) HT Hrep Hf) as (n3 & Hsend & Hp3 & HT3).
  pose proof (local_send_routes r (Some th) n2) as Hfr. rewrite Hsend in *. cbn [fst snd] in *.
  assert (n_pool (upd_pool (nos_buffer_release (Some r)) n3) = filled data cs r p) as Hpool.
  { cbn. rewrite Hp3. exact Hrel. }
  split; [|split; [exact Hfr|done]].
  split; rewrite ?Hpool; try done.
  - exists a. split; [exact Hctx|]. rewrite Hcs. cbn. apply lookup_insert_eq.
  - exists (cn_count (count_rx (full_len (msg_read 0 data))) c). split; [|by split_and!].
    change (conn_at i (upd_conn i (cn_count (count_rx (full_len (msg_read 0 data)))) (tick x)) =
      Some (cn_count (count_rx (full_len (msg_read 0 data))) c)).
    rewrite upd_conn_eq. change (conn_at i (tick x)) with (conn_at i x). by rewrite Hc.
Qed.

(** The chunks a message takes on its way: one to read the datagram of
    [first] bytes into, one of [size] bytes to pass the message on. *)
Definition can_receive (first size : Z) (p : pool) : bool :=
  match nos_buffer_alloc first 0 p with
  | (p1, Some _) => bool_decide (is_Some (nos_buffer_alloc size 0 p1).2)
  | (_, None) => false
  end.

(** Releasing the read buffer [r1] leaves the message passed on. *)
Lemma received_release th T data i c n1 x r n' x' r1 b1 :
  received th T data i c n1 x r n' x' -> pool_wf (n_pool n') ->
  buf_live r1 (n_pool n1) -> (ref_bin r1 < g_bin_count (n_pool n'))%nat ->
  get_buf r1 (n_pool n1) = Some b1 -> b_ref_cnt b1 = 1 -> b_reply_ctx b1 = None ->
  let n2 := upd_pool (nos_buffer_release (Some r1)) n' in
  reply_ctxs (n_pool n2) = reply_ctxs (n_pool n') /\
  forall s, s <> r1 -> get_buf s (n_pool n2) = get_buf s (n_pool n').
Proof.
  intros [_ _ _ _ Ho _ _] Hw Hl Hbin Hg Hr Hx n2. destruct (Ho r1 Hl) as [Hne Hg']. rewrite Hg in Hg'.
  assert (buf_live r1 (n_pool n')) as Hl' by (split; [done|]; exists b1; split; [done|lia]).
  destruct (release_post_holds (n_pool n') r1 b1 Hw Hl' Hg') as [Hsame Hlast].
  rewrite Hr in Hlast. cbn in Hlast. destruct Hlast as (_ & Hctx & _). rewrite Hx in Hctx.
  split; [exact Hctx|exact Hsame].
Qed.

Lemma received_ext th T data i c n n1 x x1 r n' n2 x' :
  received th T data i c n1 x1 r n' x' -> i_wire x1 = i_wire x ->
  (forall s, buf_live s (n_pool n) -> buf_live s (n_pool n1) /\ get_buf s (n_pool n1) = get_buf s (n_pool n) /\
     get_buf s (n_pool n2) = get_buf s (n_pool n')) ->
  n_threads n2 = n_threads n' -> get_buf r (n_pool n2) = get_buf r (n_pool n') ->
  reply_ctxs (n_pool n2) = reply_ctxs (n_pool n') ->
  received th T data i c n x r n2 x'.
Proof.
  intros [Ht Hb Hm Hc Ho Hlk Hw] Ew Hs Eth Er Ec. split.
  - by rewrite Eth.
  - unfold buf_bytes. by rewrite Er.
  - unfold buf_msg. by rewrite Er.
  - unfold nos_service_get_reply_ctx in *. cbn [mbind option_bind] in *. by rewrite Er, Ec.
  - intros s Hl. destruct (Hs s Hl) as (Hl1 & E1 & E2). destruct (Ho s Hl1) as [Hne E].
    split; [done|]. by rewrite E2, E, E1.
  - exact Hlk.
  - by rewrite Hw.
Qed.

(** The datagram [d] read into the buffer [r1]. *)
Lemma read_inv held d n x p1 r1 x1 :
  ipc_inv m held n x -> req_ok (Z.of_nat (length d)) 0 ->
  nos_buffer_alloc (Z.of_nat (length d)) 0 (n_pool n) = (p1, Some r1) -> i_conns x1 = i_conns x ->
  ipc_inv m (r1 :: held) (upd_pool (fun _ => put_data d r1 p1) n) x1.
Proof.
  intros Hi Hq Ha Ex. destruct (fill_inv held d (∅, None) n x p1 r1 _ Hi Hq Ha) as [Hi1 _].
  eapply ipc_inv_ext; [|apply (ipc_inv_write m (r1 :: held) _ x r1 (fun off raw => list_inserts off d raw)
    (fun off l => length_inserts l off d) ltac:(by left) Hi1)]. done.
Qed.

(** A message received while the datagram is in its buffer is received, the
    buffer being released after it. *)
Lemma read_received held d i c n x th T pkt p1 r1 n' x' x1 r :
  ipc_inv m held n x -> req_ok (Z.of_nat (length d)) 0 ->
  nos_buffer_alloc (Z.of_nat (length d)) 0 (n_pool n) = (p1, Some r1) ->
  i_conns x1 = i_conns x -> i_wire x1 = i_wire x ->
  received th T pkt i c (upd_pool (fun _ => put_data d r1 p1) n) x1 r n' x' ->
  ipc_inv m (r1 :: held) n' x' ->
  received th T pkt i c n x r (upd_pool (nos_buffer_release (Some r1)) n') x'.
Proof.
  intros Hi Hq Ha Ex Ew Hrcv Hi2. pose proof (read_inv held d n x p1 r1 x1 Hi Hq Ha Ex) as Hi1'.
  destruct (fill_inv held d (∅, None) n x p1 r1 _ Hi Hq Ha) as [Hi1 _].
  pose proof (ipc_inv_live m _ _ _ r1 Hi1 ltac:(by left)) as Hl1.
  pose proof (ipc_inv_live m _ _ _ r1 Hi1' ltac:(by left)) as Hl1'.
  destruct (alloc_put d (n_pool n) p1 r1) as ((b1 & Hb1 & _ & Hbr & Hbc & _) & Hfresh & Hne);
    [apply Hi|apply Hi1|exact Hl1|done..|].
  pose proof (ipc_inv_live m _ _ _ r1 Hi2 ltac:(by left)) as [Hbin' _].
  destruct (received_release th T pkt i c _ x1 r n' x' r1 b1 Hrcv) as [Ec Es]; try done; [apply Hi2|].
  eapply received_ext; [exact Hrcv|done| |done| |exact Ec].
  - intros s Hls. pose proof (Hfresh s Hls) as Hsr. split_and!; [|by apply Hne|by apply Es].
    destruct Hls as [Hb (b & Hg & Hge)]. split; [|exists b; split; [by rewrite Hne|done]].
    cbn. pose proof (g_bin_count_alloc (Z.of_nat (length d)) 0 (n_pool n)) as Hcnt. rewrite Ha in Hcnt.
    cbn in Hcnt. change (g_bin_count (put_data d r1 p1)) with (g_bin_count p1). by rewrite Hcnt.
  - apply Es. intros ->. by destruct (rv_other _ _ _ _ _ _ _ _ _ _ Hrcv r1 Hl1') as [? _].
Qed.

(** With the datagram in its buffer there is a chunk for the message. *)
Lemma read_alloc d size n p1 r1 :
  can_receive (Z.of_nat (length d)) size (n_pool n) = true ->
  nos_buffer_alloc (Z.of_nat (length d)) 0 (n_pool n) = (p1, Some r1) ->
  exists p r, nos_buffer_alloc size 0 (put_data d r1 p1) = (p, Some r).
Proof.
  unfold can_receive. intros Hcan Ha. rewrite Ha in Hcan. apply bool_decide_eq_true in Hcan as [r Hr].
  exists (nos_buffer_alloc size 0 (put_data d r1 p1)).1, r.
  rewrite (surjective_pairing (nos_buffer_alloc _ _ _)) at 1. f_equal. rewrite <-Hr. apply alloc_after_edit.
Qed.

(** Reading a datagram that is the message. *)
Lemma recv_received held fd ths i c n x pkt th T :
  ipc_inv m held n x -> (i < m)%nat -> conn_at i x = Some c ->
  rx_head fd x = Some pkt -> datagram_ok pkt ->
  local_route n (msg_read 0 pkt) = Some th -> n_threads n !! th = Some T -> ring_full (msg_queue T) = false ->
  can_receive (Z.of_nat (length pkt)) (Z.of_nat (length pkt)) (n_pool n) = true -> k_calloc k (S (i_tick x)) = true ->
  let w := nos_ipc_recv_handler k fd (Some i) ths (n, x) in
  exists r, received th T pkt i c n x r w.1 w.2 /\ same_routes n w.1 /\ i_rx w.2 = i_rx (rx_pop fd x) /\
    i_host w.2 = i_host x.
Proof.
  intros Hi Hlt Hc Hhd Hd Hroute HT Hf Hcan Hcal. pose proof (datagram_size _ Hd) as [Hs _].
  pose proof (datagram_req _ Hd) as Hq. pose proof (dg_len _ Hd) as Hlen. pose proof (dg_payload _ Hd) as Hpl.
  unfold nos_ipc_recv_handler. rewrite Hhd. destruct pkt as [|b0 pkt0] eqn:Epkt; [cbn in Hs; unfold MSG_SIZE in Hs; lia|].
  rewrite <-Epkt in *. clear Epkt b0 pkt0. rewrite peek_header_whole by done. cbv zeta.
  rewrite (dg_magic _ Hd), Z.eqb_refl, Z.gtb_ltb, (proj2 (Z.ltb_ge _ _)) by done. cbn [negb].
  destruct (nos_buffer_alloc (full_len (msg_read 0 pkt)) 0 (n_pool n)) as [p1 [r1|]] eqn:Ha;
    [|unfold can_receive in Hcan; by rewrite Hlen, Ha in Hcan].
  rewrite <-Hlen in Ha, Hq. destruct (read_alloc pkt (Z.of_nat (length pkt)) n p1 r1 Hcan Ha) as (p & r & Hp).
  rewrite <-Hlen, Nat2Z.id, take_ge, Z.eqb_refl, (dg_ctrl _ Hd) by lia.
  set (n1 := upd_pool (fun _ => put_data pkt r1 p1) n). set (x1 := rx_pop fd (tick x)).
  pose proof (read_inv held pkt n x p1 r1 x1 Hi Hq Ha eq_refl) as Hi1.
  rewrite Hlen in Hp.
  destruct (deliver_received (r1 :: held) pkt i c n1 x1 _ th T p r Hi1 Hc Hd eq_refl Hroute HT Hf Hp Hcal)
    as (Hrcv & Hsame & Hrx & Hshm).
  pose proof (deliver_rx_inv m k (r1 :: held) pkt (Some i) n1 x1 ltac:(by intros ? [= <-]) Hi1) as Hi2.
  destruct (ipc_deliver_rx_data k pkt (Some i) (n1, x1)) as [n' x'] eqn:Ed. cbn [fst snd] in *.
  exists r. split_and!; [|done..|exact (f_equal fst Hshm)].
  by eapply (read_received held pkt i c n x th T pkt p1 r1 n' x' x1).
Qed.

(** The datagram that tells the peer to look into the shared memory. *)
Definition shm_notify : list Z :=
  msg_encode (Msg NOS_IPC_MAGIC NOS_IPC_VERSION 0 0 0 NOS_IPC_CTRL_SHM_NOTIFY 0 NOS_MSG_F_IPC_CTRL 0).

(** Reading that datagram when a message waits in the shared memory. *)
Lemma notify_received held fd ths i c ch n x pkt th T :
  ipc_inv m held n x -> (i < m)%nat -> conn_at i x = Some c -> cn_shm c = Some ch ->
  rx_holds ch (i_host x) [pkt] -> tx_holds ch (i_host x) [] ->
  rx_head fd x = Some shm_notify -> datagram_ok pkt ->
  local_route n (msg_read 0 pkt) = Some th -> n_threads n !! th = Some T -> ring_full (msg_queue T) = false ->
  can_receive (Z.of_nat (length shm_notify)) (Z.of_nat (length pkt)) (n_pool n) = true -> (forall t, k_calloc k t = true) ->
  let w := nos_ipc_recv_handler k fd (Some i) ths (n, x) in
  exists r, received th T pkt i c n x r w.1 w.2 /\ same_routes n w.1 /\ i_rx w.2 = i_rx (rx_pop fd x) /\
    rx_holds ch (i_host w.2) [] /\ tx_holds ch (i_host w.2) [].
Proof.
  intros Hi Hlt Hc Hch Hrxh Htxh Hhd Hd Hroute HT Hf Hcan Hcal. pose proof (dg_len _ Hd) as Hlen.
  assert (req_ok (Z.of_nat (length shm_notify)) 0) as Hq by (change (length shm_notify) with 32%nat; unfold req_ok; lia).
  unfold nos_ipc_recv_handler. rewrite Hhd. rewrite peek_header_whole by (vm_compute; lia).
  destruct shm_notify as [|b0 pkt0] eqn:Epkt; [by vm_compute in Epkt|]. rewrite <-Epkt in *. clear Epkt b0 pkt0.
  cbv zeta. change (magic (msg_read 0 shm_notify) =? NOS_IPC_MAGIC) with true. cbn [negb].
  change (payload_len (msg_read 0 shm_notify) >? NOS_IPC_MAX_PAYLOAD_LEN) with false. cbn iota.
  change (full_len (msg_read 0 shm_notify)) with (Z.of_nat (length shm_notify)).
  destruct (nos_buffer_alloc (Z.of_nat (length shm_notify)) 0 (n_pool n)) as [p1 [r1|]] eqn:Ha;
    [|unfold can_receive in Hcan; by rewrite Ha in Hcan].
  destruct (read_alloc shm_notify (Z.of_nat (length pkt)) n p1 r1 Hcan Ha) as (p & r & Hp).
  rewrite Nat2Z.id, take_ge, Z.eqb_refl by done. change (ipc_is_ctrl_msg (msg_read 0 shm_notify)) with true. cbn iota.
  set (n1 := upd_pool (fun _ => put_data shm_notify r1 p1) n). set (x1 := rx_pop fd (tick x)).
  pose proof (read_inv held shm_notify n x p1 r1 x1 Hi Hq Ha eq_refl) as Hi1.
  rewrite Hlen in Hp.
  destruct (deliver_received (r1 :: held) pkt i c n1 x1 _ th T p r Hi1 Hc Hd eq_refl Hroute HT Hf Hp (Hcal _))
    as (Hrcv & Hsame & Hrx & Hshm).
  pose proof (deliver_rx_inv m k (r1 :: held) pkt (Some i) n1 x1 ltac:(by intros ? [= <-]) Hi1) as Hi2.
  unfold ipc_handle_ctrl_msg. cbn [mbind option_bind snd].
  change (conn_at i x1) with (conn_at i x). rewrite Hc. cbn [fmap option_fmap option_map].
  change ((msg_code (msg_read 0 shm_notify) =? NOS_IPC_CTRL_SHM_SETUP) && _) with false. cbn iota.
  change (msg_code (msg_read 0 shm_notify) =? NOS_IPC_CTRL_SHM_NOTIFY) with true. cbn iota. rewrite Hch.
  change NOS_SHM_SLOT_COUNT with 256%nat.
  destruct (channel_drain_one (ShmState0 := shm_world) (ipc_shm_drain_cb k i) ch pkt (n1, x1) 255 Hrxh Htxh Hshm) as (h' & st' & -> & Hr' & Ht').
  unfold ipc_shm_drain_cb in *. cbn [snd fst].
  destruct (ipc_deliver_rx_data k pkt (Some i) (n1, x1)) as [n' x'] eqn:Ed. cbn [fst snd shm_set shm_world] in *.
  exists r. split_and!; [|done..].
  eapply (read_received held shm_notify i c n x th T pkt p1 r1 n' _ x1); try done.
  - by destruct Hrcv.
  - by eapply ipc_inv_ext; [|exact Hi2].
Qed.
End receive.

(** ** Sending *)

(** A connection that is up and has nothing queued, over a link that takes
    every datagram. *)
Record idle_link (k : kernel) (held : list buf_ref) (fd : Z) (i : conn_ptr) (n : node) (x : ipc_state)
    (c : nos_ipc_conn) : Prop := {
  il_inv : ipc_inv (S i) held n x;
  il_conn : conn_at i x = Some c;
  il_state : cn_state c = NOS_IPC_CONNECTED;
  il_fd : cn_fd c = fd /\ 0 <= fd;
  il_queue : tx_view c = [];
  il_send t : k_send k t = SentAll;
  il_calloc t : k_calloc k t = true;
}.

Lemma idle_known k held fd i n x c : idle_link k held fd i n x c -> conn_known i x.
Proof. intros L. pose proof (iv_known _ _ _ _ (il_inv _ _ _ _ _ _ _ L)). unfold conn_known. lia. Qed.

(** A connection still idle as [c] was. *)
Definition still_idle (c c' : nos_ipc_conn) : Prop :=
  cn_state c' = cn_state c /\ cn_fd c' = cn_fd c /\ cn_generation c' = cn_generation c /\
  cn_shm c' = cn_shm c /\ tx_view c' = [].

(** A message that fits a slot goes through the shared memory when the
    connection has a channel, and a notice through the socket; any other
    message goes through the socket itself. *)
Definition via_shm (c : nos_ipc_conn) (data : list Z) : bool :=
  match cn_shm c with Some _ => (length data <=? NOS_SHM_SLOT_SIZE)%nat | None => false end.

Definition wire_of (c : nos_ipc_conn) (data : list Z) : list Z := if via_shm c data then shm_notify else data.

Definition pending (c : nos_ipc_conn) (data : list Z) : list (list Z) := if via_shm c data then [data] else [].

(** What waits in the two directions of the connection's channel. *)
Definition lanes (c : nos_ipc_conn) (h : shm_host) (out inc : list (list Z)) : Prop :=
  forall ch, cn_shm c = Some ch -> tx_holds ch h out /\ rx_holds ch h inc.

(** The connections of two nodes: both without a channel, or with the two
    ends of one. *)
Definition paired (a b : nos_ipc_conn) : Prop :=
  match cn_shm a, cn_shm b with
  | None, None => True
  | Some x, Some y => connected x y /\ connected y x
  | _, _ => False
  end.

Lemma paired_via a b data : paired a b -> via_shm b data = via_shm a data.
Proof. unfold paired, via_shm. by destruct (cn_shm a), (cn_shm b). Qed.

Lemma paired_wire a b data : paired a b -> wire_of b data = wire_of a data /\ pending b data = pending a data.
Proof. intros Hp. unfold wire_of, pending. by rewrite (paired_via a b). Qed.

Lemma paired_lanes a b h out inc : paired a b -> lanes a h out inc -> lanes b h inc out.
Proof.
  unfold paired, lanes. destruct (cn_shm a) as [x|], (cn_shm b) as [y|]; intros Hp Hl; try done.
  intros ch [= <-]. destruct Hp as [H1 H2], (Hl x eq_refl) as [Ht Hr].
  split; [by apply (connected_holds y x)|by apply (connected_holds x y)].
Qed.

Lemma paired_sym a b : paired a b -> paired b a.
Proof. unfold paired. destruct (cn_shm a), (cn_shm b); tauto. Qed.

Lemma paired_shm a b a' b' : cn_shm a' = cn_shm a -> cn_shm b' = cn_shm b -> paired a b -> paired a' b'.
Proof. unfold paired. by intros -> ->. Qed.

Lemma lanes_shm a a' h out inc : cn_shm a' = cn_shm a -> lanes a h out inc -> lanes a' h out inc.
Proof. unfold lanes. by intros ->. Qed.

(** The header of a datagram is the buffer's. *)
Lemma packet_header s p h : buf_msg s p = Some h -> datagram_ok (packet p s) -> h = msg_read 0 (packet p s).
Proof.
  intros Hm Hd. pose proof (datagram_size _ Hd) as [Hsz _]. unfold packet in *. rewrite Hm in *.
  unfold buf_bytes, buf_msg in *. destruct (get_buf s p) as [b|]; [|done]. cbn in Hm. injection Hm as <-.
  symmetry. apply msg_read_window. rewrite length_take in Hsz. lia.
Qed.

(** The attempt to use the shared memory. *)
Lemma tx_shm_tries c h data x :
  lanes c (i_host x) [] [] -> datagram_ok data -> h = msg_read 0 data ->
  exists x', tx_shm c h data x = (via_shm c data, x') /\ lanes c (i_host x') (pending c data) [] /\
    i_conns x' = i_conns x /\ i_wire x' = i_wire x /\ i_rx x' = i_rx x /\ i_tick x' = i_tick x.
Proof.
  intros Hl Hd ->. pose proof (dg_len _ Hd) as Hlen. pose proof (datagram_size _ Hd) as [Hs _].
  unfold tx_shm, via_shm, pending, via_shm. rewrite (dg_ctrl _ Hd), <-Hlen. cbn [negb andb].
  destruct (cn_shm c) as [ch|] eqn:Hch; [|by exists x].
  destruct (Nat.leb_spec (length data) NOS_SHM_SLOT_SIZE) as [Hle|Hgt].
  - rewrite (proj2 (Z.leb_le _ _)) by lia. destruct (Hl ch Hch) as [Ht Hr].
    destruct (channel_write_holds ch data (i_host x) (i_shm x) [] Ht Hr) as (h' & st' & -> & Ht' & Hr');
      [unfold valid_msg, MSG_SIZE in *; lia|].
    eexists. split; [done|]. split; [|done]. intros ch' Hch'. assert (ch' = ch) as -> by congruence. done.
  - rewrite (proj2 (Z.leb_gt _ _)) by lia. by exists x.
Qed.

(** The message was the last of the queue: the loop ends. *)
Lemma tx_loop_last k f i r len n x c :
  conn_at i x = Some c -> ring_rep (cn_queue c) [r] ->
  tx_loop k (S f) i (tx_done i r len (n, x)) = tx_done i r len (n, x) /\
  exists c', conn_at i (tx_done i r len (n, x)).2 = Some c' /\ cn_state c' = cn_state c /\ cn_fd c' = cn_fd c /\
    cn_generation c' = cn_generation c /\ cn_shm c' = cn_shm c /\ tx_view c' = [].
Proof.
  intros Hc Hrep. pose proof (ring_advance_rep _ _ _ Hrep) as Hrep'.
  unfold tx_done. cbn [tx_loop fst snd]. rewrite upd_conn_eq, Hc. cbn [fmap option_fmap option_map].
  cbn [cn_queue cn_set_queue]. split; [by rewrite (ring_rep_empty _ Hrep')|]. eexists. split_and!; try done.
  unfold tx_view. by apply ring_rep_view.
Qed.

(** One message in the queue of a link that takes every datagram. *)
Lemma tx_one k f i r n x c h :
  conn_at i x = Some c -> ring_rep (cn_queue c) [r] -> (forall t, k_send k t = SentAll) ->
  buf_msg r (n_pool n) = Some h -> datagram_ok (packet (n_pool n) r) -> lanes c (i_host x) [] [] ->
  exists x', tx_loop k (S (S f)) i (n, x) = (upd_pool (nos_buffer_release (Some r)) n, x') /\
    i_wire x' = i_wire x ++ [(cn_fd c, wire_of c (packet (n_pool n) r))] /\ i_rx x' = i_rx x /\
    lanes c (i_host x') (pending c (packet (n_pool n) r)) [] /\
    exists c', conn_at i x' = Some c' /\ cn_state c' = cn_state c /\ cn_fd c' = cn_fd c /\
      cn_generation c' = cn_generation c /\ cn_shm c' = cn_shm c /\ tx_view c' = [].
Proof.
  intros Hc Hrep Hk Hm Hd Hl. pose proof (packet_header r _ h Hm Hd) as Hh.
  set (D := packet (n_pool n) r) in *. assert (buf_bytes r (Z.to_nat (full_len h)) (n_pool n) = D) as Eb
    by (unfold D, packet; by rewrite Hm).
  assert (sent_bytes k r (Z.to_nat (full_len h)) (n_pool n) = D) as Ep.
  { rewrite sent_bytes_fits; [done|]. rewrite Eb, Hh, <-(Nat2Z.id (length D)). f_equal. by apply dg_len. }
  destruct (tx_shm_tries c h D x Hl Hd Hh) as (x1 & Htx & Hl1 & E1 & E2 & E3 & E4).
  assert (forall y, i_conns y = i_conns x -> conn_at i y = Some c) as Hcy by (intros y E; unfold conn_at; by rewrite E).
  remember (S f) as f1 eqn:Ef. cbn [tx_loop snd fst]. rewrite Hc, (ring_rep_nonempty _ _ _ Hrep), (ring_front_rep _ _ _ Hrep).
  cbn [mbind option_bind]. rewrite Hm. cbn [fmap option_fmap option_map]. rewrite Ep, Htx. subst f1.
  unfold wire_of. destruct (via_shm c D).
  - unfold ipc_send_ctrl. cbn [length]. change (SETUP_SIZE <? 0)%nat with false. cbn iota.
    unfold k_send_call. rewrite Hk. cbn [snd]. rewrite app_nil_r.
    destruct (tx_loop_last k f i r (full_len h) n (set_wire (i_wire x1 ++ [(cn_fd c, shm_notify)]) (tick x1)) c) as [Ht Hcn];
      [by apply Hcy|done|]. change (Z.of_nat 0) with 0. fold shm_notify. rewrite Ht.
    eexists. split; [done|]. split_and!; [cbn; by rewrite E2|exact E3|exact Hl1|exact Hcn].
  - unfold k_send_call. rewrite Hk.
    destruct (tx_loop_last k f i r (full_len h) n (upd_stats (st_tx (full_len h)) (set_wire (i_wire x1 ++ [(cn_fd c, D)]) (tick x1))) c) as [Ht Hcn];
      [by apply Hcy|done|]. rewrite Ht.
    eexists. split; [done|]. split_and!; [cbn; by rewrite E2|exact E3|exact Hl1|exact Hcn].
Qed.

Lemma packet_retain s r p : packet (nos_buffer_retain (Some r) p) s = packet p s.
Proof.
  unfold packet. rewrite buf_msg_retain. destruct (buf_msg s p) as [h|]; [|done]. unfold buf_bytes, nos_buffer_retain.
  destruct (decide (r = s)) as [->|Hne].
  - rewrite get_buf_upd_eq. by destruct (get_buf s p).
  - by rewrite get_buf_upd_ne.
Qed.

(** A link after a buffer of bytes [data] has left on it. *)
Definition sent_on (held : list buf_ref) (fd : Z) (i : conn_ptr) (data : list Z) (n : node)
    (x : ipc_state) (c : nos_ipc_conn) (x' : ipc_state) : Prop :=
  i_wire x' = i_wire x ++ [(fd, wire_of c data)] /\ i_rx x' = i_rx x /\
  lanes c (i_host x') (pending c data) [] /\
  ipc_inv (S i) held n x' /\ exists c', conn_at i x' = Some c' /\ still_idle c c'.

(** A buffer put on an idle connection leaves at once and whole; the sender's
    node is as it was. *)
Lemma enqueue_sends k held fd i n x c r h :
  idle_link k held fd i n x c -> lanes c (i_host x) [] [] -> r ∈ held ->
  buf_msg r (n_pool n) = Some h -> datagram_ok (packet (n_pool n) r) ->
  exists x', nos_ipc_process_tx k i (tx_enqueue i r (n, x)) = (n, x') /\
    sent_on held fd i (packet (n_pool n) r) n x c x'.
Proof.
  intros L Hla Hr Hm Hd. pose proof (idle_known _ _ _ _ _ _ _ L) as Hkn. destruct L as [Hi Hc Hst [Hfd Hge] Hv Hk _].
  destruct (iv_ring _ _ _ _ Hi i c Hc) as [Hro Hsz]. pose proof (ring_ok_rep _ Hro) as Hrep.
  fold (tx_view c) in Hrep. rewrite Hv in Hrep.
  assert (ring_full (cn_queue c) = false) as Hf by (apply not_true_iff_false; rewrite (ring_full_rep _ _ Hrep), Hsz; by cbn).
  pose proof (tx_enqueue_inv (S i) held i c r n x Hi Hr Hc Hkn Hf) as Hi1.
  pose proof (process_tx_inv (S i) k held i _ _ Hi1) as Hi2.
  unfold tx_enqueue in *. cbn [fst snd] in *. set (n1 := upd_pool _ n) in *. set (x1 := upd_conn i _ x) in *.
  set (c1 := cn_set_queue (ring_put r (cn_queue c)) c).
  assert (conn_at i x1 = Some c1) as Hc1 by (unfold x1; by rewrite upd_conn_eq, Hc).
  assert (packet (n_pool n1) r = packet (n_pool n) r) as Ep by (unfold n1; apply packet_retain).
  destruct (tx_one k 1022 i r n1 x1 c1 h Hc1) as (x2 & Ht & Hw & Hrx & Hl2 & c2 & Hc2 & S1 & S2 & S3 & S4 & S5).
  { by apply (ring_put_rep r _ []). }
  { done. }
  { unfold n1. cbn [n_pool upd_pool]. by rewrite buf_msg_retain. }
  { by rewrite Ep. }
  { exact Hla. }
  assert (nos_ipc_process_tx k i (n1, x1) = (upd_pool (nos_buffer_release (Some r)) n1, x2)) as Hp.
  { unfold nos_ipc_process_tx. cbn [snd]. rewrite Hc1. change (cn_state c1) with (cn_state c). change (cn_fd c1) with (cn_fd c).
    rewrite Hst, Hfd, (proj2 (Z.ltb_ge _ _)), bool_decide_eq_false_2 by tauto. exact Ht. }
  assert (upd_pool (nos_buffer_release (Some r)) n1 = n) as En.
  { assert (nos_buffer_release (Some r) (nos_buffer_retain (Some r) (n_pool n)) = n_pool n) as E
      by (apply retain_release; [apply Hi|by eapply ipc_inv_live]).
    transitivity (upd_pool (fun _ => nos_buffer_release (Some r) (nos_buffer_retain (Some r) (n_pool n))) n); [done|].
    rewrite E. by destruct n. }
  rewrite En in Hp. rewrite Hp in Hi2. exists x2. split; [exact Hp|]. rewrite Ep in *.
  split_and!; [by rewrite Hw, <-Hfd|exact Hrx|exact Hl2| |].
  - apply Hi2. unfold conn_known. pose proof (iv_known _ _ _ _ Hi1). lia.
  - exists c2. split; [done|]. by split_and!.
Qed.

Section send.
Context (k : kernel).
#[local] Instance ipc_send_remote : IpcTransport ipc_state := ipc_transport k.

Lemma idle_not_full held fd i n x c : idle_link k held fd i n x c -> ring_full (cn_queue c) = false.
Proof.
  intros [Hi Hc _ _ Hv _ _]. destruct (iv_ring _ _ _ _ Hi i c Hc) as [Hro Hsz].
  pose proof (ring_ok_rep _ Hro) as Hrep. fold (tx_view c) in Hrep. rewrite Hv in Hrep.
  apply not_true_iff_false. rewrite (ring_full_rep _ _ Hrep), Hsz. by cbn.
Qed.

(** A request for a service another node provides. *)
Lemma request_sends held fd i n x c r h e :
  idle_link k held fd i n x c -> lanes c (i_host x) [] [] -> r ∈ held -> buf_msg r (n_pool n) = Some h ->
  datagram_ok (packet (n_pool n) r) -> is_reply h = false -> svc_lookup (dst_service h) (n_registry n) = Some e -> is_remote e = true ->
  carr_find (fun c => String.eqb (cn_uds_path c) (remote_uds_path e)) (i_conns x) = Some i ->
  exists x', nos_service_msg_send (Some r) n x = (NOS_OK, n, x') /\
    sent_on held fd i (packet (n_pool n) r) n x c x'.
Proof.
  intros L Hla Hr Hm Hd Hrep He Hrem Hfind. destruct (enqueue_sends k held fd i n x c r h L Hla Hr Hm Hd) as (x' & Hp & Hx').
  pose proof (idle_not_full _ _ _ _ _ _ L) as Hf. destruct L as [_ Hc Hst [Hfd Hge] _ _ _].
  exists x'. split; [|exact Hx']. unfold nos_service_msg_send. cbn [mbind option_bind]. rewrite Hm.
  cbn [fmap option_fmap option_map]. rewrite Hrep, He, Hrem.
  unfold nos_transport_remote_node_send. cbn [ipc_send_enqueue ipc_send_remote ipc_transport].
  unfold nos_ipc_send_enqueue, get_or_create_conn. rewrite Hfind. cbn [mbind option_bind]. rewrite Hc.
  cbn [fmap option_fmap option_map]. rewrite Hf, Hst, Hfd, (proj2 (Z.ltb_ge _ _)) by done.
  rewrite bool_decide_eq_false_2 by tauto. cbn [orb].
  assert (conn_at i (tx_enqueue i r (n, x)).2 = Some (cn_set_queue (ring_put r (cn_queue c)) c)) as ->.
  { unfold tx_enqueue. cbn [snd]. by rewrite upd_conn_eq, Hc. }
  change (cn_state (cn_set_queue _ c)) with (cn_state c). rewrite decide_True by done. by rewrite Hp.
Qed.

(** The link does not depend on the bytes in the pool. *)
Lemma idle_stamp held fd i n x c s ctx :
  idle_link k held fd i n x c -> s ∈ held -> idle_link k held fd i (upd_pool (stamp_reply ctx s) n) x c.
Proof.
  intros [Hi ? ? ? ? ? ?] Hs. split; try done.
  exact (stamp_reply_refs (IpcLaws0 := ipc_laws (S i) k) held n x ctx s Hi Hs).
Qed.

(** A reply goes back over the connection its context names. *)
Lemma reply_sends held fd i n x c a ctx s :
  idle_link k held fd i n x c -> lanes c (i_host x) [] [] -> s ∈ held -> reply_ctxs (n_pool n) !! a = Some ctx ->
  rc_ipc_conn ctx = Some i -> rc_ipc_generation ctx = cn_generation c ->
  let n' := upd_pool (stamp_reply ctx s) n in
  is_Some (buf_msg s (n_pool n')) -> datagram_ok (packet (n_pool n') s) ->
  exists x', nos_service_reply (Some a) (Some s) n x = (NOS_OK, n', x') /\
    sent_on held fd i (packet (n_pool n') s) n' x c x'.
Proof.
  intros L Hla Hs Ha Hci Hg n' [h Hm] Hd. pose proof (idle_stamp held fd i n x c s ctx L Hs) as L'.
  destruct (enqueue_sends k held fd i n' x c s h L' Hla Hs Hm Hd) as (x' & Hp & Hx').
  pose proof (idle_not_full _ _ _ _ _ _ L) as Hf. destruct L as [_ Hc Hst [Hfd Hge] _ _ _].
  exists x'. split; [|exact Hx']. unfold nos_service_reply. cbn [mbind option_bind]. rewrite Ha.
  cbn [ipc_send_reply ipc_send_remote ipc_transport]. rewrite Hci, Hg. unfold nos_ipc_send_reply.
  cbn [mbind option_bind]. rewrite Hc. cbn [fmap option_fmap option_map].
  rewrite Hst, Hfd, (proj2 (Z.ltb_ge _ _)), Z.eqb_refl, bool_decide_eq_false_2 by tauto.
  cbn [orb negb]. rewrite Hf. fold n'. by rewrite Hp.
Qed.
End send.

(** ** The header of a reply *)

Definition reply_header (ctx : nos_reply_ctx) (h : nos_service_msg) : nos_service_msg :=
  Msg (magic h) (version h) (dst_service h) (src_component h) (rc_requester_component ctx) (msg_code h)
      (rc_corr_id ctx) (Z.lor (flags h) NOS_MSG_F_REPLY) (payload_len h).

(** Writing inside a window of the memory. *)
Lemma inserts_window {A} off len j (l m : list A) :
  (j + length l <= len)%nat ->
  take len (drop off (list_inserts (off + j) l m)) = list_inserts j l (take len (drop off m)).
Proof.
  intros Hl. apply list_eq. intros t. destruct (decide (t < len)%nat) as [Ht|Ht].
  2: { rewrite lookup_take_ge by lia. rewrite list_lookup_inserts_ge by lia. by rewrite lookup_take_ge by lia. }
  rewrite lookup_take_lt, lookup_drop by done.
  destruct (decide (t < j)%nat); [rewrite !list_lookup_inserts_lt by lia; by rewrite lookup_take_lt, lookup_drop|].
  destruct (decide (j + length l <= t)%nat); [rewrite !list_lookup_inserts_ge by lia; by rewrite lookup_take_lt, lookup_drop|].
  destruct (decide (off + t < length m)%nat).
  - rewrite !list_lookup_inserts; rewrite ?length_take, ?length_drop; try lia. f_equal. lia.
  - rewrite !lookup_ge_None_2; [done|rewrite length_inserts, length_take, length_drop; lia|rewrite length_inserts; lia].
Qed.

Lemma set_field_window f v off len m :
  (MSG_SIZE <= len)%nat ->
  take len (drop off (set_field f v off m)) = set_field f v 0 (take len (drop off m)).
Proof.
  intros Hl. unfold set_field, mem_write. apply inserts_window. rewrite length_le_bytes.
  unfold MSG_SIZE in Hl. destruct f; simpl; lia.
Qed.

Lemma set_field_bytes f v off m : bytes m -> bytes (set_field f v off m).
Proof. intros Hm. apply Forall_inserts; [done|apply le_bytes_bytes]. Qed.

Lemma set_field_payload f v m : drop MSG_SIZE (set_field f v 0 m) = drop MSG_SIZE m.
Proof.
  apply list_eq. intros j. rewrite !lookup_drop. unfold set_field, mem_write.
  apply list_lookup_inserts_ge. rewrite length_le_bytes. unfold MSG_SIZE. destruct f; simpl; lia.
Qed.

Lemma has_flag_lor fl bit b : has_flag (Z.lor fl bit) b = has_flag fl b || has_flag bit b.
Proof.
  unfold has_flag. rewrite Z.land_lor_distr_l.
  destruct (Z.eqb_spec (Z.land fl b) 0) as [->|Ha], (Z.eqb_spec (Z.land bit b) 0) as [->|Hb]; cbn.
  - done.
  - rewrite (proj2 (Z.eqb_neq _ _)); [done|]. by rewrite Z.lor_0_l.
  - rewrite (proj2 (Z.eqb_neq _ _)); [done|]. by rewrite Z.lor_0_r.
  - rewrite (proj2 (Z.eqb_neq _ _)); [done|]. intros [? ?]%Z.lor_eq_0_iff. done.
Qed.

(** The reply [nos_service_reply] makes of the datagram [pkt]. *)
Definition stamped (ctx : nos_reply_ctx) (pkt : list Z) : list Z :=
  set_field F_dst_component (rc_requester_component ctx) 0
    (set_field F_seq (rc_corr_id ctx) 0
      (set_field F_flags (Z.lor (flags (msg_read 0 pkt)) NOS_MSG_F_REPLY) 0 pkt)).

(** The reply context of a request: its fields came from 32-bit words. *)
Definition ctx_typed (ctx : nos_reply_ctx) : Prop :=
  in_u32 (rc_corr_id ctx) /\ in_u32 (rc_requester_component ctx).

Lemma stamped_spec ctx pkt :
  datagram_ok pkt -> ctx_typed ctx ->
  datagram_ok (stamped ctx pkt) /\ msg_read 0 (stamped ctx pkt) = reply_header ctx (msg_read 0 pkt) /\
  drop MSG_SIZE (stamped ctx pkt) = drop MSG_SIZE pkt.
Proof.
  intros Hd [Hs Hc]. pose proof (datagram_size pkt Hd) as [Hsz _]. pose proof (dg_bytes _ Hd) as Hb.
  assert (in_u32 (flags (msg_read 0 pkt))) as Hfl by (apply (get_field_range F_flags 0 pkt Hb)).
  pose proof (lor_u32 _ NOS_MSG_F_REPLY Hfl ltac:(unfold in_u32, NOS_MSG_F_REPLY; lia)) as Hlor.
  assert (msg_read 0 (stamped ctx pkt) = reply_header ctx (msg_read 0 pkt)) as Hh.
  { unfold stamped, reply_header. unfold msg_read at 1. unfold in_u32 in *. f_equal; fields; done. }
  assert (length (stamped ctx pkt) = length pkt) as Hlen by (unfold stamped; by rewrite !length_set_field).
  split_and!; [|done|unfold stamped; by rewrite !set_field_payload].
  destruct Hd as [H1 H2 H3 H4 H5]. split; rewrite ?Hh, ?Hlen; try done.
  - unfold ipc_is_ctrl_msg in *. cbn [flags reply_header]. by rewrite has_flag_lor, H4.
  - unfold stamped. by repeat apply set_field_bytes.
Qed.

Lemma stamp_packet ctx s h p :
  buf_msg s p = Some h -> datagram_ok (packet p s) ->
  h = msg_read 0 (packet p s) /\ packet (stamp_reply ctx s p) s = stamped ctx (packet p s).
Proof.
  intros Hm Hd. pose proof (datagram_size _ Hd) as [Hsz _]. unfold packet in *. rewrite Hm in *.
  unfold buf_bytes in *. pose proof Hm as Hm'. unfold buf_msg in Hm'.
  destruct (get_buf s p) as [b|] eqn:Hb; [|done]. cbn in Hm'. injection Hm' as <-.
  set (off := Z.to_nat (b_data b)) in *. set (h := msg_read off (b_raw b)) in *.
  set (L := Z.to_nat (full_len h)) in *.
  assert (MSG_SIZE <= L)%nat as HL by (rewrite length_take in Hsz; lia).
  assert (msg_read 0 (take L (drop off (b_raw b))) = h) as Eh by (by apply msg_read_window).
  split; [done|]. unfold stamp_reply. rewrite Hm.
  set (raw' := set_field F_dst_component (rc_requester_component ctx) off
    (set_field F_seq (rc_corr_id ctx) off (set_field F_flags (Z.lor (flags h) NOS_MSG_F_REPLY) off (b_raw b)))).
  set (p' := buf_set_field F_dst_component _ s _).
  assert (exists b', get_buf s p' = Some b' /\ b_data b' = b_data b /\ b_raw b' = raw') as (b' & Hb' & Ed & Er).
  { eexists. unfold p', buf_set_field. rewrite !get_buf_upd_eq, Hb. cbn. by split_and!. }
  unfold buf_msg. rewrite Hb'. cbn [fmap option_fmap option_map]. rewrite Ed, Er. fold off.
  assert (payload_len (msg_read off raw') = payload_len h) as Ep.
  { unfold raw', h. cbn [payload_len msg_read]. by rewrite !get_set_field_ne. }
  unfold full_len. rewrite Ep. fold (full_len h). fold L.
  unfold raw', stamped. rewrite !set_field_window, Eh by done. done.
Qed.

(** ** Two nodes *)

(** The kernel hands the datagram [pkt] to the socket [fd]. *)
Definition hand_over (fd : Z) (pkt : list Z) (x : ipc_state) : ipc_state :=
  upd_rx (alter (fun s => RxSide (rx_packets s ++ [pkt]) (rx_closed s)) fd) x.

(** The two nodes run on one machine: what [from] left in the shared memory is
    what the other node finds there, with the datagram on its socket. *)
Definition arrives (fd : Z) (pkt : list Z) (from x : ipc_state) : ipc_state :=
  hand_over fd pkt (set_shm (i_host from, i_shm x) x).

(** Nothing waits on the socket. *)
Definition rx_quiet (fd : Z) (x : ipc_state) : Prop := i_rx x !! fd = Some (RxSide [] false).

(** Thread [th] of the node serves the message [h], has room for it, and the
    pool for the datagram [d] that brings it and for its bytes. *)
Record accepts (th : thread_ptr) (T : nos_thread) (d : list Z) (h : nos_service_msg) (n : node) : Prop := {
  ac_route : local_route n h = Some th;
  ac_thread : n_threads n !! th = Some T;
  ac_room : ring_full (msg_queue T) = false;
  ac_pool : can_receive (Z.of_nat (length d)) (full_len h) (n_pool n) = true;
}.

Section event.
Context (k : kernel).

Lemma tx_loop_idle fuel i n x c :
  conn_at i x = Some c -> ring_empty (cn_queue c) = true -> tx_loop k fuel i (n, x) = (n, x).
Proof. intros Hc He. destruct fuel; [done|]. cbn [tx_loop snd]. by rewrite Hc, He. Qed.

Lemma process_tx_idle held fd i n x c :
  idle_link k held fd i n x c -> nos_ipc_process_tx k i (n, x) = (n, x).
Proof.
  intros [Hi Hc Hst [Hfd Hge] Hv _ _]. unfold nos_ipc_process_tx. cbn [snd]. rewrite Hc, Hst, Hfd.
  rewrite (proj2 (Z.ltb_ge _ _)), bool_decide_eq_false_2 by tauto. cbn [orb].
  destruct (iv_ring _ _ _ _ Hi i c Hc) as [Hro _]. pose proof (ring_ok_rep _ Hro) as Hrep.
  fold (tx_view c) in Hrep. rewrite Hv in Hrep.
  apply (tx_loop_idle TX_QUEUE_SIZE i n x c Hc). by apply ring_rep_empty.
Qed.

Lemma idle_hand_over held fd i n x c pkt :
  idle_link k held fd i n x c -> idle_link k held fd i n (hand_over fd pkt x) c.
Proof.
  intros [Hi ? ? ? ? ? ?]. split; try done. by eapply ipc_inv_ext; [|exact Hi].
Qed.

(** The event of an arriving datagram puts the message it is, or announces,
    on the queue of its thread. *)
Lemma event_delivers held fd i n x c pkt th T :
  idle_link k held fd i n x c -> rx_quiet fd x -> datagram_ok pkt -> lanes c (i_host x) [] (pending c pkt) ->
  accepts th T (wire_of c pkt) (msg_read 0 pkt) n ->
  let w := nos_ipc_event_handler k fd i (n, hand_over fd (wire_of c pkt) x) in
  exists r, received th T pkt i c n (hand_over fd (wire_of c pkt) x) r w.1 w.2 /\ same_routes n w.1 /\
    ipc_inv (S i) held w.1 w.2 /\ lanes c (i_host w.2) [] [].
Proof.
  intros L Hq Hd Hla [Hroute HT Hf Hcan]. pose proof (idle_hand_over held fd i n x c (wire_of c pkt) L) as L'.
  set (x0 := hand_over fd (wire_of c pkt) x) in *.
  pose proof (event_inv (S i) k held fd i n x0 ltac:(lia) (il_inv _ _ _ _ _ _ _ L')) as Hinv.
  pose proof (process_tx_idle _ _ _ _ _ _ L') as Hidle. destruct L' as [Hi Hc Hst [Hfd Hge] _ _ Hcal].
  rewrite <-(dg_len _ Hd) in Hcan.
  assert (bytes (wire_of c pkt)) as Hby.
  { unfold wire_of. destruct (via_shm c pkt); [|by apply Hd]. apply (bool_decide_unpack _). by vm_compute. }
  assert (rx_head fd x0 = Some (wire_of c pkt)) as Hhd.
  { unfold rx_head, x0, hand_over. cbn [i_rx upd_rx]. rewrite lookup_alter_eq, Hq. cbn. by rewrite octets_id. }
  assert (nos_ipc_event_handler k fd i (n, x0) = nos_ipc_recv_handler k fd (Some i) (cn_owner_thread c) (n, x0)) as Ew.
  { unfold nos_ipc_event_handler. rewrite (proj2 (Z.ltb_ge _ _)), Hidle by done. cbn [snd].
    rewrite Hc, Hst, Hfd, (proj2 (Z.ltb_ge _ _)), bool_decide_eq_false_2 by tauto. done. }
  intros w. unfold w. rewrite Ew in *. unfold wire_of, pending in *.
  destruct (via_shm c pkt) eqn:Hv.
  - unfold via_shm in Hv. destruct (cn_shm c) as [ch|] eqn:Hch; [|done]. destruct (Hla ch Hch) as [Htx Hrx].
    destruct (notify_received k (S i) held fd (cn_owner_thread c) i c ch n x0 pkt th T)
      as (r & Hr & Hsame & _ & Hrx' & Htx'); [done|lia|done..|].
    exists r. split_and!; [done..|]. intros ch' Hch'. by assert (ch' = ch) as -> by congruence.
  - destruct (recv_received k (S i) held fd (cn_owner_thread c) i c n x0 pkt th T)
      as (r & Hr & Hsame & _ & Hh); [done|lia|done..|].
    exists r. split_and!; [done..|]. by rewrite Hh.
Qed.

(** Receiving leaves the link idle. *)
Lemma received_idle held fd i n x c pkt th T r n' x' :
  idle_link k held fd i n x c -> received th T pkt i c n x r n' x' -> ipc_inv (S i) held n' x' ->
  exists c', idle_link k held fd i n' x' c' /\ cn_generation c' = cn_generation c /\ cn_shm c' = cn_shm c.
Proof.
  intros [Hi ? Hst [Hfd ?] Hv ? ?] [_ _ _ _ _ (c' & Hc' & (E1 & E2 & E3 & E4 & E5) & Eq) _] Hi'.
  exists c'. split; [|done]. split; try done; try congruence.
  - split; [congruence|done].
  - unfold tx_view in *. by rewrite Eq.
Qed.
End event.

(** The packet of a held buffer stays the same while others come and go. *)
Lemma packet_same s p p' : get_buf s p' = get_buf s p -> packet p' s = packet p s /\ buf_msg s p' = buf_msg s p.
Proof. intros E. unfold packet, buf_msg, buf_bytes. by rewrite E. Qed.

(** The context the receiver of the request [h] keeps for the answer. *)
Definition answer_ctx (i : conn_ptr) (gen : Z) (h : nos_service_msg) : nos_reply_ctx :=
  ReplyCtx 1 (Some i) gen (seq_no h) (src_component h).

Lemma answer_typed i gen pkt : bytes pkt -> ctx_typed (answer_ctx i gen (msg_read 0 pkt)).
Proof.
  intros Hb. split; [apply (get_field_range F_seq 0 pkt Hb)|apply (get_field_range F_src_component 0 pkt Hb)].
Qed.

(** Other shared memory leaves a link as it is. *)
Lemma idle_set_shm k held fd i n x c v : idle_link k held fd i n x c -> idle_link k held fd i n (set_shm v x) c.
Proof. intros [Hi ? ? ? ? ? ?]. split; try done. by eapply ipc_inv_ext; [|exact Hi]. Qed.

(** The serving node: a request arrives, is queued, and is answered with the
    buffer [s]. *)
Lemma serve_and_reply k held fd i n x c q th T s hs :
  idle_link k held fd i n x c -> rx_quiet fd x -> datagram_ok q -> lanes c (i_host x) [] (pending c q) ->
  accepts th T (wire_of c q) (msg_read 0 q) n -> s ∈ held -> buf_msg s (n_pool n) = Some hs ->
  datagram_ok (packet (n_pool n) s) ->
  exists n1 x1 r, nos_ipc_event_handler k fd i (n, hand_over fd (wire_of c q) x) = (n1, x1) /\
    received th T q i c n (hand_over fd (wire_of c q) x) r n1 x1 /\
  exists n2 x2, nos_service_reply (IpcTransport0 := ipc_transport k)
      (nos_service_get_reply_ctx (Some r) (n_pool n1)) (Some s) n1 x1 = (NOS_OK, n2, x2) /\
    let a := stamped (answer_ctx i (cn_generation c) (msg_read 0 q)) (packet (n_pool n) s) in
    i_wire x2 = i_wire x ++ [(fd, wire_of c a)] /\ lanes c (i_host x2) (pending c a) [].
Proof.
  intros L Q Dq Hla A Hs Hms Ds.
  destruct (event_delivers k held fd i n x c q th T L Q Dq Hla A) as (r & Hr & _ & Hinv & Hla1).
  destruct (nos_ipc_event_handler k fd i (n, hand_over fd (wire_of c q) x)) as [n1 x1]. cbn [fst snd] in *.
  exists n1, x1, r. split; [done|]. split; [exact Hr|].
  destruct (received_idle k held fd i n (hand_over fd (wire_of c q) x) c q th T r n1 x1) as (c' & L' & Hg & Hsh');
    [by apply idle_hand_over|done..|].
  destruct (rv_ctx _ _ _ _ _ _ _ _ _ _ Hr) as (a & -> & Ha).
  assert (buf_live s (n_pool n)) as Hl by (eapply ipc_inv_live; [apply L|done]).
  destruct (rv_other _ _ _ _ _ _ _ _ _ _ Hr s Hl) as [_ Hsame].
  destruct (packet_same s (n_pool n) (n_pool n1) Hsame) as [Ep Em].
  set (ctx := answer_ctx i (cn_generation c) (msg_read 0 q)).
  assert (packet (stamp_reply ctx s (n_pool n1)) s = stamped ctx (packet (n_pool n) s)) as Est.
  { rewrite <-Ep. eapply stamp_packet; [by rewrite Em|by rewrite Ep]. }
  assert (ctx_typed ctx) as Hct by (apply answer_typed, Dq).
  destruct (stamped_spec ctx _ Ds Hct) as (Da & _ & _).
  destruct (reply_sends k held fd i n1 x1 c' a ctx s L') as (x2 & Hrep & Hw & _ & Hla2 & _); try done.
  - by eapply lanes_shm.
  - unfold stamp_reply. cbn [n_pool upd_pool]. rewrite Em, Hms. unfold buf_set_field.
    unfold buf_msg. rewrite !get_buf_upd_eq. destruct (proj2 Hl) as (b & Hb & _). rewrite Hsame, Hb. by eexists.
  - cbn [n_pool upd_pool]. by rewrite Est.
  - eexists _, x2. split; [exact Hrep|]. cbn [n_pool upd_pool] in *. rewrite Est in *. cbv zeta.
    assert (wire_of c' = wire_of c /\ pending c' = pending c) as [E1 E2]
      by (unfold wire_of, pending, via_shm; by rewrite Hsh').
    rewrite E1, E2 in *. split; [by rewrite Hw, (rv_wire _ _ _ _ _ _ _ _ _ _ Hr)|]. by eapply lanes_shm.
Qed.

(** C3. A request and its reply cross two nodes of a machine, whether their
    connection has a shared-memory channel (the default) or only its socket:
    a request sent on A for a service of B leaves at once, in a slot of the
    channel with a notice on the socket when there is a channel and the
    message fits, on the socket otherwise; when the kernel hands the datagram
    to B, B's event handler queues the same bytes on the thread that serves
    the message, with a context naming the connection, the sequence number
    and the sender; a reply made with that context leaves on the same
    connection in the same way; handed to A, it is queued on the thread of
    the component that asked, with the request's sequence number and the
    replier's payload.  The connections are up and idle, the kernel takes
    every datagram, and threads and pools have room. *)
Theorem remote_request_reply kA kB heldA heldB fdA fdB iA iB nA nB xA xB cA cB rq s hq hs e thA thB TA TB :
  idle_link kA heldA fdA iA nA xA cA -> idle_link kB heldB fdB iB nB xB cB ->
  paired cA cB -> lanes cA (i_host xA) [] [] -> rx_quiet fdA xA -> rx_quiet fdB xB ->
  rq ∈ heldA -> s ∈ heldB -> buf_msg rq (n_pool nA) = Some hq -> buf_msg s (n_pool nB) = Some hs ->
  let q := packet (n_pool nA) rq in
  let ctx := answer_ctx iB (cn_generation cB) hq in
  let a := stamped ctx (packet (n_pool nB) s) in
  datagram_ok q -> datagram_ok (packet (n_pool nB) s) ->
  is_reply hq = false -> svc_lookup (dst_service hq) (n_registry nA) = Some e -> is_remote e = true ->
  carr_find (fun c => String.eqb (cn_uds_path c) (remote_uds_path e)) (i_conns xA) = Some iA ->
  accepts thB TB (wire_of cA q) hq nB -> accepts thA TA (wire_of cA a) (reply_header ctx hs) nA ->
  exists xA1, nos_service_msg_send (IpcTransport0 := ipc_transport kA) (Some rq) nA xA = (NOS_OK, nA, xA1) /\
    i_wire xA1 = i_wire xA ++ [(fdA, wire_of cA q)] /\
  exists nB1 xB1 r, nos_ipc_event_handler kB fdB iB (nB, arrives fdB (wire_of cA q) xA1 xB) = (nB1, xB1) /\
    received thB TB q iB cB nB (arrives fdB (wire_of cA q) xA1 xB) r nB1 xB1 /\
  exists nB2 xB2, nos_service_reply (IpcTransport0 := ipc_transport kB)
      (nos_service_get_reply_ctx (Some r) (n_pool nB1)) (Some s) nB1 xB1 = (NOS_OK, nB2, xB2) /\
    i_wire xB2 = i_wire xB ++ [(fdB, wire_of cA a)] /\
  exists nA2 xA2 r', nos_ipc_event_handler kA fdA iA (nA, arrives fdA (wire_of cA a) xB2 xA1) = (nA2, xA2) /\
    (exists T', n_threads nA2 !! thA = Some T' /\ thread_queue T' = thread_queue TA ++ [r']) /\
    buf_bytes r' (length a) (n_pool nA2) = a /\
    buf_msg r' (n_pool nA2) = Some (reply_header ctx hs) /\
    drop MSG_SIZE a = drop MSG_SIZE (packet (n_pool nB) s).
Proof.
  intros LA LB Hp Hla QA QB Hrq Hs Hmq Hms q ctx a Dq Ds Hnr He Hrem Hfind AB AA.
  pose proof (packet_header rq _ hq Hmq Dq) as Ehq. fold q in Ehq. pose proof (packet_header s _ hs Hms Ds) as Ehs.
  destruct (request_sends kA heldA fdA iA nA xA cA rq hq e LA Hla Hrq Hmq Dq Hnr He Hrem Hfind)
    as (xA1 & Hsend & Hwire & Hrx & Hla1 & Hinv & c1 & Hc1 & (E1 & E2 & E3 & E4 & E5)).
  exists xA1. split; [exact Hsend|]. split; [exact Hwire|]. fold q in Hla1, Hwire.
  set (yB := set_shm (i_host xA1, i_shm xB) xB).
  destruct (paired_wire cA cB q Hp) as [Wq Pq]. destruct (paired_wire cA cB a Hp) as [Wa Pa].
  destruct (serve_and_reply kB heldB fdB iB nB yB cB q thB TB s hs (idle_set_shm _ _ _ _ _ _ _ _ LB) QB Dq)
    as (nB1 & xB1 & r & Hev & Hrcv & nB2 & xB2 & Hrep & HwB & HlB); [| |done..|].
  { rewrite Pq. by apply (paired_lanes cA cB). }
  { by rewrite Wq, <-Ehq. }
  rewrite Wq in Hev, Hrcv. rewrite <-Ehq in HwB, HlB. fold ctx a in HwB, HlB. rewrite Wa in HwB. rewrite Pa in HlB.
  exists nB1, xB1, r. split; [exact Hev|]. split; [exact Hrcv|]. exists nB2, xB2. split; [exact Hrep|].
  split; [exact HwB|]. assert (ctx_typed ctx) as Hct by (unfold ctx; rewrite Ehq; apply answer_typed, Dq).
  destruct (stamped_spec ctx _ Ds Hct) as (Da & Eh & Epay). fold a in Da, Eh, Epay. rewrite <-Ehs in Eh.
  set (yA := set_shm (i_host xB2, i_shm xA1) xA1).
  assert (idle_link kA heldA fdA iA nA yA c1) as LA1.
  { apply idle_set_shm. destruct LA as [_ _ Hst [Hfd Hge] _ ? ?]. split; try done; try congruence. split; [congruence|done]. }
  assert (wire_of c1 = wire_of cA /\ pending c1 = pending cA) as [W1 P1]
    by (unfold wire_of, pending, via_shm; by rewrite E4).
  destruct (event_delivers kA heldA fdA iA nA yA c1 a thA TA LA1) as (r' & [HT Hb Hm _ _ _ _] & _ & _ & _).
  { unfold rx_quiet in *. by rewrite <-Hrx in QA. }
  { done. }
  { rewrite P1. apply (lanes_shm cA); [done|]. by apply (paired_lanes cB cA); [apply paired_sym|]. }
  { by rewrite W1, Eh. }
  rewrite W1 in *. fold (arrives fdA (wire_of cA a) xB2 xA1) in *.
  change (hand_over fdA (wire_of cA a) yA) with (arrives fdA (wire_of cA a) xB2 xA1) in *.
  destruct (nos_ipc_event_handler kA fdA iA (nA, arrives fdA (wire_of cA a) xB2 xA1)) as [nA2 xA2]. cbn [fst snd] in *.
  exists nA2, xA2, r'. split_and!; [done..| |exact Epay]. by rewrite Hm, Eh.
Qed.

(** ** Witness: node A asks service 7 of node B

    Both ends have the shared-memory channel that A made when it connected. *)

Definition demo_answers : map_answers := MapAnswers true true true.
Definition demo_created := nos_shm_channel_create demo_answers (Some "/nos_shm_a_b"%string) true demo_host shm_stats_zero.
Definition demo_opened :=
  nos_shm_channel_open demo_answers (Some "/nos_shm_a_b"%string) false demo_created.1.2 demo_created.2.

Definition demo_up_conn (ch : option nos_shm_channel) (c : nos_ipc_conn) : nos_ipc_conn :=
  cn_set_shm "b" "/nos_shm_a_b" ch (conn_init "/b" "b" 9 true false None c).

Definition demo_up (ch : option nos_shm_channel) : ipc_state :=
  upd_rx <[9 := RxSide [] false]> (new_conn (demo_up_conn ch) (ipc_static demo_opened.1.2)).2.

Definition demo_a : node :=
  upd_loaded (carr_push (Loaded (Some 1%nat) None "" (Some 0%nat)))
    (upd_comps <[1%nat := Comp 2 "asker" NOS_COMP_ST_ACTIVE None None None (Some 0%nat)]> demo_remote).

Definition demo_answer : nos_service_msg := Msg NOS_IPC_MAGIC 1 0 1 0 6 0 0 0.
Definition demo_b : node :=
  upd_pool (upd_buf demo_ref (write_raw (msg_write demo_answer)))
    (upd_registry (fun r => (nos_service_register_provider_bind 7 (Some 0%nat) (Some 0%nat) r).2) demo_alloc).

Definition demo_good : kernel := demo_kernel (fun _ => SentAll).

Lemma demo_b_refs : refs_ok [demo_ref] demo_b.
Proof.
  apply refs_ok_write; [intros; apply length_msg_write|by left|].
  eapply refs_ok_threads; [| |exact demo_alloc_refs]; done.
Qed.

Lemma demo_a_refs : refs_ok [demo_ref] demo_a.
Proof. eapply refs_ok_threads; [| |exact demo_remote_refs]; done. Qed.

Lemma demo_link n ch :
  refs_ok [demo_ref] n -> idle_link demo_good [demo_ref] 9 0 n (demo_up ch) (demo_up_conn ch zero_conn).
Proof.
  intros Hn. pose proof (new_conn_inv 0 [demo_ref] n (ipc_static demo_opened.1.2)
    (demo_up_conn ch) (fun c => eq_refl) (ipc_static_inv [demo_ref] n demo_opened.1.2 Hn)) as H.
  unfold demo_up. set (o := new_conn _ _) in *.
  assert (o.1 = Some 0%nat) as E by done. assert (conn_at 0 o.2 = Some (demo_up_conn ch zero_conn)) as Hc by done.
  destruct o as [o x]. cbn [fst snd] in *. subst o.
  destruct H as (Hi & Hkn & _). unfold conn_known in Hkn.
  split; try done. eapply ipc_inv_ext; [|eapply (ipc_inv_weaken 0 1); [|exact Hi]]; [done|lia].
Qed.

(** The two ends are those of one channel, and nothing waits in it. *)
Lemma demo_channel :
  paired (demo_up_conn demo_created.1.1 zero_conn) (demo_up_conn demo_opened.1.1 zero_conn) /\
  lanes (demo_up_conn demo_created.1.1 zero_conn) (i_host (demo_up demo_created.1.1)) [] [].
Proof.
  assert (exists chA h1 st1, demo_created = (Some chA, h1, st1)) as (chA & h1 & st1 & EA) by (eexists _, _, _; reflexivity).
  assert (exists chB h2 st2, demo_opened = (Some chB, h2, st2)) as (chB & h2 & st2 & EB) by (eexists _, _, _; reflexivity).
  pose proof EB as EB'. unfold demo_opened in EB'. rewrite EA in EB'. cbn [fst snd] in EB'.
  destruct (create_then_open _ _ _ _ _ _ _ _ _ _ _ _ EA EB') as ([C1 C2] & Ha & Hb).
  assert (connected chA chB /\ connected chB chA) as [H1 H2].
  { split; split; [done..|by rewrite C1|]. rewrite C2. by rewrite negb_involutive. }
  change (i_host (demo_up demo_created.1.1)) with demo_opened.1.2. rewrite EA, EB. cbn [fst snd]. split; [by split|].
  intros ch Hch. cbn in Hch. injection Hch as <-. split.
  - eexists. split; [exact Ha|apply ring_holds_init].
  - apply (connected_holds chB chA); [done|]. eexists. split; [exact Hb|apply ring_holds_init].
Qed.

Lemma demo_packets :
  datagram_ok (packet (n_pool demo_a) demo_ref) /\ datagram_ok (packet (n_pool demo_b) demo_ref).
Proof. split; apply (bool_decide_unpack _); by vm_compute. Qed.

Lemma demo_accepts d n h :
  local_route n h = Some 0%nat -> n_threads n !! 0%nat = Some demo_thread ->
  can_receive (Z.of_nat (length d)) (full_len h) (n_pool n) = true -> accepts 0 demo_thread d h n.
Proof. intros H1 H2 H3. split; [done|done| |done]. by vm_compute. Qed.

(** A small message goes through a slot. *)
Lemma demo_wire data :
  (length data <= NOS_SHM_SLOT_SIZE)%nat -> wire_of (demo_up_conn demo_created.1.1 zero_conn) data = shm_notify.
Proof.
  intros Hl. unfold wire_of, via_shm. assert (exists ch, cn_shm (demo_up_conn demo_created.1.1 zero_conn) = Some ch)
    as [ch ->] by (eexists; reflexivity). by rewrite (proj2 (Nat.leb_le _ _)).
Qed.

Lemma remote_request_reply_witness :
  let ctx := answer_ctx 0 1 demo_header in
  let xA := demo_up demo_created.1.1 in let xB := demo_up demo_opened.1.1 in
  exists xA1 r nB1 xB1 nB2 xB2 nA2 xA2 r',
    nos_service_msg_send (IpcTransport0 := ipc_transport demo_good) (Some demo_ref) demo_a xA =
      (NOS_OK, demo_a, xA1) /\
    nos_ipc_event_handler demo_good 9 0 (demo_b, arrives 9 shm_notify xA1 xB) = (nB1, xB1) /\
    nos_service_reply (IpcTransport0 := ipc_transport demo_good)
      (nos_service_get_reply_ctx (Some r) (n_pool nB1)) (Some demo_ref) nB1 xB1 = (NOS_OK, nB2, xB2) /\
    nos_ipc_event_handler demo_good 9 0 (demo_a, arrives 9 shm_notify xB2 xA1) = (nA2, xA2) /\
    buf_msg r' (n_pool nA2) = Some (Msg NOS_IPC_MAGIC 1 0 1 2 6 9 2 0).
Proof.
  intros ctx xA xB. destruct demo_packets as [Da Db]. destruct demo_channel as [Hp Hl].
  assert (exists e, svc_lookup 7 (n_registry demo_a) = Some e /\ is_remote e = true /\
    carr_find (fun c => String.eqb (cn_uds_path c) (remote_uds_path e)) (i_conns xA) = Some 0%nat)
    as (e & He & Hrem & Hfind) by (eexists; split; [by vm_compute|by vm_compute]).
  assert (wire_of (demo_up_conn demo_created.1.1 zero_conn) (packet (n_pool demo_a) demo_ref) = shm_notify /\
    wire_of (demo_up_conn demo_created.1.1 zero_conn) (stamped ctx (packet (n_pool demo_b) demo_ref)) = shm_notify)
    as [W1 W2] by (split; apply demo_wire, Nat.leb_le; by vm_compute).
  destruct (remote_request_reply demo_good demo_good [demo_ref] [demo_ref] 9 9 0 0 demo_a demo_b xA xB
    (demo_up_conn demo_created.1.1 zero_conn) (demo_up_conn demo_opened.1.1 zero_conn)
    demo_ref demo_ref demo_header demo_answer e 0 0 demo_thread demo_thread)
    as (xA1 & H1 & _ & nB1 & xB1 & r & H2 & _ & nB2 & xB2 & H3 & _ & nA2 & xA2 & r' & H4 & _ & _ & H5 & _).
  - apply demo_link, demo_a_refs.
  - apply demo_link, demo_b_refs.
  - exact Hp.
  - exact Hl.
  - done.
  - done.
  - by left.
  - by left.
  - by vm_compute.
  - by vm_compute.
  - exact Da.
  - exact Db.
  - by vm_compute.
  - exact He.
  - exact Hrem.
  - exact Hfind.
  - rewrite W1. apply demo_accepts; by vm_compute.
  - fold ctx. change (cn_generation (demo_up_conn demo_opened.1.1 zero_conn)) with 1. fold ctx. rewrite W2.
    apply demo_accepts; by vm_compute.
  - change (cn_generation (demo_up_conn demo_opened.1.1 zero_conn)) with 1 in *. fold ctx in H4, H5. rewrite W1 in H2. rewrite W2 in H4.
    exists xA1, r, nB1, xB1, nB2, xB2, nA2, xA2, r'. split_and!; [exact H1|exact H2|exact H3|exact H4|].
    rewrite H5. by vm_compute.
Defined.
