(* ===== verification/Plugin.v ===== *)
(** * Components as plug-ins

    What the framework and a component promise each other.  A component is
    code in a shared library: the functions it exports are parameters of the
    manager ([Plugins]), and [PluginLaws] is what the manager relies on:
    exporting fills in the component's callbacks, and the callbacks act on
    the node only through the API, that is by a sequence of [api_step]s
    (timers, buffers, messages, descriptors).

    [base_ok], [timers_in] and [same_table] are the parts of a node's state
    that API calls keep. *)

From stdpp Require Import base list sets gmap strings relations.
From S2P Require Import Prelude CArray Ring Mem Buffer Service Node TimerHeap Timer Scheduler Refs.
Import Registry.

(** ** What the libraries' functions do *)

Class Plugins := {
  export_func : nat -> comp_ptr -> node -> nos_status * node;
  run_init : nat -> comp_ptr -> node -> nos_status * node;
  run_stop : nat -> comp_ptr -> node -> node;
}.

(** ** The API *)

Inductive api_step : node -> node -> Prop :=
  | as_queue n n' : queue_step n n' -> api_step n n'
  | as_timer_create ok cb arg fa n : api_step n (nos_timer_create ok cb arg fa n).1
  | as_timer_start now self t iv p n : api_step n (nos_timer_start now self t iv p n).2
  | as_timer_stop self t n : api_step n (nos_timer_stop self t n).2
  | as_timer_delete run_free t n :
      (* [free_arg] frees memory of the component *)
      (forall f a n, run_free f a n = n) -> api_step n (nos_timer_delete run_free t n)
  | as_add_fd ok th fd cb arg n : api_step n (nos_scheduler_add_fd_ex ok th fd cb arg n).2
  | as_remove_fd th fd n : api_step n (nos_scheduler_remove_fd th fd n).2.

(** A component's [export] sets callbacks, and only its own. *)
Definition exports_to (c : comp_ptr) (n n' : node) : Prop :=
  exists g, n' = upd_comp c g n /\
    forall C, c_id (g C) = c_id C /\ c_name (g C) = c_name C /\ c_status (g C) = c_status C.

Class PluginLaws `{Plugins} := {
  export_exports : forall e c n, exports_to c n (export_func e c n).2;
  init_api : forall f c n, rtc api_step n (run_init f c n).2;
  stop_api : forall f c n, rtc api_step n (run_stop f c n);
}.

(** ** What API calls keep *)

Record base_ok (n : node) : Prop := {
  bo_timers : timers_wf n;
  bo_queues : queues_ok n;
  bo_registry : registry_ok (n_registry n);
}.

(** The component list of a thread. *)
Definition comps_of (n : node) (th : thread_ptr) : option (carr (option comp_ptr)) :=
  components <$> n_threads n !! th.

Definition hosted_on (n : node) (c : comp_ptr) (th : thread_ptr) : Prop :=
  exists a, comps_of n th = Some a /\ Some c ∈ live a.

(** Every running timer has an owner and a thread, related by [P]. *)
Definition timers_in (P : comp_ptr -> thread_ptr -> Prop) (n : node) : Prop :=
  forall t x, n_timers n !! t = Some x -> is_running x = true ->
    exists o th, tm_owner x = Some o /\ tm_owner_thread x = Some th /\ P o th.

(** The owner of a running timer is on the thread the timer runs on. *)
Definition timers_hosted (n : node) : Prop := timers_in (hosted_on n) n.

(** The tables the component manager keeps. *)
Record same_table (n n' : node) : Prop := {
  st_comps : n_comps n' = n_comps n;
  st_loaded : n_loaded n' = n_loaded n;
  st_registry : n_registry n' = n_registry n;
  st_def : n_def n' = n_def n;
  st_mgmt : n_mgmt n' = n_mgmt n;
  st_workers : n_workers n' = n_workers n;
  st_count : n_worker_count n' = n_worker_count n;
  st_threads : forall th, comps_of n' th = comps_of n th;
}.

#[export] Instance same_table_preorder : PreOrder same_table.
Proof.
  split; [by intros n; split|].
  intros a b c [] []. split; congruence.
Qed.

Lemma same_table_pool f n : same_table n (upd_pool f n).
Proof. by split. Qed.

Lemma same_table_timers f n : same_table n (upd_timers f n).
Proof. by split. Qed.

Lemma same_table_thread th f n :
  (forall T, components (f T) = components T) -> same_table n (upd_thread th f n).
Proof.
  intros Hf. split; try done. intros th'. unfold comps_of. destruct (decide (th = th')) as [<-|].
  - rewrite upd_thread_eq. destruct (n_threads n !! th); simpl; by rewrite ?Hf.
  - by rewrite upd_thread_ne.
Qed.

#[export] Hint Resolve same_table_pool same_table_timers : nos.

Lemma hosted_on_same n n' c th : same_table n n' -> hosted_on n' c th <-> hosted_on n c th.
Proof. intros [_ _ _ _ _ _ _ H]. unfold hosted_on. by rewrite H. Qed.

Lemma hosts_hosted n c th : hosts n c th = true <-> hosted_on n c th.
Proof.
  unfold hosts, hosted_on, comps_of. destruct (n_threads n !! th) as [T|]; simpl; [|naive_solver].
  rewrite existsb_exists. setoid_rewrite <-list_elem_of_In. setoid_rewrite bool_decide_eq_true. naive_solver.
Qed.

Lemma timers_in_mono (P Q : comp_ptr -> thread_ptr -> Prop) n :
  (forall o th, P o th -> Q o th) -> timers_in P n -> timers_in Q n.
Proof. intros HPQ H t x Ht Hx. destruct (H t x Ht Hx) as (o & th & ? & ? & ?). eauto 6. Qed.

Lemma timers_in_eq P n n' : n_timers n' = n_timers n -> timers_in P n -> timers_in P n'.
Proof. intros E H t x. rewrite E. apply H. Qed.

(** Only timers and heaps matter to [timers_wf], only the pool and the
    queues to [queues_ok]. *)
Lemma timers_wf_ext n n' :
  n_timers n' = n_timers n ->
  (forall th, timer_heap <$> n_threads n' !! th = timer_heap <$> n_threads n !! th) ->
  timers_wf n -> timers_wf n'.
Proof.
  intros Ht Hth [Hh Hr]. split.
  - intros th T HT. specialize (Hth th). rewrite HT in Hth. simpl in Hth. symmetry in Hth.
    apply fmap_Some in Hth as (T' & HT' & ->). destruct (Hh th T' HT') as [? ? ? Hm].
    split; [done..|]. intros u. by rewrite Hm, Ht.
  - intros u x. rewrite Ht. intros Hu Hx. destruct (Hr u x Hu Hx) as (th & o & ? & [T HT] & ?).
    exists th, o. split_and!; [done| |done]. specialize (Hth th). rewrite HT in Hth. simpl in Hth.
    apply fmap_Some in Hth as (T' & HT' & _). eauto.
Qed.

Lemma queued_in_ext (m m' : gmap nat nos_thread) :
  (forall th, msg_queue <$> m' !! th = msg_queue <$> m !! th) -> queued_in m' = queued_in m.
Proof.
  intros Ht. unfold queued_in.
  assert (forall m : gmap nat nos_thread, (map_to_list m ≫= fun kv => thread_queue kv.2) =
    (map_to_list (msg_queue <$> m) ≫= fun kv => ring_view kv.2)) as E.
  { intros k. rewrite map_to_list_fmap. induction (map_to_list k) as [|[a b] l IH]; [done|].
    cbn. f_equal. exact IH. }
  rewrite !E. f_equal. f_equal. apply map_eq. intros th. by rewrite !lookup_fmap, Ht.
Qed.

Lemma queues_ok_ext n n' :
  n_pool n' = n_pool n ->
  (forall th, msg_queue <$> n_threads n' !! th = msg_queue <$> n_threads n !! th) ->
  queues_ok n -> queues_ok n'.
Proof.
  intros Hp Ht [Hw Hr Hh]. split; rewrite ?Hp; [done| |].
  - intros th T HT. specialize (Ht th). rewrite HT in Ht. simpl in Ht. symmetry in Ht.
    apply fmap_Some in Ht as (T' & HT' & ->). by eapply Hr.
  - unfold queued. by rewrite (queued_in_ext (n_threads n)).
Qed.

(** An update of one thread that keeps a part of it. *)
Lemma upd_thread_keeps {A} (p : nos_thread -> A) th f n :
  (forall T, p (f T) = p T) -> forall th', p <$> n_threads (upd_thread th f n) !! th' = p <$> n_threads n !! th'.
Proof.
  intros Hf th'. destruct (decide (th = th')) as [<-|].
  - rewrite upd_thread_eq. destruct (n_threads n !! th); simpl; by rewrite ?Hf.
  - by rewrite upd_thread_ne.
Qed.

(** *** Each kind of call *)

(** Two nodes that differ in what message passing touches. *)
Record queue_frame (n n' : node) : Prop := {
  qf_table : same_table n n';
  qf_timers : n_timers n' = n_timers n;
  qf_heaps : forall th, timer_heap <$> n_threads n' !! th = timer_heap <$> n_threads n !! th;
}.

Lemma queue_frame_thread th f p n :
  (forall T, components (f T) = components T) -> (forall T, timer_heap (f T) = timer_heap T) ->
  queue_frame n (upd_pool p (upd_thread th f n)).
Proof.
  intros Hc Ht. split; [|done|by apply (upd_thread_keeps timer_heap)].
  etrans; [by apply (same_table_thread th f)|apply same_table_pool].
Qed.

Lemma local_send_frame r th n : queue_frame n (nos_transport_local_send r th n).2.
Proof.
  unfold nos_transport_local_send. destruct th as [th|]; [|done]. cbn [mbind option_bind].
  destruct (n_threads n !! th) as [T|] eqn:HT; [|done]. cbn [fmap option_fmap option_map].
  destruct (ring_full (msg_queue T)); [done|]. cbn [snd].
  set (g := fun T => set_queue (ring_put r (msg_queue T)) T).
  pose proof (queue_frame_thread th g (nos_buffer_retain (Some r)) n ltac:(done) ltac:(done)) as [H1 H2 H3].
  destruct (is_sleeping T); [|by split]. split; [|done|].
  - etrans; [exact H1|]. apply (same_table_thread th notify); done.
  - intros th'. rewrite <-H3. by apply (upd_thread_keeps timer_heap).
Qed.

Lemma drop_frame ok th c n : queue_frame n (nos_scheduler_drop_messages_for_provider ok th c n).
Proof.
  unfold nos_scheduler_drop_messages_for_provider.
  destruct (th ≫= _) as [[t T]|]; [|done]. destruct c as [c|]; [|done]. destruct ok; [|done].
  destruct (drop_loop _ _ _ _ _) as [q p]. by apply (queue_frame_thread t (set_queue q) (fun _ => p)).
Qed.

Lemma queue_step_frame n n' : queue_step n n' -> queue_frame n n'.
Proof.
  intros [o []]; try by split.
  - apply local_send_frame.
  - by apply (queue_frame_thread th (set_queue q) (fun p => p)).
  - apply drop_frame.
Qed.

Lemma timers_in_upd P t g n :
  (forall x, n_timers n !! t = Some x -> is_running (g x) = true ->
     exists o th, tm_owner (g x) = Some o /\ tm_owner_thread (g x) = Some th /\ P o th) ->
  timers_in P n -> timers_in P (upd_timer t g n).
Proof.
  intros Hg H u y Hu Hy. destruct (decide (t = u)) as [<-|].
  - rewrite upd_timer_eq in Hu. apply fmap_Some in Hu as (x & Hx & ->). eauto.
  - rewrite upd_timer_ne in Hu by done. eauto.
Qed.

Lemma timer_start_frame now self t iv p n :
  let n' := (nos_timer_start now self t iv p n).2 in
  same_table n n' /\ n_pool n' = n_pool n /\
  (forall th, msg_queue <$> n_threads n' !! th = msg_queue <$> n_threads n !! th) /\
  (timers_hosted n -> timers_hosted n').
Proof.
  unfold nos_timer_start. destruct (find_thread_of_component n self) as [th|] eqn:Hth; [|done].
  destruct t as [t|]; [|done]. destruct (n_timers n !! t) as [x|]; [|done].
  destruct (n_threads n !! th) as [T|] eqn:HT; [|done]. destruct (is_running x); [done|].
  destruct (heap_full (timer_heap T)); [done|]. cbn [snd].
  set (n1 := upd_timer t _ n). set (n' := upd_thread th _ n1).
  assert (same_table n n') as Hs.
  { etrans; [apply (same_table_timers (alter (tm_started iv (u64 (now + iv)) p self th) t))|].
    by apply (same_table_thread th). }
  split_and!; [done..|intros u; unfold n'; by rewrite (upd_thread_keeps msg_queue)|].
  intros Hh. apply (timers_in_mono (hosted_on n)); [intros o u; by rewrite (hosted_on_same n n')|].
  apply (timers_in_eq _ n1); [done|]. apply timers_in_upd; [|done]. intros y _ _.
  exists self, th. split_and!; [done..|]. apply hosts_hosted.
  unfold find_thread_of_component in Hth. apply bind_Some in Hth as (i & Hi & Hl).
  apply find_idx_Some in Hi as (y' & Hy & Hp & _). congruence.
Qed.

Lemma timers_hosted_same n n' :
  same_table n n' ->
  (forall t x, n_timers n' !! t = Some x -> is_running x = true -> n_timers n !! t = Some x) ->
  timers_hosted n -> timers_hosted n'.
Proof.
  intros Hs Ht H t x Hx Hr. destruct (H t x (Ht t x Hx Hr) Hr) as (o & th & ? & ? & ?).
  exists o, th. by rewrite (hosted_on_same n n').
Qed.

(** A call that only takes timers away, moving heaps. *)
Record timer_frame (n n' : node) : Prop := {
  tf_table : same_table n n';
  tf_pool : n_pool n' = n_pool n;
  tf_queues : forall th, msg_queue <$> n_threads n' !! th = msg_queue <$> n_threads n !! th;
  tf_timers : forall t x, n_timers n' !! t = Some x -> is_running x = true -> n_timers n !! t = Some x;
}.

Lemma timer_frame_refl n : timer_frame n n.
Proof. by split. Qed.

Lemma timer_frame_detach t g th f n :
  (forall x, is_running (g x) = false) ->
  (forall T, components (f T) = components T) -> (forall T, msg_queue (f T) = msg_queue T) ->
  timer_frame n (upd_timer t g (upd_thread th f n)).
Proof.
  intros Hg Hc Hq. split; [|done| |].
  - etrans; [by apply (same_table_thread th f)|apply same_table_timers].
  - by apply (upd_thread_keeps msg_queue).
  - intros u x Hu Hx. destruct (decide (t = u)) as [<-|].
    + rewrite upd_timer_eq in Hu. apply fmap_Some in Hu as (y & _ & ->). congruence.
    + by rewrite upd_timer_ne in Hu.
Qed.

Lemma timer_stop_frame self t n : timer_frame n (nos_timer_stop self t n).2.
Proof.
  unfold nos_timer_stop. destruct t as [t|]; [|apply timer_frame_refl].
  destruct (n_timers n !! t) as [x|]; [|apply timer_frame_refl].
  destruct (stop_thread n self x) as [th|]; [|apply timer_frame_refl].
  destruct (negb (is_running x)); [apply timer_frame_refl|].
  destruct (_ ≫= _) as [i|]; [|apply timer_frame_refl]. by apply timer_frame_detach.
Qed.

Lemma timer_delete_frame run_free t n :
  (forall f a n, run_free f a n = n) -> timer_frame n (nos_timer_delete run_free t n).
Proof.
  intros Hf. unfold nos_timer_delete. destruct t as [t|]; [|apply timer_frame_refl].
  destruct (n_timers n !! t) as [x|]; [|apply timer_frame_refl].
  set (n1 := match is_running x with true => _ | false => n end).
  assert (timer_frame n n1) as [H1 H2 H3 H4].
  { unfold n1. destruct (is_running x), (tm_owner_thread x) as [th|]; try apply timer_frame_refl.
    destruct (_ ≫= _) as [i|]; [|apply timer_frame_refl].
    split; [by apply same_table_thread|done|by apply (upd_thread_keeps msg_queue)|done]. }
  set (n3 := match tm_free_arg x with Some f => _ | None => _ end).
  assert (n3 = upd_timer t tm_detached n1) as -> by (unfold n3; destruct (tm_free_arg x); by rewrite ?Hf).
  split; [|done|done|].
  - etrans; [exact H1|]. etrans; [apply (same_table_timers (alter tm_detached t))|apply same_table_timers].
  - intros u y Hu Hy. cbn in Hu. apply lookup_delete_Some in Hu as [Hne Hu]. rewrite lookup_alter_ne in Hu by done. eauto.
Qed.

Lemma base_ok_timer_frame n n' :
  timer_frame n n' -> timers_wf n' -> base_ok n -> base_ok n'.
Proof.
  intros [Hs Hp Hq _] Hw [_ Hqs Hr]. split; [done| |by rewrite (st_registry _ _ Hs)].
  by apply (queues_ok_ext n).
Qed.

Lemma base_ok_fds th f n :
  (forall T, components (f T) = components T) -> (forall T, msg_queue (f T) = msg_queue T) ->
  (forall T, timer_heap (f T) = timer_heap T) -> base_ok n -> base_ok (upd_thread th f n).
Proof.
  intros Hc Hq Ht [Hw Hqs Hr]. split; [| |done].
  - apply (timers_wf_ext n); [done|by apply upd_thread_keeps|done].
  - apply (queues_ok_ext n); [done|by apply upd_thread_keeps|done].
Qed.

Lemma fd_step_ok th f n :
  (forall T, components (f T) = components T) -> (forall T, msg_queue (f T) = msg_queue T) ->
  (forall T, timer_heap (f T) = timer_heap T) -> base_ok n -> timers_hosted n ->
  base_ok (upd_thread th f n) /\ timers_hosted (upd_thread th f n) /\ same_table n (upd_thread th f n).
Proof.
  intros Hc Hq Ht Hb Hh. assert (same_table n (upd_thread th f n)) by by apply same_table_thread.
  split_and!; [by apply base_ok_fds| |done]. by apply (timers_hosted_same n).
Qed.

Lemma api_step_ok n n' :
  api_step n n' -> base_ok n -> timers_hosted n ->
  base_ok n' /\ timers_hosted n' /\ same_table n n'.
Proof.
  intros Hs Hb Hh. destruct Hs as [n n' Hs|ok cb arg fa n|now self t iv p n|self t n|rf t n Hf|ok th fd cb arg n|th fd n].
  - destruct (queue_step_frame _ _ Hs) as [H1 H2 H3]. split_and!; [split| |done].
    + apply (timers_wf_ext n); [done..|apply Hb].
    + by apply (queue_step_ok n); [|apply Hb].
    + rewrite (st_registry _ _ H1). apply Hb.
    + apply (timers_hosted_same n); [done|by rewrite H2|done].
  - assert (timer_frame n (nos_timer_create ok cb arg fa n).1) as Hf.
    { unfold nos_timer_create. destruct ok; [|apply timer_frame_refl]. split; try done.
      intros u x Hu Hx. cbn in Hu. apply lookup_insert_Some in Hu as [[_ <-]|[_ Hu]]; [done|done]. }
    split_and!; [|eapply timers_hosted_same; [apply Hf| |done]; apply Hf|apply Hf].
    apply (base_ok_timer_frame n); [done| |done]. apply timers_wf_create, Hb.
  - destruct (timer_start_frame now self t iv p n) as (H1 & H2 & H3 & H4). split_and!; [split|by apply H4|done].
    + apply timers_wf_start, Hb.
    + apply (queues_ok_ext n); [done..|apply Hb].
    + rewrite (st_registry _ _ H1). apply Hb.
  - pose proof (timer_stop_frame self t n) as Hf.
    split_and!; [|eapply timers_hosted_same; [apply Hf| |done]; apply Hf|apply Hf].
    apply (base_ok_timer_frame n); [done| |done]. apply timers_wf_stop, Hb.
  - pose proof (timer_delete_frame rf t n Hf) as Hfr.
    split_and!; [|eapply timers_hosted_same; [apply Hfr| |done]; apply Hfr|apply Hfr].
    apply (base_ok_timer_frame n); [done| |done]. apply timers_wf_delete; [|apply Hb].
    intros f a m. by rewrite Hf.
  - unfold nos_scheduler_add_fd_ex. destruct (th ≫= _) as [[t T]|]; [|done].
    case_match; [done|]. by apply fd_step_ok.
  - unfold nos_scheduler_remove_fd. destruct (th ≫= _) as [[t T]|]; [|done].
    destruct (carr_find _ _); by apply fd_step_ok.
Qed.

Lemma api_steps_ok n n' :
  rtc api_step n n' -> base_ok n -> timers_hosted n ->
  base_ok n' /\ timers_hosted n' /\ same_table n n'.
Proof.
  intros Hs. induction Hs as [|n1 n2 n3 Hs _ IH]; intros Hb Hh; [done|].
  destruct (api_step_ok _ _ Hs Hb Hh) as (Hb2 & Hh2 & Hs2).
  destruct (IH Hb2 Hh2) as (? & ? & ?). split_and!; [done..|]. by etrans.
Qed.
