(* ===== verification/Post.v ===== *)
(** * Composing and posting a message

    The command line and the components send messages the same way: allocate
    a buffer, assign some of the header's fields, write a payload, send and
    give up the reference.  What is not assigned keeps what the chunk's last
    user left.  [post] is that sequence; the lemmas say that it leaks no
    reference whatever the transport does, and that with a local
    destination it is a sequence of API calls. *)

From stdpp Require Import base list gmap strings relations.
From S2P Require Import Prelude CArray Ring Mem Buffer Service Node Timer Scheduler Refs Plugin.
Import Registry.

(** [msg->f = v] for each pair in turn. *)
Definition fill (fs : list (msg_field * Z)) (r : buf_ref) (p : pool) : pool :=
  foldl (fun p '(f, v) => buf_set_field f v r p) p fs.

(** Writes the bytes after the header. *)
Definition put_payload (payload : list Z) (r : buf_ref) (p : pool) : pool :=
  upd_buf r (write_raw (fun off raw => list_inserts (off + MSG_SIZE) payload raw)) p.

(** The bytes of an array of [uint32_t]. *)
Definition u32_bytes (l : list Z) : list Z := l ≫= le_bytes 4.

(** [nos_buffer_alloc(size, 0)] and the assignments. *)
Definition compose (size : Z) (fs : list (msg_field * Z)) (payload : list Z) (n : node)
    : option buf_ref * node :=
  match nos_buffer_alloc size 0 (n_pool n) with
  | (p, None) => (None, upd_pool (fun _ => p) n)
  | (p, Some r) => (Some r, upd_pool (fun _ => put_payload payload r (fill fs r p)) n)
  end.

Section post.
Context {X : Type} `{!IpcTransport X}.

(** Whether there was a buffer, and the state after the release. *)
Definition post (size : Z) (fs : list (msg_field * Z)) (payload : list Z) (n : node) (x : X)
    : bool * node * X :=
  match compose size fs payload n with
  | (None, n) => (false, n, x)
  | (Some r, n) =>
      let '(_, n, x) := nos_service_msg_send (Some r) n x in
      (true, upd_pool (nos_buffer_release (Some r)) n, x)
  end.
End post.

(** ** References *)

Lemma fill_cons f v fs r p : fill ((f, v) :: fs) r p = fill fs r (buf_set_field f v r p).
Proof. done. Qed.

Section refs.
Context {X : Type} `{!IpcTransport X, !IpcLaws X}.

Lemma fill_refs held n (x : X) r fs :
  r ∈ held -> ipc_refs held n x -> ipc_refs held (upd_pool (fill fs r) n) x.
Proof.
  intros Hr. revert n. induction fs as [|[f v] fs IH]; intros n Hk.
  - by destruct n.
  - change (upd_pool (fill ((f, v) :: fs) r) n)
      with (upd_pool (fill fs r) (upd_pool (upd_buf r (write_raw (set_field f v))) n)).
    apply IH, ipc_refs_write; [intros; apply length_set_field|done..].
Qed.

Lemma put_payload_refs held n (x : X) r payload :
  r ∈ held -> ipc_refs held n x -> ipc_refs held (upd_pool (put_payload payload r) n) x.
Proof. intros Hr Hk. apply ipc_refs_write; [intros; apply length_inserts|done..]. Qed.

Lemma compose_refs held n (x : X) size fs payload :
  ipc_refs held n x -> req_ok size 0 ->
  match compose size fs payload n with
  | (None, n') => ipc_refs held n' x
  | (Some r, n') => ipc_refs (r :: held) n' x
  end.
Proof.
  intros Hk Hs. pose proof (ipc_refs_alloc held n x size 0 Hk Hs) as Ha. unfold compose.
  destruct (nos_buffer_alloc size 0 (n_pool n)) as [p [r|]].
  - apply (put_payload_refs (r :: held) (upd_pool (fill fs r) (upd_pool (fun _ => p) n))); [left|].
    apply fill_refs; [left|done].
  - subst p. by destruct n.
Qed.

(** Posting takes no reference and gives up none of the caller's. *)
Lemma post_refs held n (x : X) size fs payload :
  ipc_refs held n x -> req_ok size 0 ->
  let '(_, n', x') := post size fs payload n x in ipc_refs held n' x'.
Proof.
  intros Hk Hs. pose proof (compose_refs held n x size fs payload Hk Hs) as Hc. unfold post.
  destruct (compose size fs payload n) as [[r|] n1]; [|done].
  pose proof (msg_send_refs (r :: held) n1 x (Some r) Hc) as Hm.
  destruct (nos_service_msg_send (Some r) n1 x) as [[st n2] x2].
  apply ipc_refs_release, Hm. intros r' [= <-]. left.
Qed.
End refs.

(** ** Posting as API calls *)

(** The caller holds one reference to [r] besides those of the queues. *)
Definition holds (r : buf_ref) (n : node) : Prop := queues_ok n /\ queue_held (n_pool n) (r :: queued n).

Lemma holds_live r n : holds r n -> buf_live r (n_pool n).
Proof. intros [_ H]. eapply queue_held_live; [exact H|left]. Qed.

(** A step that leaves the counts of the pool and the queues. *)
Lemma holds_edit r n p :
  holds r n -> pool_step (n_pool n) p -> g_bin_count p = g_bin_count (n_pool n) ->
  (forall s, b_ref_cnt <$> get_buf s p = b_ref_cnt <$> get_buf s (n_pool n)) ->
  holds r (upd_pool (fun _ => p) n) /\ api_step n (upd_pool (fun _ => p) n).
Proof.
  intros [Hq Hh] Hp Hc Hr. assert (queue_step n (upd_pool (fun _ => p) n)) as Hs by (by eexists; apply qs_edit).
  split; [split|by apply as_queue].
  - by eapply queue_step_ok.
  - intros s Hin. cbn. destruct (Hh s Hin) as (Hb & b & Hg & Hle). rewrite Hc. split; [done|].
    specialize (Hr s). rewrite Hg in Hr. apply fmap_Some in Hr as (b' & Hb' & E). exists b'. split; [done|].
    by rewrite <-E.
Qed.

Lemma holds_write r n f :
  (forall off m, length (f off m) = length m) -> holds r n ->
  holds r (upd_pool (upd_buf r (write_raw f)) n) /\ api_step n (upd_pool (upd_buf r (write_raw f)) n).
Proof.
  intros Hf Hh. apply (holds_edit r n (upd_buf r (write_raw f) (n_pool n))); [done| |done|].
  - apply ps_write; [by apply holds_live|done].
  - intros s. destruct (decide (r = s)) as [<-|]; [|by rewrite get_buf_upd_ne].
    rewrite get_buf_upd_eq. by destruct (get_buf r (n_pool n)).
Qed.

Lemma holds_fill r n fs : holds r n -> holds r (upd_pool (fill fs r) n) /\ rtc api_step n (upd_pool (fill fs r) n).
Proof.
  revert n. induction fs as [|[f v] fs IH]; intros n Hh.
  - by destruct n.
  - change (upd_pool (fill ((f, v) :: fs) r) n)
      with (upd_pool (fill fs r) (upd_pool (upd_buf r (write_raw (set_field f v))) n)).
    destruct (holds_write r n (set_field f v)) as [H1 H2]; [intros; apply length_set_field|done|].
    destruct (IH _ H1) as [H3 H4]. split; [done|]. by eapply rtc_l.
Qed.

Lemma compose_holds n size fs payload :
  queues_ok n -> req_ok size 0 ->
  match compose size fs payload n with
  | (None, n') => n' = n
  | (Some r, n') => holds r n' /\ rtc api_step n n'
  end.
Proof.
  intros Hq Hs. pose proof (qo_pool n Hq) as Hw. pose proof (alloc_post_holds _ size 0 Hw Hs) as Ha.
  pose proof (ex_intro (fun th => queue_op th _ _) None (qs_alloc size 0 n Hs) : queue_step _ _) as Hst.
  pose proof (queue_held_alloc size 0 _ _ Hw Hs (qo_held n Hq)) as Hh.
  pose proof (g_bin_count_alloc size 0 (n_pool n)) as Hc.
  assert (match nos_buffer_alloc size 0 (n_pool n) with (_, Some r) => ref_bin r < g_bin_count (n_pool n) | _ => True end) as Hlt.
  { unfold nos_buffer_alloc. destruct (find_idx _ _) as [i|] eqn:Hi; [|done].
    apply find_idx_lt in Hi. rewrite length_take in Hi. destruct (g_bins (n_pool n) !! i); [|done]. simpl. lia. }
  unfold compose. destruct (nos_buffer_alloc size 0 (n_pool n)) as [p [r|]]; cbn [fst] in *.
  2: { destruct Ha as [-> _]. by destruct n. }
  destruct Ha as ((b & Hb & Hb0 & Hb' & _) & Hne & _).
  assert (r ∉ queued n) as Hnr.
  { intros Hin. destruct (qo_held n Hq r Hin) as (_ & b2 & Hb2 & Hle). simplify_eq.
    pose proof (occurrences_pos _ _ Hin). lia. }
  assert (queues_ok (upd_pool (fun _ => p) n)) as Hq1 by by eapply queue_step_ok; [exact Hst|].
  assert (holds r (upd_pool (fun _ => p) n)) as H0.
  { split; [done|]. cbn. intros s Hin. rewrite occurrences_cons. destruct (decide (r = s)) as [<-|Hrs].
    - rewrite Hc. split; [done|]. eexists. split; [exact Hb'|]. cbn. by rewrite occurrences_not_in.
    - apply elem_of_cons in Hin as [?|Hin]; [done|]. by apply Hh. }
  destruct (holds_fill r _ fs H0) as [H1 H2].
  destruct (holds_write r _ (fun off raw => list_inserts (off + MSG_SIZE) payload raw)
    ltac:(intros; apply length_inserts) H1) as [H3 H4].
  split; [exact H3|]. eapply rtc_l; [by apply as_queue|]. eapply rtc_r; [exact H2|exact H4].
Qed.

Lemma holds_send r th n :
  holds r n ->
  holds r (nos_transport_local_send r th n).2 /\ api_step n (nos_transport_local_send r th n).2.
Proof.
  intros Hh. pose proof (holds_live r n Hh) as Hl. destruct Hh as [Hq Hh].
  assert (queue_step n (nos_transport_local_send r th n).2) as Hst by (by eexists; apply qs_send).
  split; [|by apply as_queue]. split; [by eapply queue_step_ok|].
  destruct th as [th|]; [|done].
  destruct (n_threads n !! th) as [T|] eqn:HT; [|by unfold nos_transport_local_send; simpl; rewrite HT].
  destruct (ring_full (msg_queue T)) eqn:Hf;
    [by unfold nos_transport_local_send; simpl; rewrite HT; simpl; rewrite Hf|].
  destruct (local_send_shape r th T n HT Hf) as (g & Hg & Et & ->).
  pose proof (ring_put_rep r _ _ (qo_rep n th T Hq HT) Hf) as Hrep.
  destruct (queue_held_retain _ r _ (qo_pool n Hq) Hl Hh) as [Hh' _].
  eapply queue_held_perm; [|exact Hh']. unfold queued. rewrite Et.
  rewrite (queued_in_alter _ th T) by done. unfold thread_queue at 1. rewrite Hg, (ring_rep_view _ _ Hrep).
  rewrite (queued_in_split (n_threads n) th T) by done. fold (thread_queue T).
  cbn [app]. rewrite <-!app_assoc. cbn [app]. constructor.
  apply Permutation_app_head. symmetry. apply Permutation_cons_append.
Qed.

Lemma holds_release r n :
  holds r n -> api_step n (upd_pool (nos_buffer_release (Some r)) n).
Proof.
  intros Hh. pose proof (holds_live r n Hh) as Hl. destruct Hh as [_ Hh].
  destruct (Hh r) as (_ & b & Hg & Hle); [left|]. rewrite occurrences_cons, decide_True in Hle by done.
  apply as_queue. exists None. apply (qs_release r b); [done..|lia].
Qed.

Section local.
Context {X : Type} `{!IpcTransport X}.

(** No route for [id] leads to another node. *)
Definition not_remote (id : Z) (n : node) : Prop :=
  forall e, svc_lookup id (n_registry n) = Some e -> is_remote e = false.

(** A message without a remote route goes at most to a thread's queue. *)
Lemma msg_send_local r n (x : X) :
  (forall h, buf_msg r (n_pool n) = Some h -> not_remote (dst_service h) n) ->
  exists st th, nos_service_msg_send (Some r) n x = (st, (nos_transport_local_send r th n).2, x).
Proof.
  intros Hl. unfold nos_service_msg_send. cbn [mbind option_bind].
  destruct (buf_msg r (n_pool n)) as [h|]; [|by exists NOS_ERR, None]. specialize (Hl h eq_refl).
  cbn [fmap option_fmap option_map]. destruct (is_reply h).
  - destruct (find_loaded_component_info n (dst_component h)) as [info|]; [|by exists NOS_ERR, None].
    exists (nos_transport_local_send r (li_owner_thread info) n).1, (li_owner_thread info).
    by destruct (nos_transport_local_send _ _ _).
  - destruct (svc_lookup (dst_service h) (n_registry n)) as [e|] eqn:He; [|by exists NOS_ERR, None].
    rewrite (Hl e He). exists (nos_transport_local_send r (local_thread e) n).1, (local_thread e).
    by destruct (nos_transport_local_send _ _ _).
Qed.
End local.

(** ** The header that is sent *)

(** The value of field [f] after the assignments [fs]. *)
Definition assigned (f : msg_field) (fs : list (msg_field * Z)) (old : Z) : Z :=
  foldl (fun o '(g, v) => if decide (f = g) then v else o) old fs.

(** The values fit the fields they are assigned to. *)
Definition in_fields (fs : list (msg_field * Z)) : Prop :=
  Forall (fun '(f, v) => (0 <= v < 256 ^ Z.of_nat (field_size f))%Z) fs.

Lemma msg_field_read f off m : msg_field_of f (msg_read off m) = get_field f off m.
Proof. by destruct f. Qed.

Lemma get_field_payload f off payload raw :
  get_field f off (list_inserts (off + MSG_SIZE) payload raw) = get_field f off raw.
Proof.
  unfold get_field, mem_read. f_equal. apply map_ext_in. intros k Hk%in_seq. f_equal.
  apply list_lookup_inserts_lt. unfold MSG_SIZE. destruct f; cbn in *; lia.
Qed.

Lemma fill_fields fs r p b :
  get_buf r p = Some b -> in_fields fs -> Z.to_nat (b_data b) + MSG_SIZE <= length (b_raw b) ->
  exists b', get_buf r (fill fs r p) = Some b' /\ b_data b' = b_data b /\
    forall f, get_field f (Z.to_nat (b_data b)) (b_raw b') =
              assigned f fs (get_field f (Z.to_nat (b_data b)) (b_raw b)).
Proof.
  revert p b. induction fs as [|[g v] fs IH]; intros p b Hb Hfs Hlen; [by exists b|].
  apply Forall_cons in Hfs as [Hv Hfs]. rewrite fill_cons.
  destruct (IH (buf_set_field g v r p) (write_raw (set_field g v) b)) as (b' & H1 & H2 & H3); [|done| |].
  - unfold buf_set_field. by rewrite get_buf_upd_eq, Hb.
  - cbn. by rewrite length_set_field.
  - exists b'. split; [done|]. split; [done|]. intros f. cbn in H3. rewrite H3. unfold assigned. cbn [foldl].
    destruct (decide (f = g)) as [->|]; [by rewrite get_set_field_same|by rewrite get_set_field_ne].
Qed.

(** The header of a composed message: the assigned fields, and for the
    others what the chunk held before. *)
Lemma compose_header n size fs payload r n' :
  pool_wf (n_pool n) -> req_ok size 0 -> (Z.of_nat MSG_SIZE <= size)%Z -> in_fields fs ->
  compose size fs payload n = (Some r, n') ->
  exists h b, buf_msg r (n_pool n') = Some h /\ get_buf r (n_pool n) = Some b /\
    forall f, msg_field_of f h = assigned f fs (get_field f 0 (b_raw b)).
Proof.
  intros Hw Hs Hsz Hfs Hc. pose proof (alloc_post_holds _ size 0 Hw Hs) as Ha. unfold compose in Hc.
  assert (match nos_buffer_alloc size 0 (n_pool n) with (_, Some r) => buf_live r (nos_buffer_alloc size 0 (n_pool n)).1 | _ => True end) as Hlv.
  { pose proof (g_bin_count_alloc size 0 (n_pool n)) as Hg. unfold nos_buffer_alloc in *.
    destruct (find_idx _ _) as [i|] eqn:Hi; [|done].
    apply find_idx_lt in Hi. rewrite length_take in Hi. destruct (g_bins (n_pool n) !! i) eqn:Hb; [|done].
    destruct Ha as ((x & _ & _ & Hx & _) & _). cbn [fst] in *. split; [rewrite Hg; cbn; lia|].
    eexists. split; [exact Hx|done]. }
  pose proof (pool_wf_alloc size 0 _ Hw Hs) as Hw'.
  destruct (nos_buffer_alloc size 0 (n_pool n)) as [p [r'|]]; [|done]. injection Hc as -> <-.
  destruct Ha as ((b & Hb & _ & Hb' & Hcap) & _). cbn [fst] in *.
  set (b1 := Buf _ _ _ _ _ _ _ _ _ _) in Hb'.
  assert (length (b_raw b) = Z.to_nat (b_capacity b)) as Hraw.
  { destruct Hlv as [Hlt _]. unfold get_buf in Hb'. destruct (g_bins p !! ref_bin r) as [bn|] eqn:Hbn; [|done].
    pose proof (bw_buf _ _ (pw_bin _ Hw' _ _ Hlt Hbn) _ _ Hb') as [Hc1 Hr1 _ _ _ _ _]. cbn in Hc1, Hr1.
    by rewrite Hr1, <-Hc1. }
  destruct (fill_fields fs r p b1 Hb' Hfs) as (b2 & H1 & H2 & H3); [cbn; lia|].
  eexists _, b. split; [|split; [exact Hb|]].
  - cbn. unfold buf_msg, put_payload. rewrite get_buf_upd_eq, H1. reflexivity.
  - intros f. rewrite msg_field_read. cbn [write_raw b_raw b_data]. rewrite H2, get_field_payload. apply (H3 f).
Qed.

Section api.
Context {X : Type} `{!IpcTransport X}.

(** Posting to a service that is not on another node is a sequence of API
    calls of this node. *)
Lemma post_api n (x : X) size fs payload :
  queues_ok n -> req_ok size 0 -> (Z.of_nat MSG_SIZE <= size)%Z -> in_fields fs ->
  (forall old, not_remote (assigned F_dst_service fs old) n) ->
  exists b n', post size fs payload n x = (b, n', x) /\ rtc api_step n n'.
Proof.
  intros Hq Hs Hsz Hfs Hd. pose proof (compose_holds n size fs payload Hq Hs) as Hc. unfold post.
  destruct (compose size fs payload n) as [[r|] n1] eqn:E; [|subst n1; by exists false, n].
  destruct Hc as [Hh Hst]. destruct (compose_header n size fs payload r n1) as (h & b & Hm & _ & Hf); [apply Hq|done..|].
  assert (n_registry n1 = n_registry n) as Hr by (unfold compose in E; by repeat case_match; simplify_eq).
  destruct (msg_send_local r n1 x) as (st & th & ->).
  { intros h' Hm'. simplify_eq. intros e He. rewrite Hr in He. specialize (Hf F_dst_service). cbn in Hf.
    rewrite Hf in He. by eapply Hd. }
  destruct (holds_send r th n1 Hh) as [Hh2 Hst2]. eexists _, _. split; [done|].
  etrans; [exact Hst|]. eapply rtc_l; [exact Hst2|]. apply rtc_once. by apply holds_release.
Qed.
End api.
