(* ===== verification/Threads.v ===== *)
(** * What the threads of a node do (src/core/nos_scheduler.c)

    The command line and the component manager work on the node while its
    threads run their loops.  [thread_step] lists the effects a loop has on
    the node: API calls of the components it runs, the status a component
    gets when it is started, [is_sleeping], the event descriptor, a timer
    taken from the heap and put back.  The functions the loop calls are made
    of such steps: [process_timers_acts], [start_pending_acts],
    [process_messages_acts]; [loop_act_ok] says what they keep. *)

From stdpp Require Import base list gmap strings relations.
From S2P Require Import Prelude CArray Ring Mem Buffer Service Node TimerHeap Timer Scheduler RunLoop Refs Plugin Post.

(** ** The steps *)

(** Those that leave the tables of the component manager. *)
Inductive loop_act : node -> node -> Prop :=
  | la_api n n' : api_step n n' -> loop_act n n'
  | la_stop th n : loop_act n (nos_scheduler_stop th n)
  | la_sleep th b n : loop_act n (upd_thread th (set_sleeping b) n)
  | la_read th n : loop_act n (upd_thread th read_notify n)
  | la_write th n : loop_act n (upd_thread th notify n)
  | la_pop th T t l n :
      n_threads n !! th = Some T -> live (timer_heap T) = t :: l -> loop_act n (pop_timer th t n)
  | la_rearm th t x o e n n' :
      n_timers n !! t = Some x -> is_running x = false ->
      tm_owner x = Some o -> tm_owner_thread x = Some th -> hosted_on n o th ->
      rearm th t e n = Done n' -> loop_act n n'.

Inductive thread_step : node -> node -> Prop :=
  | ts_act n n' : loop_act n n' -> thread_step n n'
  | ts_status c s n : thread_step n (upd_comp c (set_status s) n).

(** ** What they keep *)

Lemma pop_timer_ok th T t l n :
  n_threads n !! th = Some T -> live (timer_heap T) = t :: l -> base_ok n -> timers_hosted n ->
  base_ok (pop_timer th t n) /\ timers_hosted (pop_timer th t n) /\ same_table n (pop_timer th t n).
Proof.
  intros HT Hl Hb Hh.
  assert (timer_frame n (pop_timer th t n)) as Hf by by apply timer_frame_detach.
  split_and!; [|eapply timers_hosted_same; [apply Hf| |done]; apply Hf|apply Hf].
  apply (base_ok_timer_frame n); [done| |done]. eapply timers_wf_pop; [apply Hb|done..].
Qed.

Lemma rearm_ok th t x o e n n' :
  n_timers n !! t = Some x -> is_running x = false -> tm_owner x = Some o -> tm_owner_thread x = Some th ->
  hosted_on n o th -> rearm th t e n = Done n' -> base_ok n -> timers_hosted n ->
  base_ok n' /\ timers_hosted n' /\ same_table n n'.
Proof.
  intros Hx Hr Ho Hth Hhost He Hb Hh.
  pose proof (timers_wf_rearm th t x o e n n' (bo_timers _ Hb) Hx Hr Hth Ho He) as Hw.
  assert (same_table n n' /\ n_pool n' = n_pool n /\
    (forall u, msg_queue <$> n_threads n' !! u = msg_queue <$> n_threads n !! u) /\
    exists g, n_timers n' = alter g t (n_timers n) /\ tm_owner (g x) = Some o /\ tm_owner_thread (g x) = Some th)
    as (Hs & Hp & Hq & g & Hg & Hgo & Hgt).
  { unfold rearm in He. cbn [n_threads upd_timer upd_timers] in He.
    destruct (n_threads n !! th) as [T|] eqn:HT; [|done]. destruct (heap_full _); injection He as <-.
    - split_and!; [by split|done..|]. exists (tm_set_running false ∘ tm_set_expire e). split; [|done].
      exact (f_equal n_timers (upd_timer_twice t _ _ n)).
    - split_and!; [|done|intros u; by rewrite (upd_thread_keeps msg_queue)|].
      + etrans; [|by apply same_table_thread]. by split.
      + exists (tm_set_running true ∘ tm_set_expire e). split; [|done].
        exact (f_equal n_timers (upd_timer_twice t _ _ n)). }
  split_and!; [|..|done].
  - split; [done| |]; [by apply (queues_ok_ext n); [..|apply Hb]|rewrite (st_registry _ _ Hs); apply Hb].
  - intros u y Hu Hy. rewrite Hg in Hu. destruct (decide (t = u)) as [<-|Hne].
    + rewrite lookup_alter_eq, Hx in Hu. injection Hu as <-. exists o, th. by rewrite (hosted_on_same n n').
    + rewrite lookup_alter_ne in Hu by done. destruct (Hh u y Hu Hy) as (o' & th' & ? & ? & ?).
      exists o', th'. by rewrite (hosted_on_same n n').
Qed.

Lemma loop_act_ok n n' :
  loop_act n n' -> base_ok n -> timers_hosted n -> base_ok n' /\ timers_hosted n' /\ same_table n n'.
Proof.
  intros Hs Hb Hh. destruct Hs as [n n' Hs|th n|th b n|th n|th n|th T t l n HT Hl|th t x o e n n' Hx Hr Ho Hth Hhost He].
  - by apply api_step_ok.
  - destruct th as [th|]; [|done]. by apply fd_step_ok.
  - by apply fd_step_ok.
  - by apply fd_step_ok.
  - by apply fd_step_ok.
  - by eapply pop_timer_ok.
  - by eapply rearm_ok.
Qed.

(** ** The loop is made of them *)

(** A thread may change the status of components, which moves neither
    components nor timers. *)
Definition same_hosts (n n' : node) : Prop := forall c th, hosted_on n c th -> hosted_on n' c th.

Lemma thread_step_hosts n n' :
  thread_step n n' -> base_ok n -> timers_hosted n -> base_ok n' /\ timers_hosted n' /\ same_hosts n n'.
Proof.
  intros [? ? Ha|c s m] Hb Hh.
  - destruct (loop_act_ok _ _ Ha Hb Hh) as (Hb' & Hh' & Hs). split_and!; [done..|].
    intros c th. by rewrite (hosted_on_same _ _ c th Hs).
  - split_and!; [|done|by intros ? ?]. destruct Hb as [Hw Hq Hr].
    split; [by apply (timers_wf_ext m)|by apply (queues_ok_ext m)|done].
Qed.

Lemma thread_steps_hosts n n' :
  rtc thread_step n n' -> base_ok n -> timers_hosted n -> base_ok n' /\ timers_hosted n' /\ same_hosts n n'.
Proof.
  induction 1 as [n|n1 n2 n3 Hs _ IH]; intros Hb Hh; [split_and!; [done..|by intros ? ?]|].
  destruct (thread_step_hosts _ _ Hs Hb Hh) as (Hb2 & Hh2 & H2). destruct (IH Hb2 Hh2) as (? & ? & H3).
  split_and!; [done..|]. intros c th Hc. by apply H3, H2.
Qed.

(** A timer's callback acts like a thread, and does not start its own timer:
    that would put the timer on the heap twice. *)
Definition callbacks_act (run_cb : nat -> nat -> node -> node) : Prop :=
  forall cb a n, rtc thread_step n (run_cb cb a n) /\
    forall t x y, n_timers n !! t = Some x -> tm_callback x = Some cb -> tm_arg x = a -> is_running x = false ->
      n_timers (run_cb cb a n) !! t = Some y ->
      is_running y = false /\ forall o, tm_owner y = Some o -> tm_owner x = Some o /\ tm_owner_thread y = tm_owner_thread x.

(** A pass of the timers, whenever it ends. *)
Lemma process_timers_acts clk run_cb fuel self k tr n n' k' tr' :
  callbacks_act run_cb -> base_ok n -> timers_hosted n ->
  process_timers clk run_cb fuel self k tr n = Done (n', k', tr') -> rtc thread_step n n'.
Proof.
  intros Hcb. revert k tr n. induction fuel as [|fuel IH]; intros k tr n Hb Hh H; cbn [process_timers] in H; [done|].
  destruct (n_threads n !! self) as [T|] eqn:HT; [|done].
  destruct (live (timer_heap T)) as [|t l] eqn:Hl; [by injection H as -> _ _|].
  destruct (n_timers n !! t) as [x|] eqn:Hx; [|done].
  destruct (clk k <? expire_at_ms x)%Z; [by injection H as -> _ _|].
  assert (is_running x = true /\ tm_owner_thread x = Some self) as [Hxr Hxt].
  { assert (t ∈ live (timer_heap T)) as Hin by (rewrite Hl; by left).
    apply (hs_mem _ _ _ (tw_heap _ (bo_timers _ Hb) self T HT)) in Hin as (y & Hy & ? & ?). by simplify_eq. }
  destruct (Hh t x Hx Hxr) as (o & th & Ho & Hth & Hhost). assert (th = self) as -> by congruence.
  destruct (pop_timer_ok self T t l n HT Hl Hb Hh) as (Hb1 & Hh1 & Hs1).
  assert (thread_step n (pop_timer self t n)) as Hst1 by (eapply ts_act, la_pop; done).
  assert (n_timers (pop_timer self t n) !! t = Some (tm_stopped x)) as Hx1
    by (unfold pop_timer; by rewrite upd_timer_eq; cbn; rewrite Hx).
  set (n1 := pop_timer self t n) in *.
  destruct (owner_active n1 (tm_stopped x)) as [act|]; [|done].
  destruct (fire_timer run_cb t (tm_stopped x) act n1 tr) as [n2 tr2] eqn:Hfire.
  destruct (n_timers n2 !! t) as [y|] eqn:Hy; [|done].
  assert (rtc thread_step n1 n2 /\ is_running y = false /\
    forall o', tm_owner y = Some o' -> o' = o /\ tm_owner_thread y = Some self) as (Hst2 & Hyr & Hyo).
  { assert (n2 = n1 -> y = tm_stopped x) as Heq by (intros ->; congruence).
    assert (tm_owner (tm_stopped x) = Some o /\ tm_owner_thread (tm_stopped x) = Some self) as [E1 E2] by done.
    unfold fire_timer in Hfire. destruct (tm_callback (tm_stopped x)) as [cb|] eqn:Hc;
      [destruct act|]; injection Hfire as <- _.
    2-3: rewrite (Heq eq_refl); (split_and!; [done..|]); intros o' ?; by split; congruence.
    destruct (Hcb cb (tm_arg x) n1) as [Hr Hself]. split; [exact Hr|].
    destruct (Hself t (tm_stopped x) y Hx1 Hc eq_refl eq_refl Hy) as [Hyr Hyo]. split; [done|].
    intros o' Ho'. destruct (Hyo o' Ho') as [? ->]. by split; congruence. }
  destruct (thread_steps_hosts _ _ Hst2 Hb1 Hh1) as (Hb2 & Hh2 & Hs2).
  destruct (is_periodic y); [destruct (owner_active n2 y) as [[]|] eqn:Hact|]; [| |done|].
  2-3: (eapply rtc_l; [exact Hst1|]; etrans; [exact Hst2|]; by eapply IH).
  destruct (tm_owner y) as [o'|] eqn:Ho'; [|unfold owner_active in Hact; by rewrite Ho' in Hact].
  destruct (Hyo o' eq_refl) as [-> Hyt].
  destruct (rearm self t _ n2) as [n3| |] eqn:He; [|done..].
  assert (loop_act n2 n3) as Hst3.
  { eapply (la_rearm self t y o); try done. apply Hs2. by apply (hosted_on_same n n1 o self). }
  destruct (loop_act_ok _ _ Hst3 Hb2 Hh2) as (Hb3 & Hh3 & _).
  eapply rtc_l; [exact Hst1|]. etrans; [exact Hst2|]. eapply rtc_l; [by apply ts_act|by eapply IH].
Qed.

(** The components of a thread are started. *)
Lemma start_pending_acts run_start self n :
  (forall f c n, rtc thread_step n (run_start f c n).2) -> rtc thread_step n (start_pending_components run_start self n).
Proof.
  intros Hr. assert (forall c n, rtc thread_step n (start_component run_start n c)) as H1.
  { intros c m. unfold start_component. destruct (c ≫= _) as [[p C]|]; [|done]. case_decide; [|done].
    destruct (c_start C) as [f|]; [|apply rtc_once, ts_status].
    specialize (Hr f p m). destruct (run_start f p m) as [st m']. cbn in Hr.
    case_match; (eapply rtc_r; [exact Hr|apply ts_status]). }
  unfold start_pending_components. destruct (n_threads n !! self) as [T|]; [|done].
  generalize (live (components T)). intros l. revert n. induction l as [|c l IH]; intros n; cbn; [done|].
  etrans; [apply H1|apply IH].
Qed.

(** A handler works with the message it is given while the loop keeps its
    reference. *)
Definition handlers_act (run_msg : nat -> comp_ptr -> buf_ref -> node -> node) : Prop :=
  forall cb c r n, holds r n -> rtc thread_step n (run_msg cb c r n) /\ holds r (run_msg cb c r n).

Lemma holds_released r n : holds r n -> queues_ok (upd_pool (nos_buffer_release (Some r)) n).
Proof.
  intros [Hq Hh]. destruct (queue_held_release _ r _ (qo_pool n Hq) Hh) as (Hw & Hh' & _).
  by apply (queues_ok_pool n (nos_buffer_release (Some r) (n_pool n))).
Qed.

Lemma process_messages_acts run_msg fuel self tr n n' tr' :
  handlers_act run_msg -> queues_ok n ->
  process_thread_messages run_msg fuel self tr n = Done (n', tr') -> rtc thread_step n n'.
Proof.
  intros Hm. revert tr n. induction fuel as [|fuel IH]; intros tr n Hq H; cbn [process_thread_messages] in H; [done|].
  destruct (n_threads n !! self) as [T|] eqn:HT; [|done].
  pose proof (qo_rep n self T Hq HT) as Hrep. destruct (thread_queue T) as [|r l] eqn:Hv.
  { rewrite (queue_take_nil _ Hrep) in H. injection H as <- _.
    replace (upd_thread self (set_queue (msg_queue T)) n) with n; [done|].
    unfold upd_thread, upd_threads. destruct n as [ths]. cbn in *. f_equal. symmetry. apply alter_id.
    intros U HU. rewrite HT in HU. injection HU as <-. by destruct T. }
  destruct (queue_take_cons _ _ _ Hrep) as [Ht _]. rewrite Ht in H.
  set (n1 := upd_thread self (set_queue (ring_advance (msg_queue T))) n) in *.
  assert (queue_op (Some self) n n1) as Hop by by eapply qs_take.
  assert (holds r n1) as Hr1.
  { split; [apply (queue_step_ok n); [by eexists|done]|]. eapply queue_held_perm; [|apply (qo_held n Hq)].
    unfold queued. cbn [n_threads n1 upd_thread upd_threads].
    rewrite (queued_in_split _ self T), (queued_in_alter _ self T), Hv by done.
    unfold thread_queue. cbn [msg_queue set_queue].
    destruct (queue_take_cons _ _ _ Hrep) as [_ Hadv]. by rewrite (ring_rep_view _ _ Hadv). }
  destruct (buf_msg r (n_pool n1)) as [h|]; [|done].
  unfold dispatch_msg in H. destruct (msg_handler n1 h) as [[[c cb]|]| |]; [| |done..].
  - destruct (Hm cb c r n1 Hr1) as [Hst2 Hr2].
    eapply rtc_l; [apply ts_act, la_api, as_queue; by exists (Some self)|]. etrans; [exact Hst2|].
    pose proof (holds_release r _ Hr2) as Hrel. eapply rtc_l; [by apply ts_act, la_api|].
    eapply IH; [|exact H]. by eapply holds_released.
  - eapply rtc_l; [apply ts_act, la_api, as_queue; by exists (Some self)|].
    pose proof (holds_release r _ Hr1) as Hrel. eapply rtc_l; [by apply ts_act, la_api|].
    eapply IH; [|exact H]. by eapply holds_released.
Qed.
