(* ===== verification/NodeMgr.v ===== *)
(** * The component manager (src/core/nos_node_mgr.c)

    Components live in shared libraries: they are staged (opened, exported,
    initialised), placed on a worker thread and entered in the table of
    loaded components; services are bound to them by the manifest.  At run
    time a component can be unloaded or replaced by a freshly staged one.

    The dynamic loader and the code of the libraries are parameters; the
    class [PluginLaws] says what that code may do to the node: it fills in
    the component's callbacks and calls the API. *)

From stdpp Require Import base list sets gmap strings relations pretty sorting.
From S2P Require Import Prelude CArray Ring Mem Buffer Service Node TimerHeap Timer Scheduler Log Plugin.
Import Registry.
Local Open Scope nat_scope.

(** ** State *)

(** [m_open] lists the open library handles, one entry per [dlopen] that was
    not undone by [dlclose]. *)
Record mgr := Mgr {
  m_node : node;
  m_open : list nat;
  m_log : nos_log_context;
}.

Definition on_node (f : node -> node) (m : mgr) : mgr := Mgr (f (m_node m)) (m_open m) (m_log m).
Definition on_log (f : nos_log_context -> nos_log_context) (m : mgr) : mgr :=
  Mgr (m_node m) (m_open m) (f (m_log m)).

Definition open_handle (h : nat) (m : mgr) : mgr := Mgr (m_node m) (h :: m_open m) (m_log m).

Fixpoint remove_one (h : nat) (l : list nat) : list nat :=
  match l with
  | [] => []
  | x :: l => if x =? h then l else x :: remove_one h l
  end.

Definition dlclose (h : nat) (m : mgr) : mgr := Mgr (m_node m) (remove_one h (m_open m)) (m_log m).

(** The dynamic loader and the file system.  [lib_dlopen] may depend on what
    is open already. *)
Record loader := Loader {
  lib_readable : string -> bool;
  lib_dlopen : list nat -> string -> option nat;
  lib_dlerror : string -> string;
  lib_dlsym : nat -> option nat;
}.

(** Memory: whether [calloc] of a component, of the array of workers and of
    the new queue of a purge succeed, and whether a thread gets its
    eventfd.  [log_found] is whether the log service is registered. *)
Record resources := Resources {
  comp_calloc_ok : bool;
  workers_calloc_ok : bool;
  queue_calloc_ok : bool;
  thread_eventfd_ok : nat -> bool;
  log_found : bool;
}.

Definition LIB_PATH_MAX : nat := 256.

Section node_mgr.
Context `{!Plugins} (ld : loader) (rs : resources).

(** [nos_sys_log_error], [nos_sys_log_info]: component id 0. *)
Definition sys_log (level : nos_log_level) (msg : string) (m : mgr) : mgr :=
  if log_found rs then on_log (nos_log_impl level 0 msg) m else m.

(** ** Components *)

Definition call_stop (c : comp_ptr) (C : nos_component) (n : node) : node :=
  match c_stop C with Some f => run_stop f c n | None => n end.

(** [free(comp); if (handle) dlclose(handle)] *)
Definition free_component (c : comp_ptr) (h : option nat) (m : mgr) : mgr :=
  let m1 := on_node (upd_comps (delete c)) m in
  match h with Some h => dlclose h m1 | None => m1 end.

Definition node_destroy_loaded_component (c : option comp_ptr) (h : option nat) (m : mgr)
    : outcome mgr :=
  match c with
  | None => Done (match h with Some h => dlclose h m | None => m end)
  | Some c =>
      match n_comps (m_node m) !! c with
      | None => Undef
      | Some C =>
          let m1 := if decide (c_status C = NOS_COMP_ST_STOPPED) then m
                    else on_node (fun n => call_stop c C (upd_comp c (set_status NOS_COMP_ST_STOPPED) n)) m in
          Done (free_component c h m1)
      end
  end.

Definition node_stop_component_instance (info : loaded_comp_info) (n : node) : outcome node :=
  match li_comp info with
  | None => Done n
  | Some c =>
      match n_comps n !! c with
      | None => Undef
      | Some C =>
          let n1 := upd_comp c (set_status NOS_COMP_ST_STOPPED) n in
          let n2 := match li_owner_thread info with
                    | Some th =>
                        nos_scheduler_cancel_timers_by_owner (Some th) (Some c)
                          (nos_scheduler_drop_messages_for_provider (queue_calloc_ok rs) (Some th) (Some c) n1)
                    | None => n1
                    end in
          Done (if decide (c_status C = NOS_COMP_ST_STOPPED) then n2 else call_stop c C n2)
      end
  end.

Definition staging_failed (what : string) (name : string) (c : comp_ptr) (h : nat) (m : mgr)
    : outcome (mgr * option (comp_ptr * nat)) :=
  m ← node_destroy_loaded_component (Some c) (Some h)
        (on_node (upd_comp c (set_status NOS_COMP_ST_ERROR))
          (sys_log NOS_LOG_LEVEL_ERROR ("Component " +:+ name +:+ what) m));
  Done (m, None).

(** [comp->init && comp->init(comp) != NOS_OK] *)
Definition init_fails (c : comp_ptr) (n : node) : bool * node :=
  match n_comps n !! c ≫= c_init with
  | Some f => let '(st, n1) := run_init f c n in (bool_decide (st <> NOS_OK), n1)
  | None => (false, n)
  end.

(** [comp = calloc(..)] with its id, name and status set. *)
Definition new_component (id : Z) (name : string) : nos_component :=
  Comp id name NOS_COMP_ST_LOADED None None None None.

Definition stage_component (e : nat) (id : Z) (name lib_name : string) (h : nat) (m : mgr)
    : outcome (mgr * option (comp_ptr * nat)) :=
  let c := fresh (dom (n_comps (m_node m))) in
  let '(st, n1) := export_func e c (upd_comps <[c := new_component id name]> (m_node m)) in
  let m1 := on_node (fun _ => n1) m in
  if decide (st <> NOS_OK) then staging_failed " export failed" name c h m1
  else
    let '(bad, n2) := init_fails c n1 in
    let m2 := on_node (fun _ => n2) m1 in
    if bad then staging_failed " init failed" name c h m2
    else
      let m3 := on_node (upd_comp c (set_status NOS_COMP_ST_INITED)) m2 in
      Done (sys_log NOS_LOG_LEVEL_INFO
              ("Staged " +:+ name +:+ " (ID:" +:+ pretty id +:+ ") from " +:+ lib_name)
              (on_log (nos_log_set_comp_info id (Some name)) m3), Some (c, h)).

(** The path is built with [sprintf] in 256 bytes: longer names overflow. *)
Definition node_load_component_staged (id : Z) (name lib_name : string) (m : mgr)
    : outcome (mgr * option (comp_ptr * nat)) :=
  let lib_path := "./" +:+ lib_name in
  if LIB_PATH_MAX <=? String.length lib_path then Undef
  else if negb (lib_readable ld lib_path) then
    Done (sys_log NOS_LOG_LEVEL_ERROR ("Component library " +:+ lib_path +:+ " is not readable") m, None)
  else
    match lib_dlopen ld (m_open m) lib_path with
    | None => Done (sys_log NOS_LOG_LEVEL_ERROR
                      ("Failed to load " +:+ lib_path +:+ ": " +:+ lib_dlerror ld lib_path) m, None)
    | Some h =>
        let m := open_handle h m in
        match lib_dlsym ld h with
        | None => Done (dlclose h (sys_log NOS_LOG_LEVEL_ERROR
                     ("Symbol 'nos_export_component' not found in " +:+ lib_path) m), None)
        | Some e =>
            if comp_calloc_ok rs then stage_component e id name lib_name h m
            else Done (dlclose h m, None)
        end
    end.

(** ** Start-up *)

Definition node_get_loaded_comp_by_id (id : Z) (n : node) : option comp_ptr :=
  carr_find (info_has_id n id) (n_loaded n) ≫= fun i => live (n_loaded n) !! i ≫= li_comp.

(** The table entry of a placed component. *)
Definition table_entry (c : comp_ptr) (h : nat) (lib : string) (th : option thread_ptr)
    : loaded_comp_info := Loaded (Some c) (Some h) lib th.

Definition place_component (th : option thread_ptr) (c : comp_ptr) (h : nat) (name lib : string)
    (m : mgr) : outcome mgr :=
  if MAX_COMPONENTS_PER_NODE <=? count (n_loaded (m_node m)) then
    sys_log NOS_LOG_LEVEL_ERROR ("Component table full, failed to load " +:+ name) <$>
      node_destroy_loaded_component (Some c) (Some h) m
  else
    let '(st, n) := nos_scheduler_register_component th (Some c) (m_node m) in
    if decide (st <> NOS_OK) then
      sys_log NOS_LOG_LEVEL_ERROR ("Scheduler registration failed for " +:+ name) <$>
        node_destroy_loaded_component (Some c) (Some h) (on_node (fun _ => n) m)
    else Done (on_node (fun _ => upd_loaded (carr_push (table_entry c h lib th)) n) m).

(** The components of one thread, from index [j] on.  [comp_ids] has sixteen
    elements and is read before the bound on [j] is tested: past its end the
    program reads what follows in memory. *)
Fixpoint load_thread_components (fuel : nat) (d : nos_thread_def) (th : option thread_ptr)
    (j : nat) (m : mgr) : outcome mgr :=
  match fuel with
  | O => Fuel
  | S fuel =>
      match td_comp_ids d !! j with
      | None => Undef
      | Some id =>
          if (id =? 0)%Z || (MAX_COMPONENTS_PER_NODE <=? j) then Done m
          else
            match td_comp_names d !! j, td_comp_models d !! j with
            | Some name, Some lib =>
                '(m, r) ← node_load_component_staged id name lib m;
                m ← match r with
                    | Some (c, h) => place_component th c h name lib m
                    | None => Done m
                    end;
                load_thread_components fuel d th (S j) m
            | _, _ => Undef
            end
      end
  end.

(** [&g_node_ctx.worker_threads[i]]; with no memory for the array the
    address of element 0 is NULL and the others are not objects. *)
Definition worker_slot (n : node) (i : nat) : outcome (option thread_ptr) :=
  match n_workers n !! i with
  | Some th => Done (Some th)
  | None => if (i =? 0) && (length (n_workers n) =? 0) then Done None else Undef
  end.

(** A zeroed thread object.  The elements of the array that have not been
    initialised yet are not in the store; nothing reads them. *)
Definition zero_thread : nos_thread :=
  Thread 0 "" false false (Ring [] 0 0) (CArr [] 0) (CArr [] 0) [] 0 (CArr [] 0).

Definition init_worker (i : nat) (name : string) (th : option thread_ptr) (n : node) : node :=
  match th with
  | None => n
  | Some th =>
      match (nos_scheduler_init_thread (thread_eventfd_ok rs i) (Z.of_nat i) name (Some (default zero_thread (n_threads n !! th)))).2 with
      | Some T => upd_threads <[th := T]> n
      | None => n
      end
  end.

(** The threads from index [i] on; [threads] has eight elements and is read
    before the bound is tested. *)
Fixpoint init_worker_threads (fuel : nat) (d : nos_node_def) (i : nat) (m : mgr) : outcome mgr :=
  match fuel with
  | O => Fuel
  | S fuel =>
      match nd_threads d !! i with
      | None => Undef
      | Some t =>
          match td_name t with
          | None => Done m
          | Some name =>
              if MAX_WORKERS <=? i then Done m
              else
                th ← worker_slot (m_node m) i;
                m ← load_thread_components (S MAX_COMPONENTS_PER_NODE) t th 0
                      (on_node (init_worker i name th) m);
                init_worker_threads fuel d (S i)
                  (on_node (fun n => set_workers (n_workers n) (S (n_worker_count n)) n) m)
          end
      end
  end.

Definition alloc_workers (n : node) : node :=
  let ws := if workers_calloc_ok rs then fresh_list MAX_WORKERS (dom (n_threads n)) else [] in
  set_workers ws 0 n.

Definition node_init_workers (d : nos_node_def) (m : mgr) : outcome mgr :=
  init_worker_threads (S MAX_WORKERS) d 0 (on_node alloc_workers m).

(** ** Routing *)

(** A service the manifest says component [id] of this node provides. *)
Definition provides_here (d : nos_node_def) (id : Z) (s : nos_service_def) : bool :=
  (sd_provider_comp_id s =? id)%Z && String.eqb (sd_node_name s) (nd_name d).

Definition node_register_local_providers (id : Z) (c : comp_ptr) (th : option thread_ptr)
    (d : nos_node_def) (r : registry) : registry :=
  fold_left (fun r s => if provides_here d id s
    then (nos_service_register_provider_bind (sd_service_id s) (Some c) th r).2 else r)
    (nd_services d) r.

Definition node_unregister_local_providers (id : Z) (d : nos_node_def) (r : registry) : registry :=
  fold_left (fun r s => if provides_here d id s
    then (nos_service_unregister_provider (sd_service_id s) r).2 else r)
    (nd_services d) r.

Definition comp_has_id (n : node) (id : Z) (c : option comp_ptr) : bool :=
  match c ≫= fun c => n_comps n !! c with Some C => (c_id C =? id)%Z | None => false end.

(** The first worker that hosts a component with this id. *)
Definition owner_worker (n : node) (id : Z) : option thread_ptr :=
  find_idx (fun th => match n_threads n !! th with
                      | Some T => existsb (comp_has_id n id) (live (components T))
                      | None => false
                      end) (take (n_worker_count n) (n_workers n))
    ≫= fun i => n_workers n !! i.

Definition route_service (self : string) (m : mgr) (s : nos_service_def) : mgr :=
  if String.eqb (sd_node_name s) self then
    match node_get_loaded_comp_by_id (sd_provider_comp_id s) (m_node m),
          owner_worker (m_node m) (sd_provider_comp_id s) with
    | Some c, Some th =>
        on_node (upd_registry (fun r =>
          (nos_service_register_provider_bind (sd_service_id s) (Some c) (Some th) r).2)) m
    | _, _ => m
    end
  else
    match sd_remote_uds_path s with
    | Some path =>
        if 0 <? String.length path then
          sys_log NOS_LOG_LEVEL_INFO
            ("Routing: Remote Service " +:+ pretty (sd_service_id s) +:+ " -> " +:+
             sd_node_name s +:+ " (" +:+ path +:+ ")")
            (on_node (upd_registry (fun r =>
               (nos_service_register_remote (sd_service_id s) (Some (sd_node_name s)) path r).2)) m)
        else m
    | None => m
    end.

Definition node_setup_routing (self : string) (m : mgr) : outcome mgr :=
  match n_def (m_node m) with
  | None => Undef
  | Some d => Done (fold_left (route_service self) (nd_services d) m)
  end.

(** ** Unloading and reloading *)

Definition info_named (n : node) (name : string) (i : loaded_comp_info) : bool :=
  match li_comp i ≫= fun c => n_comps n !! c with
  | Some C => String.eqb (c_name C) name
  | None => false
  end.

(** The index, the table entry, its component and thread. *)
Definition find_named (name : string) (n : node) : option (nat * loaded_comp_info) :=
  i ← carr_find (info_named n name) (n_loaded n);
  info ← live (n_loaded n) !! i;
  Some (i, info).

(** [for (i = idx; i < count - 1; i++) a[i] = a[i + 1]; count--] *)
Definition carr_remove_shift {A} (i : nat) (a : carr A) : carr A :=
  CArr (take i (slots a) ++ take (count a - 1 - i) (drop (S i) (slots a)) ++ drop (count a - 1) (slots a))
       (count a - 1).

Definition node_unload_component (name : string) (m : mgr) : outcome (nos_status * mgr) :=
  match find_named name (m_node m) with
  | None => Done (NOS_ERR, m)
  | Some (i, info) =>
      let n1 := (nos_scheduler_unregister_component (li_owner_thread info) (li_comp info) (m_node m)).2 in
      match li_comp info ≫= fun c => n_comps n1 !! c, n_def n1 with
      | Some C, Some d =>
          let n2 := upd_registry (node_unregister_local_providers (c_id C) d) n1 in
          n3 ← node_stop_component_instance info n2;
          m4 ← node_destroy_loaded_component (li_comp info) (li_handle info) (on_node (fun _ => n3) m);
          Done (NOS_OK, sys_log NOS_LOG_LEVEL_INFO ("Component " +:+ name +:+ " unloaded.")
                          (on_node (upd_loaded (carr_remove_shift i)) m4))
      | _, _ => Undef
      end
  end.

(** The new component is registered on the thread of the old one; if that
    fails the old one goes back. *)
Definition swap_registration (th : option thread_ptr) (old new : comp_ptr) (n : node)
    : option string * node :=
  let '(st1, n1) := nos_scheduler_unregister_component th (Some old) n in
  if decide (st1 <> NOS_OK) then (Some " reload failed: old component not registered.", n1)
  else
    let '(st2, n2) := nos_scheduler_register_component th (Some new) n1 in
    if decide (st2 <> NOS_OK) then
      (Some " reload failed: new component registration failed.",
       (nos_scheduler_register_component th (Some old) n2).2)
    else (None, n2).

(** The old component, out of the table, is stopped and freed. *)
Definition retire_component (old : comp_ptr) (info : loaded_comp_info) (m : mgr) : outcome mgr :=
  n ← node_stop_component_instance info (m_node m);
  match n_comps n !! old, li_handle info with
  | Some _, Some h => Done (free_component old (Some h) (on_node (fun _ => n) m))
  | _, _ => Undef
  end.

Definition node_reload_component (name : string) (m : mgr) : outcome (nos_status * mgr) :=
  match find_named name (m_node m) with
  | None => Done (NOS_ERR, m)
  | Some (i, old_info) =>
      match li_comp old_info ≫= fun c => pair c <$> n_comps (m_node m) !! c with
      | None => Undef
      | Some (old, C) =>
          let th := li_owner_thread old_info in
          '(m1, r) ← node_load_component_staged (c_id C) name (li_lib_name old_info) m;
          match r with
          | None =>
              Done (NOS_ERR, sys_log NOS_LOG_LEVEL_ERROR
                ("Component " +:+ name +:+ " reload staged load failed; old component remains active.") m1)
          | Some (new, new_handle) =>
              let '(failure, n2) := swap_registration th old new (m_node m1) in
              match failure with
              | Some why =>
                  m3 ← node_destroy_loaded_component (Some new) (Some new_handle) (on_node (fun _ => n2) m1);
                  Done (NOS_ERR, sys_log NOS_LOG_LEVEL_ERROR ("Component " +:+ name +:+ why) m3)
              | None =>
                  match n_def n2 with
                  | None => Undef
                  | Some d =>
                      let n3 := upd_registry (node_register_local_providers (c_id C) new th d)
                        (upd_loaded (carr_set i (table_entry new new_handle (li_lib_name old_info) th)) n2) in
                      m4 ← retire_component old old_info (on_node (fun _ => n3) m1);
                      Done (NOS_OK, sys_log NOS_LOG_LEVEL_INFO
                        ("Component " +:+ name +:+ " reloaded with staged swap.") m4)
                  end
              end
          end
      end
  end.
End node_mgr.

(** ** Invariant *)

Definition loaded_comps (n : node) : list (option comp_ptr) := li_comp <$> live (n_loaded n).

(** Entry [e] names component [c] because the manifest says so. *)
Definition served_by (n : node) (e : service_entry) (c : comp_ptr) : Prop :=
  Some c ∈ loaded_comps n /\
  exists C d s, n_comps n !! c = Some C /\ n_def n = Some d /\ s ∈ nd_services d /\
    sd_service_id s = service_id e /\ provides_here d (c_id C) s = true.

(** The tables refer to each other consistently and to live components only;
    [staged] are the components that are not in the table yet. *)
Record table_ok (staged : list comp_ptr) (n : node) : Prop := {
  to_len : length (slots (n_loaded n)) = MAX_COMPONENTS_PER_NODE;
  to_count : count (n_loaded n) <= MAX_COMPONENTS_PER_NODE;
  to_nodup : NoDup ((Some <$> staged) ++ loaded_comps n);
  to_live c : is_Some (n_comps n !! c) <-> Some c ∈ (Some <$> staged) ++ loaded_comps n;
  to_entry i : i ∈ live (n_loaded n) -> exists c th,
    li_comp i = Some c /\ li_owner_thread i = Some th /\ is_Some (li_handle i) /\ hosted_on n c th;
  to_thread th a : comps_of n th = Some a ->
    length (slots a) = MAX_COMP_PER_THREAD /\ carr_wf a /\ NoDup (live a) /\
    forall o, o ∈ live a -> exists i,
      i ∈ live (n_loaded n) /\ li_comp i = o /\ li_owner_thread i = Some th;
  to_provider e c : e ∈ live (n_registry n) -> local_provider e = Some c -> served_by n e c;
}.

(** The invariant of the manager.  Every open handle belongs to one staged or
    loaded component. *)
Record mgr_ok (staged : list (comp_ptr * nat)) (m : mgr) : Prop := {
  mo_base : base_ok (m_node m);
  mo_hosted : timers_hosted (m_node m);
  mo_table : table_ok staged.*1 (m_node m);
  mo_open : m_open m ≡ₚ staged.*2 ++ omap li_handle (live (n_loaded (m_node m)));
}.

(** ** Lemmas *)

Lemma m_node_sys_log rs l msg m : m_node (sys_log rs l msg m) = m_node m.
Proof. unfold sys_log. by destruct (log_found rs). Qed.

Lemma m_open_sys_log rs l msg m : m_open (sys_log rs l msg m) = m_open m.
Proof. unfold sys_log. by destruct (log_found rs). Qed.

Create HintDb mgr discriminated.
#[export] Hint Rewrite m_node_sys_log m_open_sys_log : mgr.

(** Dynamic state is untouched by changes of components and tables. *)
Record dyn_ok (n : node) : Prop := { do_base : base_ok n; do_hosted : timers_hosted n }.

Lemma dyn_ok_ext n n' :
  n_timers n' = n_timers n -> n_threads n' = n_threads n -> n_pool n' = n_pool n ->
  registry_ok (n_registry n') -> dyn_ok n -> dyn_ok n'.
Proof.
  intros Ht Hth Hp Hr [[Hw Hq _] Hh]. split; [split; [| |done]|].
  - apply (timers_wf_ext n); [done|by rewrite Hth|done].
  - apply (queues_ok_ext n); [done|by rewrite Hth|done].
  - intros t x. rewrite Ht. unfold hosted_on, comps_of. rewrite Hth. apply Hh.
Qed.

Lemma dyn_ok_comps f n : dyn_ok n -> dyn_ok (upd_comps f n).
Proof. intros Hd. apply (dyn_ok_ext n); try done. apply Hd. Qed.

Lemma dyn_ok_loaded f n : dyn_ok n -> dyn_ok (upd_loaded f n).
Proof. intros Hd. apply (dyn_ok_ext n); try done. apply Hd. Qed.

Lemma dyn_ok_registry f n : dyn_ok n -> registry_ok (f (n_registry n)) -> dyn_ok (upd_registry f n).
Proof. intros Hd Hr. by apply (dyn_ok_ext n). Qed.

Lemma dyn_ok_api n n' : rtc api_step n n' -> dyn_ok n -> dyn_ok n' /\ same_table n n'.
Proof.
  intros Hs [Hb Hh]. destruct (api_steps_ok n n' Hs Hb Hh) as (? & ? & ?). split; [by split|done].
Qed.

#[export] Hint Resolve dyn_ok_comps dyn_ok_loaded : nos.

Lemma same_table_comps f n n' : same_table n n' -> same_table (upd_comps f n) (upd_comps f n').
Proof. intros [? ? ? ? ? ? ? Ht]. split; cbn; [congruence..|exact Ht]. Qed.

Lemma same_table_loaded f n n' : same_table n n' -> same_table (upd_loaded f n) (upd_loaded f n').
Proof. intros [? ? ? ? ? ? ? Ht]. split; cbn; [congruence..|exact Ht]. Qed.

Lemma same_table_comps_ext f g n :
  f (n_comps n) = g (n_comps n) -> same_table (upd_comps f n) (upd_comps g n).
Proof. intros E. by split. Qed.

(** Components changed, the rest of the tables as before. *)
Lemma table_ok_comps S S' f n n' :
  same_table (upd_comps f n) n' ->
  (forall c, Some c ∈ loaded_comps n -> c_id <$> f (n_comps n) !! c = c_id <$> n_comps n !! c) ->
  NoDup ((Some <$> S') ++ loaded_comps n) ->
  (forall c, is_Some (f (n_comps n) !! c) <-> Some c ∈ (Some <$> S') ++ loaded_comps n) ->
  table_ok S n -> table_ok S' n'.
Proof.
  intros [Hc Hl Hr Hd _ _ _ Ht] Hid Hnd Hlive [H1 H2 _ _ H5 H6 H7]. cbn in *.
  unfold loaded_comps in *.
  split; unfold loaded_comps, hosted_on in *; rewrite ?Hl; [done..| | | |].
  - intros c. by rewrite Hc.
  - intros i Hi. destruct (H5 i Hi) as (c & th & ? & ? & ? & Hh). exists c, th. by rewrite Ht.
  - intros th a. rewrite Ht. apply H6.
  - intros e c. rewrite Hr. intros He Hp. destruct (H7 e c He Hp) as (Hin & C & d & s & HC & Hnd' & Hs & Hi & Hps).
    split; [unfold loaded_comps; by rewrite Hl|]. specialize (Hid c Hin). rewrite HC in Hid. simpl in Hid.
    apply fmap_Some in Hid as (C' & HC' & E). exists C', d, s. rewrite Hc, Hd, <-E. done.
Qed.

Lemma mgr_ok_same S m m' :
  same_table (m_node m) (m_node m') -> dyn_ok (m_node m') -> m_open m' = m_open m ->
  mgr_ok S m -> mgr_ok S m'.
Proof.
  intros Hs [] Ho [_ _ Ht Hop]. split; [done..| |].
  - apply (table_ok_comps S.*1 _ (fun cs => cs) (m_node m)); [|done|apply Ht..|done]. by destruct Hs; split.
  - by rewrite Ho, (st_loaded _ _ Hs).
Qed.

Lemma mgr_ok_staged S m m' c C h :
  n_comps (m_node m) !! c = None ->
  same_table (upd_comps <[c := C]> (m_node m)) (m_node m') -> dyn_ok (m_node m') ->
  m_open m' = h :: m_open m -> mgr_ok S m -> mgr_ok ((c, h) :: S) m'.
Proof.
  intros Hc Hs [] Ho [_ _ Ht Hop]. split; [done..| |].
  - assert (Some c ∉ (Some <$> S.*1) ++ loaded_comps (m_node m)) as Hni.
    { rewrite <-(to_live _ _ Ht), Hc. by intros []. }
    apply (table_ok_comps S.*1 _ (<[c := C]>) (m_node m)); [done| | | |done].
    + intros c' Hin. rewrite lookup_insert_ne; [done|]. intros ->. apply Hni. set_solver.
    + simpl. apply NoDup_cons. split; [done|apply Ht].
    + intros c'. cbn. rewrite elem_of_cons, lookup_insert_is_Some, (to_live _ _ Ht).
      destruct (decide (c = c')) as [->|]; naive_solver.
  - rewrite Ho, Hop, (st_loaded _ _ Hs). done.
Qed.

Lemma remove_one_perm h l k : l ≡ₚ h :: k -> remove_one h l ≡ₚ k.
Proof.
  revert k. induction l as [|x l IH]; intros k Hp; [by apply Permutation_nil_cons in Hp|].
  simpl. destruct (Nat.eqb_spec x h) as [->|Hne]; [by apply Permutation_cons_inv in Hp|].
  assert (x ∈ k) as Hx.
  { assert (x ∈ h :: k) as Hx by (rewrite <-Hp; by left). by apply elem_of_cons in Hx as [?|?]. }
  apply list_elem_of_split in Hx as (k1 & k2 & ->). rewrite (IH (k1 ++ k2)).
  - apply Permutation_middle.
  - apply (Permutation_cons_inv (a := x)). rewrite Hp. rewrite <-Permutation_middle. constructor.
Qed.

Lemma mgr_ok_released S m m' c h :
  same_table (upd_comps (delete c) (m_node m)) (m_node m') -> dyn_ok (m_node m') ->
  m_open m' = remove_one h (m_open m) -> mgr_ok ((c, h) :: S) m -> mgr_ok S m'.
Proof.
  intros Hs [] Ho [_ _ Ht Hop]. pose proof (to_nodup _ _ Ht) as Hnd. simpl in Hnd.
  apply NoDup_cons in Hnd as [Hni Hnd]. split; [done..| |].
  - apply (table_ok_comps (c :: S.*1) _ (delete c) (m_node m)); [done| |done| |done].
    + intros c' Hin. rewrite lookup_delete_ne; [done|]. intros ->. apply Hni. set_solver.
    + intros c'. rewrite lookup_delete_is_Some, (to_live _ _ Ht). simpl. rewrite elem_of_cons.
      split; [naive_solver|]. intros Hin. split; [|by right]. by intros ->.
  - rewrite Ho, (st_loaded _ _ Hs). by apply remove_one_perm.
Qed.

Lemma delete_alter_same {A} (c : nat) (f : A -> A) (m : gmap nat A) : delete c (alter f c m) = delete c m.
Proof.
  apply map_eq. intros k. destruct (decide (c = k)) as [<-|].
  - by rewrite !lookup_delete_eq.
  - by rewrite !lookup_delete_ne, lookup_alter_ne.
Qed.

Lemma delete_insert_id {A} (c : nat) (x : A) (m : gmap nat A) :
  m !! c = None -> delete c (<[c := x]> m) = m.
Proof.
  intros Hc. apply map_eq. intros k. destruct (decide (c = k)) as [<-|].
  - by rewrite lookup_delete_eq.
  - by rewrite lookup_delete_ne, lookup_insert_ne.
Qed.

Section laws.
Context `{Hpl : Plugins, !PluginLaws} (ld : loader) (rs : resources).

(** *** Destroying, staging *)

Lemma call_stop_ok c C n : dyn_ok n -> dyn_ok (call_stop c C n) /\ same_table n (call_stop c C n).
Proof.
  intros Hd. unfold call_stop. destruct (c_stop C) as [f|]; [|done]. apply dyn_ok_api; [apply stop_api|done].
Qed.

Lemma destroy_effect m c C h :
  n_comps (m_node m) !! c = Some C -> dyn_ok (m_node m) ->
  exists m', node_destroy_loaded_component (Some c) (Some h) m = Done m' /\
    same_table (upd_comps (delete c) (m_node m)) (m_node m') /\ dyn_ok (m_node m') /\
    m_open m' = remove_one h (m_open m).
Proof.
  intros HC Hd. unfold node_destroy_loaded_component. rewrite HC. eexists. split; [done|].
  unfold free_component. destruct (decide _) as [|_]; cbn.
  { split_and!; [done|by apply dyn_ok_comps|done]. }
  destruct (call_stop_ok c C (upd_comp c (set_status NOS_COMP_ST_STOPPED) (m_node m))) as [Hd1 Hs1];
    [by apply dyn_ok_comps|].
  split_and!; [|by apply dyn_ok_comps|done].
  etrans; [|apply same_table_comps, Hs1]. unfold upd_comp.
  change (upd_comps (delete c) (upd_comps (alter ?f c) ?n)) with (upd_comps (delete c ∘ alter f c) n).
  apply same_table_comps_ext. symmetry. apply delete_alter_same.
Qed.

(** What staging leaves behind: nothing, or one more live component with
    its library open. *)
Definition staging_post (id : Z) (name : string) (m : mgr) (res : mgr * option (comp_ptr * nat)) : Prop :=
  dyn_ok (m_node res.1) /\
  match res.2 with
  | None => same_table (m_node m) (m_node res.1) /\ m_open res.1 = m_open m
  | Some (c, h) =>
      n_comps (m_node m) !! c = None /\ m_open res.1 = h :: m_open m /\
      exists C, c_id C = id /\ c_name C = name /\ c_status C = NOS_COMP_ST_INITED /\
        same_table (upd_comps <[c := C]> (m_node m)) (m_node res.1)
  end.

Lemma staging_failed_post what id name m m1 c C h :
  n_comps (m_node m) !! c = None -> dyn_ok (m_node m1) ->
  same_table (upd_comps <[c := C]> (m_node m)) (m_node m1) -> m_open m1 = h :: m_open m ->
  exists res, staging_failed rs what name c h m1 = Done res /\ staging_post id name m res.
Proof.
  intros Hc Hd Hs Ho. unfold staging_failed.
  set (m2 := on_node _ _).
  assert (m_open m2 = h :: m_open m) as Ho2 by (subst m2; cbn; by autorewrite with mgr).
  assert (m_node m2 = upd_comp c (set_status NOS_COMP_ST_ERROR) (m_node m1)) as E
    by (subst m2; cbn; by autorewrite with mgr).
  assert (n_comps (m_node m2) !! c = Some (set_status NOS_COMP_ST_ERROR C)) as HC.
  { rewrite E, upd_comp_eq, (st_comps _ _ Hs). cbn. by rewrite lookup_insert_eq. }
  destruct (destroy_effect m2 c _ h HC) as (m3 & Hdes & Hs3 & Hd3 & Ho3); [rewrite E; by apply dyn_ok_comps|].
  rewrite Hdes. eexists. split; [done|]. split; [done|]. cbn. split.
  - etrans; [|exact Hs3]. rewrite E. etrans; [|apply same_table_comps, same_table_comps, Hs].
    split; try done. cbn. by rewrite delete_alter_same, delete_insert_id.
  - rewrite Ho3, Ho2. simpl. by rewrite Nat.eqb_refl.
Qed.

Lemma alter_insert_same {A} (c : nat) (f : A -> A) (x : A) (m : gmap nat A) :
  alter f c (<[c := x]> m) = <[c := f x]> m.
Proof.
  apply map_eq. intros k. destruct (decide (c = k)) as [<-|].
  - by rewrite lookup_alter_eq, !lookup_insert_eq.
  - by rewrite lookup_alter_ne, !lookup_insert_ne.
Qed.

Lemma exported_table c C n n1 :
  exports_to c (upd_comps <[c := C]> n) n1 -> dyn_ok n ->
  exists C1, c_id C1 = c_id C /\ c_name C1 = c_name C /\ c_status C1 = c_status C /\
    same_table (upd_comps <[c := C1]> n) n1 /\ dyn_ok n1.
Proof.
  intros (g & -> & Hg) Hd. destruct (Hg C) as (? & ? & ?). exists (g C). split_and!; [done..| |].
  - split; try done. cbn. by rewrite alter_insert_same.
  - by apply (dyn_ok_ext n); [..|apply Hd|].
Qed.

Lemma init_fails_ok c n : dyn_ok n -> dyn_ok (init_fails c n).2 /\ same_table n (init_fails c n).2.
Proof.
  intros Hd. unfold init_fails. destruct (_ ≫= _) as [f|]; [|done].
  pose proof (init_api f c n) as Ha. destruct (run_init f c n) as [st n1]. by apply dyn_ok_api.
Qed.

Lemma stage_component_post e id name lib h m m0 :
  dyn_ok (m_node m) -> m_node m = m_node m0 -> m_open m = h :: m_open m0 ->
  exists res, stage_component rs e id name lib h m = Done res /\ staging_post id name m0 res.
Proof.
  intros Hd En Eo. unfold stage_component. rewrite En in *.
  set (c := fresh (dom (n_comps (m_node m0)))).
  assert (n_comps (m_node m0) !! c = None) as Hc by (apply not_elem_of_dom, is_fresh).
  pose proof (export_exports e c (upd_comps <[c := new_component id name]> (m_node m0))) as Hex.
  destruct (export_func e c _) as [st n1]. cbn in Hex.
  destruct (exported_table c _ _ n1 Hex Hd) as (C1 & Hi1 & Hn1 & _ & Hs1 & Hd1).
  destruct (decide (st <> NOS_OK)) as [_|_].
  { by apply (staging_failed_post _ id name m0 _ c C1 h). }
  destruct (init_fails_ok c n1 Hd1) as [Hd2 Hs2]. destruct (init_fails c n1) as [bad n2]. cbn in *.
  assert (same_table (upd_comps <[c := C1]> (m_node m0)) n2) as Hs12 by (by etrans).
  destruct bad; [by apply (staging_failed_post _ id name m0 _ c C1 h)|].
  eexists. split; [done|]. unfold staging_post. cbn. autorewrite with mgr. cbn.
  split; [by apply dyn_ok_comps|]. split_and!; [done..|].
  exists (set_status NOS_COMP_ST_INITED C1). split_and!; [done..|].
  etrans; [|apply same_table_comps, Hs12]. split; try done. cbn. by rewrite alter_insert_same.
Qed.

(** Staging returns unless the path overflows its 256 bytes. *)
Lemma staged_post id name lib m :
  dyn_ok (m_node m) -> String.length ("./" +:+ lib) < LIB_PATH_MAX ->
  exists res, node_load_component_staged ld rs id name lib m = Done res /\ staging_post id name m res.
Proof.
  intros Hd Hlen. unfold node_load_component_staged.
  destruct (Nat.leb_spec LIB_PATH_MAX (String.length ("./" +:+ lib))); [lia|].
  assert (forall l msg, staging_post id name m (sys_log rs l msg m, None)) as Hfail.
  { intros l msg. unfold staging_post. cbn. by autorewrite with mgr. }
  destruct (negb _); [eauto|]. destruct (lib_dlopen ld _ _) as [h|]; [|eauto].
  assert (forall m', m_node m' = m_node m -> m_open m' = h :: m_open m ->
    staging_post id name m (dlclose h m', None)) as Hclose.
  { intros m' En Eo. unfold staging_post. cbn. rewrite En, Eo. split; [done|].
    split; [done|]. cbn. by rewrite Nat.eqb_refl. }
  destruct (lib_dlsym ld h) as [e|].
  - destruct (comp_calloc_ok rs).
    + by apply stage_component_post.
    + eexists. split; [done|]. by apply Hclose.
  - eexists. split; [done|]. apply Hclose; by autorewrite with mgr.
Qed.

(** Staging within the invariant. *)
Lemma mgr_ok_staging S id name m res :
  staging_post id name m res -> mgr_ok S m ->
  mgr_ok (option_list res.2 ++ S) res.1.
Proof.
  intros [Hd Hp] Hm. destruct res as [m' [[c h]|]]; cbn in *.
  - destruct Hp as (Hc & Ho & C & _ & _ & _ & Hs). by apply (mgr_ok_staged S m _ c C h).
  - destruct Hp as [Hs Ho]. by apply (mgr_ok_same S m).
Qed.

Lemma mgr_ok_dyn S m : mgr_ok S m -> dyn_ok (m_node m).
Proof. intros []. by split. Qed.

Lemma staged_lookup S m c h : mgr_ok ((c, h) :: S) m -> is_Some (n_comps (m_node m) !! c).
Proof. intros Hm. apply (to_live _ _ (mo_table _ _ Hm)). simpl. by left. Qed.

Lemma mgr_ok_destroy S m c h :
  mgr_ok ((c, h) :: S) m ->
  exists m', node_destroy_loaded_component (Some c) (Some h) m = Done m' /\ mgr_ok S m' /\
    same_table (upd_comps (delete c) (m_node m)) (m_node m').
Proof.
  intros Hm. destruct (staged_lookup _ _ _ _ Hm) as [C HC].
  destruct (destroy_effect m c C h HC (mgr_ok_dyn _ _ Hm)) as (m' & Hdes & Hs & Hd & Ho).
  exists m'. split_and!; [done| |done]. by apply (mgr_ok_released S m m' c h).
Qed.
End laws.

(** *** Component lists of threads *)

(** [n'] is [n] with the component list of [th] replaced by [a]. *)
Record relisted (th : thread_ptr) (a : carr (option comp_ptr)) (n n' : node) : Prop := {
  rl_comps : n_comps n' = n_comps n;
  rl_loaded : n_loaded n' = n_loaded n;
  rl_registry : n_registry n' = n_registry n;
  rl_def : n_def n' = n_def n;
  rl_workers : n_workers n' = n_workers n;
  rl_count : n_worker_count n' = n_worker_count n;
  rl_timers : n_timers n' = n_timers n;
  rl_pool : n_pool n' = n_pool n;
  rl_list : comps_of n' th = Some a;
  rl_other th' : th' <> th -> comps_of n' th' = comps_of n th';
  rl_base : base_ok n -> base_ok n';
}.

Lemma comps_of_thread n th a :
  comps_of n th = Some a -> exists T, n_threads n !! th = Some T /\ components T = a.
Proof. intros (T & HT & ->)%fmap_Some. eauto. Qed.

Lemma relisted_upd th T f n :
  n_threads n !! th = Some T ->
  (forall U, msg_queue (f U) = msg_queue U) -> (forall U, timer_heap (f U) = timer_heap U) ->
  relisted th (components (f T)) n (upd_thread th f n).
Proof.
  intros HT Hq Hh. split; try done.
  - unfold comps_of. by rewrite upd_thread_eq, HT.
  - intros th' Hne. unfold comps_of. by rewrite upd_thread_ne.
  - intros [Hw Hqs Hr]. split; [| |done].
    + apply (timers_wf_ext n); [done|by apply upd_thread_keeps|done].
    + apply (queues_ok_ext n); [done|by apply upd_thread_keeps|done].
Qed.

Lemma register_effect th c a n :
  comps_of n th = Some a -> count a < MAX_COMP_PER_THREAD ->
  exists n', nos_scheduler_register_component (Some th) (Some c) n = (NOS_OK, n') /\
    relisted th (carr_push (Some c) a) n n'.
Proof.
  intros (T & HT & <-)%comps_of_thread Hc. unfold nos_scheduler_register_component. rewrite HT.
  destruct (Nat.leb_spec MAX_COMP_PER_THREAD (count (components T))); [lia|].
  eexists. split; [done|].
  by apply (relisted_upd th T (fun T => notify (set_components (carr_push (Some c) (components T)) T))).
Qed.

Lemma register_refuses th c n :
  (forall t a, th = Some t -> comps_of n t = Some a -> MAX_COMP_PER_THREAD <= count a) ->
  nos_scheduler_register_component th (Some c) n = (NOS_ERR, n).
Proof.
  intros H. unfold nos_scheduler_register_component. destruct th as [t|]; [|done].
  destruct (n_threads n !! t) as [T|] eqn:HT; [|done].
  specialize (H t (components T) eq_refl). unfold comps_of in H. rewrite HT in H. specialize (H eq_refl).
  by destruct (Nat.leb_spec MAX_COMP_PER_THREAD (count (components T))); [|lia].
Qed.

Lemma unregister_effect th c a n :
  comps_of n th = Some a -> carr_wf a -> Some c ∈ live a ->
  exists n' a', nos_scheduler_unregister_component (Some th) (Some c) n = (NOS_OK, n') /\
    relisted th a' n n' /\ live a ≡ₚ Some c :: live a' /\
    carr_wf a' /\ length (slots a') = length (slots a) /\ count a' < count a.
Proof.
  intros Ha Hw Hin. destruct (comps_of_thread _ _ _ Ha) as (T & HT & E).
  unfold nos_scheduler_unregister_component. rewrite HT. cbn [mbind option_bind]. rewrite E.
  destruct (carr_find _ a) as [i|] eqn:Hf.
  - apply carr_find_Some in Hf as (Hi & y & Hy & ->%bool_decide_eq_true).
    exists (upd_thread th (fun T => set_components (carr_remove_swap i (components T)) T) n), (carr_remove_swap i a).
    split; [done|]. split.
    + rewrite <-E. by apply (relisted_upd th T (fun T => set_components (carr_remove_swap i (components T)) T)).
    + split; [by apply live_remove_swap|]. split; [by apply carr_remove_swap_wf|].
      split; [by apply (carr_remove_swap_length i a)|]. simpl. lia.
  - apply carr_find_None in Hf. rewrite List.Forall_forall in Hf.
    apply list_elem_of_In, Hf, bool_decide_eq_false in Hin. done.
Qed.

Lemma hosted_on_relisted th a n n' c t :
  relisted th a n n' -> hosted_on n' c t <-> if decide (t = th) then Some c ∈ live a else hosted_on n c t.
Proof.
  intros Hr. unfold hosted_on. destruct (decide (t = th)) as [->|Hne].
  - rewrite (rl_list _ _ _ _ Hr). naive_solver.
  - by rewrite (rl_other _ _ _ _ Hr).
Qed.

(** *** Placing a staged component *)

Lemma not_loaded S n c o :
  table_ok (c :: S) n -> o ∈ loaded_comps n -> o <> Some c.
Proof.
  intros Ht Hin ->. pose proof (to_nodup _ _ Ht) as Hnd. simpl in Hnd.
  apply NoDup_cons in Hnd as [Hni _]. apply Hni. set_solver.
Qed.

Lemma served_by_loaded n c i :
  i ∈ live (n_loaded n) -> li_comp i = Some c -> Some c ∈ loaded_comps n.
Proof. intros Hi <-. unfold loaded_comps. by apply list_elem_of_fmap_2. Qed.

Lemma table_ok_placed S n n' th a c h lib :
  table_ok (c :: S) n -> comps_of n th = Some a -> count a < MAX_COMP_PER_THREAD ->
  count (n_loaded n) < MAX_COMPONENTS_PER_NODE ->
  relisted th (carr_push (Some c) a) n n' ->
  table_ok S (upd_loaded (carr_push (table_entry c h lib (Some th))) n').
Proof.
  intros Ht Ha Hca Hcl Hr. pose proof Hr as [Ec El Er Ed _ _ _ _ _ _ _].
  pose proof Ht as [H1 H2 H3 H4 H5 H6 H7]. destruct (H6 th a Ha) as (La & Wa & Na & Ea).
  set (e := table_entry c h lib (Some th)). set (n2 := upd_loaded (carr_push e) n').
  assert (live (n_loaded n2) = live (n_loaded n) ++ [e]) as Hlv.
  { simpl. rewrite El. apply live_push. lia. }
  assert (loaded_comps n2 = loaded_comps n ++ [Some c]) as Hlc.
  { unfold loaded_comps. by rewrite Hlv, fmap_app. }
  assert ((Some <$> S) ++ loaded_comps n2 ≡ₚ (Some <$> c :: S) ++ loaded_comps n) as Hperm.
  { rewrite Hlc. simpl. rewrite (assoc (++)). symmetry. apply Permutation_cons_append. }
  assert (live (carr_push (Some c) a) = live a ++ [Some c]) as Hpa by (apply live_push; lia).
  assert (forall x t, hosted_on n x t -> hosted_on n2 x t) as Hup.
  { intros x t Hh. change (hosted_on n2) with (hosted_on n'). rewrite (hosted_on_relisted _ _ _ _ _ _ Hr).
    case_decide as E; [|done]. subst t. destruct Hh as (a' & Ha' & Hin). simplify_eq.
    rewrite Hpa. set_solver. }
  split.
  - simpl. by rewrite length_insert, El.
  - simpl. rewrite El. lia.
  - by rewrite Hperm.
  - intros x. rewrite Hperm. simpl. rewrite Ec. apply H4.
  - intros i. rewrite Hlv, elem_of_app, list_elem_of_singleton. intros [Hi| ->].
    + destruct (H5 i Hi) as (x & t & ? & ? & ? & ?). exists x, t. auto.
    + exists c, th. split_and!; [done..|by eexists|]. change (hosted_on n2) with (hosted_on n').
      rewrite (hosted_on_relisted _ _ _ _ _ _ Hr), decide_True by done. rewrite Hpa. set_solver.
  - intros t b Hb. change (comps_of n2 t) with (comps_of n' t) in Hb. rewrite Hlv.
    destruct (decide (t = th)) as [->|Hne].
    + rewrite (rl_list _ _ _ _ Hr) in Hb. simplify_eq. rewrite Hpa. split_and!.
      * simpl. by rewrite length_insert.
      * apply carr_push_wf. lia.
      * apply NoDup_app. split_and!; [done| |apply NoDup_singleton]. intros o Ho ->%list_elem_of_singleton.
        destruct (Ea _ Ho) as (i & Hi & Hic & _). by apply (not_loaded S n c (Some c)); [|by eapply served_by_loaded|].
      * intros o. rewrite elem_of_app, list_elem_of_singleton. intros [Ho| ->].
        -- destruct (Ea o Ho) as (i & ? & ? & ?). exists i. set_solver.
        -- exists e. set_solver.
    + rewrite (rl_other _ _ _ _ Hr) in Hb by done. destruct (H6 t b Hb) as (? & ? & ? & He).
      split_and!; [done..|]. intros o Ho. destruct (He o Ho) as (i & ? & ? & ?). exists i. set_solver.
  - intros x y Hx Hy. simpl in Hx. rewrite Er in Hx. destruct (H7 x y Hx Hy) as (Hin & C & d & s & ? & ? & ?).
    split; [rewrite Hlc; set_solver|]. exists C, d, s. simpl. by rewrite Ec, Ed.
Qed.

Lemma room_or_not th n :
  (exists t a, th = Some t /\ comps_of n t = Some a /\ count a < MAX_COMP_PER_THREAD) \/
  (forall t a, th = Some t -> comps_of n t = Some a -> MAX_COMP_PER_THREAD <= count a).
Proof.
  destruct th as [t|]; [|by right]. destruct (comps_of n t) as [a|] eqn:Ha; [|right; intros; congruence].
  destruct (le_lt_dec MAX_COMP_PER_THREAD (count a)); [right; intros; congruence|left; eauto].
Qed.

(** What loading components keeps of a node. *)
(** The libraries in the table fit the loader's path buffer. *)
Definition libs_fit (n : node) : Prop :=
  forall i, i ∈ live (n_loaded n) -> String.length ("./" +:+ li_lib_name i) < LIB_PATH_MAX.

Record grown (n n' : node) : Prop := {
  gr_def : n_def n' = n_def n;
  gr_registry : n_registry n' = n_registry n;
  gr_workers : n_workers n' = n_workers n;
  gr_count : n_worker_count n' = n_worker_count n;
  gr_threads th : comps_of n th = None <-> comps_of n' th = None;
  gr_libs : libs_fit n -> libs_fit n';
}.

#[export] Instance grown_preorder : PreOrder grown.
Proof.
  split; [by intros n; split|]. intros a b c [A1 A2 A3 A4 A5 A6] [B1 B2 B3 B4 B5 B6].
  split; try congruence; [|auto]. intros th. by rewrite A5.
Qed.

Lemma libs_fit_loaded n n' : n_loaded n' = n_loaded n -> libs_fit n -> libs_fit n'.
Proof. unfold libs_fit. by intros ->. Qed.

Lemma grown_same f n n' : same_table (upd_comps f n) n' -> grown n n'.
Proof.
  intros [? ? ? ? ? ? ? Ht]. split; try done; [|by apply libs_fit_loaded]. intros th. rewrite Ht. done.
Qed.

Lemma grown_relisted th a n n' : relisted th a n n' -> comps_of n th <> None -> grown n n'.
Proof.
  intros Hr Hn. pose proof Hr as [? ? ? ? ? ? ? ? Hl Hot ?].
  split; try done; [|by apply libs_fit_loaded, Hr]. intros t.
  destruct (decide (t = th)) as [->|Hne]; [|by rewrite Hot]. rewrite Hl. by split.
Qed.

(** The thread and the component id of every entry of the table. *)
Definition entry_key (n : node) (i : loaded_comp_info) : option thread_ptr * option Z :=
  (li_owner_thread i, c_id <$> (li_comp i ≫= fun c => n_comps n !! c)).

Definition keys (n : node) : list (option thread_ptr * option Z) := entry_key n <$> live (n_loaded n).

Lemma keys_table f n n' :
  same_table (upd_comps f n) n' ->
  (forall c, Some c ∈ loaded_comps n -> c_id <$> f (n_comps n) !! c = c_id <$> n_comps n !! c) -> keys n' = keys n.
Proof.
  intros [Hc Hl _ _ _ _ _ _] Hf. unfold keys. cbn in Hc, Hl. rewrite Hl. apply list_fmap_ext. intros j i Hj.
  unfold entry_key. f_equal. destruct (li_comp i) as [c|] eqn:E; [|done]. cbn. rewrite Hc. apply Hf.
  apply (served_by_loaded n c i); [by eapply list_elem_of_lookup_2|done].
Qed.

(** Room for [k] more components on thread [th]. *)
Definition room (th : option thread_ptr) (k : nat) (n : node) : Prop :=
  count (n_loaded n) + k <= MAX_COMPONENTS_PER_NODE /\
  exists t a, th = Some t /\ comps_of n t = Some a /\ count a + k <= MAX_COMP_PER_THREAD.

Lemma room_table f th k n n' : same_table (upd_comps f n) n' -> room th k n -> room th k n'.
Proof.
  intros Hs [Hc (t & a & -> & Ha & Hk)]. split; [by rewrite (st_loaded _ _ Hs)|].
  exists t, a. by rewrite (st_threads _ _ Hs).
Qed.

(** A component is placed, or destroyed again when there is no room. *)
Lemma mgr_ok_place `{Hpl : Plugins, !PluginLaws} rs S m th c h name lib :
  String.length ("./" +:+ lib) < LIB_PATH_MAX -> mgr_ok ((c, h) :: S) m ->
  exists m' (b : bool), place_component rs th c h name lib m = Done m' /\ mgr_ok S m' /\
    grown (m_node m) (m_node m') /\
    keys (m_node m') = keys (m_node m) ++ (if b then [(th, c_id <$> n_comps (m_node m) !! c)] else []) /\
    forall k, room th (Datatypes.S k) (m_node m) -> b = true /\ room th k (m_node m').
Proof.
  intros Hlib Hm. pose proof Hm as [Hb Hh Ht Ho]. unfold place_component.
  assert (forall f m1, m_node m1 = m_node m -> m_open m1 = m_open m ->
    (forall m, m_node (f m) = m_node m /\ m_open (f m) = m_open m) ->
    exists m', f <$> node_destroy_loaded_component (Some c) (Some h) m1 = Done m' /\ mgr_ok S m' /\
      grown (m_node m) (m_node m') /\ keys (m_node m') = keys (m_node m) ++ []) as Hdes.
  { intros f m1 En Eo Hf. assert (mgr_ok ((c, h) :: S) m1) as Hm1 by (split; by rewrite ?En, ?Eo).
    destruct (mgr_ok_destroy S m1 c h Hm1) as (m2 & -> & Hm2 & Hs2). exists (f m2). split; [done|].
    destruct (Hf m2) as [E1 E2]. destruct Hm2. split; [split; by rewrite ?E1, ?E2|].
    rewrite E1, <-En, app_nil_r. split; [by eapply grown_same|]. apply (keys_table _ _ _ Hs2). intros x Hx.
    rewrite lookup_delete_ne; [done|]. intros <-. rewrite En in Hx. by apply (not_loaded S.*1 (m_node m) c (Some c)). }
  assert (forall msg m, m_node (sys_log rs NOS_LOG_LEVEL_ERROR msg m) = m_node m /\
    m_open (sys_log rs NOS_LOG_LEVEL_ERROR msg m) = m_open m) as Hlog by (intros; by autorewrite with mgr).
  destruct (Nat.leb_spec MAX_COMPONENTS_PER_NODE (count (n_loaded (m_node m)))).
  { destruct (Hdes (sys_log rs NOS_LOG_LEVEL_ERROR ("Component table full, failed to load " +:+ name)) m) as (m' & ? & ? & ? & ?);
      [done..|]. exists m', false. split_and!; [done..|]. intros k [? _]. lia. }
  destruct (room_or_not th (m_node m)) as [(t & a & -> & Ha & Hca)|Hfull].
  - destruct (register_effect t c a (m_node m) Ha Hca) as (n' & -> & Hr). cbn.
    eexists _, true. split; [done|].
    assert (base_ok n') as Hb' by by apply (rl_base _ _ _ _ Hr).
    assert (dyn_ok n') as [].
    { split; [done|]. apply (timers_in_eq (hosted_on n') (m_node m)); [apply Hr|]. apply (timers_in_mono (hosted_on (m_node m))); [|exact Hh].
      intros o u Hou. rewrite (hosted_on_relisted _ _ _ _ _ _ Hr). case_decide as E; [|done]. subst u.
      destruct Hou as (a' & Ha' & Hin). simplify_eq. rewrite live_push; [set_solver|].
      destruct (to_thread _ _ Ht t a Ha) as (Hl & _). lia. }
    assert (dyn_ok (upd_loaded (carr_push (table_entry c h lib (Some t))) n')) as [] by by apply dyn_ok_loaded.
    split; [|split; [etrans; [apply (grown_relisted t _ _ _ Hr); congruence|]|split]].
    3: { unfold keys. cbn [m_node on_node n_loaded upd_loaded]. rewrite (rl_loaded _ _ _ _ Hr), live_push, fmap_app
        by (rewrite (to_len _ _ Ht); lia). unfold entry_key. cbn. by rewrite (rl_comps _ _ _ _ Hr). }
    3: { intros k [Hk (t' & a' & [= <-] & Ha' & Hk')]. split; [done|]. split.
      - cbn. rewrite (rl_loaded _ _ _ _ Hr). lia.
      - exists t, (carr_push (Some c) a). split_and!; [done|apply (rl_list _ _ _ _ Hr)|]. cbn. simplify_eq. lia. }
    2: { split; try done. intros Hf i Hi. cbn [m_node on_node n_loaded upd_loaded] in Hi.
      rewrite live_push in Hi by (rewrite (rl_loaded _ _ _ _ Hr), (to_len _ _ Ht); rewrite ?(rl_loaded _ _ _ _ Hr); lia).
      apply elem_of_app in Hi as [Hi| ->%list_elem_of_singleton]; [by apply Hf|done]. }
    split; [done..| |].
    + by apply (table_ok_placed S.*1 (m_node m) n' t a).
    + cbn [m_open m_node on_node n_loaded upd_loaded]. rewrite (rl_loaded _ _ _ _ Hr), Ho, live_push; [|rewrite (to_len _ _ Ht); lia].
      rewrite omap_app. cbn. rewrite (assoc (++)). apply Permutation_cons_append.
  - rewrite register_refuses by done. destruct (decide _) as [_|E]; [|by destruct E].
    destruct (Hdes (sys_log rs NOS_LOG_LEVEL_ERROR ("Scheduler registration failed for " +:+ name))
      (on_node (fun _ => m_node m) m)) as (m' & ? & ? & ? & ?); [done..|].
    exists m', false. split_and!; [done..|]. intros k [_ (t & a & -> & Ha & Hk)].
    specialize (Hfull t a eq_refl Ha). lia.
Qed.

(** *** Cancelling timers *)

Lemma cancel_fold_frame o l n h :
  let s := fold_left (cancel_step o) l (n, h) in
  same_table n s.1 /\ n_threads s.1 = n_threads n /\ n_pool s.1 = n_pool n.
Proof.
  revert n h. induction l as [|t l IH]; intros n h; [done|].
  cbn [fold_left]. destruct (cancel_step o (n, h) t) as [n1 h1] eqn:E.
  assert (same_table n n1 /\ n_threads n1 = n_threads n /\ n_pool n1 = n_pool n) as (H1 & H2 & H3).
  { unfold cancel_step in E. destruct (owned_by n o t); simplify_eq; [by split_and!|done]. }
  destruct (IH n1 h1) as (I1 & I2 & I3). cbn. split_and!; [by etrans|congruence..].
Qed.

Lemma cancel_frame th o n :
  let n' := nos_scheduler_cancel_timers_by_owner th o n in
  same_table n n' /\ n_pool n' = n_pool n /\
  (forall t, msg_queue <$> n_threads n' !! t = msg_queue <$> n_threads n !! t).
Proof.
  unfold nos_scheduler_cancel_timers_by_owner. destruct th as [th|]; [|done]. destruct o as [o|]; [|done].
  destruct (n_threads n !! th) as [T|] eqn:HT; [|done].
  destruct (cancel_fold_frame o (live (timer_heap T)) n (CArr (slots (timer_heap T)) 0)) as (H1 & H2 & H3).
  destruct (fold_left _ _ _) as [n1 h]. cbn in *. split_and!; [|done|].
  - etrans; [exact H1|]. by apply (same_table_thread th).
  - intros t. rewrite <-H2. by apply (upd_thread_keeps msg_queue).
Qed.

(** After cancelling, no running timer of the owner is left on the thread. *)
Lemma cancel_timers_in P th c n :
  timers_wf n -> is_Some (n_threads n !! th) -> timers_in P n ->
  timers_in (fun o t => P o t /\ ~ (o = c /\ t = th)) (nos_scheduler_cancel_timers_by_owner (Some th) (Some c) n).
Proof.
  intros Hw [T HT] Hin u y Hu Hy. pose proof (tw_heap n Hw th T HT) as Hs.
  destruct (cancel_post_holds th c T n HT Hs) as (Hm & _). rewrite Hm in Hu.
  destruct (decide _) as [_|Hno].
  { apply fmap_Some in Hu as (x & _ & ->). done. }
  destruct (Hin u y Hu Hy) as (o & t & Ho & Ht & HP). exists o, t. split_and!; [done..|].
  intros [-> ->]. apply Hno. split.
  - apply (hs_mem _ _ _ Hs). eauto.
  - unfold owned_by. rewrite Hu. by apply bool_decide_eq_true.
Qed.

(** *** Stopping *)

Lemma stop_effect `{Hpl : Plugins, !PluginLaws} rs info c th C P n :
  li_comp info = Some c -> li_owner_thread info = Some th -> n_comps n !! c = Some C ->
  is_Some (n_threads n !! th) -> base_ok n -> timers_in P n ->
  (forall o t, P o t -> ~ (o = c /\ t = th) -> hosted_on n o t) ->
  exists n', node_stop_component_instance rs info n = Done n' /\
    same_table (upd_comp c (set_status NOS_COMP_ST_STOPPED) n) n' /\ dyn_ok n'.
Proof.
  intros Hic Hth HC HT Hb Hin HP. unfold node_stop_component_instance. rewrite Hic, HC, Hth.
  set (n1 := upd_comp c (set_status NOS_COMP_ST_STOPPED) n).
  set (n2 := nos_scheduler_drop_messages_for_provider (queue_calloc_ok rs) (Some th) (Some c) n1).
  set (n3 := nos_scheduler_cancel_timers_by_owner (Some th) (Some c) n2).
  assert (base_ok n1) as Hb1.
  { destruct Hb. split; [by apply (timers_wf_ext n)|by apply (queues_ok_ext n)|done]. }
  destruct (drop_frame (queue_calloc_ok rs) (Some th) (Some c) n1) as [S2 T2 Hp2]. fold n2 in S2, T2, Hp2.
  assert (timers_wf n2) as Hw2 by (apply (timers_wf_ext n1); [done..|apply Hb1]).
  destruct (cancel_frame (Some th) (Some c) n2) as (S3 & P3 & Q3). fold n3 in S3, P3, Q3.
  assert (same_table n1 n3) as S13 by by etrans.
  assert (dyn_ok n3) as Hd3.
  { split; [split|].
    - by apply timers_wf_cancel.
    - apply (queues_ok_ext n2); [done..|]. apply queues_ok_drop, Hb1.
    - rewrite (st_registry _ _ S13). apply Hb1.
    - eapply (timers_in_mono (fun o t => P o t /\ ~ (o = c /\ t = th))).
      + intros o t [Ho Hno]. apply (hosted_on_same n1); [done|]. by apply HP.
      + apply cancel_timers_in; [done| |].
        * specialize (Hp2 th). destruct HT as [T HT]. change (n_threads n1 !! th) with (n_threads n !! th) in Hp2.
          rewrite HT in Hp2. apply fmap_Some in Hp2 as (T' & ? & _). eauto.
        * by apply (timers_in_eq _ n). }
  destruct (decide _) as [_|_].
  - by exists n3.
  - destruct (call_stop_ok c C n3 Hd3) as [Hd4 S4]. eexists. split; [done|]. split; [by etrans|done].
Qed.

(** *** Services of a component *)

Lemma service_ids_here d id k l :
  existsb (fun s => provides_here d id s && (sd_service_id s =? k)%Z) l = true <->
  exists s, s ∈ l /\ provides_here d id s = true /\ sd_service_id s = k.
Proof.
  rewrite existsb_exists. split.
  - intros (s & Hs%list_elem_of_In & Hb). bool_hyps. eauto.
  - intros (s & Hs & Hp & Hk). exists s. split; [by apply list_elem_of_In|].
    rewrite Hp. by apply Z.eqb_eq.
Qed.

Lemma unregister_lookup id r :
  registry_ok r ->
  registry_ok (nos_service_unregister_provider id r).2 /\
  forall k, svc_lookup k (nos_service_unregister_provider id r).2 =
    if (id =? k)%Z then None else svc_lookup k r.
Proof.
  intros Hr. pose proof (unregister_provider_spec id r Hr) as H.
  destruct (nos_service_unregister_provider id r) as [st r']. destruct H as (? & H1 & H2 & _).
  split; [done|]. intros k. cbn. destruct (Z.eqb_spec id k) as [<-|]; [done|by apply H2].
Qed.

Lemma unregister_local_lookup id d r :
  registry_ok r ->
  registry_ok (node_unregister_local_providers id d r) /\
  forall k, svc_lookup k (node_unregister_local_providers id d r) =
    if existsb (fun s => provides_here d id s && (sd_service_id s =? k)%Z) (nd_services d)
    then None else svc_lookup k r.
Proof.
  unfold node_unregister_local_providers. generalize (nd_services d) as l. intros l. revert r.
  induction l as [|s l IH]; intros r Hr; cbn; [done|].
  destruct (provides_here d id s) eqn:E; cbn; [|by apply IH].
  destruct (unregister_lookup (sd_service_id s) r Hr) as [Hr1 Hl1]. destruct (IH _ Hr1) as [Hr2 Hl2].
  split; [done|]. intros k. rewrite Hl2, Hl1. by destruct (sd_service_id s =? k)%Z, (existsb _ l).
Qed.

(** The entry sends messages to [c] on [th]. *)
Definition bound_to (c : comp_ptr) (th : option thread_ptr) (e : service_entry) : Prop :=
  local_provider e = Some c /\ local_thread e = th /\ is_remote e = false.

(** Binding a service: an entry that exists is rebound, a new one is made
    when there is room. *)
Lemma bind_lookup id c th r :
  registry_ok r ->
  let r' := (nos_service_register_provider_bind id (Some c) th r).2 in
  registry_ok r' /\
  (forall k, k <> id -> svc_lookup k r' = svc_lookup k r) /\
  (forall e, svc_lookup id r' = Some e -> bound_to c th e) /\
  (is_Some (svc_lookup id r) \/ count r < MAX_SERVICES -> is_Some (svc_lookup id r')).
Proof.
  intros Hr. pose proof (register_at_post id (bind_entry id (Some c) th) (fun _ => eq_refl) r Hr) as H.
  change (register_at id (bind_entry id (Some c) th) r) with
    (nos_service_register_provider_bind id (Some c) th r) in H.
  destruct (nos_service_register_provider_bind id (Some c) th r) as [st r']. cbn in *.
  destruct st; [|destruct H as (_ & -> & Hn & Hc); split_and!;
    [done|done|intros e He; congruence|rewrite Hn, Hc; intros [[]|?]; [done|lia]]..].
  destruct H as (Hr' & (old & _ & Hid) & Ho). split_and!; [done..| |].
  - intros e He. rewrite Hid in He. by injection He as <-.
  - intros _. eauto.
Qed.

Lemma register_local_lookup id c th d r :
  registry_ok r ->
  let r' := node_register_local_providers id c th d r in
  registry_ok r' /\
  forall k, if existsb (fun s => provides_here d id s && (sd_service_id s =? k)%Z) (nd_services d)
    then (forall e, svc_lookup k r' = Some e -> bound_to c th e) /\
         (is_Some (svc_lookup k r) -> is_Some (svc_lookup k r'))
    else svc_lookup k r' = svc_lookup k r.
Proof.
  cbn. unfold node_register_local_providers. generalize (nd_services d) as l. intros l. revert r.
  induction l as [|s l IH]; intros r Hr; cbn; [done|].
  destruct (provides_here d id s) eqn:E; cbn; [|by apply IH].
  destruct (bind_lookup (sd_service_id s) c th r Hr) as (Hr1 & Ho1 & Hb1 & Hs1). cbn in Hr1, Ho1, Hb1, Hs1.
  set (r1 := (nos_service_register_provider_bind _ _ _ r).2) in *.
  destruct (IH r1 Hr1) as [Hr2 Hl2]. split; [done|]. intros k. specialize (Hl2 k).
  destruct (Z.eqb_spec (sd_service_id s) k) as [<-|Hne]; cbn.
  - destruct (existsb _ l); [|rewrite Hl2; auto]. destruct Hl2 as [? Hl2]. split; [done|]. auto.
  - rewrite <-(Ho1 k) by done. exact Hl2.
Qed.

(** *** Taking a component out of the tables *)

Lemma live_remove_shift {A} i (a : carr A) :
  carr_wf a -> i < count a ->
  live (carr_remove_shift i a) = delete i (live a) /\
  length (slots (carr_remove_shift i a)) = length (slots a) /\ carr_wf (carr_remove_shift i a).
Proof.
  unfold carr_wf. intros Hw Hi. unfold live, carr_remove_shift. cbn [slots count].
  assert (length (take i (slots a) ++ take (count a - 1 - i) (drop (S i) (slots a)) ++
    drop (count a - 1) (slots a)) = length (slots a)) as Hlen.
  { rewrite !length_app, !length_take, !length_drop. lia. }
  split_and!; [|done|lia].
  rewrite delete_take_drop, take_take, Nat.min_l by lia.
  rewrite (assoc (++)), take_app_le.
  - rewrite take_app_ge by (rewrite length_take; lia). rewrite length_take, Nat.min_l by lia.
    rewrite take_take, Nat.min_id. f_equal. rewrite skipn_firstn_comm. f_equal. lia.
  - rewrite length_app, !length_take, length_drop. lia.
Qed.

(** Nothing refers to component [c]. *)
Record unreferenced (c : comp_ptr) (n : node) : Prop := {
  ur_loaded : Some c ∉ loaded_comps n;
  ur_thread th a : comps_of n th = Some a -> Some c ∉ live a;
  ur_service e : e ∈ live (n_registry n) -> local_provider e <> Some c;
  ur_timer t x : n_timers n !! t = Some x -> is_running x = true -> tm_owner x <> Some c;
}.

Lemma freed_unreferenced S m c :
  mgr_ok S m -> n_comps (m_node m) !! c = None -> unreferenced c (m_node m).
Proof.
  intros [_ Hh Ht _] Hc.
  assert (Some c ∉ loaded_comps (m_node m)) as Hl.
  { intros Hin. assert (is_Some (n_comps (m_node m) !! c)) as [x Hx]; [|congruence].
    apply (to_live _ _ Ht). set_solver. }
  assert (forall th a, comps_of (m_node m) th = Some a -> Some c ∉ live a) as Hth.
  { intros th a Ha Hin. destruct (to_thread _ _ Ht th a Ha) as (_ & _ & _ & He).
    destruct (He _ Hin) as (i & Hi & E & _). apply Hl. by eapply served_by_loaded. }
  split; [done..| |].
  - intros e He E. destruct (to_provider _ _ Ht e c He E) as [? _]. done.
  - intros t x Hx Hr E. destruct (Hh t x Hx Hr) as (o & th & Ho & _ & a & Ha & Hin).
    simplify_eq. by eapply Hth.
Qed.

(** [n'] is [n] without component [c], entry [i] of the table. *)
Record unloaded (i : nat) (c : comp_ptr) (C : nos_component) (d : nos_node_def) (n n' : node) : Prop := {
  ul_comps : n_comps n' = delete c (n_comps n);
  ul_len : length (slots (n_loaded n')) = length (slots (n_loaded n));
  ul_count : count (n_loaded n') <= count (n_loaded n);
  ul_loaded : live (n_loaded n') = delete i (live (n_loaded n));
  ul_def : n_def n' = n_def n;
  ul_threads th : match comps_of n th with
    | None => comps_of n' th = None
    | Some a => exists a', comps_of n' th = Some a' /\ carr_wf a' /\ length (slots a') = length (slots a) /\
        (live a' = live a /\ Some c ∉ live a \/ live a ≡ₚ Some c :: live a')
    end;
  ul_registry : registry_ok (n_registry n');
  ul_services k : svc_lookup k (n_registry n') =
    if existsb (fun s => provides_here d (c_id C) s && (sd_service_id s =? k)%Z) (nd_services d)
    then None else svc_lookup k (n_registry n);
}.

Lemma delete_entry_perm {A} (l : list A) i x : l !! i = Some x -> l ≡ₚ x :: delete i l.
Proof. apply delete_Permutation. Qed.

(** The clauses of the table invariant once component [c] is gone. *)
Section table_unloaded.
Context {S : list comp_ptr} {n n' : node} {i : nat} {info : loaded_comp_info}
  {c : comp_ptr} {C : nos_component} {d : nos_node_def}.
Context (Ht : table_ok S n) (Hreg : registry_ok (n_registry n))
  (Hi : live (n_loaded n) !! i = Some info) (Hc : li_comp info = Some c)
  (HC : n_comps n !! c = Some C) (Hd : n_def n = Some d) (Hu : unloaded i c C d n n').

Lemma unloaded_table : live (n_loaded n) ≡ₚ info :: live (n_loaded n').
Proof. rewrite (ul_loaded _ _ _ _ _ _ Hu). by apply delete_entry_perm. Qed.

Lemma unloaded_comps : loaded_comps n ≡ₚ Some c :: loaded_comps n'.
Proof. unfold loaded_comps. rewrite unloaded_table. cbn. by rewrite Hc. Qed.

Lemma unloaded_all : (Some <$> S) ++ loaded_comps n ≡ₚ Some c :: (Some <$> S) ++ loaded_comps n'.
Proof. rewrite unloaded_comps. symmetry. apply Permutation_middle. Qed.

Lemma unloaded_nodup : Some c ∉ (Some <$> S) ++ loaded_comps n' /\ NoDup ((Some <$> S) ++ loaded_comps n').
Proof. apply NoDup_cons. rewrite <-unloaded_all. apply Ht. Qed.

Lemma unloaded_entries j : j ∈ live (n_loaded n') <-> j ∈ live (n_loaded n) /\ li_comp j <> Some c.
Proof.
  rewrite unloaded_table, elem_of_cons. split.
  - intros Hj. split; [by right|]. intros E. apply (proj1 unloaded_nodup). apply elem_of_app. right.
    by eapply served_by_loaded.
  - intros [[->|?] ?]; [congruence|done].
Qed.

Lemma unloaded_thread_back th a' :
  comps_of n' th = Some a' -> exists a, comps_of n th = Some a /\ carr_wf a' /\
    length (slots a') = length (slots a) /\
    (live a' = live a /\ Some c ∉ live a \/ live a ≡ₚ Some c :: live a').
Proof.
  intros Ha'. pose proof (ul_threads _ _ _ _ _ _ Hu th) as Ut.
  destruct (comps_of n th) as [a|]; [|congruence]. destruct Ut as (a2 & E & ? & ? & ?). simplify_eq. eauto.
Qed.

Lemma unloaded_hosted o th : hosted_on n o th -> o <> c -> hosted_on n' o th.
Proof.
  intros (a & Ha & Hin) Hne. pose proof (ul_threads _ _ _ _ _ _ Hu th) as Ut. rewrite Ha in Ut.
  destruct Ut as (a' & Ha' & _ & _ & Hor). exists a'. split; [done|].
  destruct Hor as [[-> _]|Hp]; [done|]. rewrite Hp in Hin. apply elem_of_cons in Hin as [E|]; [congruence|done].
Qed.

Lemma unloaded_thread th a' :
  comps_of n' th = Some a' ->
  length (slots a') = MAX_COMP_PER_THREAD /\ carr_wf a' /\ NoDup (live a') /\
  forall o, o ∈ live a' -> exists j,
    j ∈ live (n_loaded n') /\ li_comp j = o /\ li_owner_thread j = Some th.
Proof.
  intros Ha'. destruct (unloaded_thread_back th a' Ha') as (a & Ha & Hw & Hl & Hor).
  destruct (to_thread _ _ Ht th a Ha) as (La & _ & Na & Ea). split_and!; [congruence|done| |].
  - destruct Hor as [[-> _]|Hp]; [done|]. rewrite Hp in Na. by apply NoDup_cons in Na as [_ ?].
  - intros o Ho. assert (o ∈ live a /\ o <> Some c) as [Ho' Hne].
    { destruct Hor as [[E Hn]|Hp]; [rewrite E in Ho; split; [done|by intros ->]|].
      rewrite Hp in Na. apply NoDup_cons in Na as [Hn _].
      rewrite Hp. split; [by right|by intros ->]. }
    destruct (Ea o Ho') as (j & Hj1 & <- & ?). exists j. split_and!; [by apply unloaded_entries|done..].
Qed.

Lemma unloaded_provider e x :
  e ∈ live (n_registry n') -> local_provider e = Some x -> served_by n' e x.
Proof.
  intros He Hx.
  assert (svc_lookup (service_id e) (n_registry n') = Some e) as He'
    by (apply svc_lookup_elem; [apply Hu|done]).
  rewrite (ul_services _ _ _ _ _ _ Hu) in He'. destruct (existsb _ _) eqn:Hex; [done|].
  apply svc_lookup_elem in He' as [He' _]; [|done].
  destruct (to_provider _ _ Ht e x He' Hx) as (Hin & X & d' & s & HX & Hd' & Hs & Hid & Hpv). simplify_eq.
  assert (x <> c) as Hxc.
  { intros ->. simplify_eq. apply not_true_iff_false in Hex. apply Hex. apply service_ids_here. eauto. }
  split.
  - rewrite unloaded_comps, elem_of_cons in Hin. destruct Hin as [E|]; [congruence|done].
  - exists X, d, s. rewrite (ul_comps _ _ _ _ _ _ Hu), lookup_delete_ne by done.
    by rewrite (ul_def _ _ _ _ _ _ Hu).
Qed.

Lemma table_ok_unloaded : table_ok S n'.
Proof.
  split.
  - rewrite (ul_len _ _ _ _ _ _ Hu). apply Ht.
  - pose proof (ul_count _ _ _ _ _ _ Hu). pose proof (to_count _ _ Ht). lia.
  - apply unloaded_nodup.
  - intros x. rewrite (ul_comps _ _ _ _ _ _ Hu), lookup_delete_is_Some, (to_live _ _ Ht), unloaded_all, elem_of_cons.
    pose proof (proj1 unloaded_nodup). split; [naive_solver|]. intros Hin. split; [by intros ->|by right].
  - intros j [Hj1 Hj2]%unloaded_entries. destruct (to_entry _ _ Ht j Hj1) as (x & th & Hx & ? & ? & Hh).
    exists x, th. split_and!; [done..|]. apply unloaded_hosted; congruence.
  - exact unloaded_thread.
  - exact unloaded_provider.
Qed.
End table_unloaded.

(** *** Unloading *)

Lemma find_named_spec name n i info :
  find_named name n = Some (i, info) ->
  live (n_loaded n) !! i = Some info /\
  exists c C, li_comp info = Some c /\ n_comps n !! c = Some C /\ c_name C = name.
Proof.
  unfold find_named. intros H. apply bind_Some in H as (j & Hj & H). apply bind_Some in H as (x & Hx & E).
  assert (i = j /\ info = x) as [-> ->] by (by injection E).
  split; [done|]. apply carr_find_Some in Hj as (_ & y & Hy & Hp).
  assert (y = x) as -> by congruence.
  unfold info_named in Hp. destruct (li_comp x) as [c|]; [|done]. cbn in Hp.
  destruct (n_comps n !! c) as [C|] eqn:HC; [|done]. bool_hyps. eauto.
Qed.

(** The table entry, the component, its thread and its handle. *)
Lemma loaded_entry S n i info :
  table_ok S n -> live (n_loaded n) !! i = Some info ->
  exists c C th h a, li_comp info = Some c /\ n_comps n !! c = Some C /\
    li_owner_thread info = Some th /\ li_handle info = Some h /\
    comps_of n th = Some a /\ Some c ∈ live a /\ carr_wf a /\ NoDup (live a) /\
    length (slots a) = MAX_COMP_PER_THREAD /\ i < count (n_loaded n).
Proof.
  intros Ht Hi. pose proof (list_elem_of_lookup_2 _ _ _ Hi) as Hin.
  destruct (to_entry _ _ Ht _ Hin) as (c & th & Hc & Hth & [h Hh] & a & Ha & Hca).
  destruct (to_thread _ _ Ht th a Ha) as (Hl & Hw & Hnd & _).
  assert (is_Some (n_comps n !! c)) as [C HC].
  { apply (to_live _ _ Ht). apply elem_of_app. right. by eapply served_by_loaded. }
  exists c, C, th, h, a. split_and!; try done. by eapply live_lookup_lt.
Qed.

Lemma thread_of_comps n th a : comps_of n th = Some a -> is_Some (n_threads n !! th).
Proof. intros (T & ? & _)%comps_of_thread. eauto. Qed.

(** Unregistering leaves every other component where it is. *)
Lemma hosted_after_unregister th a a' n n' c :
  relisted th a' n n' -> comps_of n th = Some a -> live a ≡ₚ Some c :: live a' ->
  forall o t, hosted_on n o t -> ~ (o = c /\ t = th) -> hosted_on n' o t.
Proof.
  intros Hr Ha Hp o t Hh Hno. rewrite (hosted_on_relisted _ _ _ _ _ _ Hr).
  case_decide as E; [|done]. subst t. destruct Hh as (b & Hb & Hin). simplify_eq.
  rewrite Hp in Hin. apply elem_of_cons in Hin as [[= ->]|]; [by destruct Hno|done].
Qed.

Lemma omap_delete_perm {A B} (f : A -> option B) (l : list A) i x y :
  l !! i = Some x -> f x = Some y -> omap f l ≡ₚ y :: omap f (delete i l).
Proof.
  revert i. induction l as [|z l IH]; intros [|i] Hi Hf; [done|done| |]; cbn in *; simplify_eq.
  - by rewrite Hf.
  - specialize (IH i Hi Hf). destruct (f z) as [w|]; [|exact IH].
    etrans; [apply perm_skip, IH|apply perm_swap].
Qed.

Lemma open_without S m i info h :
  mgr_ok S m -> live (n_loaded (m_node m)) !! i = Some info -> li_handle info = Some h ->
  m_open m ≡ₚ h :: S.*2 ++ omap li_handle (delete i (live (n_loaded (m_node m)))).
Proof.
  intros Hm Hi Hh. rewrite (mo_open _ _ Hm), (omap_delete_perm li_handle _ _ _ _ Hi Hh).
  symmetry. apply Permutation_middle.
Qed.

(** A component of the table is on the list of its own thread only. *)
Lemma hosted_only_there S n i info c th t b :
  table_ok S n -> live (n_loaded n) !! i = Some info -> li_comp info = Some c ->
  li_owner_thread info = Some th -> t <> th -> comps_of n t = Some b -> Some c ∉ live b.
Proof.
  intros Ht Hi Hc Hth Hne Hb Hcb.
  destruct (to_thread _ _ Ht t b Hb) as (_ & _ & _ & He). destruct (He _ Hcb) as (j & Hj & Hjc & Hjt).
  apply list_elem_of_lookup in Hj as [k Hk].
  pose proof (to_nodup _ _ Ht) as Hn. apply NoDup_app in Hn as (_ & _ & Hn).
  assert (k = i) as ->; [|congruence].
  eapply NoDup_lookup; [exact Hn|..]; unfold loaded_comps; rewrite list_lookup_fmap;
    [rewrite Hk; cbn; by rewrite Hjc|rewrite Hi; cbn; by rewrite Hc].
Qed.

(** The tables of a node without component [c], entry [i]. *)
Definition without (i : nat) (c : comp_ptr) (C : nos_component) (d : nos_node_def) (n : node) : node :=
  upd_loaded (carr_remove_shift i) (upd_comps (delete c)
    (upd_registry (node_unregister_local_providers (c_id C) d) n)).

Lemma unloaded_intro S n i info c C d th a a' n1 n' :
  table_ok S n -> registry_ok (n_registry n) -> live (n_loaded n) !! i = Some info ->
  li_comp info = Some c -> li_owner_thread info = Some th -> n_def n = Some d ->
  comps_of n th = Some a -> carr_wf a' -> length (slots a') = length (slots a) ->
  live a ≡ₚ Some c :: live a' -> relisted th a' n n1 -> same_table (without i c C d n1) n' ->
  unloaded i c C d n n'.
Proof.
  intros Ht Hreg Hi Hc Hth Hd Ha Hw Hl Hp Hr Hs.
  destruct (unregister_local_lookup (c_id C) d (n_registry n) Hreg) as [Hreg' Hsvc].
  destruct (loaded_entry _ _ _ _ Ht Hi) as (_ & _ & _ & _ & _ & _ & _ & _ & _ & _ & _ & _ & _ & _ & Hcnt).
  destruct (live_remove_shift i (n_loaded n)) as (Hrs & Hrl & Hrw);
    [unfold carr_wf; pose proof (to_len _ _ Ht); pose proof (to_count _ _ Ht); lia|done|].
  assert (n_registry n' = node_unregister_local_providers (c_id C) d (n_registry n)) as Er
    by (rewrite (st_registry _ _ Hs); cbn; f_equal; apply Hr).
  assert (n_loaded n' = carr_remove_shift i (n_loaded n)) as El
    by (rewrite (st_loaded _ _ Hs); cbn; f_equal; apply Hr).
  split; rewrite ?Er, ?El; [|done| |done| | |done..].
  - rewrite (st_comps _ _ Hs). cbn. f_equal. apply Hr.
  - cbn. lia.
  - rewrite (st_def _ _ Hs). apply Hr.
  - intros t. rewrite (st_threads _ _ Hs). change (comps_of (without i c C d n1) t) with (comps_of n1 t).
    destruct (decide (t = th)) as [->|Hne].
    + rewrite Ha. exists a'. rewrite (rl_list _ _ _ _ Hr). split_and!; [done..|by right].
    + rewrite (rl_other _ _ _ _ Hr) by done. destruct (comps_of n t) as [b|] eqn:Hb; [|done].
      exists b. destruct (to_thread _ _ Ht t b Hb) as (? & ? & _). split_and!; [done..|]. left.
      split; [done|]. by eapply hosted_only_there.
Qed.

Section unload.
Context `{Hpl : Plugins, !PluginLaws} (rs : resources).

(** The calls of an unload, in order, on a well-formed node. *)
Lemma unload_steps S name m i info c C th h a d :
  mgr_ok S m -> n_def (m_node m) = Some d -> find_named name (m_node m) = Some (i, info) ->
  li_comp info = Some c -> n_comps (m_node m) !! c = Some C -> li_owner_thread info = Some th ->
  li_handle info = Some h -> comps_of (m_node m) th = Some a -> carr_wf a -> Some c ∈ live a ->
  exists n1 a' m', node_unload_component rs name m = Done (NOS_OK, m') /\
    relisted th a' (m_node m) n1 /\ live a ≡ₚ Some c :: live a' /\ carr_wf a' /\
    length (slots a') = length (slots a) /\ same_table (without i c C d n1) (m_node m') /\
    dyn_ok (m_node m') /\ m_open m' = remove_one h (m_open m).
Proof.
  intros [Hb Hh Ht Ho] Hd Hf Hc HC Hth Hhd Ha Hw Hin.
  destruct (unregister_effect th c a (m_node m) Ha Hw Hin) as (n1 & a' & Hun & Hr & Hp & Hw' & Hl' & Hlt).
  set (n2 := upd_registry (node_unregister_local_providers (c_id C) d) n1).
  destruct (unregister_local_lookup (c_id C) d (n_registry (m_node m)) (bo_registry _ Hb)) as [Hreg _].
  assert (base_ok n2) as Hb2.
  { pose proof (rl_base _ _ _ _ Hr Hb) as [? ? ?]. split; [by apply (timers_wf_ext n1)|by apply (queues_ok_ext n1)|].
    cbn. by rewrite (rl_registry _ _ _ _ Hr). }
  destruct (stop_effect rs info c th C (hosted_on (m_node m)) n2 Hc Hth) as (n3 & Hst & Hs3 & Hd3).
  { cbn. by rewrite (rl_comps _ _ _ _ Hr). }
  { apply (thread_of_comps n2 th a'), Hr. }
  { done. }
  { apply (timers_in_eq (hosted_on (m_node m)) (m_node m)); [apply Hr|exact Hh]. }
  { change (hosted_on n2) with (hosted_on n1). by apply (hosted_after_unregister th a a'). }
  set (m3 := on_node (fun _ => n3) m).
  assert (n_comps (m_node m3) !! c = Some (set_status NOS_COMP_ST_STOPPED C)) as HC3.
  { cbn. rewrite (st_comps _ _ Hs3). cbn. by rewrite lookup_alter_eq, (rl_comps _ _ _ _ Hr), HC. }
  destruct (destroy_effect m3 c _ h HC3 Hd3) as (m4 & Hdes & Hs4 & Hd4 & Ho4).
  eexists n1, a', _. split_and!; [|exact Hr|exact Hp|exact Hw'|exact Hl'|..].
  - unfold node_unload_component. rewrite Hf, Hc, Hth, Hun. cbn [snd mbind option_bind].
    rewrite (rl_comps _ _ _ _ Hr), HC, (rl_def _ _ _ _ Hr), Hd. fold n2. rewrite Hst.
    cbn [mbind outcome_bind]. rewrite Hhd. fold m3. rewrite Hdes. done.
  - autorewrite with mgr. apply same_table_loaded. etrans; [|exact Hs4].
    etrans; [|apply same_table_comps, Hs3]. split; try done. cbn. by rewrite delete_alter_same.
  - autorewrite with mgr. by apply dyn_ok_loaded.
  - by autorewrite with mgr.
Qed.

Lemma unload_ok S name m i info d :
  mgr_ok S m -> n_def (m_node m) = Some d -> find_named name (m_node m) = Some (i, info) ->
  exists c C h m', li_comp info = Some c /\ n_comps (m_node m) !! c = Some C /\ c_name C = name /\
    node_unload_component rs name m = Done (NOS_OK, m') /\
    mgr_ok S m' /\ unloaded i c C d (m_node m) (m_node m') /\ m_open m ≡ₚ h :: m_open m'.
Proof.
  intros Hm Hd Hf. destruct (find_named_spec _ _ _ _ Hf) as (Hi & c & C & Hc & HC & Hname).
  pose proof Hm as [Hb _ Ht _].
  destruct (loaded_entry _ _ _ _ Ht Hi) as (c' & C' & th & h & a & Hc' & HC' & Hth & Hhd & Ha & Hin & Hw & _).
  assert (c' = c) as -> by congruence. clear Hc' HC' C'.
  destruct (unload_steps S name m i info c C th h a d) as (n1 & a' & m' & Hrun & Hr & Hp & Hw' & Hl' & Hs & [] & Hop);
    [done..|].
  pose proof (unloaded_intro S.*1 (m_node m) i info c C d th a a' n1 (m_node m') Ht (bo_registry _ Hb)
    Hi Hc Hth Hd Ha Hw' Hl' Hp Hr Hs) as Hul.
  pose proof (open_without S m i info h Hm Hi Hhd) as Hall.
  pose proof (remove_one_perm h _ _ Hall) as Hrest. rewrite <-Hop in Hrest.
  exists c, C, h, m'. split_and!; [done..| |done|by rewrite Hrest].
  split; [done..| |].
  - exact (table_ok_unloaded Ht (bo_registry _ Hb) Hi Hc HC Hd Hul).
  - by rewrite (ul_loaded _ _ _ _ _ _ Hul).
Qed.
End unload.

(** *** Reloading *)

(** [n'] is [n] with component [c], entry [i] of the table, replaced by the
    freshly staged [c']. *)
Record swapped (i : nat) (c c' : comp_ptr) (C C' : nos_component) (info : loaded_comp_info)
    (h' : nat) (d : nos_node_def) (n n' : node) : Prop := {
  sw_comps : n_comps n' = delete c (<[c' := C']> (n_comps n));
  sw_new : n_comps n !! c' = None /\ c_id C' = c_id C /\ c_name C' = c_name C /\ c_status C' = NOS_COMP_ST_INITED;
  sw_loaded : n_loaded n' =
    carr_set i (table_entry c' h' (li_lib_name info) (li_owner_thread info)) (n_loaded n);
  sw_def : n_def n' = n_def n;
  sw_thread th : match comps_of n th with
    | None => comps_of n' th = None
    | Some a => exists a', comps_of n' th = Some a' /\ carr_wf a' /\ length (slots a') = length (slots a) /\
        if decide (li_owner_thread info = Some th)
        then exists l, live a ≡ₚ Some c :: l /\ live a' ≡ₚ Some c' :: l
        else live a' = live a
    end;
  sw_registry : registry_ok (n_registry n');
  sw_services k :
    if existsb (fun s => provides_here d (c_id C) s && (sd_service_id s =? k)%Z) (nd_services d)
    then (forall e, svc_lookup k (n_registry n') = Some e -> bound_to c' (li_owner_thread info) e) /\
         (is_Some (svc_lookup k (n_registry n)) -> is_Some (svc_lookup k (n_registry n')))
    else svc_lookup k (n_registry n') = svc_lookup k (n_registry n);
}.

Lemma insert_entry_perm {A} (l : list A) i x y :
  l !! i = Some x -> <[i := y]> l ≡ₚ y :: delete i l.
Proof.
  intros Hi. assert (delete i l = delete i (<[i := y]> l)) as ->.
  { rewrite !delete_take_drop, take_insert_ge, drop_insert_lt by lia. done. }
  apply delete_entry_perm. apply list_lookup_insert_eq. by eapply lookup_lt_Some.
Qed.

(** The clauses of the table invariant once [c'] has taken the place of [c]. *)
Section table_swapped.
Context {S : list comp_ptr} {n n' : node} {i : nat} {c c' : comp_ptr} {C C' : nos_component}
  {info : loaded_comp_info} {h' : nat} {d : nos_node_def}.
Context (Ht : table_ok S n) (Hreg : registry_ok (n_registry n))
  (Hi : live (n_loaded n) !! i = Some info) (Hc : li_comp info = Some c)
  (HC : n_comps n !! c = Some C) (Hd : n_def n = Some d)
  (Hs : swapped i c c' C C' info h' d n n').
Local Abbreviation e' := (table_entry c' h' (li_lib_name info) (li_owner_thread info)).
Local Abbreviation rest := (delete i (live (n_loaded n))).

Lemma swapped_table : live (n_loaded n) ≡ₚ info :: rest.
Proof. by apply delete_entry_perm. Qed.

Lemma swapped_table' : live (n_loaded n') ≡ₚ e' :: rest.
Proof. rewrite (sw_loaded _ _ _ _ _ _ _ _ _ _ Hs), live_set. by apply insert_entry_perm with (x := info). Qed.

Lemma swapped_comps : loaded_comps n ≡ₚ Some c :: (li_comp <$> rest).
Proof. unfold loaded_comps. rewrite swapped_table at 1. cbn. by rewrite Hc. Qed.

Lemma swapped_comps' : loaded_comps n' ≡ₚ Some c' :: (li_comp <$> rest).
Proof. unfold loaded_comps. by rewrite swapped_table'. Qed.

Lemma swapped_all : (Some <$> S) ++ loaded_comps n ≡ₚ Some c :: (Some <$> S) ++ (li_comp <$> rest).
Proof. rewrite swapped_comps. symmetry. apply Permutation_middle. Qed.

Lemma swapped_all' : (Some <$> S) ++ loaded_comps n' ≡ₚ Some c' :: (Some <$> S) ++ (li_comp <$> rest).
Proof. rewrite swapped_comps'. symmetry. apply Permutation_middle. Qed.

Lemma swapped_fresh : Some c' ∉ (Some <$> S) ++ loaded_comps n.
Proof. rewrite <-(to_live _ _ Ht), (proj1 (sw_new _ _ _ _ _ _ _ _ _ _ Hs)). by intros []. Qed.

Lemma swapped_ne : c <> c'.
Proof. intros E. pose proof (proj1 (sw_new _ _ _ _ _ _ _ _ _ _ Hs)). congruence. Qed.

Lemma swapped_rest_nodup :
  Some c ∉ (Some <$> S) ++ (li_comp <$> rest) /\ NoDup ((Some <$> S) ++ (li_comp <$> rest)).
Proof. apply NoDup_cons. rewrite <-swapped_all. apply Ht. Qed.

Lemma swapped_rest j : j ∈ rest <-> j ∈ live (n_loaded n) /\ li_comp j <> Some c.
Proof.
  rewrite swapped_table at 2. rewrite elem_of_cons. split.
  - intros Hj. split; [by right|]. intros E. apply (proj1 swapped_rest_nodup), elem_of_app. right.
    rewrite <-E. by apply list_elem_of_fmap_2.
  - intros [[->|?] ?]; [congruence|done].
Qed.

Lemma swapped_hosted o th : hosted_on n o th -> o <> c -> hosted_on n' o th.
Proof.
  intros (a & Ha & Hin) Hne. pose proof (sw_thread _ _ _ _ _ _ _ _ _ _ Hs th) as Ut. rewrite Ha in Ut.
  destruct Ut as (a' & Ha' & _ & _ & Hl). exists a'. split; [done|]. case_decide; [|by rewrite Hl].
  destruct Hl as (l & Hl & Hl'). rewrite Hl', elem_of_cons. right.
  rewrite Hl in Hin. apply elem_of_cons in Hin as [E|]; [congruence|done].
Qed.

Lemma swapped_entry j :
  j ∈ live (n_loaded n') -> exists x th,
    li_comp j = Some x /\ li_owner_thread j = Some th /\ is_Some (li_handle j) /\ hosted_on n' x th.
Proof.
  rewrite swapped_table', elem_of_cons. intros [->|[Hj1 Hj2]%swapped_rest].
  - destruct (loaded_entry _ _ _ _ Ht Hi) as (x & X & th & h & a & _ & _ & Hth & _ & Ha & _).
    exists c', th. cbn. split_and!; [done..|by eexists|].
    pose proof (sw_thread _ _ _ _ _ _ _ _ _ _ Hs th) as Ut. rewrite Ha in Ut.
    destruct Ut as (a' & Ha' & _ & _ & Hl). rewrite decide_True in Hl by done.
    destruct Hl as (l & _ & Hl). exists a'. split; [done|]. rewrite Hl. by left.
  - destruct (to_entry _ _ Ht j Hj1) as (y & t & Hy & ? & ? & Hh). exists y, t. split_and!; [done..|].
    apply swapped_hosted; congruence.
Qed.

(** Every component a thread hosts after the swap is the new one or another
    one the thread hosted before. *)
Lemma swapped_thread_cases t b b' o :
  comps_of n t = Some b -> comps_of n' t = Some b' -> o ∈ live b' ->
  o = Some c' /\ li_owner_thread info = Some t \/ o ∈ live b /\ o <> Some c.
Proof.
  intros Hb Hb' Ho. pose proof (sw_thread _ _ _ _ _ _ _ _ _ _ Hs t) as Ut. rewrite Hb in Ut.
  destruct Ut as (b2 & E & _ & _ & Hor). assert (b2 = b') as -> by congruence.
  destruct (to_thread _ _ Ht t b Hb) as (_ & _ & Nb & Eb). case_decide as Et.
  - destruct Hor as (l & Hl1 & Hl2). rewrite Hl2, elem_of_cons in Ho. destruct Ho as [->|Ho]; [by left|].
    right. rewrite Hl1 in Nb |- *. apply NoDup_cons in Nb as [Nb _]. split; [by right|by intros ->].
  - right. rewrite <-Hor. split; [done|]. intros ->. rewrite Hor in Ho. destruct (Eb _ Ho) as (j & Hj & Ej & Etj).
    apply Et. rewrite swapped_table in Hj. apply elem_of_cons in Hj as [->|Hj]; [done|].
    by apply swapped_rest in Hj as [_ ?].
Qed.

Lemma swapped_thread_nodup t b b' : comps_of n t = Some b -> comps_of n' t = Some b' -> NoDup (live b').
Proof.
  intros Hb Hb'. pose proof (sw_thread _ _ _ _ _ _ _ _ _ _ Hs t) as Ut. rewrite Hb in Ut.
  destruct Ut as (b2 & E & _ & _ & Hor). assert (b2 = b') as -> by congruence.
  destruct (to_thread _ _ Ht t b Hb) as (_ & _ & Nb & Eb). case_decide; [|by rewrite Hor].
  destruct Hor as (l & Hl1 & ->). rewrite Hl1 in Nb.
  apply NoDup_cons in Nb as [_ Nb]. apply NoDup_cons. split; [|done]. intros Hin.
  assert (Some c' ∈ live b) as Hcb by (rewrite Hl1; by right).
  destruct (Eb _ Hcb) as (j & Hj & Ej & _). apply swapped_fresh, elem_of_app. right.
  by eapply served_by_loaded.
Qed.

Lemma swapped_thread t b' :
  comps_of n' t = Some b' ->
  length (slots b') = MAX_COMP_PER_THREAD /\ carr_wf b' /\ NoDup (live b') /\
  forall o, o ∈ live b' -> exists j,
    j ∈ live (n_loaded n') /\ li_comp j = o /\ li_owner_thread j = Some t.
Proof.
  intros Hb'. pose proof (sw_thread _ _ _ _ _ _ _ _ _ _ Hs t) as Ut.
  destruct (comps_of n t) as [b|] eqn:Hb; [|congruence].
  destruct Ut as (b2 & E & Hw & Hl & _). assert (b2 = b') as -> by congruence.
  destruct (to_thread _ _ Ht t b Hb) as (Lb & _ & _ & Eb).
  split_and!; [congruence|done|by eapply swapped_thread_nodup|].
  intros o Ho. destruct (swapped_thread_cases t b b' o Hb Hb' Ho) as [[-> Hot]|[Ho' Hne]].
  - exists e'. split_and!; [rewrite swapped_table'; by left|done..].
  - destruct (Eb o Ho') as (j & Hj & <- & ?). exists j.
    split_and!; [rewrite swapped_table'; right; by apply swapped_rest|done..].
Qed.

Lemma swapped_provider e y :
  e ∈ live (n_registry n') -> local_provider e = Some y -> served_by n' e y.
Proof.
  intros He Hy. destruct Hs as [Uc (Un & Uid & _) _ Ud _ Ur Us]. pose proof swapped_ne as Hcc.
  assert (svc_lookup (service_id e) (n_registry n') = Some e) as He' by by apply svc_lookup_elem.
  specialize (Us (service_id e)). destruct (existsb _ _) eqn:Hex.
  - destruct Us as [Hbd _]. destruct (Hbd e He') as (E & _). assert (y = c') as -> by congruence.
    split; [rewrite swapped_comps'; by left|]. apply service_ids_here in Hex as (s & Hin & Hp & Hid).
    exists C', d, s. rewrite Uc, lookup_delete_ne, lookup_insert_eq, Ud, Uid by done. done.
  - rewrite Us in He'. apply svc_lookup_elem in He' as [He' _]; [|done].
    destruct (to_provider _ _ Ht e y He' Hy) as (Hin & Y & d' & s & HY & Hd' & Hsd & Hid & Hpv).
    assert (d' = d) as -> by congruence. assert (y <> c) as Hyc.
    { intros ->. assert (Y = C) as -> by congruence. apply not_true_iff_false in Hex.
      apply Hex, service_ids_here. eauto. }
    assert (y <> c') as Hyc' by (intros ->; congruence). split.
    + rewrite swapped_comps, elem_of_cons in Hin. rewrite swapped_comps', elem_of_cons.
      destruct Hin as [E|]; [congruence|by right].
    + exists Y, d, s. rewrite Uc, lookup_delete_ne, lookup_insert_ne, Ud by done. done.
Qed.

Lemma table_ok_swapped : table_ok S n'.
Proof.
  pose proof swapped_fresh as Hni'. rewrite swapped_all in Hni'.
  split.
  - rewrite (sw_loaded _ _ _ _ _ _ _ _ _ _ Hs). cbn. rewrite length_insert. apply Ht.
  - rewrite (sw_loaded _ _ _ _ _ _ _ _ _ _ Hs). apply Ht.
  - rewrite swapped_all'. apply NoDup_cons. split; [|apply swapped_rest_nodup].
    intros Hin. apply Hni'. by right.
  - intros y. pose proof (proj1 swapped_rest_nodup) as Hni. pose proof swapped_ne.
    rewrite (sw_comps _ _ _ _ _ _ _ _ _ _ Hs), lookup_delete_is_Some, lookup_insert_is_Some.
    rewrite (to_live _ _ Ht), swapped_all, swapped_all', !elem_of_cons.
    split; [naive_solver|]. intros [[= ->]|Hin].
    + split; [done|by left].
    + split; [by intros ->|]. destruct (decide (c' = y)) as [->|]; [by left|right; split; [done|by right]].
  - exact swapped_entry.
  - exact swapped_thread.
  - exact swapped_provider.
Qed.
End table_swapped.

Lemma relisted_trans th a b n n1 n2 :
  relisted th a n n1 -> relisted th b n1 n2 -> relisted th b n n2.
Proof.
  intros [A1 A2 A3 A4 A5 A6 A7 A8 A9 A10 A11] [B1 B2 B3 B4 B5 B6 B7 B8 B9 B10 B11].
  split; try congruence; [|auto]. intros t Hne. by rewrite B10, A10.
Qed.

(** The new component takes the place of the old one on its thread: there is
    always room for it. *)
Lemma swap_ok th c c' a n :
  comps_of n th = Some a -> carr_wf a -> length (slots a) = MAX_COMP_PER_THREAD -> Some c ∈ live a ->
  exists n2 b, swap_registration (Some th) c c' n = (None, n2) /\ relisted th b n n2 /\
    carr_wf b /\ length (slots b) = length (slots a) /\
    exists l, live a ≡ₚ Some c :: l /\ live b ≡ₚ Some c' :: l.
Proof.
  intros Ha Hw Hl Hin.
  destruct (unregister_effect th c a n Ha Hw Hin) as (n1 & a' & Hun & Hr & Hp & Hw' & Hl' & Hlt).
  assert (count a' < MAX_COMP_PER_THREAD) as Hroom by (unfold carr_wf in Hw; lia).
  destruct (register_effect th c' a' n1 (rl_list _ _ _ _ Hr) Hroom) as (n2 & Hreg & Hr2).
  exists n2, (carr_push (Some c') a'). unfold swap_registration. rewrite Hun, Hreg. split; [done|].
  split; [by apply (relisted_trans th a' _ n n1)|]. split; [apply carr_push_wf; lia|].
  split; [simpl; by rewrite length_insert|]. exists (live a'). split; [done|].
  rewrite live_push by lia. symmetry. apply Permutation_cons_append.
Qed.

Lemma swap_hosted th c c' a b l n n2 :
  comps_of n th = Some a -> relisted th b n n2 -> live a ≡ₚ Some c :: l -> live b ≡ₚ Some c' :: l ->
  forall o t, hosted_on n o t -> ~ (o = c /\ t = th) -> hosted_on n2 o t.
Proof.
  intros Ha Hr Hla Hlb o t Hh Hno. rewrite (hosted_on_relisted _ _ _ _ _ _ Hr).
  case_decide as E; [|done]. subst t. destruct Hh as (x & Hx & Hin). simplify_eq.
  rewrite Hla in Hin. rewrite Hlb. apply elem_of_cons in Hin as [[= ->]|]; [by destruct Hno|by right].
Qed.

Section reload.
Context `{Hpl : Plugins, !PluginLaws} (ld : loader) (rs : resources).

(** The second half of a reload, from the state [n2] in which the threads
    already know the new component. *)
Lemma retire_effect info c th h C n3 m P :
  li_comp info = Some c -> li_owner_thread info = Some th -> li_handle info = Some h ->
  n_comps n3 !! c = Some C -> is_Some (n_threads n3 !! th) -> base_ok n3 -> timers_in P n3 ->
  (forall o t, P o t -> ~ (o = c /\ t = th) -> hosted_on n3 o t) ->
  exists m', retire_component rs c info (on_node (fun _ => n3) m) = Done m' /\
    same_table (upd_comps (delete c) n3) (m_node m') /\ dyn_ok (m_node m') /\
    m_open m' = remove_one h (m_open m).
Proof.
  intros Hc Hth Hh HC HT Hb Hin HP.
  destruct (stop_effect rs info c th C P n3 Hc Hth HC HT Hb Hin HP) as (n4 & Hst & Hs & Hd).
  unfold retire_component. cbn [m_node on_node]. rewrite Hst. cbn [mbind outcome_bind].
  rewrite (st_comps _ _ Hs). cbn. rewrite lookup_alter_eq, HC, Hh. cbn.
  eexists. split; [done|]. cbn. split_and!; [|by apply dyn_ok_comps|done].
  etrans; [|apply same_table_comps, Hs]. split; try done. cbn. by rewrite delete_alter_same.
Qed.

(** What a reload leaves behind. *)
Definition reload_post (i : nat) (info : loaded_comp_info) (d : nos_node_def)
    (m : mgr) (st : nos_status) (m' : mgr) : Prop :=
  match st with
  | NOS_OK => exists c C c' C' h h' l,
      li_comp info = Some c /\ n_comps (m_node m) !! c = Some C /\ li_handle info = Some h /\
      swapped i c c' C C' info h' d (m_node m) (m_node m') /\
      m_open m ≡ₚ h :: l /\ m_open m' ≡ₚ h' :: l
  | _ => st = NOS_ERR /\ same_table (m_node m) (m_node m') /\ m_open m' = m_open m
  end.

Lemma timers_hosted_links n n1 :
  (forall th, comps_of n1 th = comps_of n th) -> timers_hosted n1 -> timers_in (hosted_on n) n1.
Proof. intros E. apply timers_in_mono. intros o t. unfold hosted_on. by rewrite E. Qed.

(** The tables of a node in which [c'] took the place of [c], entry [i], from
    the state [n] in which the threads know the new component. *)
Definition replaced (i : nat) (c c' : comp_ptr) (C : nos_component) (info : loaded_comp_info) (h' : nat)
    (d : nos_node_def) (n : node) : node :=
  upd_registry (node_register_local_providers (c_id C) c' (li_owner_thread info) d)
    (upd_loaded (carr_set i (table_entry c' h' (li_lib_name info) (li_owner_thread info))) n).

Lemma swapped_intro S n i info c c' C C' h' d th a b l n1 n2 n' :
  table_ok S n -> registry_ok (n_registry n) -> li_owner_thread info = Some th ->
  n_comps n !! c' = None /\ c_id C' = c_id C /\ c_name C' = c_name C /\ c_status C' = NOS_COMP_ST_INITED ->
  n_def n = Some d -> comps_of n th = Some a ->
  carr_wf b -> length (slots b) = length (slots a) -> live a ≡ₚ Some c :: l -> live b ≡ₚ Some c' :: l ->
  same_table (upd_comps <[c' := C']> n) n1 -> relisted th b n1 n2 ->
  same_table (upd_comps (delete c) (replaced i c c' C info h' d n2)) n' ->
  swapped i c c' C C' info h' d n n'.
Proof.
  intros Ht Hreg Hth Hnew Hd Ha Hw Hl Hla Hlb Hs1 Hr Hs.
  destruct (register_local_lookup (c_id C) c' (li_owner_thread info) d (n_registry n) Hreg) as [Hreg' Hsvc].
  assert (n_registry n' = node_register_local_providers (c_id C) c' (li_owner_thread info) d (n_registry n)) as Er.
  { rewrite (st_registry _ _ Hs). cbn. f_equal. rewrite (rl_registry _ _ _ _ Hr). apply Hs1. }
  split; rewrite ?Er; [|done|..| |done|exact Hsvc].
  - rewrite (st_comps _ _ Hs). cbn. rewrite (rl_comps _ _ _ _ Hr). f_equal. apply Hs1.
  - rewrite (st_loaded _ _ Hs). cbn. rewrite (rl_loaded _ _ _ _ Hr). f_equal. apply Hs1.
  - rewrite (st_def _ _ Hs). cbn. rewrite (rl_def _ _ _ _ Hr). apply Hs1.
  - intros t. rewrite (st_threads _ _ Hs).
    change (comps_of (upd_comps _ _) t) with (comps_of n2 t).
    destruct (decide (t = th)) as [->|Hne].
    + rewrite Ha, (rl_list _ _ _ _ Hr). exists b. split_and!; [done..|]. rewrite decide_True by done. eauto.
    + rewrite (rl_other _ _ _ _ Hr), (st_threads _ _ Hs1) by done.
      change (comps_of (upd_comps _ n) t) with (comps_of n t).
      destruct (comps_of n t) as [y|] eqn:Hy; [|done]. exists y.
      destruct (to_thread _ _ Ht t y Hy) as (_ & ? & _). split_and!; [done..|].
      rewrite decide_False by congruence. done.
Qed.

(** The handles of the table with entry [i] replaced. *)
Lemma handles_replaced (l : list loaded_comp_info) i info e h :
  l !! i = Some info -> li_handle e = Some h ->
  omap li_handle (<[i := e]> l) ≡ₚ h :: omap li_handle (delete i l).
Proof.
  intros Hi He. rewrite (omap_delete_perm li_handle (<[i := e]> l) i e h);
    [|by apply list_lookup_insert_eq; eapply lookup_lt_Some|done].
  by rewrite !delete_take_drop, take_insert_ge, drop_insert_lt by lia.
Qed.

Lemma reload_swap S m m1 i info d c C c' C' h' msg :
  mgr_ok S m -> n_def (m_node m) = Some d -> live (n_loaded (m_node m)) !! i = Some info ->
  li_comp info = Some c -> n_comps (m_node m) !! c = Some C ->
  n_comps (m_node m) !! c' = None -> c_id C' = c_id C -> c_name C' = c_name C ->
  c_status C' = NOS_COMP_ST_INITED ->
  same_table (upd_comps <[c' := C']> (m_node m)) (m_node m1) -> dyn_ok (m_node m1) ->
  m_open m1 = h' :: m_open m ->
  exists n2 m4, swap_registration (li_owner_thread info) c c' (m_node m1) = (None, n2) /\
    n_def n2 = Some d /\
    retire_component rs c info (on_node (fun _ => replaced i c c' C info h' d n2) m1) = Done m4 /\
    let m5 := sys_log rs NOS_LOG_LEVEL_INFO msg m4 in
    mgr_ok S m5 /\ reload_post i info d m NOS_OK m5.
Proof.
  intros Hm Hd Hi Hc HC Hc' Hid Hnm Hst Hs1 [Hb1 Hh1] Ho1. pose proof Hm as [Hb Hh Ht Ho].
  destruct (loaded_entry _ _ _ _ Ht Hi) as (x & X & th & h & a & Hx & _ & Hth & Hhd & Ha & Hin & Hw & Hnd & Hl & Hcnt).
  assert (x = c) as -> by congruence. clear Hx X.
  assert (comps_of (m_node m1) th = Some a) as Ha1 by (rewrite (st_threads _ _ Hs1); exact Ha).
  destruct (swap_ok th c c' a (m_node m1) Ha1 Hw Hl Hin) as (n2 & b & Hsw & Hr & Hwb & Hlb & l & Hla & Hlb').
  set (n3 := replaced i c c' C info h' d n2).
  assert (base_ok n3) as Hb3.
  { pose proof (rl_base _ _ _ _ Hr Hb1) as [? ? Hr2]. split; [by apply (timers_wf_ext n2)|by apply (queues_ok_ext n2)|].
    by apply register_local_lookup. }
  assert (c <> c') as Hcc by (intros ->; congruence).
  destruct (retire_effect info c th h C n3 m1 (hosted_on (m_node m1)) Hc Hth Hhd) as (m4 & Hret & Hs4 & [] & Ho4).
  { cbn. rewrite (rl_comps _ _ _ _ Hr), (st_comps _ _ Hs1). cbn. by rewrite lookup_insert_ne. }
  { apply (thread_of_comps n3 th b), Hr. }
  { done. }
  { apply (timers_in_eq (hosted_on (m_node m1)) (m_node m1)); [apply Hr|exact Hh1]. }
  { change (hosted_on n3) with (hosted_on n2). by apply (swap_hosted th c c' a b l). }
  exists n2, m4. rewrite Hth at 1. split_and!; [done| |done|].
  { rewrite (rl_def _ _ _ _ Hr), (st_def _ _ Hs1). exact Hd. }
  assert (swapped i c c' C C' info h' d (m_node m) (m_node m4)) as Hswp.
  { by apply (swapped_intro S.*1 (m_node m) i info c c' C C' h' d th a b l (m_node m1) n2); [|apply Hb|..]. }
  assert (m_open m4 ≡ₚ h' :: S.*2 ++ omap li_handle (delete i (live (n_loaded (m_node m))))) as Hop.
  { rewrite Ho4. cbn [m_open on_node]. apply remove_one_perm.
    rewrite Ho1, (open_without S m i info h Hm Hi Hhd). apply perm_swap. }
  cbn zeta. unfold reload_post. autorewrite with mgr. split.
  - split; autorewrite with mgr; [done..| |].
    + exact (table_ok_swapped Ht (bo_registry _ Hb) Hi Hc HC Hd Hswp).
    + rewrite Hop, (sw_loaded _ _ _ _ _ _ _ _ _ _ Hswp), live_set, (handles_replaced _ i info _ h') by done.
      apply Permutation_middle.
  - eexists c, C, c', C', h, h', _. split_and!; [done..|by apply (open_without S m i info)|exact Hop].
Qed.

Lemma reload_ok S name m i info d :
  mgr_ok S m -> n_def (m_node m) = Some d -> find_named name (m_node m) = Some (i, info) ->
  String.length ("./" +:+ li_lib_name info) < LIB_PATH_MAX ->
  exists st m', node_reload_component ld rs name m = Done (st, m') /\ mgr_ok S m' /\
    reload_post i info d m st m' /\
    (st = NOS_OK <-> exists C m1 r, (li_comp info ≫= fun c => n_comps (m_node m) !! c) = Some C /\
       node_load_component_staged ld rs (c_id C) name (li_lib_name info) m = Done (m1, Some r)).
Proof.
  intros Hm Hd Hf Hlen. destruct (find_named_spec _ _ _ _ Hf) as (Hi & c & C & Hc & HC & Hname).
  destruct (staged_post ld rs (c_id C) name (li_lib_name info) m (mgr_ok_dyn _ _ Hm) Hlen) as ([m1 r] & Hstg & Hd1 & Hp1).
  unfold node_reload_component. rewrite Hf, Hc. cbn [mbind option_bind]. rewrite HC. cbn [fmap option_fmap option_map].
  rewrite Hstg. cbn [mbind outcome_bind]. cbn [fst snd] in Hp1, Hd1. destruct r as [[c' h']|].
  - destruct Hp1 as (Hc' & Ho1 & C' & Hid & Hnm & Hst & Hs1).
    destruct (reload_swap S m m1 i info d c C c' C' h' ("Component " +:+ name +:+ " reloaded with staged swap.")
      Hm Hd Hi Hc HC Hc' Hid ltac:(congruence) Hst Hs1 Hd1 Ho1) as (n2 & m4 & Hsw & Hd2 & Hret & Hm5 & Hpost).
    unfold replaced in Hret. rewrite Hsw, Hd2, Hret. cbn [mbind outcome_bind]. eexists _, _. split; [done|].
    split_and!; [done..|]. split; [|done]. intros _. eauto 10.
  - destruct Hp1 as [Hs1 Ho1]. eexists _, _. split; [done|].
    assert (forall msg, m_node (sys_log rs NOS_LOG_LEVEL_ERROR msg m1) = m_node m1 /\
      m_open (sys_log rs NOS_LOG_LEVEL_ERROR msg m1) = m_open m1) as Hlog by (intros; by autorewrite with mgr).
    split_and!.
    + apply (mgr_ok_same S m); [|..|done]; by rewrite ?(proj1 (Hlog _)), ?(proj2 (Hlog _)).
    + split; [done|]. by rewrite (proj1 (Hlog _)), (proj2 (Hlog _)).
    + split; [done|]. intros (C2 & m2 & r & HC2 & E).
      assert (C2 = C) as -> by congruence. congruence.
Qed.
End reload.

(** *** Start-up *)

(** The arrays of the manifest have their size in C and are terminated
    inside it; the names of the libraries fit the path buffer. *)
Record thread_def_ok (d : nos_thread_def) : Prop := {
  td_lens : length (td_comp_names d) = length (td_comp_ids d) /\ length (td_comp_models d) = length (td_comp_ids d);
  td_end : exists z, z < MAX_COMPONENTS_PER_NODE /\ td_comp_ids d !! z = Some 0%Z;
  td_libs lib : lib ∈ td_comp_models d -> String.length ("./" +:+ lib) < LIB_PATH_MAX;
}.

Record manifest_ok (d : nos_node_def) : Prop := {
  nd_end : exists z t, z <= MAX_WORKERS /\ nd_threads d !! z = Some t /\ td_name t = None;
  nd_defs t : t ∈ nd_threads d -> td_name t <> None -> thread_def_ok t;
}.

(** The components the manifest lists: ids up to the first 0 for each
    worker, workers up to the first without a name, in the order of the
    manifest. *)
Fixpoint ids_of (l : list Z) : list Z :=
  match l with
  | [] => []
  | id :: l => if (id =? 0)%Z then [] else id :: ids_of l
  end.

Fixpoint named_threads (l : list nos_thread_def) : list nos_thread_def :=
  match l with
  | [] => []
  | t :: l => match td_name t with None => [] | Some _ => t :: named_threads l end
  end.

Fixpoint comps_from (w : nat) (l : list nos_thread_def) : list (nat * Z) :=
  match l with
  | [] => []
  | t :: l => (pair w <$> ids_of (td_comp_ids t)) ++ comps_from (S w) l
  end.

Definition manifest_comps (d : nos_node_def) : list (nat * Z) := comps_from 0 (named_threads (nd_threads d)).

(** Every library of the manifest loads, and its components initialise. *)
Definition all_stage `{!Plugins} (ld : loader) (rs : resources) (t : nos_thread_def) : Prop :=
  forall id name lib m, lib ∈ td_comp_models t ->
    exists m' r, node_load_component_staged ld rs id name lib m = Done (m', Some r).

Section startup.
Context `{Hpl : Plugins, !PluginLaws} (ld : loader) (rs : resources).

(** One component of the manifest: staged and, if that and the placing
    succeed, in the table. *)
Lemma load_one_ok d th id name lib m :
  mgr_ok [] m -> thread_def_ok d -> lib ∈ td_comp_models d ->
  exists m' (b : bool), ('(m, r) ← node_load_component_staged ld rs id name lib m;
      match r with Some (c, h) => place_component rs th c h name lib m | None => Done m end) = Done m' /\
    mgr_ok [] m' /\ grown (m_node m) (m_node m') /\
    keys (m_node m') = keys (m_node m) ++ (if b then [(th, Some id)] else []) /\
    (all_stage ld rs d -> forall k, room th (S k) (m_node m) -> b = true /\ room th k (m_node m')).
Proof.
  intros Hm Hd Hlib. pose proof (td_libs _ Hd lib Hlib) as Hlen.
  destruct (staged_post ld rs id name lib m (mgr_ok_dyn _ _ Hm) Hlen) as ([m1 r] & Est & Hp).
  pose proof (mgr_ok_staging [] id name m _ Hp Hm) as Hm1. rewrite Est. cbn [mbind outcome_bind fst snd] in *.
  destruct Hp as [_ Hp]. cbn in Hp. destruct r as [[c h]|].
  - destruct Hp as (Hc & _ & C & <- & _ & _ & Hs).
    destruct (mgr_ok_place rs [] m1 th c h name lib Hlen Hm1) as (m2 & b & -> & Hm2 & Hg & Hk & Hroom).
    exists m2, b. split_and!; [done..|etrans; [by eapply grown_same|done]| |].
    + rewrite Hk, (st_comps _ _ Hs). cbn. rewrite lookup_insert_eq. f_equal. apply (keys_table _ _ _ Hs).
      intros x Hx. rewrite lookup_insert_ne; [done|]. intros <-.
      assert (is_Some (n_comps (m_node m) !! c)) as [? ?]; [|congruence]. by apply (to_live _ _ (mo_table _ _ Hm)).
    + intros _ k Hr. apply Hroom. by eapply room_table.
  - destruct Hp as [Hs _]. exists m1, false. split_and!; [done..| | |].
    + apply (grown_same (fun cs => cs)). by destruct Hs; split.
    + rewrite app_nil_r. apply (keys_table (fun cs => cs)); [by destruct Hs; split|done].
    + intros Hall. destruct (Hall id name lib m Hlib) as (? & ? & ?). congruence.
Qed.

Lemma load_components_ok fuel d th j z m :
  mgr_ok [] m -> thread_def_ok d -> td_comp_ids d !! z = Some 0%Z -> z < MAX_COMPONENTS_PER_NODE -> j <= z -> z - j < fuel ->
  exists m' ids, load_thread_components ld rs fuel d th j m = Done m' /\ mgr_ok [] m' /\
    grown (m_node m) (m_node m') /\
    keys (m_node m') = keys (m_node m) ++ ((fun id => (th, Some id)) <$> ids) /\
    ids `sublist_of` ids_of (drop j (td_comp_ids d)) /\
    (all_stage ld rs d -> room th (length (ids_of (drop j (td_comp_ids d)))) (m_node m) ->
      ids = ids_of (drop j (td_comp_ids d))).
Proof.
  revert j m. induction fuel as [|fuel IH]; intros j m Hm Hd Hz Hz64 Hj Hf; [lia|]. cbn [load_thread_components].
  pose proof (lookup_lt_Some _ _ _ Hz) as Hlen. destruct (td_lens _ Hd) as [Hl1 Hl2].
  destruct (lookup_lt_is_Some_2 (td_comp_ids d) j ltac:(lia)) as [id Hid]. rewrite Hid.
  rewrite (drop_S _ _ _ Hid). cbn [ids_of]. destruct (Nat.leb_spec MAX_COMPONENTS_PER_NODE j); [lia|].
  rewrite orb_false_r. destruct (Z.eqb_spec id 0) as [->|Hid0].
  { exists m, []. rewrite app_nil_r. done. }
  destruct (lookup_lt_is_Some_2 (td_comp_names d) j ltac:(lia)) as [name Hn].
  destruct (lookup_lt_is_Some_2 (td_comp_models d) j ltac:(lia)) as [lib Hlib]. rewrite Hn, Hlib.
  assert (j <> z) as Hne by (intros ->; congruence).
  destruct (load_one_ok d th id name lib m Hm Hd (list_elem_of_lookup_2 _ _ _ Hlib)) as (m2 & b & E & Hm2 & Hg2 & Hk2 & Hr2).
  destruct (IH (S j) m2 Hm2 Hd Hz Hz64) as (m3 & ids & E3 & Hm3 & Hg3 & Hk3 & Hsub & Hall); [lia..|].
  exists m3, ((if b then [id] else []) ++ ids). split_and!.
  - destruct (node_load_component_staged ld rs id name lib m) as [[m1 r]| |]; cbn [mbind outcome_bind] in *; [|done..].
    by rewrite E.
  - done.
  - by etrans.
  - rewrite Hk3, Hk2, fmap_app, (assoc (++)). by destruct b.
  - destruct b; cbn; [by apply sublist_skip|by apply sublist_cons].
  - intros Ha Hr. cbn [length] in Hr. destruct (Hr2 Ha _ Hr) as [-> Hr']. cbn. by rewrite Hall.
Qed.

(** How many workers are counted is no concern of the tables. *)
Lemma mgr_ok_recount m ws c : mgr_ok [] m -> mgr_ok [] (on_node (set_workers ws c) m).
Proof.
  intros Hm. pose proof (mgr_ok_dyn _ _ Hm) as Hd. destruct Hm as [_ _ [? ? ? ? ? ? ?] ?].
  assert (dyn_ok (set_workers ws c (m_node m))) as [] by (apply (dyn_ok_ext (m_node m)); try done; apply Hd).
  split; [done..|by split|done].
Qed.

(** A new thread: no timers, no messages, no components. *)
Definition new_thread (i : nat) (name : string) : nos_thread :=
  Thread (Z.of_nat i) name false false (ring_init MAX_QUEUE_SIZE)
    (CArr (replicate MAX_COMP_PER_THREAD None) 0) (CArr (replicate MAX_FDS (FdEntry 0 None 0)) 0) [] 0
    (CArr (replicate TIMER_CAPACITY 0) 0).

Lemma mgr_ok_new_thread m th i name :
  comps_of (m_node m) th = None -> mgr_ok [] m ->
  mgr_ok [] (on_node (upd_threads <[th := new_thread i name]>) m).
Proof.
  intros Hth [[Hw Hq Hr] Hh Ht Ho]. set (n := m_node m) in *.
  assert (n_threads n !! th = None) as Hn.
  { unfold comps_of in Hth. by destruct (n_threads n !! th). }
  set (n' := upd_threads <[th := new_thread i name]> n).
  assert (comps_of n' th = Some (CArr (replicate MAX_COMP_PER_THREAD None) 0)) as Hl
    by (unfold comps_of; cbn; by rewrite lookup_insert_eq).
  assert (forall t, t <> th -> comps_of n' t = comps_of n t) as Hot
    by (intros t Hne; unfold comps_of; cbn; by rewrite lookup_insert_ne).
  assert (forall c t, hosted_on n c t -> hosted_on n' c t) as Hup.
  { intros c t (a & Ha & Hin). exists a. rewrite Hot; [done|]. intros ->. congruence. }
  split; [split|..].
  - split; cbn.
    + intros t T HT. destruct (decide (t = th)) as [->|Hne].
      * rewrite lookup_insert_eq in HT. simplify_eq. split; [done|cbn; unfold TIMER_CAPACITY; lia|constructor|].
        intros u. split; [by intros ?%elem_of_nil|]. intros (x & Hx & Hxr & Hxt).
        destruct (tw_running _ Hw u x Hx Hxr) as (t & o & E & [T HT] & _). congruence.
      * rewrite lookup_insert_ne in HT by done. destruct (tw_heap _ Hw t T HT) as [? ? ? Hm]. by split.
    + intros u x Hx Hxr. destruct (tw_running _ Hw u x Hx Hxr) as (t & o & ? & [T HT] & ?).
      exists t, o. split_and!; [done| |done]. rewrite lookup_insert_ne; [eauto|]. intros ->. congruence.
  - split; cbn; [apply Hq| |].
    + intros t T HT. destruct (decide (t = th)) as [->|Hne].
      * rewrite lookup_insert_eq in HT. simplify_eq. cbn. split; [|by vm_compute].
        exists []. apply ring_init_rep. unfold MAX_QUEUE_SIZE. lia.
      * rewrite lookup_insert_ne in HT by done. by apply (qo_ring _ Hq t).
    + apply (queue_held_perm _ (queued n)); [|apply (qo_held _ Hq)].
      change (queued_in (n_threads n) ≡ₚ queued_in (<[th := new_thread i name]> (n_threads n))).
      assert (<[th := new_thread i name]> (n_threads n) !! th = Some (new_thread i name)) as E
        by by rewrite lookup_insert_eq.
      rewrite (queued_in_split _ _ _ E), delete_insert_id by done. done.
  - exact Hr.
  - intros t x Hx Hxr. destruct (Hh t x Hx Hxr) as (o & u & ? & ? & ?). eauto 6.
  - destruct Ht as [H1 H2 H3 H4 H5 H6 H7]. split; try done.
    + intros e He. destruct (H5 e He) as (c & t & ? & ? & ? & ?). exists c, t. auto.
    + intros t a Ha. change (comps_of n' t = Some a) in Ha.
      destruct (decide (t = th)) as [->|Hne]; [|rewrite Hot in Ha by done; by apply H6].
      assert (a = CArr (replicate MAX_COMP_PER_THREAD None) 0) as -> by congruence.
      split_and!; [done|unfold carr_wf; cbn; lia|constructor|]. by intros o ?%elem_of_nil.
  - exact Ho.
Qed.

Lemma init_worker_new i name th n :
  thread_eventfd_ok rs i = true -> comps_of n th = None ->
  init_worker rs i name (Some th) n = upd_threads <[th := new_thread i name]> n.
Proof. intros He Hn. unfold init_worker, nos_scheduler_init_thread. rewrite He. done. Qed.

(** The workers from [i] on are not initialised. *)
Definition fresh_from (i : nat) (n : node) : Prop :=
  length (n_workers n) = MAX_WORKERS /\ NoDup (n_workers n) /\
  forall k w, i <= k -> n_workers n !! k = Some w -> comps_of n w = None.

Lemma fresh_from_grown i n n' : grown n n' -> fresh_from i n -> fresh_from i n'.
Proof.
  intros [_ _ Hw _ Ht] (H1 & H2 & H3). unfold fresh_from. rewrite Hw. split_and!; [done..|].
  intros k w Hk Hl. apply Ht. by eapply H3.
Qed.

Lemma fresh_from_init i th name n :
  n_workers n !! i = Some th -> fresh_from i n ->
  fresh_from (S i) (upd_threads <[th := new_thread i name]> n).
Proof.
  intros Hi (H1 & H2 & H3). split_and!; [done..|]. intros k w Hk Hl. unfold comps_of. cbn.
  rewrite lookup_insert_ne; [apply (H3 k w); [lia|done]|].
  intros ->. assert (i = k); [by eapply NoDup_lookup|lia].
Qed.

(** How keys show on which worker of the manifest a component is. *)
Definition key_of (ws : list thread_ptr) (p : nat * Z) : option thread_ptr * option Z := (ws !! p.1, Some p.2).

(** No thread is given more components than it has slots. *)
Definition worker_fits (t : nos_thread_def) : Prop :=
  length (ids_of (td_comp_ids t)) <= MAX_COMP_PER_THREAD.

Lemma length_live_table m : mgr_ok [] m -> length (live (n_loaded (m_node m))) = count (n_loaded (m_node m)).
Proof. intros [_ _ Hx _]. apply length_live. unfold carr_wf. rewrite (to_len _ _ Hx). apply Hx. Qed.

(** One worker: the thread and its components. *)
Lemma load_worker_ok i td name th m :
  (forall i, thread_eventfd_ok rs i = true) -> thread_def_ok td -> mgr_ok [] m ->
  fresh_from i (m_node m) -> n_workers (m_node m) !! i = Some th ->
  exists m2 ids, load_thread_components ld rs (S MAX_COMPONENTS_PER_NODE) td (Some th) 0
      (on_node (init_worker rs i name (Some th)) m) = Done m2 /\ mgr_ok [] m2 /\
    fresh_from (S i) (m_node m2) /\ n_worker_count (m_node m2) = n_worker_count (m_node m) /\
    n_def (m_node m2) = n_def (m_node m) /\ n_registry (m_node m2) = n_registry (m_node m) /\
    (libs_fit (m_node m) -> libs_fit (m_node m2)) /\ n_workers (m_node m2) = n_workers (m_node m) /\
    keys (m_node m2) = keys (m_node m) ++ (key_of (n_workers (m_node m)) <$> (pair i <$> ids)) /\
    ids `sublist_of` ids_of (td_comp_ids td) /\
    (worker_fits td -> all_stage ld rs td ->
      count (n_loaded (m_node m)) + length (ids_of (td_comp_ids td)) <= MAX_COMPONENTS_PER_NODE ->
      ids = ids_of (td_comp_ids td) /\
      count (n_loaded (m_node m2)) = count (n_loaded (m_node m)) + length ids).
Proof.
  intros He Hdef Hm Hfr Hth. pose proof Hfr as (Hl & Hnd & Hnone).
  assert (comps_of (m_node m) th = None) as Hn by by apply (Hnone i th).
  assert (on_node (init_worker rs i name (Some th)) m = on_node (upd_threads <[th := new_thread i name]>) m) as ->.
  { unfold on_node. by rewrite init_worker_new. }
  pose proof (mgr_ok_new_thread m th i name Hn Hm) as Hm1.
  set (m1 := on_node (upd_threads <[th := new_thread i name]>) m) in *.
  destruct (td_end _ Hdef) as (e & He64 & Hend).
  destruct (load_components_ok (S MAX_COMPONENTS_PER_NODE) td (Some th) 0 e m1 Hm1 Hdef Hend He64)
    as (m2 & ids & -> & Hm2 & Hg2 & Hk2 & Hsub2 & Hall2); [lia..|]. rewrite drop_0 in *.
  assert (keys (m_node m2) = keys (m_node m) ++ (key_of (n_workers (m_node m)) <$> (pair i <$> ids))) as Hk.
  { rewrite Hk2, <-list_fmap_compose. f_equal.
    apply list_fmap_ext. intros ? id _. unfold key_of. cbn. by rewrite Hth. }
  exists m2, ids. split_and!; [done..| |apply Hg2|apply Hg2|apply Hg2|apply Hg2|apply Hg2|done|done|].
  - apply (fresh_from_grown _ (m_node m1)); [done|]. by apply fresh_from_init.
  - intros Hlen Hst Hroom. split.
    + apply Hall2; [done|]. split; [cbn; lia|].
      eexists th, _. split_and!; [done|unfold comps_of; cbn; by rewrite lookup_insert_eq|cbn; unfold worker_fits in Hlen; lia].
    + rewrite <-!length_live_table by done. apply (f_equal length) in Hk.
      unfold keys in Hk. rewrite length_app, !length_fmap in Hk. done.
Qed.

Lemma init_workers_ok fuel d i z t m :
  (forall i, thread_eventfd_ok rs i = true) -> manifest_ok d -> nd_threads d !! z = Some t -> td_name t = None ->
  i <= z -> z <= MAX_WORKERS -> z - i < fuel ->
  mgr_ok [] m -> fresh_from i (m_node m) ->
  exists m' ps, init_worker_threads ld rs fuel d i m = Done m' /\ mgr_ok [] m' /\
    n_def (m_node m') = n_def (m_node m) /\ n_registry (m_node m') = n_registry (m_node m) /\
    (libs_fit (m_node m) -> libs_fit (m_node m')) /\
    n_workers (m_node m') = n_workers (m_node m) /\
    n_worker_count (m_node m') = n_worker_count (m_node m) + length (named_threads (drop i (nd_threads d))) /\
    keys (m_node m') = keys (m_node m) ++ (key_of (n_workers (m_node m)) <$> ps) /\
    ps `sublist_of` comps_from i (named_threads (drop i (nd_threads d))) /\
    ((forall t, t ∈ nd_threads d -> worker_fits t /\ all_stage ld rs t) ->
      count (n_loaded (m_node m)) + length (comps_from i (named_threads (drop i (nd_threads d)))) <= MAX_COMPONENTS_PER_NODE ->
      ps = comps_from i (named_threads (drop i (nd_threads d)))).
Proof.
  intros He Hman Hz Hzn. revert i m. induction fuel as [|fuel IH]; intros i m Hi Hz8 Hf Hm Hfr; [lia|].
  cbn [init_worker_threads].
  destruct (lookup_lt_is_Some_2 (nd_threads d) i) as [td Htd]; [pose proof (lookup_lt_Some _ _ _ Hz); lia|].
  rewrite Htd, (drop_S _ _ _ Htd). cbn [named_threads]. pose proof (list_elem_of_lookup_2 _ _ _ Htd) as Hin.
  destruct (td_name td) as [name|] eqn:Hname; [|exists m, []; rewrite app_nil_r; cbn; by rewrite Nat.add_0_r].
  assert (i <> z) as Hne by (intros ->; congruence).
  destruct (Nat.leb_spec MAX_WORKERS i); [lia|]. pose proof Hfr as (Hl & _).
  destruct (lookup_lt_is_Some_2 (n_workers (m_node m)) i ltac:(lia)) as [th Hth].
  unfold worker_slot. rewrite Hth. cbn [mbind outcome_bind comps_from length].
  destruct (load_worker_ok i td name th m He (nd_defs d Hman td Hin ltac:(by rewrite Hname)) Hm Hfr Hth)
    as (m2 & ids & -> & Hm2 & Hfr2 & Hc2 & Hd2 & Hr2 & Hlb2 & Hw2 & Hk2 & Hsub2 & Hall2).
  cbn [mbind outcome_bind].
  set (m3 := on_node (fun n => set_workers (n_workers n) (S (n_worker_count n)) n) m2).
  destruct (IH (S i) m3) as (m' & ps & ? & ? & Hd' & Hr' & Hl' & Hw' & Hc' & Hk' & Hsub & Hall);
    [lia..|exact (mgr_ok_recount m2 _ _ Hm2)|exact Hfr2|].
  change (n_workers (m_node m3)) with (n_workers (m_node m2)) in *.
  change (keys (m_node m3)) with (keys (m_node m2)) in Hk'.
  exists m', ((pair i <$> ids) ++ ps). split_and!; [done..|by rewrite Hd'|by rewrite Hr'|auto|congruence| | | |].
  - rewrite Hc'. cbn. lia.
  - by rewrite Hk', Hk2, Hw2, fmap_app, (assoc (++)).
  - apply sublist_app; [by apply (fmap_sublist (pair i))|done].
  - intros Hst Hroom. rewrite length_app, length_fmap in Hroom. destruct (Hst td Hin) as [Hlen Hstd].
    destruct (Hall2 Hlen Hstd ltac:(lia)) as [-> Hcnt]. f_equal. apply Hall; [done|]. cbn. lia.
Qed.
End startup.

(** *** Placement *)

(** Entry [e] of the table is the component the manifest lists with id [p.2]
    for worker [p.1]: it is live, on that worker's list and owned by it. *)
Definition placed_at (n : node) (e : loaded_comp_info) (p : nat * Z) : Prop :=
  exists c C th, li_comp e = Some c /\ n_comps n !! c = Some C /\ c_id C = p.2 /\
    n_workers n !! p.1 = Some th /\ li_owner_thread e = Some th /\ hosted_on n c th.

(** The table holds some of the manifest's components, in its order, and
    there is a worker for every thread of the manifest. *)
Record placement (d : nos_node_def) (ps : list (nat * Z)) (n : node) : Prop := {
  pl_table : Forall2 (placed_at n) (live (n_loaded n)) ps;
  pl_listed : ps `sublist_of` manifest_comps d;
  pl_count : n_worker_count n = length (named_threads (nd_threads d));
  pl_workers : NoDup (n_workers n);
}.

Lemma placed_keys S n ps :
  table_ok S n -> keys n = key_of (n_workers n) <$> ps -> Forall2 (placed_at n) (live (n_loaded n)) ps.
Proof.
  intros Ht Hk. apply Forall2_same_length_lookup_2.
  { apply (f_equal length) in Hk. unfold keys in Hk. by rewrite !length_fmap in Hk. }
  intros j e p He Hp. apply (f_equal (lookup j)) in Hk. unfold keys in Hk.
  rewrite !list_lookup_fmap, He, Hp in Hk. cbn in Hk. injection Hk as Hth Hid.
  destruct (to_entry _ _ Ht e (list_elem_of_lookup_2 _ _ _ He)) as (c & th & Hc & Ho & _ & Hh).
  rewrite Hc in Hid. cbn in Hid. destruct (n_comps n !! c) as [C|] eqn:HC; [|done]. injection Hid as Hid.
  exists c, C, th. split_and!; congruence.
Qed.

Lemma comps_from_bounds w l : Forall (fun p => w <= p.1 < w + length l) (comps_from w l).
Proof.
  revert w. induction l as [|t l IH]; intros w; cbn [comps_from length]; [constructor|].
  apply Forall_app. split.
  - apply Forall_fmap, Forall_forall. intros id _. cbn. lia.
  - eapply Forall_impl; [apply IH|]. intros p. cbn. lia.
Qed.

Lemma comps_from_sorted w l : StronglySorted (fun p q => p.1 <= q.1) (comps_from w l).
Proof.
  revert w. induction l as [|t l IH]; intros w; cbn; [constructor|]. apply StronglySorted_app_2; [|clear|done].
  - intros p q Hp Hq. apply list_elem_of_fmap in Hp as (id & -> & _).
    pose proof (comps_from_bounds (S w) l) as Hb. rewrite Forall_forall in Hb. specialize (Hb q Hq). cbn. lia.
  - induction (ids_of (td_comp_ids t)) as [|id ids IH]; cbn; constructor; [done|].
    apply Forall_fmap, Forall_forall. intros id' _. cbn. lia.
Qed.

Lemma sublist_sorted {A} (R : relation A) l k : l `sublist_of` k -> StronglySorted R k -> StronglySorted R l.
Proof.
  induction 1 as [|x l k Hs IH|x l k Hs IH]; intros Hk; [constructor|..]; apply StronglySorted_cons in Hk as [Hf Hk].
  - apply StronglySorted_cons. split; [|by apply IH]. rewrite Forall_forall in *. intros y Hy.
    apply Hf. by eapply elem_of_sublist.
  - by apply IH.
Qed.

(** *** Routing *)

(** What the table must hold for a service of the manifest.  A service of
    this node leads to the first component of the table with the provider's
    id, on the worker that owns it; a service of another node to its path. *)
Inductive routes_to (n : node) (self : string) (s : nos_service_def) : option service_entry -> Prop :=
  | rt_here pre e post c C th :
      sd_node_name s = self -> live (n_loaded n) = pre ++ e :: post ->
      li_comp e = Some c -> n_comps n !! c = Some C -> c_id C = sd_provider_comp_id s ->
      li_owner_thread e = Some th ->
      (forall e' c' C', e' ∈ pre -> li_comp e' = Some c' -> n_comps n !! c' = Some C' ->
         c_id C' <> sd_provider_comp_id s) ->
      routes_to n self s (Some (SvcEntry (sd_service_id s) (Some c) (Some th) "" "" false))
  | rt_absent :
      sd_node_name s = self -> (forall c C, n_comps n !! c = Some C -> c_id C <> sd_provider_comp_id s) ->
      routes_to n self s None
  | rt_remote path :
      sd_node_name s <> self -> sd_remote_uds_path s = Some path -> path <> ""%string ->
      routes_to n self s (Some (SvcEntry (sd_service_id s) None None
        (strncpy_field 32 (sd_node_name s)) (strncpy_field 108 path) true))
  | rt_nowhere :
      sd_node_name s <> self -> default ""%string (sd_remote_uds_path s) = ""%string ->
      routes_to n self s None.

(** Slots past the count never held a provider (the table has not shrunk
    since start-up). *)
Definition registry_fresh (r : registry) : Prop :=
  forall i e, count r <= i -> slots r !! i = Some e -> e = zero_entry.

(** The entry the routing makes; [expected_route_ok] relates it to the
    manifest. *)
Definition expected_route (n : node) (self : string) (s : nos_service_def) : option service_entry :=
  if String.eqb (sd_node_name s) self then
    match node_get_loaded_comp_by_id (sd_provider_comp_id s) n, owner_worker n (sd_provider_comp_id s) with
    | Some c, Some th => Some (SvcEntry (sd_service_id s) (Some c) (Some th) "" "" false)
    | _, _ => None
    end
  else
    match sd_remote_uds_path s with
    | Some path =>
        if 0 <? String.length path
        then Some (SvcEntry (sd_service_id s) None None (strncpy_field 32 (sd_node_name s))
                     (strncpy_field 108 path) true)
        else None
    | None => None
    end.

(** Both kinds of registration of a new id in a table with room. *)
Lemma register_fresh id f r :
  (forall e, service_id (f e) = id) -> registry_ok r -> registry_fresh r ->
  svc_lookup id r = None -> count r < MAX_SERVICES ->
  let r' := (register_at id f r).2 in
  registry_ok r' /\ registry_fresh r' /\ count r' = S (count r) /\
  svc_lookup id r' = Some (f zero_entry) /\ (forall k, k <> id -> svc_lookup k r' = svc_lookup k r).
Proof.
  intros Hid Hr Hf Hn Hc. unfold register_at, entry_slot. apply svc_lookup_None in Hn. rewrite Hn.
  destruct (Nat.leb_spec MAX_SERVICES (count r)); [lia|].
  pose proof (register_new id f Hid r Hr Hn Hc) as (Hr' & (old & Hold & Hl) & Ho). cbn [snd].
  apply svc_lookup_None in Hn.
  destruct Hold as [Hold|[_ Hold]]; [congruence|].
  assert (old = zero_entry) as -> by by apply (Hf (count r)). split_and!; try done.
  intros i e Hi He. cbn in Hi, He. rewrite list_lookup_alter_ne in He by lia. apply (Hf i); [lia|done].
Qed.

Section routing.
Context (rs : resources).

(** [m'] is [m] with a registry that holds the expected routes of [l]. *)
Record routed (self : string) (l : list nos_service_def) (m m' : mgr) : Prop := {
  rt_node : exists r, m_node m' = upd_registry (fun _ => r) (m_node m);
  rt_open : m_open m' = m_open m;
  rt_ok : registry_ok (n_registry (m_node m'));
  rt_fresh : registry_fresh (n_registry (m_node m'));
  rt_count : count (n_registry (m_node m')) <= length l;
  rt_new s : s ∈ l -> svc_lookup (sd_service_id s) (n_registry (m_node m')) = expected_route (m_node m) self s;
  rt_old k : k ∉ sd_service_id <$> l -> svc_lookup k (n_registry (m_node m')) = None;
}.

Lemma expected_route_frame f n self s : expected_route (upd_registry f n) self s = expected_route n self s.
Proof. done. Qed.

(** One step registers the expected entry, if there is one. *)
Lemma route_service_shape self m s :
  m_open (route_service rs self m s) = m_open m /\
  exists f, (forall e, service_id (f e) = sd_service_id s) /\
    m_node (route_service rs self m s) =
      match expected_route (m_node m) self s with
      | Some e => upd_registry (fun r => (register_at (sd_service_id s) f r).2) (m_node m)
      | None => m_node m
      end /\
    (forall e, expected_route (m_node m) self s = Some e -> f zero_entry = e).
Proof.
  unfold route_service, expected_route. destruct (sd_node_name s =? self)%string.
  - destruct (node_get_loaded_comp_by_id (sd_provider_comp_id s) (m_node m)) as [c|],
      (owner_worker (m_node m) (sd_provider_comp_id s)) as [th|]; (split; [done|]).
    + exists (bind_entry (sd_service_id s) (Some c) (Some th)). split_and!; [done..|]. by intros e [= <-].
    + exists (bind_entry (sd_service_id s) None None). done.
    + exists (bind_entry (sd_service_id s) None None). done.
    + exists (bind_entry (sd_service_id s) None None). done.
  - destruct (sd_remote_uds_path s) as [path|].
    + destruct (0 <? String.length path)%nat; (split; [by autorewrite with mgr|]).
      * exists (remote_entry (sd_service_id s) (Some (sd_node_name s)) path).
        split_and!; [done|by autorewrite with mgr|]. by intros e [= <-].
      * exists (bind_entry (sd_service_id s) None None). done.
    + split; [done|]. exists (bind_entry (sd_service_id s) None None). done.
Qed.
Lemma routed_step self p m m1 s :
  routed self p m m1 -> sd_service_id s ∉ sd_service_id <$> p -> length p < MAX_SERVICES ->
  routed self (p ++ [s]) m (route_service rs self m1 s).
Proof.
  intros [[r0 E0] Ho Hok Hf Hc Hnew Hold] Hni Hlen.
  destruct (route_service_shape self m1 s) as (Ho' & f & Hid & Hn & Hfz).
  assert (forall s', expected_route (m_node m1) self s' = expected_route (m_node m) self s') as Hexp
    by (intros s'; rewrite E0; apply expected_route_frame).
  rewrite Hexp in Hn. setoid_rewrite Hexp in Hfz.
  assert (forall x, x ∈ p -> sd_service_id x <> sd_service_id s) as Hne.
  { intros x Hx E. apply Hni. rewrite <-E. by apply list_elem_of_fmap_2. }
  set (m2 := route_service rs self m1 s) in *.
  destruct (expected_route (m_node m) self s) as [e|] eqn:He.
  - destruct (register_fresh (sd_service_id s) f (n_registry (m_node m1)) Hid Hok Hf (Hold _ Hni))
      as (R1 & R2 & R3 & R4 & R5); [lia|]. set (r2 := (register_at _ _ _).2) in *.
    assert (n_registry (m_node m2) = r2) as Er by by rewrite Hn.
    split; rewrite ?Er.
    + exists r2. rewrite Hn. unfold r2. by rewrite E0.
    + congruence.
    + done.
    + done.
    + rewrite length_app. cbn. lia.
    + intros x. rewrite elem_of_app, list_elem_of_singleton. intros [Hx| ->].
      * rewrite R5 by auto. by apply Hnew.
      * rewrite R4, (Hfz e) by done. by rewrite He.
    + intros k. rewrite fmap_app. intros Hk. rewrite R5; [apply Hold|]; set_solver.
  - split; rewrite ?Hn.
    + by exists r0.
    + congruence.
    + done.
    + done.
    + rewrite length_app. lia.
    + intros x. rewrite elem_of_app, list_elem_of_singleton. intros [Hx| ->]; [by apply Hnew|].
      rewrite He. by apply Hold.
    + intros k. rewrite fmap_app. intros Hk. apply Hold. set_solver.
Qed.

Lemma routed_fold self l p m m1 :
  routed self p m m1 -> NoDup (sd_service_id <$> p ++ l) -> length (p ++ l) <= MAX_SERVICES ->
  routed self (p ++ l) m (fold_left (route_service rs self) l m1).
Proof.
  revert p m1. induction l as [|s l IH]; intros p m1 Hr Hnd Hlen; [by rewrite app_nil_r|].
  cbn. replace (p ++ s :: l) with ((p ++ [s]) ++ l) in * by by rewrite <-(assoc (++)).
  apply IH; [|done..]. rewrite length_app in Hlen. apply routed_step; [done| |].
  - rewrite !fmap_app in Hnd. apply NoDup_app in Hnd as (Hnd & _). apply NoDup_app in Hnd as (_ & Hx & _).
    intros Hin. apply (Hx _ Hin). set_solver.
  - rewrite length_app in Hlen. cbn in Hlen. lia.
Qed.

(** Routing changes the registry only. *)
Lemma route_service_frame self m s : exists r, m_node (route_service rs self m s) = upd_registry (fun _ => r) (m_node m).
Proof.
  destruct (route_service_shape self m s) as (_ & f & _ & -> & _).
  destruct (expected_route _ _ _); [by eexists|exists (n_registry (m_node m))]. by destruct (m_node m).
Qed.

Lemma setup_routing_frame self m m' n s :
  node_setup_routing rs self m = Done m' -> expected_route (m_node m') n s = expected_route (m_node m) n s.
Proof.
  unfold node_setup_routing. destruct (n_def (m_node m)) as [d|]; [|done]. intros [= <-].
  generalize (nd_services d). intros l. revert m. induction l as [|x l IH]; intros m; [done|]. cbn. rewrite IH.
  destruct (route_service_frame self m x) as [r ->]. done.
Qed.

Lemma loaded_by_id n id c :
  node_get_loaded_comp_by_id id n = Some c ->
  Some c ∈ loaded_comps n /\ exists C, n_comps n !! c = Some C /\ c_id C = id.
Proof.
  unfold node_get_loaded_comp_by_id. intros (i & Hi & H)%bind_Some. apply bind_Some in H as (e & He & Hc).
  apply carr_find_Some in Hi as (_ & x & Hx & Hp). assert (x = e) as -> by congruence.
  unfold info_has_id in Hp. rewrite Hc in Hp. cbn in Hp. destruct (n_comps n !! c) as [C|] eqn:HC; [|done].
  bool_hyps. split; [|eauto]. eapply served_by_loaded; [by eapply list_elem_of_lookup_2|done].
Qed.

(** The worker found for a component of the table is its owner. *)
Lemma owner_worker_ok d ps n pre e post c C th :
  table_ok [] n -> placement d ps n -> live (n_loaded n) = pre ++ e :: post ->
  li_comp e = Some c -> n_comps n !! c = Some C -> li_owner_thread e = Some th ->
  (forall e' c' C', e' ∈ pre -> li_comp e' = Some c' -> n_comps n !! c' = Some C' -> c_id C' <> c_id C) ->
  owner_worker n (c_id C) = Some th.
Proof.
  intros Ht [Hps Hsub Hcnt Hnd] Hlv Hc HC Hth Hpre. rewrite Hlv in Hps.
  apply Forall2_app_inv_l in Hps as (ps1 & ps2 & _ & Hps2 & ->).
  apply Forall2_cons_inv_l in Hps2 as (p & ps3 & (c0 & C0 & th0 & Ec & EC & Hid & Hw & Eth & Hh) & Hps3 & ->).
  assert (c0 = c) as -> by congruence. assert (C0 = C) as -> by congruence. assert (th0 = th) as -> by congruence. clear Ec EC Eth.
  pose proof (sublist_sorted _ _ _ Hsub (comps_from_sorted _ _)) as Hsort.
  apply StronglySorted_app_1_r, StronglySorted_cons in Hsort as [Hle _].
  assert (p.1 < n_worker_count n) as Hlt.
  { rewrite Hcnt. pose proof (comps_from_bounds 0 (named_threads (nd_threads d))) as Hb. rewrite Forall_forall in Hb.
    apply (Hb p). eapply elem_of_sublist; [|exact Hsub]. apply elem_of_app. right. by left. }
  unfold owner_worker. rewrite (find_idx_intro _ _ p.1 th); [cbn; done|by rewrite lookup_take_lt| |].
  - destruct Hh as (a & (T & -> & ->)%comps_of_thread & Hin). apply existsb_exists.
    exists (Some c). split; [by apply list_elem_of_In|]. unfold comp_has_id. cbn. by rewrite HC, Z.eqb_refl.
  - intros j y Hj [Hy Hy']%lookup_take_Some. apply not_true_iff_false. intros Hp.
    destruct (n_threads n !! y) as [T|] eqn:HT; [|done]. apply existsb_exists in Hp as (o & Ho%list_elem_of_In & Hid').
    destruct (to_thread _ _ Ht y (components T)) as (_ & _ & _ & Hent); [unfold comps_of; by rewrite HT|].
    destruct (Hent o Ho) as (e' & He' & <- & Hth'). unfold comp_has_id in Hid'.
    destruct (li_comp e') as [c'|] eqn:Hc'; [|done]. cbn in Hid'. destruct (n_comps n !! c') as [C'|] eqn:HC'; [|done].
    apply Z.eqb_eq in Hid'. rewrite Hlv, elem_of_app, elem_of_cons in He'. destruct He' as [He'|[->|He']].
    + by apply (Hpre e' c' C').
    + simplify_eq. assert (j = p.1); [|lia]. by eapply NoDup_lookup.
    + apply list_elem_of_lookup in He' as (k & Hk). destruct (Forall2_lookup_l _ _ _ _ _ Hps3 Hk) as (q & Hq & Hpl).
      destruct Hpl as (? & ? & th2 & _ & _ & _ & Hw2 & ? & _). simplify_eq.
      rewrite Forall_forall in Hle. specialize (Hle q (list_elem_of_lookup_2 _ _ _ Hq)).
      assert (j = q.1); [|lia]. by eapply NoDup_lookup.
Qed.

(** The first entry of the table with an id is the one the search finds. *)
Lemma first_with_id n id i :
  table_ok [] n -> carr_find (info_has_id n id) (n_loaded n) = Some i ->
  exists pre e post c C th, live (n_loaded n) = pre ++ e :: post /\ live (n_loaded n) !! i = Some e /\
    li_comp e = Some c /\ n_comps n !! c = Some C /\ c_id C = id /\ li_owner_thread e = Some th /\
    forall e' c' C', e' ∈ pre -> li_comp e' = Some c' -> n_comps n !! c' = Some C' -> c_id C' <> id.
Proof.
  intros Ht Hf. apply find_idx_Some in Hf as (e & He & Hp & Hlt).
  destruct (to_entry _ _ Ht e (list_elem_of_lookup_2 _ _ _ He)) as (c & th & Hc & Ho & _ & _).
  unfold info_has_id in Hp. rewrite Hc in Hp. cbn in Hp. destruct (n_comps n !! c) as [C|] eqn:HC; [|done].
  exists (take i (live (n_loaded n))), e, (drop (S i) (live (n_loaded n))), c, C, th. split_and!; try done.
  - by rewrite take_drop_middle.
  - by apply Z.eqb_eq.
  - intros e' c' C' He' Hc' HC' Hid. apply list_elem_of_lookup in He' as (j & Hj).
    apply lookup_take_Some in Hj as [Hj Hji]. specialize (Hlt j e' Hji Hj). unfold info_has_id in Hlt.
    rewrite Hc' in Hlt. cbn in Hlt. rewrite HC' in Hlt. by apply Z.eqb_neq in Hlt.
Qed.

Lemma expected_route_ok d ps n self s :
  table_ok [] n -> placement d ps n -> routes_to n self s (expected_route n self s).
Proof.
  intros Ht Hpl. unfold expected_route. destruct (String.eqb_spec (sd_node_name s) self) as [Hs|Hs].
  - unfold node_get_loaded_comp_by_id. destruct (carr_find _ _) as [i|] eqn:Hf; cbn.
    + destruct (first_with_id n _ i Ht Hf) as (pre & e & post & c & C & th & Hlv & -> & Hc & HC & Hid & Hth & Hpre).
      cbn. rewrite Hc. rewrite <-Hid in Hpre |- *.
      rewrite (owner_worker_ok d ps n pre e post c C th) by done.
      apply (rt_here _ _ _ pre e post c C); try done. by rewrite <-Hid.
    + apply rt_absent; [done|]. intros c C HC Hid. apply find_idx_None in Hf. rewrite Forall_forall in Hf.
      assert (Some c ∈ loaded_comps n) as Hin by (apply (to_live _ _ Ht); by rewrite HC).
      apply list_elem_of_fmap in Hin as (e & He & Hin). specialize (Hf e Hin). unfold info_has_id in Hf.
      rewrite <-He in Hf. cbn in Hf. rewrite HC in Hf. by apply Z.eqb_neq in Hf.
  - destruct (sd_remote_uds_path s) as [path|] eqn:Hp; [|by apply rt_nowhere; rewrite ?Hp].
    destruct (Nat.ltb_spec 0 (String.length path)) as [Hlen|Hlen]; [|apply rt_nowhere; rewrite ?Hp; [done|]].
    + apply rt_remote; [done..|]. intros ->. cbn in Hlen. lia.
    + destruct path; [done|cbn in Hlen; lia].
Qed.

Lemma mgr_ok_routed m m' d :
  mgr_ok [] m -> n_def (m_node m) = Some d -> routed (nd_name d) (nd_services d) m m' -> mgr_ok [] m'.
Proof.
  intros Hm Hd [[r E] Ho Hok _ _ Hnew Hold]. pose proof (mgr_ok_dyn _ _ Hm) as Hdyn.
  destruct Hm as [_ _ Ht Hop]. assert (dyn_ok (m_node m')) as [].
  { rewrite E in *. by apply (dyn_ok_registry (fun _ => r)). }
  split; [done..| |by rewrite Ho, E].
  rewrite E in *. destruct Ht as [H1 H2 H3 H4 H5 H6 _]. split; try done.
  intros e c He Hc. cbn in He.
  assert (svc_lookup (service_id e) r = Some e) as Hl by by apply svc_lookup_elem.
  destruct (decide (service_id e ∈ sd_service_id <$> nd_services d)) as [Hin|Hni].
  2: { pose proof (Hold _ Hni) as Hn. cbn in Hn. congruence. }
  apply list_elem_of_fmap in Hin as (s & Es & Hs). pose proof (Hnew s Hs) as Hx. cbn in Hx.
  rewrite <-Es, Hl in Hx. unfold expected_route in Hx. symmetry in Hx.
  destruct (sd_node_name s =? nd_name d)%string eqn:Hname.
  - destruct (node_get_loaded_comp_by_id _ _) as [c'|] eqn:Hget; [|done].
    destruct (owner_worker _ _); [|done]. injection Hx as <-. cbn in Hc. injection Hc as ->.
    destruct (loaded_by_id _ _ _ Hget) as [Hlo (C & HC & Hcid)]. split; [exact Hlo|].
    exists C, d, s. split_and!; [done..|]. unfold provides_here. rewrite Hcid, Z.eqb_refl. exact Hname.
  - destruct (sd_remote_uds_path s) as [path|]; [|done]. destruct (0 <? _)%nat; [|done].
    injection Hx as <-. done.
Qed.
End routing.

(** The state of a running manager: nothing staged. *)
Definition mgr_inv (m : mgr) : Prop := mgr_ok [] m.

Definition manager_ready (d : nos_node_def) (m : mgr) : Prop := mgr_inv m /\ n_def (m_node m) = Some d.

(** Everything the manifest lists loads, and has room. *)
Record loads_whole `{!Plugins} (ld : loader) (rs : resources) (d : nos_node_def) : Prop := {
  lw_stage t : t ∈ nd_threads d -> all_stage ld rs t;
  lw_worker t : t ∈ nd_threads d -> worker_fits t;
  lw_table : length (manifest_comps d) <= MAX_COMPONENTS_PER_NODE;
}.

Lemma startup_ok `{Hpl : Plugins, !PluginLaws} ld rs d m :
  manager_ready d m -> n_registry (m_node m) = registry_static -> manifest_ok d ->
  NoDup (sd_service_id <$> nd_services d) -> length (nd_services d) <= MAX_SERVICES ->
  workers_calloc_ok rs = true -> (forall i, thread_eventfd_ok rs i = true) ->
  exists m1 m2, node_init_workers ld rs d m = Done m1 /\ node_setup_routing rs (nd_name d) m1 = Done m2 /\
    manager_ready d m1 /\ manager_ready d m2 /\
    (forall s, s ∈ nd_services d ->
       svc_lookup (sd_service_id s) (n_registry (m_node m2)) = expected_route (m_node m1) (nd_name d) s) /\
    (forall k, k ∉ sd_service_id <$> nd_services d -> svc_lookup k (n_registry (m_node m2)) = None) /\
    (libs_fit (m_node m) -> libs_fit (m_node m2)) /\
    (live (n_loaded (m_node m)) = [] -> exists ps, placement d ps (m_node m2) /\
       (loads_whole ld rs d -> ps = manifest_comps d)).
Proof.
  intros [Hm Hd] Hr Hman Hnd Hlen Hw He. pose proof (nd_end _ Hman) as (z & t & Hz8 & Hz & Hzn).
  unfold node_init_workers. set (m0 := on_node (alloc_workers rs) m).
  assert (mgr_ok [] m0) as Hm0 by exact (mgr_ok_recount m _ _ Hm).
  assert (fresh_from 0 (m_node m0)) as Hfr.
  { unfold m0, alloc_workers, fresh_from. rewrite Hw. cbn [m_node on_node set_workers n_workers].
    pose proof (Forall_fresh_list (dom (n_threads (m_node m))) MAX_WORKERS) as Hf.
    rewrite Forall_fresh_alt in Hf. destruct Hf as [Hnod Hfre].
    split_and!; [apply length_fresh_list|done|]. intros k w _ Hk. apply list_elem_of_lookup_2, Hfre in Hk.
    apply not_elem_of_dom in Hk. unfold comps_of. cbn. by rewrite Hk. }
  destruct (init_workers_ok ld rs (S MAX_WORKERS) d 0 z t m0 He Hman Hz Hzn) as (m1 & ps & H1 & Hm1 & Hd1 & Hr1 & Hl1 & Hw1 & Hc1 & Hk1 & Hs1 & Hall1); try done; [lia..|].
  rewrite drop_0 in *.
  change (n_def (m_node m0)) with (n_def (m_node m)) in Hd1.
  change (n_registry (m_node m0)) with (n_registry (m_node m)) in Hr1.
  unfold node_setup_routing. exists m1. rewrite Hd1, Hd. eexists. split; [done|]. split; [done|].
  assert (routed (nd_name d) [] m1 m1) as Hr0.
  { split; rewrite ?Hr1, ?Hr.
    - exists registry_static. rewrite <-Hr, <-Hr1. by destruct (m_node m1).
    - done.
    - apply registry_static_ok.
    - intros i e _ Hi. apply lookup_replicate in Hi. by destruct Hi.
    - done.
    - by intros s ?%elem_of_nil.
    - intros k _. apply svc_lookup_None. done. }
  pose proof (routed_fold rs (nd_name d) (nd_services d) [] m1 m1 Hr0 Hnd Hlen) as Hrt. cbn [app] in Hrt.
  set (m2 := fold_left _ _ m1) in *. assert (n_def (m_node m2) = Some d) as Hd2.
  { destruct (rt_node _ _ _ _ Hrt) as [r ->]. cbn. congruence. }
  split_and!; [split; [done|congruence]|split; [|done]|apply Hrt|apply Hrt| |].
  - by apply (mgr_ok_routed m1 m2 d); [|congruence|].
  - intros Hf. destruct (rt_node _ _ _ _ Hrt) as [r ->]. by apply Hl1.
  - intros Hl0. exists ps. destruct (rt_node _ _ _ _ Hrt) as [r ->]. split; [split|].
    + apply (placed_keys [] (m_node m1)); [apply Hm1|]. rewrite Hk1, Hw1. unfold keys at 1.
      change (n_loaded (m_node m0)) with (n_loaded (m_node m)). by rewrite Hl0.
    + exact Hs1.
    + exact Hc1.
    + change (NoDup (n_workers (m_node m1))). rewrite Hw1. apply Hfr.
    + intros [Hst Hwf Htb]. apply Hall1; [by split; [apply Hwf|apply Hst]|].
      rewrite <-length_live_table by done. change (n_loaded (m_node m0)) with (n_loaded (m_node m)). by rewrite Hl0.
Qed.

(** ** Properties *)

(** C10. Unloading a component by name.  An unknown name changes nothing.
    Otherwise the call succeeds: the component is freed and its library
    closed, its table entry, thread entry, services and running timers are
    gone, so nothing refers to the freed memory; every other component keeps
    its place and its services. *)
Theorem node_unload_component_spec `{Hpl : Plugins, !PluginLaws} rs name m d :
  manager_ready d m ->
  match find_named name (m_node m) with
  | None => node_unload_component rs name m = Done (NOS_ERR, m)
  | Some (i, info) => exists c C h m',
      li_comp info = Some c /\ n_comps (m_node m) !! c = Some C /\ c_name C = name /\
      node_unload_component rs name m = Done (NOS_OK, m') /\ manager_ready d m' /\
      unloaded i c C d (m_node m) (m_node m') /\ unreferenced c (m_node m') /\
      m_open m ≡ₚ h :: m_open m'
  end.
Proof.
  intros [Hm Hd]. destruct (find_named name (m_node m)) as [[i info]|] eqn:Hf.
  - destruct (unload_ok rs [] name m i info d Hm Hd Hf) as (c & C & h & m' & ? & ? & ? & ? & Hm' & Hul & Hop).
    exists c, C, h, m'. split_and!; try done.
    + split; [done|]. by rewrite (ul_def _ _ _ _ _ _ Hul).
    + apply (freed_unreferenced [] m' c Hm'). by rewrite (ul_comps _ _ _ _ _ _ Hul), lookup_delete_eq.
  - unfold node_unload_component. by rewrite Hf.
Qed.

(** C11. Reloading a component by name.  An unknown name changes nothing.  If
    the new library cannot be staged the call fails and every table, the old
    component included, is as before and the handles opened are closed
    again.  If it can, the call succeeds: the new instance, initialised and
    waiting to be started, takes the old one's table entry, thread and
    services, and nothing refers to the old one, which is freed. *)
Theorem node_reload_component_spec `{Hpl : Plugins, !PluginLaws} ld rs name m d :
  manager_ready d m ->
  match find_named name (m_node m) with
  | None => node_reload_component ld rs name m = Done (NOS_ERR, m)
  | Some (i, info) =>
      String.length ("./" +:+ li_lib_name info) < LIB_PATH_MAX -> exists st m',
      node_reload_component ld rs name m = Done (st, m') /\ manager_ready d m' /\
      reload_post i info d m st m' /\
      (st = NOS_OK <-> exists C m1 r, (li_comp info ≫= fun c => n_comps (m_node m) !! c) = Some C /\
         node_load_component_staged ld rs (c_id C) name (li_lib_name info) m = Done (m1, Some r)) /\
      (st = NOS_OK -> forall c, li_comp info = Some c -> unreferenced c (m_node m'))
  end.
Proof.
  intros [Hm Hd]. destruct (find_named name (m_node m)) as [[i info]|] eqn:Hf;
    [|unfold node_reload_component; by rewrite Hf].
  intros Hlen. destruct (reload_ok ld rs [] name m i info d Hm Hd Hf Hlen) as (st & m' & He & Hm' & Hp & Hiff).
  exists st, m'. split_and!; [done|split; [done|]|done|done|].
  - destruct st; [|destruct Hp as (_ & Hs & _); by rewrite (st_def _ _ Hs)..].
    destruct Hp as (c & C & c' & C' & h & h' & l & _ & _ & _ & Hsw & _). by rewrite (sw_def _ _ _ _ _ _ _ _ _ _ Hsw).
  - intros -> c Hc. destruct Hp as (c1 & C & c' & C' & h & h' & l & Hc1 & _ & _ & Hsw & _).
    assert (c1 = c) as -> by congruence. apply (freed_unreferenced [] m' c Hm').
    by rewrite (sw_comps _ _ _ _ _ _ _ _ _ _ Hsw), lookup_delete_eq.
Qed.

(** C12. Start-up.  For a manifest whose arrays are terminated and whose
    services have different ids, loading and routing return, whatever the
    libraries do, in a state that satisfies the manager's invariant.  There
    is a worker for every thread of the manifest, and the table holds
    components of the manifest in its order, each live, with its id, and on
    the worker it is listed for; all of them, if they load and there is
    room.  Every service of this node leads to the first component with the
    provider's id and to the worker that owns it, and to nothing when no
    such component is loaded; every service of another node leads to its
    path; no other id has a route. *)
Theorem node_startup_spec `{Hpl : Plugins, !PluginLaws} ld rs d m :
  manager_ready d m -> live (n_loaded (m_node m)) = [] -> n_registry (m_node m) = registry_static -> manifest_ok d ->
  NoDup (sd_service_id <$> nd_services d) -> length (nd_services d) <= MAX_SERVICES ->
  workers_calloc_ok rs = true -> (forall i, thread_eventfd_ok rs i = true) ->
  exists m1 m2 ps, node_init_workers ld rs d m = Done m1 /\ node_setup_routing rs (nd_name d) m1 = Done m2 /\
    manager_ready d m1 /\ manager_ready d m2 /\
    placement d ps (m_node m2) /\ (loads_whole ld rs d -> ps = manifest_comps d) /\
    (forall s, s ∈ nd_services d ->
       routes_to (m_node m2) (nd_name d) s (svc_lookup (sd_service_id s) (n_registry (m_node m2)))) /\
    (forall k, k ∉ sd_service_id <$> nd_services d -> svc_lookup k (n_registry (m_node m2)) = None).
Proof.
  intros Hm Hl0 Hr Hd Hn Hl Hw He. pose proof (startup_ok ld rs d m Hm Hr Hd Hn Hl Hw He)
    as (m1 & m2 & ? & Hset & ? & Hm2 & Hrt & ? & _ & Hpl0). destruct (Hpl0 Hl0) as (ps & Hps & Hall).
  exists m1, m2, ps. split_and!; try done. intros s Hs. rewrite (Hrt s Hs), <-(setup_routing_frame _ _ _ _ _ _ Hset).
  by apply (expected_route_ok d ps); [apply Hm2|].
Qed.

(** ** A concrete manager *)

(** Libraries whose components have [stop] and [on_msg] and do nothing in
    them. *)
Definition demo_export (c : comp_ptr) : node -> node :=
  upd_comp c (fun C => Comp (c_id C) (c_name C) (c_status C) None None (Some 7) (Some 1)).

#[local] Instance demo_plugins : Plugins := {
  export_func e c n := (NOS_OK, demo_export c n);
  run_init f c n := (NOS_OK, n);
  run_stop f c n := n;
}.

#[local] Instance demo_laws : PluginLaws.
Proof. split; [|done..]. intros e c n. by eexists. Qed.

Definition demo_loader : loader :=
  Loader (fun _ => true) (fun _ path => Some (String.length path)) (fun _ => "error"%string) Some.

Definition demo_resources : resources := Resources true true true (fun _ => true) true.

Definition pad {A} (k : nat) (x : A) (l : list A) : list A := l ++ replicate (k - length l) x.

Definition demo_worker : nos_thread_def :=
  ThreadDef (Some "worker"%string) (pad 16 0%Z [1; 2]%Z) (pad 16 "" ["a"; "b"])%string
    (pad 16 "" ["liba.so"; "libbb.so"])%string.

Definition demo_manifest : nos_node_def :=
  NodeDef "A" "/tmp/a" [(64, 4); (256, 2)]%Z (pad 8 (ThreadDef None [] [] []) [demo_worker])
    [SvcDef "S" 101 "A" 1 None; SvcDef "T" 102 "A" 2 None; SvcDef "U" 113 "B" 9 (Some "/tmp/b"%string)] 0.

Definition blank_node (d : nos_node_def) : node :=
  Node ∅ ∅ ∅ (Some d) (CArr (replicate MAX_COMPONENTS_PER_NODE (Loaded None None "" None)) 0)
    None [] 0 registry_static demo_pool.

Definition blank_manager (d : nos_node_def) : mgr := Mgr (blank_node d) [] (nos_log_init g_log_ctx).

Lemma blank_ready d : manager_ready d (blank_manager d).
Proof.
  split; [|done]. split; [split| | |done].
  - split; [by intros th T HT|by intros t x Hx].
  - split; [exact demo_pool_wf|by intros th T HT|]. intros r Hr. by apply elem_of_nil in Hr.
  - exact registry_static_ok.
  - by intros t x Hx.
  - split.
    + done.
    + cbn. lia.
    + change (NoDup (A := option comp_ptr) []). constructor.
    + intros c. cbn. rewrite lookup_empty. split; [by intros []|by intros ?%elem_of_nil].
    + by intros i ?%elem_of_nil.
    + by intros th a Ha.
    + by intros e c ?%elem_of_nil.
Qed.

Lemma demo_manifest_ok : manifest_ok demo_manifest.
Proof.
  split.
  - exists 1, (ThreadDef None [] [] []). split_and!; [unfold MAX_WORKERS; lia|done..].
  - intros t Ht Hn. assert (t = demo_worker) as ->.
    { cbn in Ht. repeat (apply elem_of_cons in Ht as [->|Ht]; [done|]). by apply elem_of_nil in Ht. }
    split; [done|exists 2; split; [unfold MAX_COMPONENTS_PER_NODE; lia|done]|].
    intros lib Hl. cbn in Hl.
    repeat (apply elem_of_cons in Hl as [->|Hl]; [vm_compute; lia|]). by apply elem_of_nil in Hl.
Qed.

Definition demo_started : mgr :=
  match node_init_workers demo_loader demo_resources demo_manifest (blank_manager demo_manifest) with
  | Done m => match node_setup_routing demo_resources "A" m with Done m => m | _ => blank_manager demo_manifest end
  | _ => blank_manager demo_manifest
  end.

Lemma demo_services_nodup : NoDup (sd_service_id <$> nd_services demo_manifest).
Proof. change (NoDup [101; 102; 113]%Z). repeat constructor; set_solver. Qed.

Lemma demo_started_ready : manager_ready demo_manifest demo_started.
Proof.
  destruct (startup_ok demo_loader demo_resources demo_manifest (blank_manager demo_manifest))
    as (m1 & m2 & H1 & H2 & _ & Hr & _).
  - apply blank_ready.
  - done.
  - apply demo_manifest_ok.
  - apply demo_services_nodup.
  - vm_compute. lia.
  - done.
  - done.
  - unfold demo_started. rewrite H1. change (nd_name demo_manifest) with "A"%string in H2. by rewrite H2.
Qed.

Lemma node_unload_component_spec_witness :
  exists c m', node_unload_component demo_resources "a" demo_started = Done (NOS_OK, m') /\
    manager_ready demo_manifest m' /\ unreferenced c (m_node m') /\ n_comps (m_node demo_started) !! c <> None.
Proof.
  pose proof (node_unload_component_spec demo_resources "a" demo_started demo_manifest demo_started_ready) as H.
  destruct (find_named "a" (m_node demo_started)) as [[i info]|] eqn:E; [|vm_compute in E; discriminate E].
  destruct H as (c & C & h & m' & _ & HC & _ & He & Hr & _ & Hu & _).
  exists c, m'. split_and!; [exact He|exact Hr|exact Hu|congruence].
Defined.

Lemma node_reload_component_spec_witness :
  exists st m', node_reload_component demo_loader demo_resources "b" demo_started = Done (st, m') /\
    manager_ready demo_manifest m'.
Proof.
  pose proof (node_reload_component_spec demo_loader demo_resources "b" demo_started demo_manifest demo_started_ready) as H.
  destruct (find_named "b" (m_node demo_started)) as [[i info]|] eqn:E; [|vm_compute in E; discriminate E].
  destruct H as (st & m' & He & Hr & _).
  - vm_compute in E. injection E as <- <-. vm_compute. lia.
  - exists st, m'. split; [exact He|exact Hr].
Defined.

Lemma demo_loads_whole : loads_whole demo_loader demo_resources demo_manifest.
Proof.
  assert (forall t, t ∈ nd_threads demo_manifest -> t = demo_worker \/ t = ThreadDef None [] [] []) as Ht.
  { intros t Ht. cbn in Ht. repeat (apply elem_of_cons in Ht as [->|Ht]; [auto|]). by apply elem_of_nil in Ht. }
  assert (forall c n, init_fails c n = (false, n)) as Hinit.
  { intros c n. unfold init_fails. by destruct (n_comps n !! c ≫= c_init). }
  split.
  - intros t Hin id name lib m Hlib. destruct (Ht t Hin) as [-> | ->]; [|by apply elem_of_nil in Hlib].
    unfold node_load_component_staged. pose proof (td_libs _ (nd_defs _ demo_manifest_ok _ Hin ltac:(done)) lib Hlib) as Hl.
    destruct (Nat.leb_spec LIB_PATH_MAX (String.length ("./" +:+ lib))); [lia|]. cbn.
    unfold stage_component. cbn [export_func demo_plugins].
    destruct (decide (NOS_OK <> NOS_OK)); [done|]. rewrite Hinit. by eexists _, _.
  - intros t Hin. destruct (Ht t Hin) as [-> | ->]; vm_compute; lia.
  - vm_compute. lia.
Qed.

Lemma node_startup_spec_witness :
  exists m1 m2, node_init_workers demo_loader demo_resources demo_manifest (blank_manager demo_manifest) = Done m1 /\
    node_setup_routing demo_resources "A" m1 = Done m2 /\ manager_ready demo_manifest m2 /\
    placement demo_manifest [(0, 1%Z); (0, 2%Z)] (m_node m2) /\
    routes_to (m_node m2) "A" (SvcDef "S" 101 "A" 1 None) (svc_lookup 101 (n_registry (m_node m2))).
Proof.
  destruct (node_startup_spec demo_loader demo_resources demo_manifest (blank_manager demo_manifest)
    (blank_ready demo_manifest) eq_refl eq_refl demo_manifest_ok demo_services_nodup
    ltac:(vm_compute; lia) eq_refl (fun _ => eq_refl)) as (m1 & m2 & ps & H1 & H2 & _ & Hr & Hp & Hall & Hs & _).
  rewrite (Hall demo_loads_whole) in Hp.
  exists m1, m2. split_and!; [exact H1|exact H2|exact Hr|exact Hp|]. apply (Hs (SvcDef "S" 101 "A" 1 None)). by left.
Defined.

(** ** What goes wrong *)

(** A manifest that uses all eight threads, or all sixteen component slots of
    a thread, is read past the end of the array. *)
Definition full_threads : nos_node_def :=
  NodeDef "A" "/tmp/a" [] (replicate 8 (ThreadDef (Some "t"%string) [0%Z] [] [])) [] 0.

Definition full_components : nos_node_def :=
  NodeDef "A" "/tmp/a" [] (pad 8 (ThreadDef None [] [] []) [ThreadDef (Some "t"%string)
    (replicate 16 1%Z) (replicate 16 "a"%string) (replicate 16 "liba.so"%string)]) [] 0.

Theorem init_workers_overruns :
  node_init_workers demo_loader demo_resources full_threads (blank_manager full_threads) = Undef /\
  node_init_workers demo_loader demo_resources full_components (blank_manager full_components) = Undef.
Proof. split; by vm_compute. Qed.

(** A worker picks the handler of a message, the CLI thread unloads the
    component, the worker calls the handler: on freed memory. *)
Definition demo_active : mgr :=
  on_node (start_pending_components (fun _ _ n => (NOS_OK, n)) 0) demo_started.

Theorem unload_races_delivery :
  exists h c cb m', msg_handler (m_node demo_active) h = Done (Some (c, cb)) /\
    node_unload_component demo_resources "a" demo_active = Done (NOS_OK, m') /\
    n_comps (m_node m') !! c = None.
Proof.
  exists (Msg NOS_IPC_MAGIC 1 101 0 0 5 9 0 0), 0, 1.
  destruct (node_unload_component demo_resources "a" demo_active) as [[st m']| |] eqn:E;
    [|vm_compute in E; discriminate E..].
  exists m'. vm_compute in E. injection E as <- <-. split_and!; by vm_compute.
Qed.
