(* ===== verification/MgrMain.v ===== *)
(** * The manager process (src/mgr/nos_mgr_main.c)

    A command line that starts and stops the node processes of a static
    list.  The kernel keeps the children that were not reaped yet; what it
    answers, when children exit and when a signal arrives is a parameter
    ([kernel]), indexed by the number of system calls made so far. *)

From Stdlib Require Import Ascii.
From stdpp Require Import base list gmap strings pretty.
From S2P Require Import Prelude CString.
Local Open Scope Z_scope.

(** ** Data *)

Inductive mgr_node_state := MGR_NODE_STOPPED | MGR_NODE_RUNNING | MGR_NODE_EXITED.

#[export] Instance mgr_node_state_eq_dec : EqDecision mgr_node_state.
Proof. solve_decision. Defined.

Record nos_mgr_node_def := MgrDef {
  md_name : string;
  md_binary : string;
  md_uds_path : string;
}.

Record mgr_node := MgrNode {
  mn_def : nos_mgr_node_def;
  mn_pid : Z;
  mn_state : mgr_node_state;
  mn_started_at : Z;
  mn_exit_status : Z;
}.

Definition MGR_MAX_NODES : nat := 32.

Definition state_name (s : mgr_node_state) : string :=
  match s with
  | MGR_NODE_STOPPED => "STOPPED"
  | MGR_NODE_RUNNING => "RUNNING"
  | MGR_NODE_EXITED => "EXITED"
  end.

(** The unreaped children of the manager: [None] while the process runs,
    [Some status] once it has exited. *)
Abbreviation children := (gmap Z (option Z)).

Record mworld := MWorld {
  mw_nodes : list mgr_node;       (* g_nodes[0 .. g_node_count) *)
  mw_keep : bool;                 (* g_keep_running *)
  mw_children : children;
  mw_tick : nat;
  mw_out : list string;           (* what was printed, in order *)
}.

Definition set_nodes (l : list mgr_node) (w : mworld) : mworld :=
  MWorld l (mw_keep w) (mw_children w) (mw_tick w) (mw_out w).
Definition set_keep (b : bool) (w : mworld) : mworld :=
  MWorld (mw_nodes w) b (mw_children w) (mw_tick w) (mw_out w).
Definition set_children (c : children) (w : mworld) : mworld :=
  MWorld (mw_nodes w) (mw_keep w) c (mw_tick w) (mw_out w).
Definition say (s : string) (w : mworld) : mworld :=
  MWorld (mw_nodes w) (mw_keep w) (mw_children w) (mw_tick w) (mw_out w ++ [s]).
Definition upd_node (i : nat) (f : mgr_node -> mgr_node) (w : mworld) : mworld :=
  set_nodes (alter f i (mw_nodes w)) w.

(** ** The kernel

    [k_exits t]: the children that exit before call [t] returns, with their
    status.  [k_fork t cs]: the pid of a new process, [None] on failure. *)
Record kernel := Kernel {
  k_exits : nat -> list (Z * Z);
  k_signal : nat -> bool;
  k_access : nat -> string -> bool;
  k_fork : nat -> children -> option Z;
  k_may_kill : nat -> bool;
  k_time : nat -> Z;
  k_strerror : nat -> string;
}.

(** A new process gets a positive pid no unreaped child has. *)
Class KernelLaws (k : kernel) := {
  fork_fresh t cs p : k_fork k t cs = Some p -> 0 < p /\ cs !! p = None;
}.

Definition child_exits (cs : children) (e : Z * Z) : children :=
  match cs !! e.1 with
  | Some None => <[e.1 := Some e.2]> cs
  | _ => cs
  end.

Section mgr.
Context (k : kernel).

(** A system call: children exit and signals arrive meanwhile. *)
Definition advance (w : mworld) : mworld :=
  MWorld (mw_nodes w) (mw_keep w && negb (k_signal k (mw_tick w)))
         (fold_left child_exits (k_exits k (mw_tick w)) (mw_children w))
         (S (mw_tick w)) (mw_out w).

(** [waitpid(pid, &status, WNOHANG) == pid] *)
Definition waitpid_nohang (pid : Z) (w : mworld) : option Z * mworld :=
  let w := advance w in
  match mw_children w !! pid with
  | Some (Some st) => (Some st, set_children (delete pid (mw_children w)) w)
  | _ => (None, w)
  end.

(** [kill(pid, SIGTERM) == 0]; what the child makes of it shows in
    [k_exits]. *)
Definition kill_term (pid : Z) (w : mworld) : bool * mworld :=
  (k_may_kill k (mw_tick w) && bool_decide (is_Some (mw_children w !! pid)), advance w).

Definition SIGKILL : Z := 9.

(** [kill(pid, SIGKILL) == 0]: a running child is dead afterwards. *)
Definition kill_kill (pid : Z) (w : mworld) : bool * mworld :=
  let ok := k_may_kill k (mw_tick w) && bool_decide (is_Some (mw_children w !! pid)) in
  let w1 := advance w in
  (ok, if ok then set_children (child_exits (mw_children w1) (pid, SIGKILL)) w1 else w1).

(** [waitpid(pid, &status, 0)] on a child that has exited; [status] stays 0
    when there is no such child. *)
Definition waitpid_exited (pid : Z) (w : mworld) : Z * mworld :=
  let w := advance w in
  match mw_children w !! pid with
  | Some (Some st) => (st, set_children (delete pid (mw_children w)) w)
  | _ => (0, w)
  end.

(** ** Nodes *)

Definition new_node (d : nos_mgr_node_def) : mgr_node := MgrNode d (-1) MGR_NODE_STOPPED 0 0.

(** [defs] is the manifest up to its terminator, [None] for NULL. *)
Definition mgr_init_nodes (defs : option (list nos_mgr_node_def)) : list mgr_node :=
  match defs with
  | Some l => new_node <$> take MGR_MAX_NODES l
  | None => []
  end.

Definition find_node (name : string) (l : list mgr_node) : option nat :=
  if String.eqb name "" then None
  else find_idx (fun n => String.eqb (md_name (mn_def n)) name) l.

Definition node_ended (s : mgr_node_state) (status : Z) (n : mgr_node) : mgr_node :=
  MgrNode (mn_def n) (-1) s (mn_started_at n) status.

Definition node_running (n : mgr_node) : bool :=
  bool_decide (mn_state n = MGR_NODE_RUNNING) && (0 <? mn_pid n).

Definition refresh_node (i : nat) (w : mworld) : mworld :=
  match mw_nodes w !! i with
  | None => w
  | Some n =>
      if node_running n then
        let '(r, w1) := waitpid_nohang (mn_pid n) w in
        match r with
        | Some st => upd_node i (node_ended MGR_NODE_EXITED st) w1
        | None => w1
        end
      else w
  end.

Definition refresh_nodes (w : mworld) : mworld :=
  fold_left (fun w i => refresh_node i w) (seq 0 (length (mw_nodes w))) w.

(** ** Printing *)

(** [%02ld] *)
Definition two_digits (x : Z) : string := (if (0 <=? x) && (x <? 10) then "0" else "") +:+ pretty x.

Definition uptime_known (n : mgr_node) : bool :=
  bool_decide (mn_state n = MGR_NODE_RUNNING) && negb (mn_started_at n =? 0).

Definition format_uptime (now : Z) (n : mgr_node) : string :=
  if negb (uptime_known n) then "-"
  else
    let s := now - mn_started_at n in
    two_digits (Z.quot s 3600) +:+ ":" +:+ two_digits (Z.quot (Z.rem s 3600) 60) +:+ ":" +:+
    two_digits (Z.rem s 60).

Definition node_row (now : Z) (n : mgr_node) : string :=
  pad_right 10 (md_name (mn_def n)) +:+ " " +:+
  pad_right 8 (if 0 <? mn_pid n then pretty (mn_pid n) else "-") +:+ " " +:+
  pad_right 10 (state_name (mn_state n)) +:+ " " +:+ pad_right 10 (format_uptime now n) +:+ " " +:+
  pad_right 16 (md_uds_path (mn_def n)) +:+ " " +:+ md_binary (mn_def n).

(** The clock is read for the nodes whose uptime is shown. *)
Definition show_row (w : mworld) (n : mgr_node) : mworld :=
  say (node_row (k_time k (mw_tick w)) n) (if uptime_known n then advance w else w).

Definition show_nodes (w : mworld) : mworld :=
  let w := refresh_nodes w in
  let w := say "--------------------------------------------------------------------------------"
             (say (pad_right 10 "Name" +:+ " " +:+ pad_right 8 "PID" +:+ " " +:+ pad_right 10 "State" +:+ " " +:+
                   pad_right 10 "Uptime" +:+ " " +:+ pad_right 16 "UDS" +:+ " Binary") w) in
  fold_left show_row (mw_nodes w) w.

(** ** Commands *)

Definition unknown_node (name : string) (w : mworld) : mworld := say ("Unknown node: " +:+ name) w.

Definition node_started (pid now : Z) (n : mgr_node) : mgr_node :=
  MgrNode (mn_def n) pid MGR_NODE_RUNNING now 0.

(** [fork] in the parent. *)
Definition fork_node (i : nat) (n : mgr_node) (w : mworld) : mworld :=
  let name := md_name (mn_def n) in
  let w1 := advance w in
  match k_fork k (mw_tick w) (mw_children w1) with
  | None => say ("Failed to start " +:+ name +:+ ": " +:+ k_strerror k (mw_tick w)) w1
  | Some pid =>
      let now := k_time k (mw_tick w1) in
      say ("Node " +:+ name +:+ " started (PID " +:+ pretty pid +:+ ").")
        (upd_node i (node_started pid now) (advance (set_children (<[pid := None]> (mw_children w1)) w1)))
  end.

Definition start_node (name : string) (w : mworld) : mworld :=
  match find_node name (mw_nodes w) with
  | None => unknown_node name w
  | Some i =>
      let w1 := refresh_node i w in
      match mw_nodes w1 !! i with
      | None => w1
      | Some n =>
          if decide (mn_state n = MGR_NODE_RUNNING) then
            say ("Node " +:+ md_name (mn_def n) +:+ " is already running (PID " +:+ pretty (mn_pid n) +:+ ").") w1
          else if k_access k (mw_tick w1) (md_binary (mn_def n)) then fork_node i n (advance w1)
          else say ("Node binary is not executable: " +:+ md_binary (mn_def n)) (advance w1)
      end
  end.

(** The polling loop of [stop_node]: whether the child was reaped. *)
Fixpoint wait_stopped (tries : nat) (i : nat) (pid : Z) (name : string) (w : mworld) : bool * mworld :=
  match tries with
  | O => (false, w)
  | S tries =>
      let '(r, w1) := waitpid_nohang pid w in
      match r with
      | Some st => (true, say ("Node " +:+ name +:+ " stopped.")
                            (upd_node i (node_ended MGR_NODE_STOPPED st) w1))
      | None => wait_stopped tries i pid name (advance w1)     (* usleep *)
      end
  end.

Definition STOP_TRIES : nat := 30.

Definition force_stop (i : nat) (pid : Z) (name : string) (w : mworld) : mworld :=
  let '(ok, w1) := kill_kill pid w in
  if ok then
    let '(st, w2) := waitpid_exited pid w1 in
    say ("Node " +:+ name +:+ " killed after stop timeout.")
      (upd_node i (node_ended MGR_NODE_STOPPED st) w2)
  else w1.

Definition stop_node (name : string) (w : mworld) : mworld :=
  match find_node name (mw_nodes w) with
  | None => unknown_node name w
  | Some i =>
      let w1 := refresh_node i w in
      match mw_nodes w1 !! i with
      | None => w1
      | Some n =>
          let name := md_name (mn_def n) in
          let pid := mn_pid n in
          if negb (node_running n) then say ("Node " +:+ name +:+ " is not running.") w1
          else
            let '(ok, w2) := kill_term pid w1 in
            if negb ok then say ("Failed to stop " +:+ name +:+ ": " +:+ k_strerror k (mw_tick w1)) w2
            else
              let '(stopped, w3) := wait_stopped STOP_TRIES i pid name w2 in
              if stopped then w3 else force_stop i pid name w3
      end
  end.

Definition restart_node (name : string) (w : mworld) : mworld :=
  match find_node name (mw_nodes w) with
  | None => unknown_node name w
  | Some i =>
      match mw_nodes w !! i with
      | None => w
      | Some n =>
          start_node name (if decide (mn_state n = MGR_NODE_RUNNING) then stop_node name w else w)
      end
  end.

Definition print_help (w : mworld) : mworld :=
  fold_left (fun w s => say s w)
    [ "--- NOS Manager Commands ---";
      "  help             - Show this help message";
      "  show nodes       - List manageable nodes";
      "  start <node>     - Start a node process";
      "  stop <node>      - Stop a node process started by this manager";
      "  restart <node>   - Restart a node process";
      "  quit             - Exit manager without stopping running nodes";
      "----------------------------" ]%string w.

(** [while ( *s == ' ' || *s == '\t') s++] *)
Definition is_blank (c : ascii) : bool := bool_decide (c = " "%char) || bool_decide (c = "009"%char).
Definition is_line_space (c : ascii) : bool :=
  is_blank c || bool_decide (c = "010"%char) || bool_decide (c = "013"%char).

Fixpoint trim_left (s : string) : string :=
  match s with
  | String c s' => if is_blank c then trim_left s' else s
  | EmptyString => EmptyString
  end.

(** The spaces and line ends at the end are cut off. *)
Fixpoint trim_right (s : string) : string :=
  match s with
  | String c s' =>
      match trim_right s' with
      | EmptyString => if is_line_space c then EmptyString else String c EmptyString
      | t => String c t
      end
  | EmptyString => EmptyString
  end.

Definition trim (s : string) : string := trim_right (trim_left s).

Inductive command :=
  | C_empty | C_help | C_show | C_start (name : string) | C_stop (name : string)
  | C_restart (name : string) | C_quit | C_unknown.

Definition parse_command (cmd : string) : command :=
  if String.eqb cmd "" then C_empty
  else if String.eqb cmd "help" then C_help
  else if String.eqb cmd "show nodes" then C_show
  else match strip_prefix "start " cmd with
  | Some a => C_start (trim a)
  | None => match strip_prefix "stop " cmd with
  | Some a => C_stop (trim a)
  | None => match strip_prefix "restart " cmd with
  | Some a => C_restart (trim a)
  | None => if String.eqb cmd "quit" || String.eqb cmd "exit" then C_quit else C_unknown
  end end end.

Definition handle_command (line : string) (w : mworld) : mworld :=
  let cmd := trim line in
  let w := refresh_nodes w in
  match parse_command cmd with
  | C_empty => w
  | C_help => print_help w
  | C_show => show_nodes w
  | C_start name => start_node name w
  | C_stop name => stop_node name w
  | C_restart name => restart_node name w
  | C_quit => set_keep false w
  | C_unknown => say ("Unknown command: " +:+ cmd) w
  end.

(** ** The main loop *)

Definition LINE_MAX : nat := 256.

Fixpoint mgr_loop (fuel : nat) (input : string) (w : mworld) : option mworld :=
  match fuel with
  | O => None
  | S fuel =>
      if mw_keep w then
        let w := advance (say "nos-mgr> " w) in
        match input with
        | EmptyString => Some w
        | _ => let '(line, rest) := fgets (LINE_MAX - 1) input in
               mgr_loop fuel rest (handle_command line w)
        end
      else Some w
  end.

Definition mgr_main (fuel : nat) (defs : option (list nos_mgr_node_def)) (input : string) : option mworld :=
  let w := say "[NOS Manager] Management interface started. Type 'help' for commands."
             (MWorld (mgr_init_nodes defs) true ∅ 0 []) in
  (fun w => say "NOS Manager exiting." (refresh_nodes w)) <$> mgr_loop fuel input w.
End mgr.

(** ** The child process *)

(** The environment a process passes on to the program it executes. *)
Abbreviation environment := (gmap string string).

(** [setenv] with [overwrite = 0]; [room]: whether it found the memory. *)
Definition setenv_keep (room : bool) (name value : string) (e : environment) : environment :=
  match e !! name with
  | Some _ => e
  | None => if room then <[name := value]> e else e
  end.

(** What the child does after [fork]. *)
Inductive child_end := Execs (binary : string) (env : environment) | Exits (code : Z).

(** The answers to [mkdir], to the two [open]s and the three [dup2]s, to
    [setenv]'s allocation and to [execl]. *)
Record child_kernel := ChildKernel {
  ck_mkdir : bool;                (* made, or there already *)
  ck_open_null : bool;
  ck_open_log : string -> bool;
  ck_dup2 : Z -> bool;
  ck_setenv : bool;
  ck_exec : string -> bool;
}.

Definition LOG_PATH_MAX : nat := 256.

Definition redirect_child_stdio (ck : child_kernel) (name : string) : bool :=
  let log_path := strncpy_field LOG_PATH_MAX ("logs/" +:+ name +:+ ".log") in
  ck_mkdir ck && ck_open_null ck && ck_open_log ck log_path &&
  ck_dup2 ck 0 && ck_dup2 ck 1 && ck_dup2 ck 2.

Definition child_main (ck : child_kernel) (e : environment) (d : nos_mgr_node_def) : child_end :=
  if negb (redirect_child_stdio ck (md_name d)) then Exits 126
  else
    let e := setenv_keep (ck_setenv ck) "NOS_BUSY_POLL_CYCLES" "0" e in
    if ck_exec ck (md_binary d) then Execs (md_binary d) e else Exits 127.

(** A node the manager starts does not spin, unless the manager's own
    environment says how long; every other variable is passed on as it is. *)
Lemma child_environment ck e d binary e' :
  ck_setenv ck = true -> child_main ck e d = Execs binary e' ->
  binary = md_binary d /\
  e' !! "NOS_BUSY_POLL_CYCLES" = Some (default "0" (e !! "NOS_BUSY_POLL_CYCLES")) /\
  (forall v, v <> "NOS_BUSY_POLL_CYCLES"%string -> e' !! v = e !! v).
Proof.
  intros Hr. unfold child_main, setenv_keep. rewrite Hr. case_match; [done|]. case_match; [|done].
  destruct (e !! "NOS_BUSY_POLL_CYCLES"%string) as [v|] eqn:Ev; intros Hx; injection Hx as <- <-; split_and!; try done.
  - by rewrite lookup_insert_eq.
  - intros v Hv. by rewrite lookup_insert_ne.
Qed.

(** ** Invariant *)

(** Every running node has one child, every child belongs to one running
    node; [D] are the children's pids. *)
Record tracks (l : list mgr_node) (D : gset Z) : Prop := {
  tk_running i n : l !! i = Some n -> mn_state n = MGR_NODE_RUNNING -> 0 < mn_pid n /\ mn_pid n ∈ D;
  tk_idle i n : l !! i = Some n -> mn_state n <> MGR_NODE_RUNNING -> mn_pid n = -1;
  tk_distinct i j n m : l !! i = Some n -> l !! j = Some m -> mn_state n = MGR_NODE_RUNNING ->
    mn_state m = MGR_NODE_RUNNING -> mn_pid n = mn_pid m -> i = j;
  tk_child p : p ∈ D -> exists i n, l !! i = Some n /\ mn_state n = MGR_NODE_RUNNING /\ mn_pid n = p;
}.

Definition mgr_tracks (w : mworld) : Prop := tracks (mw_nodes w) (dom (mw_children w)).

Lemma alter_cases {A} (l : list A) i f j y :
  alter f i l !! j = Some y ->
  (exists x, i = j /\ l !! i = Some x /\ y = f x) \/ (i <> j /\ l !! j = Some y).
Proof.
  destruct (decide (i = j)) as [->|Hne].
  - rewrite list_lookup_alter_eq. intros (x & ? & ->)%fmap_Some. left. eauto.
  - rewrite list_lookup_alter_ne by done. by right.
Qed.

Lemma node_running_iff l D i n :
  tracks l D -> l !! i = Some n -> node_running n = bool_decide (mn_state n = MGR_NODE_RUNNING).
Proof.
  intros Ht Hi. unfold node_running. case_bool_decide as E; [|done]. cbn.
  destruct (tk_running _ _ Ht i n Hi E) as [Hp _]. by apply Z.ltb_lt.
Qed.

Lemma tracks_ended l D i n s st :
  tracks l D -> l !! i = Some n -> mn_state n = MGR_NODE_RUNNING -> s <> MGR_NODE_RUNNING ->
  tracks (alter (node_ended s st) i l) (D ∖ {[mn_pid n]}).
Proof.
  intros [Hr Hi Hd Hc] Hn Hs Hns. split.
  - intros j m Hj Hm. apply alter_cases in Hj as [(x & -> & _ & ->)|[Hne Hj]]; [done|].
    destruct (Hr j m Hj Hm) as [? ?]. split; [done|]. apply elem_of_difference. split; [done|].
    rewrite elem_of_singleton. intros E. by destruct Hne, (Hd i j n m).
  - intros j m Hj Hm. apply alter_cases in Hj as [(x & -> & _ & ->)|[_ Hj]]; [done|by eapply Hi].
  - intros j j' m m' Hj Hj' Hm Hm'.
    apply alter_cases in Hj as [(x & -> & _ & ->)|[_ Hj]]; [done|].
    apply alter_cases in Hj' as [(x & -> & _ & ->)|[_ Hj']]; [done|]. by apply Hd.
  - intros p [Hp Hne]%elem_of_difference. destruct (Hc p Hp) as (j & m & Hj & Hm & <-).
    exists j, m. split_and!; [|done..]. rewrite list_lookup_alter_ne; [done|].
    intros ->. apply Hne. rewrite Hn in Hj. simplify_eq. by apply elem_of_singleton.
Qed.

Lemma tracks_started l D i n p now :
  tracks l D -> l !! i = Some n -> mn_state n <> MGR_NODE_RUNNING -> 0 < p -> p ∉ D ->
  tracks (alter (node_started p now) i l) ({[p]} ∪ D).
Proof.
  intros [Hr Hi Hd Hc] Hn Hs Hp Hnp. split.
  - intros j m Hj Hm. apply alter_cases in Hj as [(x & -> & _ & ->)|[_ Hj]]; [set_solver|].
    destruct (Hr j m Hj Hm). set_solver.
  - intros j m Hj Hm. apply alter_cases in Hj as [(x & -> & _ & ->)|[_ Hj]]; [done|by eapply Hi].
  - intros j j' m m' Hj Hj' Hm Hm' E.
    apply alter_cases in Hj as [(x & -> & _ & ->)|[Hne Hj]];
    apply alter_cases in Hj' as [(x' & -> & _ & ->)|[Hne' Hj']]; cbn in E; [done|..].
    + destruct (Hr j' m' Hj' Hm'). congruence.
    + destruct (Hr j m Hj Hm). congruence.
    + by eapply Hd.
  - intros q [->%elem_of_singleton|Hq]%elem_of_union.
    + exists i, (node_started p now n). by rewrite list_lookup_alter_eq, Hn.
    + destruct (Hc q Hq) as (j & m & Hj & Hm & <-). exists j, m. split_and!; [|done..].
      rewrite list_lookup_alter_ne; [done|]. intros ->. congruence.
Qed.

Section proofs.
Context (k : kernel).

(** [w'] has the nodes of [w] and the children [D]. *)
Definition moved (w w' : mworld) (D : gset Z) : Prop :=
  mw_nodes w' = mw_nodes w /\ dom (mw_children w') = D.

Lemma dom_child_exits l cs : dom (fold_left child_exits l cs) = dom cs.
Proof.
  revert cs. induction l as [|e l IH]; intros cs; cbn; [done|]. rewrite IH.
  unfold child_exits. destruct (cs !! e.1) as [[st|]|] eqn:E; [done| |done].
  rewrite dom_insert_L. assert (e.1 ∈ dom cs) by by apply elem_of_dom. set_solver.
Qed.

Lemma advance_moved w : moved w (advance k w) (dom (mw_children w)).
Proof. split; [done|]. apply dom_child_exits. Qed.

Lemma advance_tracks w : mgr_tracks w -> mgr_tracks (advance k w).
Proof. unfold mgr_tracks. cbn. by rewrite dom_child_exits. Qed.

Lemma waitpid_moved pid w :
  let '(r, w') := waitpid_nohang k pid w in
  match r with
  | Some _ => moved w w' (dom (mw_children w) ∖ {[pid]})
  | None => moved w w' (dom (mw_children w))
  end.
Proof.
  unfold waitpid_nohang. destruct (advance_moved w) as [Hn Hd].
  destruct (mw_children (advance k w) !! pid) as [[st|]|]; [|by split..].
  split; [done|]. cbn. by rewrite dom_delete_L, dom_child_exits.
Qed.

Lemma moved_tracks w w' : mgr_tracks w -> moved w w' (dom (mw_children w)) -> mgr_tracks w'.
Proof. unfold mgr_tracks. by intros H [-> ->]. Qed.

Lemma reaped_tracks w w' i n s st :
  mgr_tracks w -> mw_nodes w !! i = Some n -> mn_state n = MGR_NODE_RUNNING -> s <> MGR_NODE_RUNNING ->
  moved w w' (dom (mw_children w) ∖ {[mn_pid n]}) -> mgr_tracks (upd_node i (node_ended s st) w').
Proof. unfold mgr_tracks. intros Ht Hi Hn Hs [E1 E2]. cbn. rewrite E1, E2. by apply tracks_ended. Qed.

Lemma say_tracks s w : mgr_tracks w -> mgr_tracks (say s w).
Proof. done. Qed.

(** A refresh reaps the node's child if it has exited. *)
Lemma refresh_node_cases i w :
  mgr_tracks w ->
  mgr_tracks (refresh_node k i w) /\
  forall n, mw_nodes w !! i = Some n ->
    mw_nodes (refresh_node k i w) = mw_nodes w /\ dom (mw_children (refresh_node k i w)) = dom (mw_children w) \/
    exists st, mn_state n = MGR_NODE_RUNNING /\
      mw_nodes (refresh_node k i w) = alter (node_ended MGR_NODE_EXITED st) i (mw_nodes w) /\
      dom (mw_children (refresh_node k i w)) = dom (mw_children w) ∖ {[mn_pid n]}.
Proof.
  intros Ht. unfold refresh_node. destruct (mw_nodes w !! i) as [n|] eqn:Hi; [|done].
  rewrite (node_running_iff _ _ _ _ Ht Hi). case_bool_decide as Hs; [|split; [done|]; intros m [= ->]; by left].
  pose proof (waitpid_moved (mn_pid n) w) as Hm. destruct (waitpid_nohang k (mn_pid n) w) as [[st|] w1].
  - split; [by eapply reaped_tracks|]. intros m [= <-]. right. exists st. destruct Hm as [E1 E2].
    cbn. by rewrite E1, E2.
  - split; [by apply (moved_tracks w)|]. intros m _. left. exact Hm.
Qed.

Lemma refresh_node_tracks i w : mgr_tracks w -> mgr_tracks (refresh_node k i w).
Proof. intros Ht. by apply refresh_node_cases. Qed.

Lemma refresh_nodes_tracks w : mgr_tracks w -> mgr_tracks (refresh_nodes k w).
Proof.
  unfold refresh_nodes. generalize (seq 0 (length (mw_nodes w))) as l. intros l. revert w.
  induction l as [|i l IH]; intros w Ht; cbn; [done|]. by apply IH, refresh_node_tracks.
Qed.

Lemma show_rows_tracks l w :
  mgr_tracks w -> mgr_tracks (fold_left (show_row k) l w).
Proof.
  revert w. induction l as [|n l IH]; intros w Ht; cbn [fold_left]; [done|]. apply IH, say_tracks.
  destruct (uptime_known n); [by apply advance_tracks|done].
Qed.

Lemma show_nodes_tracks w : mgr_tracks w -> mgr_tracks (show_nodes k w).
Proof. intros Ht. unfold show_nodes. by apply show_rows_tracks, say_tracks, say_tracks, refresh_nodes_tracks. Qed.

Lemma print_help_tracks w : mgr_tracks w -> mgr_tracks (print_help w).
Proof.
  unfold print_help. generalize (["--- NOS Manager Commands ---"; "  help             - Show this help message";
      "  show nodes       - List manageable nodes"; "  start <node>     - Start a node process";
      "  stop <node>      - Stop a node process started by this manager";
      "  restart <node>   - Restart a node process"; "  quit             - Exit manager without stopping running nodes";
      "----------------------------" ]%string) as l. intros l. revert w.
  induction l as [|s l IH]; intros w Ht; cbn; [done|]. by apply IH, say_tracks.
Qed.

(** *** Starting *)

Lemma fork_node_tracks `{!KernelLaws k} i n w :
  mgr_tracks w -> mw_nodes w !! i = Some n -> mn_state n <> MGR_NODE_RUNNING ->
  mgr_tracks (fork_node k i n w).
Proof.
  intros Ht Hi Hs. unfold fork_node. destruct (advance_moved w) as [En Ed].
  destruct (k_fork k _ _) as [p|] eqn:Hf; [|by apply say_tracks, advance_tracks].
  destruct (fork_fresh _ _ _ Hf) as [Hp Hfr]. apply say_tracks.
  set (w2 := set_children _ _). destruct (advance_moved w2) as [En2 Ed2].
  unfold mgr_tracks. cbn [mw_nodes mw_children upd_node set_nodes]. rewrite En2, Ed2.
  change (mw_nodes w2) with (mw_nodes w). cbn [w2 mw_children set_children].
  rewrite dom_insert_L, Ed. apply (tracks_started _ _ i n); try done.
  rewrite <-Ed. by apply not_elem_of_dom.
Qed.

Lemma start_node_tracks `{!KernelLaws k} name w : mgr_tracks w -> mgr_tracks (start_node k name w).
Proof.
  intros Ht. unfold start_node. destruct (find_node name _) as [i|]; [|done].
  pose proof (refresh_node_tracks i w Ht) as Ht1. set (w1 := refresh_node k i w) in *.
  destruct (mw_nodes w1 !! i) as [n|] eqn:Hi; [|done].
  destruct (decide _) as [_|Hs]; [done|]. destruct (k_access k _ _).
  - apply fork_node_tracks; [by apply advance_tracks|done..].
  - by apply say_tracks, advance_tracks.
Qed.

(** *** Stopping *)

(** Polling ends with the child reaped, or leaves nodes and children. *)
Lemma wait_stopped_cases tries i n name w :
  mgr_tracks w -> mw_nodes w !! i = Some n -> mn_state n = MGR_NODE_RUNNING ->
  let '(b, w') := wait_stopped k tries i (mn_pid n) name w in
  mgr_tracks w' /\
  if b then exists st, mw_nodes w' = alter (node_ended MGR_NODE_STOPPED st) i (mw_nodes w) /\
              dom (mw_children w') = dom (mw_children w) ∖ {[mn_pid n]}
  else moved w w' (dom (mw_children w)).
Proof.
  revert w. induction tries as [|tries IH]; intros w Ht Hi Hs; cbn; [done|].
  pose proof (waitpid_moved (mn_pid n) w) as Hm. destruct (waitpid_nohang k (mn_pid n) w) as [[st|] w1].
  - split; [by apply say_tracks; eapply reaped_tracks|]. destruct Hm as [E1 E2]. exists st. cbn.
    by rewrite E1, E2.
  - pose proof (moved_tracks _ _ Ht Hm) as Ht1. destruct Hm as [E1 E2].
    destruct (advance_moved w1) as [E3 E4].
    specialize (IH (advance k w1) (advance_tracks _ Ht1)). rewrite E3, E1 in IH. specialize (IH Hi Hs).
    destruct (wait_stopped k tries i (mn_pid n) name (advance k w1)) as [[|] w'].
    + destruct IH as (? & st & ? & Hd). split; [done|]. exists st. rewrite Hd, E4, E2. done.
    + destruct IH as (? & Ha & Hb). split; [done|]. split; [congruence|]. by rewrite Hb, E4, E2.
Qed.

Lemma dom_child_exits1 cs e : dom (child_exits cs e) = dom cs.
Proof. exact (dom_child_exits [e] cs). Qed.

Lemma kill_kill_cases pid w :
  mgr_tracks w -> let '(ok, w') := kill_kill k pid w in
  moved w w' (dom (mw_children w)) /\
  (ok = true -> exists st, mw_children w' !! pid = Some (Some st)).
Proof.
  intros Ht. unfold kill_kill. destruct (advance_moved w) as [E1 E2].
  destruct (k_may_kill k (mw_tick w) && bool_decide (is_Some (mw_children w !! pid))) eqn:Hok; [|done].
  apply andb_prop in Hok as [_ Hok%bool_decide_eq_true]. split.
  - split; [done|]. cbn. by rewrite dom_child_exits1, dom_child_exits.
  - intros _. cbn [set_children mw_children].
    assert (is_Some (mw_children (advance k w) !! pid)) as [o Ho].
    { apply elem_of_dom. rewrite E2. by apply elem_of_dom. }
    unfold child_exits. cbn [fst snd]. rewrite Ho. destruct o as [st|]; [by exists st|].
    exists SIGKILL. by rewrite lookup_insert_eq.
Qed.

Lemma force_stop_cases i n name w :
  mgr_tracks w -> mw_nodes w !! i = Some n -> mn_state n = MGR_NODE_RUNNING ->
  let w' := force_stop k i (mn_pid n) name w in
  mgr_tracks w' /\
  (moved w w' (dom (mw_children w)) \/
   exists st, mw_nodes w' = alter (node_ended MGR_NODE_STOPPED st) i (mw_nodes w) /\
     dom (mw_children w') = dom (mw_children w) ∖ {[mn_pid n]}) /\
  (k_may_kill k (mw_tick w) = true -> exists st, mw_nodes w' = alter (node_ended MGR_NODE_STOPPED st) i (mw_nodes w)).
Proof.
  intros Ht Hi Hs. unfold force_stop. pose proof (kill_kill_cases (mn_pid n) w Ht) as Hk.
  assert (k_may_kill k (mw_tick w) = true -> (kill_kill k (mn_pid n) w).1 = true) as Hmay.
  { intros E. unfold kill_kill. cbn. rewrite E. cbn. apply bool_decide_eq_true, elem_of_dom.
    by apply (tk_running _ _ Ht i n). }
  destruct (kill_kill k (mn_pid n) w) as [[|] w1]; destruct Hk as [Hm Hz].
  - destruct (Hz eq_refl) as [st Hst]. unfold waitpid_exited.
    assert (mw_children (advance k w1) !! mn_pid n = Some (Some st)) as Hst'.
    { cbn. clear -Hst. generalize (k_exits k (mw_tick w1)) as l, (mw_children w1) as cs, Hst as H. clear.
      induction l as [|e l IH]; intros cs H; cbn; [done|]. apply IH. unfold child_exits.
      destruct (cs !! e.1) as [[x|]|] eqn:E; [done| |done]. rewrite lookup_insert_ne; [done|congruence]. }
    rewrite Hst'. destruct Hm as [E1 E2]. destruct (advance_moved w1) as [E3 E4].
    set (w2 := set_children _ _).
    assert (moved w w2 (dom (mw_children w) ∖ {[mn_pid n]})) as Hm2.
    { split; [by rewrite <-E1|]. unfold w2. cbn. by rewrite dom_delete_L, dom_child_exits, E2. }
    split; [by apply say_tracks; eapply reaped_tracks|]. destruct Hm2 as [F1 F2].
    cbn [mw_nodes mw_children say upd_node set_nodes]. rewrite F1. split; [right|]; eauto.
  - cbn. split; [by apply (moved_tracks w)|]. split; [by left|]. intros E. by apply Hmay in E.
Qed.

(** What stopping node [i] leaves behind. *)
Definition stopped_node (i : nat) (n : mgr_node) (w w' : mworld) : Prop :=
  exists s st, s <> MGR_NODE_RUNNING /\
    mw_nodes w' = alter (node_ended s st) i (mw_nodes w) /\
    dom (mw_children w') = dom (mw_children w) ∖ {[mn_pid n]}.

Lemma kill_term_moved pid w : moved w (kill_term k pid w).2 (dom (mw_children w)).
Proof. apply advance_moved. Qed.

Lemma stop_node_cases name w i n :
  mgr_tracks w -> find_node name (mw_nodes w) = Some i -> mw_nodes w !! i = Some n ->
  let w' := stop_node k name w in
  mgr_tracks w' /\
  (mn_state n <> MGR_NODE_RUNNING -> moved w w' (dom (mw_children w))) /\
  (mn_state n = MGR_NODE_RUNNING ->
     moved w w' (dom (mw_children w)) \/ stopped_node i n w w') /\
  (mn_state n = MGR_NODE_RUNNING -> (forall t, k_may_kill k t = true) -> stopped_node i n w w').
Proof.
  intros Ht Hf Hi. unfold stop_node. rewrite Hf.
  destruct (refresh_node_cases i w Ht) as [Ht1 Hc]. specialize (Hc n Hi).
  set (w1 := refresh_node k i w) in *. destruct Hc as [[E1 E2]|(st & Hs & E1 & E2)].
  - rewrite E1, Hi. unfold mgr_tracks in Ht1.
    rewrite (node_running_iff _ _ i n Ht1) by by rewrite E1.
    case_bool_decide as Hs; cbn [negb].
    2: { split_and!; [done|done|by intros|by intros]. }
    pose proof (kill_term_moved (mn_pid n) w1) as Hk.
    assert ((forall t, k_may_kill k t = true) -> (kill_term k (mn_pid n) w1).1 = true) as Hmay.
    { intros E. unfold kill_term. cbn. rewrite E. cbn. apply bool_decide_eq_true, elem_of_dom.
      rewrite E2. by apply (tk_running _ _ Ht i n). }
    destruct (kill_term k (mn_pid n) w1) as [ok w2]. cbn [snd fst] in Hk, Hmay.
    assert (mgr_tracks w2) as Ht2 by by apply (moved_tracks w1).
    destruct Hk as [F1 F2]. destruct ok; cbn [negb].
    2: { split_and!; [done|by intros| |]; [|intros _ Ha; by specialize (Hmay Ha)].
         intros _. left. split; cbn; congruence. }
    pose proof (wait_stopped_cases STOP_TRIES i n (md_name (mn_def n)) w2 Ht2) as Hw.
    rewrite F1, E1 in Hw. specialize (Hw Hi Hs).
    destruct (wait_stopped k STOP_TRIES i (mn_pid n) (md_name (mn_def n)) w2) as [[|] w3].
    + destruct Hw as (Ht3 & st & G1 & G2).
      assert (stopped_node i n w w3) by (exists MGR_NODE_STOPPED, st; split_and!; [done|done|by rewrite G2, F2, E2]).
      split_and!; [done|by intros|by intros; right|done].
    + destruct Hw as (Ht3 & G1 & G2).
      destruct (force_stop_cases i n (md_name (mn_def n)) w3 Ht3) as (Ht4 & Hor & Hforce);
        [by rewrite G1, F1, E1|done|].
      set (w4 := force_stop k i (mn_pid n) (md_name (mn_def n)) w3) in *.
      rewrite G1, F1, E1, G2, F2, E2 in Hor. unfold moved in Hor. rewrite G1, F1, E1 in Hor, Hforce.
      assert (forall st, mw_nodes w4 = alter (node_ended MGR_NODE_STOPPED st) i (mw_nodes w) ->
        dom (mw_children w4) = dom (mw_children w) ∖ {[mn_pid n]} -> stopped_node i n w w4) as Hst
        by (intros st ? ?; by exists MGR_NODE_STOPPED, st).
      split_and!; [done|by intros| |].
      * intros _. destruct Hor as [Hor|(st & ? & ?)]; [by left|right; by eapply Hst].
      * intros _ Ha. destruct Hor as [[Hn _]|(st & ? & ?)]; [|by eapply Hst].
        destruct (Hforce (Ha _)) as [st E]. exfalso. rewrite Hn in E.
        assert (alter (node_ended MGR_NODE_STOPPED st) i (mw_nodes w) !! i = Some n) as E' by by rewrite <-E.
        rewrite list_lookup_alter_eq, Hi in E'. cbn in E'. injection E' as E'. by rewrite <-E' in Hs.
  - rewrite E1, list_lookup_alter_eq, Hi. cbn.
    assert (stopped_node i n w (say ("Node " +:+ md_name (mn_def n) +:+ " is not running.") w1)) as Hst
      by (by exists MGR_NODE_EXITED, st).
    split_and!; [done|by intros|by intros; right|done].
Qed.
End proofs.

Lemma init_tracks defs : tracks (mgr_init_nodes defs) ∅.
Proof.
  assert (forall i n, mgr_init_nodes defs !! i = Some n -> exists d, n = new_node d) as H.
  { intros i n. unfold mgr_init_nodes. destruct defs as [l|]; [|done].
    rewrite list_lookup_fmap. intros (d & _ & ->)%fmap_Some. eauto. }
  split.
  - intros i n Hi Hn. destruct (H i n Hi) as [d ->]. done.
  - intros i n Hi _. by destruct (H i n Hi) as [d ->].
  - intros i j n m Hi Hj Hn. destruct (H i n Hi) as [d ->]. done.
  - intros p Hp. set_solver.
Qed.
Section session.
Context (k : kernel) `{!KernelLaws k}.

Lemma find_node_lookup name l i :
  find_node name l = Some i -> exists n, l !! i = Some n /\ md_name (mn_def n) = name.
Proof.
  unfold find_node. destruct (String.eqb name ""); [done|].
  intros (n & Hn & Hp & _)%find_idx_Some. exists n. split; [done|]. by bool_hyps.
Qed.

Lemma stop_node_tracks name w : mgr_tracks w -> mgr_tracks (stop_node k name w).
Proof.
  intros Ht. destruct (find_node name (mw_nodes w)) as [i|] eqn:Hf; [|unfold stop_node; by rewrite Hf].
  destruct (find_node_lookup _ _ _ Hf) as (n & Hn & _). by apply (stop_node_cases k name w i n).
Qed.

Lemma restart_node_tracks name w : mgr_tracks w -> mgr_tracks (restart_node k name w).
Proof.
  intros Ht. unfold restart_node. destruct (find_node name _) as [i|]; [|done].
  destruct (mw_nodes w !! i) as [n|]; [|done]. apply start_node_tracks; [done|].
  destruct (decide _); [by apply stop_node_tracks|done].
Qed.

Lemma handle_command_tracks line w : mgr_tracks w -> mgr_tracks (handle_command k line w).
Proof.
  intros Ht. unfold handle_command. apply (refresh_nodes_tracks k) in Ht.
  destruct (parse_command (trim line));
    auto using print_help_tracks, show_nodes_tracks, start_node_tracks, stop_node_tracks, restart_node_tracks.
Qed.

Lemma mgr_loop_ok fuel input w :
  (String.length input < fuel)%nat -> mgr_tracks w ->
  exists w', mgr_loop k fuel input w = Some w' /\ mgr_tracks w'.
Proof.
  revert input w. induction fuel as [|fuel IH]; intros input w Hf Ht; [lia|]. cbn [mgr_loop].
  destruct (mw_keep w); [|by exists w]. apply (say_tracks "nos-mgr> "), (advance_tracks k) in Ht.
  set (w1 := advance k _) in *. destruct input as [|c s]; [by exists w1|].
  pose proof (fgets_shorter 254 c s) as Hl. unfold LINE_MAX. cbn [Nat.sub].
  destruct (fgets 255 (String c s)) as [line rest]. cbn [snd] in Hl. cbn in Hf.
  apply IH; [lia|]. by apply handle_command_tracks.
Qed.

End session.

(** C15. The manager's whole session: whatever is typed, whenever children
    exit and signals arrive, the loop ends with the input, and at its end
    the nodes shown as running and the children not yet reaped correspond
    one to one: no child is lost, and no node runs twice. *)
Theorem mgr_session_tracks k `{!KernelLaws k} defs input :
  exists w, mgr_main k (S (String.length input)) defs input = Some w /\ mgr_tracks w.
Proof.
  unfold mgr_main. set (w0 := say _ _).
  destruct (mgr_loop_ok k (S (String.length input)) input w0) as (w & -> & Ht); [lia| |].
  - apply (init_tracks defs).
  - eexists. split; [done|]. by apply say_tracks, refresh_nodes_tracks.
Qed.

(** C30. [stop_node] on a running node the manager may signal: within thirty
    polls or by force the child is gone and reaped, the node is no longer
    running, and no other node or child is touched. *)
Theorem stop_node_spec k name w i n :
  mgr_tracks w -> find_node name (mw_nodes w) = Some i -> mw_nodes w !! i = Some n ->
  mn_state n = MGR_NODE_RUNNING -> (forall t, k_may_kill k t = true) ->
  exists s st, s <> MGR_NODE_RUNNING /\
    mw_nodes (stop_node k name w) = alter (node_ended s st) i (mw_nodes w) /\
    dom (mw_children (stop_node k name w)) = dom (mw_children w) ∖ {[mn_pid n]}.
Proof.
  intros Ht Hf Hi Hs Hk. destruct (stop_node_cases k name w i n Ht Hf Hi) as (_ & _ & _ & H).
  exact (H Hs Hk).
Qed.

(** ** Concrete inputs *)

(** Children ignore SIGTERM and never exit by themselves. *)
Definition demo_kernel : kernel :=
  Kernel (fun _ => []) (fun _ => false) (fun _ _ => true)
    (fun t cs => if decide (is_Some (cs !! (Z.of_nat t + 100))) then None else Some (Z.of_nat t + 100))
    (fun _ => true) (fun t => Z.of_nat t) (fun _ => "error"%string).

#[local] Instance demo_kernel_laws : KernelLaws demo_kernel.
Proof.
  split. intros t cs p. cbn. case_decide as H; [done|]. intros [= <-]. split; [lia|].
  by apply eq_None_not_Some.
Qed.

Definition demo_defs : list nos_mgr_node_def := [MgrDef "A" "./a" "/tmp/a"; MgrDef "B" "./b" "/tmp/b"].

Definition demo_mgr_running : mworld :=
  start_node demo_kernel "B" (MWorld (mgr_init_nodes (Some demo_defs)) true ∅ 0 []).

Lemma demo_mgr_running_tracks : mgr_tracks demo_mgr_running.
Proof. apply start_node_tracks; [exact _|]. apply (init_tracks (Some demo_defs)). Qed.

Lemma mgr_session_tracks_witness :
  exists w, mgr_main demo_kernel 29 (Some demo_defs) "start A
stop A
 quit 
start "%string = Some w /\ mgr_tracks w.
Proof. exact (mgr_session_tracks demo_kernel (Some demo_defs) "start A
stop A
 quit 
start "%string). Defined.

Lemma stop_node_spec_witness :
  (mn_state <$> mw_nodes (stop_node demo_kernel "B" demo_mgr_running) !! 1%nat) <> Some MGR_NODE_RUNNING.
Proof.
  destruct (mw_nodes demo_mgr_running !! 1%nat) as [n|] eqn:E; [|vm_compute in E; discriminate E].
  assert (mn_state n = MGR_NODE_RUNNING) as Hs by (vm_compute in E; by injection E as <-).
  destruct (stop_node_spec demo_kernel "B" demo_mgr_running 1 n demo_mgr_running_tracks
    ltac:(by vm_compute) E Hs ltac:(done)) as (s & st & Hns & Hn & _).
  rewrite Hn, list_lookup_alter_eq, E. cbn. intros [= H]. by apply Hns.
Defined.
