(* ===== verification/Cli.v ===== *)
(** * The command line of a node (src/core/nos_cli.c)

    A thread that reads lines, from a terminal through the line editor
    (LineEdit) or from a file, finds the command a line starts with and runs
    its handler.  Handlers show the state of the other parts, post test
    messages, set log levels and load, reload and unload components.

    A handler gets the address behind the command's name in the line buffer,
    or NULL; its argument is therefore the buffer's memory from there on,
    terminators and stale bytes included. *)

From Stdlib Require Import Ascii.
From stdpp Require Import base list sets gmap strings relations pretty.
From S2P Require Import Prelude CString CArray Ring Mem Buffer Service Node LineEdit TimerHeap Timer Scheduler RunLoop Kv Stats Log Refs Shm Ipc Plugin Post Threads NodeMgr.
Import Registry.

(** ** State *)

(** What a command prints: text, or the table another part dumps. *)
Inductive output :=
  | O_text (s : string)
  | O_kv (rows : list (string * nat * nat * nat * Z))
  | O_stats (rows : list (string * string * Z) * nat)
  | O_ipc (rows : list (string * string * Z * nat * Z * Z) * list (string * conn_counters)).

Record cli := Cli {
  cl_mgr : mgr;
  cl_ipc : ipc_state;
  cl_kv : kv_db;
  cl_stats : stats;
  cl_keep : bool;              (* g_node_ctx.keep_running *)
  cl_out : list output;
}.

Definition set_mgr (m : mgr) (c : cli) : cli :=
  Cli m (cl_ipc c) (cl_kv c) (cl_stats c) (cl_keep c) (cl_out c).
Definition set_world (n : node) (x : ipc_state) (c : cli) : cli :=
  Cli (on_node (fun _ => n) (cl_mgr c)) x (cl_kv c) (cl_stats c) (cl_keep c) (cl_out c).
Definition print (o : output) (c : cli) : cli :=
  Cli (cl_mgr c) (cl_ipc c) (cl_kv c) (cl_stats c) (cl_keep c) (cl_out c ++ [o]).
Definition say (s : string) (c : cli) : cli := print (O_text s) c.
Definition the_node (c : cli) : node := m_node (cl_mgr c).

Inductive cmd :=
  | do_help | do_show_components | do_show_services | do_show_db | do_show_memory | do_show_ipc
  | do_show_stats | do_log | do_perf_start | do_perf_remote_start | do_load | do_unload | do_reload
  | do_quit.

Record nos_cli_cmd := CliCmd { cc_name : string; cc_help : string; cc_handler : cmd }.

Definition g_cli_cmds : list nos_cli_cmd := [
  CliCmd "help" "Show this help message" do_help;
  CliCmd "show components" "List all loaded components" do_show_components;
  CliCmd "show services" "List all service routes" do_show_services;
  CliCmd "show db" "List all KV tables status" do_show_db;
  CliCmd "show memory" "Show process memory consumption" do_show_memory;
  CliCmd "show ipc" "Show IPC connection status" do_show_ipc;
  CliCmd "show stats" "Show registered statistics" do_show_stats;
  CliCmd "log" "Manage logging (stats, level)" do_log;
  CliCmd "perf start" "Start IPC performance test" do_perf_start;
  CliCmd "perf remote" "Start Cross-Process IPC test" do_perf_remote_start;
  CliCmd "load" "Load a component by name" do_load;
  CliCmd "unload" "Unload a component by name" do_unload;
  CliCmd "reload" "Reload a component (Stateless check)" do_reload;
  CliCmd "quit" "Shutdown the node" do_quit
].

Definition cmd_names : list string := cc_name <$> g_cli_cmds.

(** The names of the loaded components. *)
Definition loaded_names (n : node) : option (list string) :=
  mapM (fun i => c ← li_comp i; c_name <$> n_comps n !! c) (live (n_loaded n)).

(** ** Showing *)

Definition comp_status_str (st : nos_comp_status) : string :=
  match st with
  | NOS_COMP_ST_LOADED => "Loaded"
  | NOS_COMP_ST_INITED => "Inited"
  | NOS_COMP_ST_ACTIVE => "Active"
  | NOS_COMP_ST_STOPPED => "Stopped"
  | NOS_COMP_ST_ERROR => "Error"
  end.

Definition say_all (l : list string) (c : cli) : cli := foldl (fun c s => say s c) c l.

(** [%-<n>s %-<n>s ...] *)
Fixpoint columns (l : list (nat * string)) : string :=
  match l with
  | [] => ""
  | [(w, s)] => pad_right w s
  | (w, s) :: l => pad_right w s +:+ " " +:+ columns l
  end.

Definition rule70 : string := "----------------------------------------------------------------------".

Definition help (c : cli) : cli :=
  say_all (["--- NOS Node CLI Commands ---"%string] ++
           ((fun e => "  " +:+ pad_right 18 (cc_name e) +:+ " - " +:+ cc_help e) <$> g_cli_cmds) ++
           ["-----------------------------"%string]) c.

Definition component_row (n : node) (i : loaded_comp_info) : outcome string :=
  c ← deref (li_comp i); C ← deref (n_comps n !! c);
  th ← deref (li_owner_thread i); T ← deref (n_threads n !! th);
  Done (columns [(15, c_name C); (4, pretty (c_id C)); (10, comp_status_str (c_status C));
                 (15, li_lib_name i); (12, t_name T)]).

Definition show_components (c : cli) : outcome cli :=
  rows ← mapM (component_row (the_node c)) (live (n_loaded (the_node c)));
  Done (say_all ([columns [(15, "Name"%string); (4, "ID"%string); (10, "Status"%string); (15, "Model-Lib"%string); (12, "Thread"%string)];
                  rule70] ++ rows) c).

Definition location (self : string) (s : nos_service_def) : string :=
  if String.eqb (sd_node_name s) "Platform" then "Embedded"
  else if String.eqb (sd_node_name s) self then "Local" else "Remote".

Definition service_row (self : string) (s : nos_service_def) : string :=
  columns [(18, sd_service_name s); (8, pretty (sd_service_id s)); (10, sd_node_name s);
           (8, pretty (sd_provider_comp_id s)); (10, location self s)].

Definition show_services (c : cli) : outcome cli :=
  d ← deref (n_def (the_node c));
  Done (say_all ([columns [(18, "Name"%string); (8, "Svc-ID"%string); (10, "Node"%string); (8, "Comp-ID"%string); (10, "Location"%string)];
                  rule70] ++ (service_row (nd_name d) <$> nd_services d)) c).

(** [sizeof(nos_component_t)], and the guess at the private data by the
    library's name. *)
Definition SIZEOF_COMPONENT : Z := 72.

Definition priv_mem (lib : string) : Z :=
  if strstr lib "libcomp-1.so" then 16 else if strstr lib "libcomp-2.so" then 32 else 0.

Definition memory_row (name : string) (bytes : Z) (kind : string) : string :=
  columns [(20, name); (15, pretty bytes); (15, kind)].

Definition component_mem (n : node) (i : loaded_comp_info) : outcome (string * Z) :=
  c ← deref (li_comp i); C ← deref (n_comps n !! c);
  Done (c_name C, SIZEOF_COMPONENT + priv_mem (li_lib_name i))%Z.

Definition rule60 : string := "------------------------------------------------------------".

Definition show_memory (c : cli) : outcome cli :=
  let n := the_node c in
  let log_mem := nos_log_get_mem_usage in
  let kv_mem := nos_kv_get_total_mem_usage (cl_kv c) in
  let buf_mem := nos_buffer_get_total_mem_usage (n_pool n) in
  let sch_mem := nos_scheduler_get_total_mem_usage n in
  comps ← mapM (component_mem n) (live (n_loaded n));
  let total := foldr (fun p t => p.2 + t)%Z 0%Z comps in
  Done (say_all (["--- NOS Process Memory Consumption ---"%string;
                  columns [(20, "Module/Component"%string); (15, "Usage (Bytes)"%string); (15, "Type"%string)]; rule60;
                  memory_row "SVC_LOG" log_mem "Embedded Service";
                  memory_row "SVC_KV_DB" kv_mem "Embedded Service";
                  memory_row "Buffer Pool" buf_mem "Infrastructure";
                  memory_row "Scheduler/Threads" sch_mem "Infrastructure"] ++
                 ((fun p => memory_row p.1 p.2 "Component") <$> comps) ++
                 [rule60; columns [(20, "Total Accounted"%string); (15, pretty (log_mem + kv_mem + buf_mem + sch_mem + total)%Z)]]) c).

(** The tables other parts print. *)
Definition show_db (c : cli) : cli := print (O_kv (nos_kv_dump_all (cl_kv c))) c.

Section show.
Context (k : kernel) (load : nat -> Z) (run_read : nat -> nat -> Z).

Definition show_ipc (c : cli) : cli :=
  print (O_ipc (nos_ipc_dump_stats (k_clock k (i_tick (cl_ipc c))) (cl_ipc c))) c.

(** With an argument, the statistics of one module. *)
Definition show_stats (args : option chars) (c : cli) : cli :=
  print (O_stats (match args with
                  | Some (a :: l) => nos_stats_dump_module load run_read (text_of (a :: l)) (cl_stats c)
                  | _ => nos_stats_dump_all load run_read (cl_stats c)
                  end)) c.
End show.

(** ** Test messages *)

Definition SVC_PERF_RX : Z := 110.
Definition SVC_PING : Z := 111.
Definition SVC_REMOTE_PING : Z := 113.

(** [strncmp(args, p, strlen(p)) == 0] *)
Definition arg_starts (p : string) (args : chars) : bool := strncmp0 (String.length p) args (chars_of p).

Definition sizeof_msg (words : nat) : Z := Z.of_nat (MSG_SIZE + 4 * words).

(** The fields a test message has assigned; the others are what the chunk
    held before. *)
Definition test_fields (service code : Z) (words : nat) : list (msg_field * Z) :=
  [(F_magic, NOS_IPC_MAGIC); (F_dst_service, service); (F_msg_code, code);
   (F_payload_len, Z.of_nat (4 * words))].

Section handlers.
Context `{!Plugins} (ld : loader) (rs : resources) (k : kernel).
Context (load : nat -> Z) (run_read : nat -> nat -> Z).
#[local] Instance cli_transport : IpcTransport ipc_state := ipc_transport k.

(** Posts [words] to [service]; [text] is printed when there is a buffer. *)
Definition post_test (service code : Z) (words : list Z) (text : string) (c : cli) : cli :=
  let '(sent, n, x) := post (sizeof_msg (length words)) (test_fields service code (length words))
                         (u32_bytes words) (the_node c) (cl_ipc c) in
  let c := set_world n x c in
  if sent then say text c else c.

Definition perf_start (args : option chars) (c : cli) : cli :=
  let count := match args with Some a => u32 (atoi a) | None => 10000 end%Z in
  let count := if (count =? 0)%Z then 10000%Z else count in
  post_test SVC_PING 3001 [count]
    ("[CLI] Triggering specialized performance test with " +:+ pretty count +:+ " iterations...") c.

(** The iterations, the payload size and whether to sweep. *)
Definition perf_remote_args (args : option chars) : Z * Z * bool :=
  match args with
  | Some (_ :: _ as a) =>
      if arg_starts "sweep" a then (match scan_u (drop 5 a) with Some (v, _) => v | None => 10000%Z end, 0%Z, true)
      else match scan_u a with
           | Some (v, rest) => (v, match scan_u rest with Some (w, _) => w | None => 0%Z end, false)
           | None => (10000, 0, false)%Z
           end
  | _ => (10000, 0, false)%Z
  end.

Definition perf_remote_start (args : option chars) (c : cli) : cli :=
  let '(count, payload, sweep) := perf_remote_args args in
  let count := if (count =? 0)%Z then 10000%Z else count in
  let payload := if sweep then (2 ^ 32 - 1)%Z else payload in
  post_test SVC_REMOTE_PING 3001 [count; payload]
    ("[CLI] Triggering cross-process performance test with " +:+ pretty count +:+ " iterations, " +:+
     (if sweep then "payload sweep starting at " else "payload ") +:+
     pretty (if sweep then 32 else payload)%Z +:+ " bytes...") c.

(** ** Logging *)

Definition str_to_level (s : chars) : nos_log_level :=
  if strcaseeq s (chars_of "debug") then NOS_LOG_LEVEL_DEBUG
  else if strcaseeq s (chars_of "info") then NOS_LOG_LEVEL_INFO
  else if strcaseeq s (chars_of "warn") then NOS_LOG_LEVEL_WARN
  else if strcaseeq s (chars_of "error") then NOS_LOG_LEVEL_ERROR
  else NOS_LOG_LEVEL_INFO.

Definition WORD_SIZE : nat := 64.

(** [sscanf(s, "%s %s", sub, val)]: the words read; a word of 64 characters
    or more is written past the end of its array. *)
Definition scan_words (s : chars) : outcome (list chars) :=
  match scan_s s with
  | None => Done []
  | Some (a, rest) =>
      if WORD_SIZE <=? length a then Undef
      else match scan_s rest with
           | None => Done [a]
           | Some (b, _) => if WORD_SIZE <=? length b then Undef else Done [a; b]
           end
  end.

Definition comp_level_msg (id : Z) (level : nos_log_level) : string :=
  "Component ID [" +:+ pretty id +:+ "] filter level set to " +:+ level_to_str level.

Definition log_usage : string :=
  "Usage: log stats | log level <DEBUG|INFO|WARN|ERROR> | log level <comp_id> <level>".

(** [mem] is the memory from [args + 6] on. *)
Definition log_level (mem : chars) (c : cli) : outcome cli :=
  s ← deref (cstr mem);
  words ← scan_words s;
  if negb (log_found rs) then Done (say "Log service not found." c)
  else
    match words with
    | [sub] => Done (set_mgr (on_log (nos_set_level_impl (str_to_level sub)) (cl_mgr c)) c)
    | [sub; val] =>
        let id := u32 (atoi sub) in
        let level := str_to_level val in
        Done (set_mgr (on_log (nos_set_comp_level_impl (comp_level_msg id level) id level) (cl_mgr c)) c)
    | _ => Done (say "Usage: log level <level> | log level <comp_id> <level>" c)
    end.

Definition log_stats (c : cli) : cli :=
  let dropped := nos_log_get_dropped_count (m_log (cl_mgr c)) in
  say_all (["--- NOS Logging Statistics ---"%string; "Dropped Messages: " +:+ pretty dropped] ++
           (if (0 <? dropped)%Z then
              ["Warning: High log volume or slow consumer. Consider increasing LOG_BUFFER_SIZE."%string]
            else []) ++ ["------------------------------"%string]) c.

Definition log_spam (args : chars) (c : cli) : cli :=
  let count := match drop 4 args with _ :: s => u32 (atoi s) | [] => 2000%Z end in
  post_test SVC_PERF_RX 3002 [count]
    ("[CLI] Triggering spam logging test with " +:+ pretty count +:+ " messages...") c.

Definition log_command (mem : option chars) (c : cli) : outcome cli :=
  match mem with
  | None => Done (say log_usage c)
  | Some mem =>
      args ← deref (cstr mem);
      if arg_starts "stats" args then Done (log_stats c)
      else if arg_starts "spam" args then Done (log_spam args c)
      else if arg_starts "level" args then log_level (drop 6 mem) c
      else Done c
  end.

(** ** Running a command *)

(** [node_reload_component] and [node_unload_component], their status
    ignored; NULL does nothing. *)
Definition run_manager (f : string -> mgr -> outcome (nos_status * mgr)) (args : option chars) (c : cli)
    : outcome cli :=
  match args with
  | None => Done c
  | Some a => '(_, m) ← f (text_of a) (cl_mgr c); Done (set_mgr m c)
  end.

(** The argument as a string. *)
Definition arg_string (mem : option chars) : outcome (option chars) :=
  match mem with None => Done None | Some m => Some <$> deref (cstr m) end.

Definition run_cmd (f : cmd) (mem : option chars) (c : cli) : outcome cli :=
  match f with
  | do_help => Done (help c)
  | do_show_components => show_components c
  | do_show_services => show_services c
  | do_show_db => Done (show_db c)
  | do_show_memory => show_memory c
  | do_show_ipc => Done (show_ipc k c)
  | do_show_stats => args ← arg_string mem; Done (show_stats load run_read args c)
  | do_log => log_command mem c
  | do_perf_start => args ← arg_string mem; Done (perf_start args c)
  | do_perf_remote_start => args ← arg_string mem; Done (perf_remote_start args c)
  | do_load | do_reload => args ← arg_string mem; run_manager (node_reload_component ld rs) args c
  | do_unload => args ← arg_string mem; run_manager (node_unload_component rs) args c
  | do_quit => Done (Cli (cl_mgr c) (cl_ipc c) (cl_kv c) (cl_stats c) false (cl_out c))
  end.

(** Whether a line is entry [e]'s: its name, or its name and a space. *)
Definition cmd_matches (line : chars) (e : nos_cli_cmd) : bool :=
  let name := chars_of (cc_name e) in
  bool_decide (line = name) ||
  (strncmp0 (length name) line name && bool_decide (line !! length name = Some " "%char)).

(** The first entry that matches, and the address behind its name. *)
Definition dispatch (line buf : chars) : option (cmd * option chars) :=
  e ← find_idx (cmd_matches line) g_cli_cmds ≫= fun i => g_cli_cmds !! i;
  let nlen := String.length (cc_name e) in
  Some (cc_handler e, if decide (line !! nlen = Some " "%char) then Some (drop (S nlen) buf) else None).

Definition run_line (tty : bool) (line buf : chars) (c : cli) : outcome cli :=
  match dispatch line buf with
  | Some (f, mem) => run_cmd f mem c
  | None => Done (if tty then say ("Unknown command: " +:+ text_of line) c else c)
  end.

(** ** The thread *)

(** [fgets(buf, sizeof(buf), stdin) ? strlen(buf) : -1] *)
Definition read_file (buf input : chars) : outcome (Z * chars * chars) :=
  match input with
  | [] => Done (-1, [], buf)%Z
  | _ =>
      let '(line, rest) := fgets (LINE_SIZE - 1) (text_of input) in
      let buf := overwrite 0 (chars_of line ++ [NUL]) buf in
      s ← deref (cstr buf);
      Done (Z.of_nat (length s), chars_of rest, buf)
  end.

Definition read_tty (h : history) (prompt : string) (buf input : chars) (c : cli)
    : outcome (Z * chars * chars * cli) :=
  '(len, rest, e) ← advanced_get_line cmd_names (loaded_names (the_node c)) h prompt buf input;
  Done (len, rest, ed_buf e, say_all (ed_out e) c).

Definition read_line (tty : bool) (h : history) (prompt : string) (buf input : chars) (c : cli)
    : outcome (Z * chars * chars * cli) :=
  if tty then read_tty h prompt buf input c
  else '(len, rest, buf) ← read_file buf input; Done (len, rest, buf, c).

(** [buf[strcspn(buf, "\n")] = 0] *)
Definition cut_newline (buf : chars) : outcome chars :=
  s ← deref (cstr buf); Done (<[strcspn "010" s := NUL]> buf).

(** What the other threads and signals do, the [t]-th time this one waits. *)
Context (others : nat -> cli -> cli).

Fixpoint cli_loop (fuel : nat) (tty : bool) (prompt : string) (t : nat) (input buf : chars)
    (h : history) (c : cli) : outcome cli :=
  match fuel with
  | O => Fuel
  | S fuel =>
      if negb (cl_keep c) then Done c
      else
        '(len, input, buf, c) ← read_line tty h prompt buf input c;
        let c := others t c in
        if (len <? 0)%Z then Done c
        else if (len =? 0)%Z then cli_loop fuel tty prompt (S t) input buf h c
        else
          buf ← (if tty then Done buf else cut_newline buf);
          line ← deref (cstr buf);
          c ← run_line tty line buf c;
          cli_loop fuel tty prompt (S t) input buf (history_add line h) c
  end.

Definition PROMPT_SIZE : nat := 64.

Definition node_cli_thread_entry (fuel : nat) (tty : bool) (name : string) (input buf : chars) (c : cli)
    : outcome cli :=
  let prompt := "nos-node(" +:+ name +:+ ")> " in
  if PROMPT_SIZE <=? String.length prompt then Undef
  else
    let c := if tty then say "[CLI] Management interface started. (Tab for completion, Up for history)" c else c in
    cli_loop fuel tty prompt 0 input buf history_static c.
End handlers.

(** ** Finding the command *)

(** A line is an entry's when, both ended by a space, the name starts it. *)
Lemma cmd_matches_prefix line e :
  cmd_matches line e = bool_decide (chars_of (cc_name e) ++ [" "%char] `prefix_of` line ++ [" "%char]).
Proof.
  unfold cmd_matches. set (name := chars_of (cc_name e)). rewrite strncmp0_prefix.
  rewrite <-bool_decide_and, <-bool_decide_or. apply bool_decide_ext. split.
  - intros [->|[[l ->] Hs]]; [done|]. rewrite lookup_app_r, Nat.sub_diag in Hs by done.
    destruct l as [|a l]; [done|]. cbn in Hs. injection Hs as ->. exists (l ++ [" "%char]).
    by rewrite <-!app_assoc.
  - intros [l E]. destruct l as [|x l] using rev_ind.
    + left. rewrite app_nil_r in E. by apply app_inj_tail in E as [-> _].
    + right. rewrite app_assoc in E. apply app_inj_tail in E as [-> _]. rewrite <-app_assoc. split.
      * by apply prefix_app_r.
      * by rewrite lookup_app_r, Nat.sub_diag.
Qed.

(** No name, ended by a space, starts another. *)
Lemma names_apart i j e e' :
  g_cli_cmds !! i = Some e -> g_cli_cmds !! j = Some e' ->
  chars_of (cc_name e) ++ [" "%char] `prefix_of` chars_of (cc_name e') ++ [" "%char] -> i = j.
Proof.
  assert (forallb (fun p => forallb (fun q => bool_decide (p.1 = q.1) ||
    negb (bool_decide (chars_of (cc_name p.2) ++ [" "%char] `prefix_of` chars_of (cc_name q.2) ++ [" "%char])))
    (imap pair g_cli_cmds)) (imap pair g_cli_cmds) = true) as H by (vm_compute; reflexivity).
  intros Hi Hj Hp. rewrite forallb_forall in H.
  assert (forall k x, g_cli_cmds !! k = Some x -> In (k, x) (imap pair g_cli_cmds)) as Hin.
  { intros k x Hk. apply list_elem_of_In, list_elem_of_lookup. exists k. by rewrite list_lookup_imap, Hk. }
  specialize (H _ (Hin _ _ Hi)). rewrite forallb_forall in H. specialize (H _ (Hin _ _ Hj)). cbn [fst snd] in H.
  rewrite (bool_decide_eq_true_2 _ Hp), orb_false_r in H. by apply bool_decide_eq_true in H.
Qed.

Lemma matches_unique line i j e e' :
  g_cli_cmds !! i = Some e -> g_cli_cmds !! j = Some e' ->
  cmd_matches line e = true -> cmd_matches line e' = true -> i = j.
Proof.
  rewrite !cmd_matches_prefix. intros Hi Hj He%bool_decide_eq_true He'%bool_decide_eq_true.
  destruct (prefix_weak_total _ _ _ He He') as [H|H]; [by eapply names_apart|symmetry; by eapply names_apart].
Qed.

Lemma cstr_drop m s i : cstr m = Some s -> i <= length s -> cstr (drop i m) = Some (drop i s).
Proof.
  intros (Hn & rest & ->)%cstr_Some Hi. rewrite drop_app_le by done. apply cstr_nul.
  intros Hin. apply Hn. rewrite <-(take_drop i s). apply elem_of_app. by right.
Qed.

(** The entry a line selects, and what its handler gets. *)
Definition selects (line buf : chars) (f : cmd) (mem : option chars) : Prop :=
  exists e, e ∈ g_cli_cmds /\ cc_handler e = f /\
    ((line = chars_of (cc_name e) /\ mem = None) \/
     exists arg m, line = chars_of (cc_name e) ++ " "%char :: arg /\ mem = Some m /\
       m = drop (S (length (chars_of (cc_name e)))) buf /\ cstr m = Some arg).

Lemma dispatch_selects line buf f mem :
  cstr buf = Some line -> dispatch line buf = Some (f, mem) -> selects line buf f mem.
Proof.
  intros Hb. unfold dispatch. destruct (find_idx _ _) as [i|] eqn:Hi; [|done]. cbn [mbind option_bind].
  apply find_idx_Some in Hi as (e & He & Hm & _). rewrite He. cbn.
  rewrite length_chars_of. intros [= <- <-]. exists e. split; [by eapply list_elem_of_lookup_2|]. split; [done|].
  unfold cmd_matches in Hm. set (name := chars_of (cc_name e)) in *.
  apply orb_true_iff in Hm as [Hl%bool_decide_eq_true|[Hp Hs%bool_decide_eq_true]%andb_prop].
  - left. split; [done|]. rewrite decide_False; [done|]. rewrite Hl, lookup_ge_None_2 by done. done.
  - right. rewrite decide_True by done. rewrite strncmp0_prefix in Hp. apply bool_decide_eq_true in Hp as [l ->].
    rewrite lookup_app_r, Nat.sub_diag in Hs by done. destruct l as [|a arg]; [done|]. injection Hs as ->.
    exists arg, (drop (S (length name)) buf). split_and!; [done..|].
    rewrite (cstr_drop _ _ _ Hb) by (rewrite length_app; cbn; lia).
    change (name ++ " "%char :: arg) with (name ++ [" "%char] ++ arg). rewrite app_assoc.
    by rewrite drop_app_length' by (rewrite length_app; cbn; lia).
Qed.

Lemma selects_dispatch line buf f mem :
  selects line buf f mem -> dispatch line buf = Some (f, mem).
Proof.
  intros (e & [i He]%list_elem_of_lookup & <- & Hor).
  assert (cmd_matches line e = true) as Hm.
  { rewrite cmd_matches_prefix. apply bool_decide_eq_true. destruct Hor as [[-> _]|(arg & m & -> & _)]; [done|].
    exists (arg ++ [" "%char]). by rewrite <-!app_assoc. }
  unfold dispatch. destruct (find_idx (cmd_matches line) g_cli_cmds) as [j|] eqn:Hj.
  - apply find_idx_Some in Hj as (e' & He' & Hm' & _). assert (i = j) as <- by by eapply matches_unique.
    cbn [mbind option_bind]. rewrite He. cbn. rewrite length_chars_of. destruct Hor as [[-> ->]|(arg & m & -> & -> & -> & _)].
    + rewrite decide_False; [done|]. by rewrite lookup_ge_None_2.
    + rewrite decide_True; [done|]. by rewrite lookup_app_r, Nat.sub_diag.
  - apply find_idx_None in Hj. by rewrite (Forall_lookup_1 _ _ _ _ Hj He) in Hm.
Qed.

(** C29. A command line selects at most one command, and the search for it
    finds exactly that one: the entry whose name is the line, run without an
    argument, or whose name and a space start the line, run on the rest of
    the line. *)
Theorem dispatch_spec line buf f mem :
  cstr buf = Some line -> (dispatch line buf = Some (f, mem) <-> selects line buf f mem).
Proof. intros Hb. split; [by apply dispatch_selects|apply selects_dispatch]. Qed.

(** ** The manager's invariant across commands *)

Definition test_services : list Z := [SVC_PERF_RX; SVC_PING; SVC_REMOTE_PING].

(** A service the manifest does not place on another node. *)
Definition here (d : nos_node_def) (id : Z) : Prop :=
  forall s, s ∈ nd_services d -> sd_service_id s = id -> sd_node_name s = nd_name d.

(** What the commands rely on: the manager's invariant, library names that
    fit the loader's path, and that the test services the manifest does not
    place on other nodes are not routed there. *)
Record cli_ok (d : nos_node_def) (m : mgr) : Prop := {
  co_ready : manager_ready d m;
  co_libs i : i ∈ live (n_loaded (m_node m)) -> String.length ("./" +:+ li_lib_name i) < LIB_PATH_MAX;
  co_local id : id ∈ test_services -> here d id -> not_remote id (m_node m);
}.

Lemma cli_ok_log d f m : cli_ok d m -> cli_ok d (on_log f m).
Proof. intros [[[] ?] ? ?]. split; [split; [by split|done]|done..]. Qed.

Lemma cli_ok_same d n' m :
  same_table (m_node m) n' -> dyn_ok n' -> cli_ok d m -> cli_ok d (on_node (fun _ => n') m).
Proof.
  intros Hs Hd [[Hm Hdef] Hl Hr]. split; cbn.
  - split; [by apply (mgr_ok_same [] m)|]. cbn. by rewrite (st_def _ _ Hs).
  - by rewrite (st_loaded _ _ Hs).
  - intros id Hid Hh. unfold not_remote. rewrite (st_registry _ _ Hs). by apply Hr.
Qed.

Lemma cli_ok_act d n' m : loop_act (m_node m) n' -> cli_ok d m -> cli_ok d (on_node (fun _ => n') m).
Proof.
  intros Hs Hc. destruct (mgr_ok_dyn _ _ (proj1 (co_ready _ _ Hc))) as [Hb Hh].
  destruct (loop_act_ok _ _ Hs Hb Hh) as (? & ? & ?). by apply cli_ok_same.
Qed.

Lemma on_node_id m : on_node (fun _ => m_node m) m = m.
Proof. by destruct m. Qed.

Lemma cli_ok_status d c s m : cli_ok d m -> cli_ok d (on_node (upd_comp c (set_status s)) m).
Proof.
  intros [[Hm Hdef] Hl Hr]. split; cbn; [|done..]. split; [|done].
  destruct (dyn_ok_comps (alter (set_status s) c) _ (mgr_ok_dyn _ _ Hm)) as [Hb Hh].
  destruct Hm as [_ _ Ht Ho]. split; cbn; [exact Hb|exact Hh| |exact Ho].
  apply (table_ok_comps [] _ (alter (set_status s) c) (m_node m)); [done| | | |done].
  - intros c' _. destruct (decide (c = c')) as [<-|]; [|by rewrite lookup_alter_ne].
    rewrite lookup_alter_eq. by destruct (n_comps (m_node m) !! c).
  - apply Ht.
  - intros c'. rewrite lookup_alter_is_Some. apply Ht.
Qed.

Lemma cli_ok_threads d n' m : rtc thread_step (m_node m) n' -> cli_ok d m -> cli_ok d (on_node (fun _ => n') m).
Proof.
  intros Hs. remember (m_node m) as n eqn:E. revert m E. induction Hs as [n|n n1 n2 Hs _ IH]; intros m -> Hc.
  - by rewrite on_node_id.
  - change (on_node (fun _ => n2) m) with (on_node (fun _ => n2) (on_node (fun _ => n1) m)).
    apply IH; [done|]. inversion Hs as [? ? Ha|c s]; subst; [by apply cli_ok_act|by apply cli_ok_status].
Qed.

Lemma cli_ok_api d n' m : rtc api_step (m_node m) n' -> cli_ok d m -> cli_ok d (on_node (fun _ => n') m).
Proof. intros Hs. apply cli_ok_threads. eapply rtc_subrel; [|exact Hs]. intros ? ? H. by apply ts_act, la_api. Qed.

(** *** The manager's commands *)

Lemma cli_ok_unload `{Hpl : Plugins, !PluginLaws} d rs name m :
  cli_ok d m -> exists st m', node_unload_component rs name m = Done (st, m') /\ cli_ok d m'.
Proof.
  intros Hc. pose proof (co_ready _ _ Hc) as [Hm Hd].
  destruct (find_named name (m_node m)) as [[i info]|] eqn:Hf.
  2: { exists NOS_ERR, m. split; [|done]. unfold node_unload_component. by rewrite Hf. }
  destruct (unload_ok rs [] name m i info d Hm Hd Hf) as (c & C & h & m' & _ & _ & _ & He & Hm' & Hul & _).
  exists NOS_OK, m'. split; [done|]. split.
  - split; [done|]. by rewrite (ul_def _ _ _ _ _ _ Hul).
  - rewrite (ul_loaded _ _ _ _ _ _ Hul). intros j Hj. apply (co_libs _ _ Hc).
    by eapply elem_of_submseteq, submseteq_delete.
  - intros id Hid Hh e. rewrite (ul_services _ _ _ _ _ _ Hul). case_match; [done|]. by apply (co_local _ _ Hc).
Qed.

Lemma cli_ok_reload `{Hpl : Plugins, !PluginLaws} d ld rs name m :
  cli_ok d m -> exists st m', node_reload_component ld rs name m = Done (st, m') /\ cli_ok d m'.
Proof.
  intros Hc. pose proof (co_ready _ _ Hc) as [Hm Hd].
  destruct (find_named name (m_node m)) as [[i info]|] eqn:Hf.
  2: { exists NOS_ERR, m. split; [|done]. unfold node_reload_component. by rewrite Hf. }
  assert (live (n_loaded (m_node m)) !! i = Some info) as Hi by by apply find_named_spec in Hf as [].
  pose proof (co_libs _ _ Hc info ltac:(by eapply list_elem_of_lookup_2)) as Hlen.
  destruct (reload_ok ld rs [] name m i info d Hm Hd Hf Hlen) as (st & m' & He & Hm' & Hp & _).
  exists st, m'. split; [done|].
  assert (st <> NOS_OK -> same_table (m_node m) (m_node m')) as Hsame by (intros; by destruct st; [|destruct Hp as (_ & Hs & _); exact Hs..]).
  destruct (decide (st = NOS_OK)) as [->|Hne].
  - destruct Hp as (c & C & c' & C' & h & h' & l & _ & _ & _ & Hsw & _). split.
    + split; [done|]. by rewrite (sw_def _ _ _ _ _ _ _ _ _ _ Hsw).
    + rewrite (sw_loaded _ _ _ _ _ _ _ _ _ _ Hsw). intros j Hj. rewrite live_set in Hj.
      apply list_elem_of_lookup in Hj as [k Hk]. destruct (decide (i = k)) as [<-|].
      * apply list_lookup_insert_Some in Hk as [(_ & <- & _)|[? _]]; [exact Hlen|done].
      * rewrite list_lookup_insert_ne in Hk by done. apply (co_libs _ _ Hc). by eapply list_elem_of_lookup_2.
    + intros id Hid Hh e He'. pose proof (sw_services _ _ _ _ _ _ _ _ _ _ Hsw id) as Hs. case_match.
      * destruct Hs as [Hs _]. by destruct (Hs e He') as (_ & _ & ?).
      * rewrite Hs in He'. by apply (co_local _ _ Hc id).
  - specialize (Hsame Hne). split.
    + split; [done|]. by rewrite (st_def _ _ Hsame).
    + rewrite (st_loaded _ _ Hsame). apply Hc.
    + intros id Hid Hh. unfold not_remote. rewrite (st_registry _ _ Hsame). by apply (co_local _ _ Hc).
Qed.

(** *** Every command *)

Lemma mapM_done {A B} (f : A -> outcome B) (l : list A) :
  (forall x, x ∈ l -> exists y, f x = Done y) -> exists k, mapM f l = Done k.
Proof.
  induction l as [|x l IH]; intros H; cbn; [by eexists|].
  destruct (H x) as [y ->]; [left|]. destruct IH as [k Hk]; [intros z Hz; apply H; by right|].
  cbn. rewrite Hk. cbn. by eexists.
Qed.

Lemma cl_mgr_say_all l c : cl_mgr (say_all l c) = cl_mgr c.
Proof. revert c. induction l as [|s l IH]; intros c; [done|]. apply (IH (say s c)). Qed.

(** What the table of loaded components refers to exists. *)
Lemma loaded_worker d c i :
  cli_ok d (cl_mgr c) -> i ∈ live (n_loaded (the_node c)) ->
  exists p C th T, li_comp i = Some p /\ n_comps (the_node c) !! p = Some C /\
    li_owner_thread i = Some th /\ n_threads (the_node c) !! th = Some T.
Proof.
  intros [[[_ _ Ht _] _] _ _] Hi. destruct (to_entry _ _ Ht i Hi) as (p & th & Hp & Hth & _ & a & Ha & _).
  assert (is_Some (n_comps (the_node c) !! p)) as [C HC].
  { apply (to_live _ _ Ht). rewrite <-Hp. apply elem_of_app. right. by apply list_elem_of_fmap_2. }
  unfold comps_of in Ha. apply fmap_Some in Ha as (T & HT & _). by exists p, C, th, T.
Qed.

Section commands.
Context `{Hpl : Plugins, !PluginLaws} (ld : loader) (rs : resources) (k : kernel).
Context (load : nat -> Z) (run_read : nat -> nat -> Z).

Lemma post_test_ok d service code words text c :
  service ∈ test_services -> here d service -> (0 <= code < 2 ^ 32)%Z -> length words <= 2 ->
  cli_ok d (cl_mgr c) -> cli_ok d (cl_mgr (post_test k service code words text c)).
Proof.
  intros Hs Hhere Hcode Hw Hc. unfold post_test. set (sz := sizeof_msg _).
  pose proof (mgr_ok_dyn _ _ (proj1 (co_ready _ _ Hc))) as [Hb _].
  assert (0 <= service < 2 ^ 32)%Z as Hsv by (repeat (apply elem_of_cons in Hs as [->|Hs]; [done|]); by apply elem_of_nil in Hs).
  destruct (@post_api _ (ipc_transport k) (the_node c) (cl_ipc c) sz (test_fields service code (length words)) (u32_bytes words))
    as (b & n' & Hp & Hst).
  - apply Hb.
  - unfold req_ok, sz, sizeof_msg, MSG_SIZE. lia.
  - unfold sz, sizeof_msg, MSG_SIZE. lia.
  - unfold test_fields, in_fields. rewrite !Forall_cons_iff. cbn [field_size]. unfold NOS_IPC_MAGIC.
    split_and!; try apply Forall_nil_2; lia.
  - intros old. by apply (co_local _ _ Hc).
  - unfold cli_transport. rewrite Hp.
    assert (cli_ok d (on_node (fun _ => n') (cl_mgr c))) as Hc' by by apply cli_ok_api.
    by destruct b.
Qed.

(** Arguments of [log] that [sscanf] can read, and that post nothing to
    another node. *)
Definition log_safe (d : nos_node_def) (args : chars) : Prop :=
  (arg_starts "level" args = true -> 6 <= length args /\ exists l, scan_words (drop 6 args) = Done l) /\
  (arg_starts "spam" args = true -> here d SVC_PERF_RX).

Lemma log_ok d mem args c :
  cstr mem = Some args -> log_safe d args -> cli_ok d (cl_mgr c) ->
  exists c', log_command rs k (Some mem) c = Done c' /\ cli_ok d (cl_mgr c').
Proof.
  intros Hm [Hs Hspam] Hc. unfold log_command. rewrite Hm. cbn [deref mbind outcome_bind].
  destruct (arg_starts "stats" args); [eexists; split; [done|]; unfold log_stats; by rewrite cl_mgr_say_all|].
  destruct (arg_starts "spam" args);
    [eexists; split; [done|]; unfold log_spam; apply post_test_ok; [left|by apply Hspam|lia|cbn; lia|exact Hc]|].
  destruct (arg_starts "level" args); [|by exists c].
  destruct (Hs eq_refl) as [Hl [words Hw]]. unfold log_level. rewrite (cstr_drop _ _ _ Hm Hl). cbn [deref mbind outcome_bind].
  rewrite Hw. cbn. destruct (negb (log_found rs)); [by eexists|].
  destruct words as [|a [|b [|]]]; eexists; (split; [done|]); try done; by apply cli_ok_log.
Qed.

Lemma manager_ok d (f : string -> mgr -> outcome (nos_status * mgr)) args c :
  (forall name m, cli_ok d m -> exists st m', f name m = Done (st, m') /\ cli_ok d m') ->
  cli_ok d (cl_mgr c) -> exists c', run_manager f args c = Done c' /\ cli_ok d (cl_mgr c').
Proof.
  intros Hf Hc. destruct args as [a|]; [|by exists c]. cbn.
  destruct (Hf (text_of a) _ Hc) as (st & m' & -> & Hc'). by eexists.
Qed.

(** The memory of an argument holds a string, which [log] can read; the
    service a test is for is not on another node. *)
Definition mem_ok (d : nos_node_def) (f : cmd) (mem : option chars) : Prop :=
  (forall m, mem = Some m -> exists a, cstr m = Some a /\ (f = do_log -> log_safe d a)) /\
  (f = do_perf_start -> here d SVC_PING) /\ (f = do_perf_remote_start -> here d SVC_REMOTE_PING).

Lemma run_cmd_ok d f mem c :
  mem_ok d f mem -> cli_ok d (cl_mgr c) ->
  exists c', run_cmd ld rs k load run_read f mem c = Done c' /\ cli_ok d (cl_mgr c').
Proof.
  intros (Hmem & Hping & Hrping) Hc.
  assert (exists args, arg_string mem = Done args) as [args Ha].
  { destruct mem as [m|]; [|by eexists]. destruct (Hmem m eq_refl) as (a & Hm & _). cbn. rewrite Hm. by eexists. }
  assert (forall l, cli_ok d (cl_mgr (say_all l c))) as Hsay by (intros l; by rewrite cl_mgr_say_all).
  destruct f; cbn [run_cmd]; rewrite ?Ha; cbn [mbind outcome_bind].
  - eexists. split; [done|]. apply Hsay.
  - unfold show_components. destruct (mapM_done (component_row (the_node c)) (live (n_loaded (the_node c)))) as [rows ->].
    { intros i Hi. destruct (loaded_worker d c i Hc Hi) as (p & C & th & T & E1 & E2 & E3 & E4).
      unfold component_row. rewrite E1. cbn. rewrite E2. cbn. rewrite E3. cbn. rewrite E4. by eexists. }
    eexists. split; [done|]. apply Hsay.
  - unfold show_services, the_node. rewrite (proj2 (co_ready _ _ Hc)). eexists. split; [done|]. apply Hsay.
  - by eexists.
  - unfold show_memory. destruct (mapM_done (component_mem (the_node c)) (live (n_loaded (the_node c)))) as [rows ->].
    { intros i Hi. destruct (loaded_worker d c i Hc Hi) as (p & C & th & T & E1 & E2 & _).
      unfold component_mem. rewrite E1. cbn. rewrite E2. by eexists. }
    eexists. split; [done|]. apply Hsay.
  - by eexists.
  - by eexists.
  - destruct mem as [m|]; [|by eexists]. destruct (Hmem m eq_refl) as (a & Hm & Hs). eapply log_ok; eauto.
  - eexists. split; [done|]. unfold perf_start. apply post_test_ok; [by right; left|by apply Hping|lia|cbn; lia|done].
  - eexists. split; [done|]. unfold perf_remote_start. destruct (perf_remote_args args) as [[count payload] sweep].
    apply post_test_ok; [by do 2 right; left|by apply Hrping|lia|cbn; lia|done].
  - apply manager_ok; [|done]. intros; by apply cli_ok_reload.
  - apply manager_ok; [|done]. intros; by apply cli_ok_unload.
  - apply manager_ok; [|done]. intros; by apply cli_ok_reload.
  - by eexists.
Qed.
End commands.

(** ** The session *)

(** A line without its newline, and the lines [fgets] cuts a file into. *)
Definition line_text (raw : chars) : chars := take (strcspn "010" raw) raw.

Fixpoint file_lines (n : nat) (input : string) : list chars :=
  match n, input with
  | S n, String _ _ =>
      let '(line, rest) := fgets (LINE_SIZE - 1) input in line_text (chars_of line) :: file_lines n rest
  | _, _ => []
  end.

(** A line the session can run: [sscanf] can read what a [log level] line
    asks for, and a test is not for a service on another node. *)
Record line_safe (d : nos_node_def) (line : chars) : Prop := {
  ls_log args : line = chars_of "log " ++ args -> log_safe d args;
  ls_ping : chars_of "perf start" `prefix_of` line -> here d SVC_PING;
  ls_remote_ping : chars_of "perf remote" `prefix_of` line -> here d SVC_REMOTE_PING;
}.

(** The other threads act on the node and leave the table of handles. *)
Class OthersLaws (others : nat -> cli -> cli) := {
  others_node t c : rtc thread_step (the_node c) (the_node (others t c));
  others_open t c : m_open (cl_mgr (others t c)) = m_open (cl_mgr c);
}.

Lemma others_ok `{!OthersLaws others} d t c : cli_ok d (cl_mgr c) -> cli_ok d (cl_mgr (others t c)).
Proof.
  intros Hc. pose proof (cli_ok_threads d _ _ (others_node t c) Hc) as H'.
  pose proof (others_open t c) as Ho. unfold the_node in H'. destruct (cl_mgr (others t c)) as [n o l].
  cbn in *. subst o. destruct H' as [[[] ?] ? ?]. split; [split; [by split|done]|done..].
Qed.

Lemma strcspn_le a s : strcspn a s <= length s.
Proof. induction s as [|x s IH]; cbn; [done|]. case_decide; lia. Qed.

Lemma chars_of_text l : chars_of (text_of l) = l.
Proof. induction l; cbn; congruence. Qed.

Lemma text_of_chars s : text_of (chars_of s) = s.
Proof. induction s; cbn; congruence. Qed.

Lemma length_text_of l : String.length (text_of l) = length l.
Proof. induction l; cbn; congruence. Qed.

(** What [fgets] reads is a non-empty part of the input that fits. *)
Lemma fgets_parts n s :
  let '(a, b) := fgets n s in s = a +:+ b /\ String.length a <= n.
Proof.
  revert s. induction n as [|n IH]; intros [|c s]; cbn [fgets]; try (cbn; split; [done|lia]).
  case_decide; [cbn; split; [done|lia]|]. specialize (IH s). destruct (fgets n s) as [a b].
  destruct IH as [-> ?]. cbn. split; [done|lia].
Qed.

Lemma chars_of_app a b : chars_of (a +:+ b) = chars_of a ++ chars_of b.
Proof. induction a as [|x a IH]; [done|]. exact (f_equal (cons x) IH). Qed.

Lemma read_file_ok buf input :
  length buf = LINE_SIZE -> NUL ∉ input -> input <> [] ->
  let '(line, rest) := fgets (LINE_SIZE - 1) (text_of input) in
  exists buf', read_file buf input = Done (Z.of_nat (String.length line), chars_of rest, buf') /\
    length buf' = LINE_SIZE /\ cstr buf' = Some (chars_of line) /\ NUL ∉ chars_of rest /\
    length (chars_of rest) < length input /\ 0 < String.length line.
Proof.
  intros Hb Hi Hne. unfold read_file. pose proof (fgets_parts (LINE_SIZE - 1) (text_of input)) as Hf.
  assert (exists c s, text_of input = String c s /\ length input = S (String.length s)) as (c & s & Hs & Hlen).
  { destruct input as [|c l]; [done|]. exists c, (text_of l). cbn. by rewrite length_text_of. }
  pose proof (fgets_shorter (LINE_SIZE - 2) c s) as Hsh. change (S (LINE_SIZE - 2)) with (LINE_SIZE - 1) in Hsh.
  rewrite <-Hs in Hsh. destruct (fgets (LINE_SIZE - 1) (text_of input)) as [line rest]. cbn [snd] in Hsh.
  destruct Hf as [Ht Hl]. assert (input = chars_of line ++ chars_of rest) as Hin by (by rewrite <-chars_of_app, <-Ht, chars_of_text).
  assert (NUL ∉ chars_of line /\ NUL ∉ chars_of rest) as [Hn Hr].
  { rewrite Hin, elem_of_app in Hi. tauto. }
  rewrite !length_chars_of in *. set (b := overwrite 0 _ buf).
  assert (b = chars_of line ++ NUL :: drop (S (length (chars_of line))) buf) as E.
  { unfold b, overwrite. cbn [take app]. rewrite <-app_assoc. cbn [app]. rewrite length_app.
    cbn [length Nat.add]. by rewrite Nat.add_1_r. }
  assert (cstr b = Some (chars_of line)) as Hc by (rewrite E; by apply cstr_nul).
  exists b. destruct input as [|c' l']; [done|]. rewrite Hc. cbn [deref mbind outcome_bind].
  rewrite Hin, length_app in Hlen. split_and!; try done.
  - rewrite <-Hb. unfold b. apply length_overwrite. rewrite length_app. cbn [length]. unfold LINE_SIZE in *. lia.
  - rewrite Hin, length_app. lia.
  - lia.
Qed.

Lemma cut_newline_ok buf raw :
  cstr buf = Some raw -> exists buf', cut_newline buf = Done buf' /\ length buf' = length buf /\
    cstr buf' = Some (line_text raw).
Proof.
  intros Hc. unfold cut_newline. rewrite Hc. cbn [deref mbind outcome_bind]. eexists. split; [done|].
  rewrite length_insert. split; [done|]. destruct (cstr_Some _ _ Hc) as (Hn & rest & ->).
  pose proof (strcspn_le "010" raw). unfold line_text. set (i := strcspn _ raw) in *.
  rewrite insert_take_drop by (rewrite length_app; cbn; lia). rewrite take_app_le by lia. apply cstr_nul.
  intros Hin. apply Hn. rewrite <-(take_drop i raw). apply elem_of_app. by left.
Qed.

Section session.
Context `{Hpl : Plugins, !PluginLaws} (ld : loader) (rs : resources) (k : kernel).
Context (load : nat -> Z) (run_read : nat -> nat -> Z) (others : nat -> cli -> cli) `{!OthersLaws others}.

Lemma run_line_ok d line buf c :
  cstr buf = Some line -> line_safe d line -> cli_ok d (cl_mgr c) ->
  exists c', run_line ld rs k load run_read false line buf c = Done c' /\ cli_ok d (cl_mgr c').
Proof.
  intros Hb Hs Hc. unfold run_line. destruct (dispatch line buf) as [[f mem]|] eqn:Hd; [|by exists c].
  apply run_cmd_ok; [|done]. apply (dispatch_selects _ _ _ _ Hb) in Hd as (e & He & <- & Hor).
  assert (chars_of (cc_name e) `prefix_of` line) as Hpre
    by (destruct Hor as [[-> _]|(arg & m' & -> & _)]; [done|by eexists]).
  split_and!.
  - intros m ->. destruct Hor as [[_ ?]|(arg & m' & Hl & [= <-] & _ & Ha)]; [done|].
    exists arg. split; [done|]. intros Hlog. apply (ls_log _ _ Hs). rewrite Hl.
    repeat (apply elem_of_cons in He as [->|He]; [done|]). by apply elem_of_nil in He.
  - intros Hp. apply (ls_ping _ _ Hs).
    repeat (apply elem_of_cons in He as [->|He]; [done|]). by apply elem_of_nil in He.
  - intros Hp. apply (ls_remote_ping _ _ Hs).
    repeat (apply elem_of_cons in He as [->|He]; [done|]). by apply elem_of_nil in He.
Qed.

Lemma cli_loop_ok d fuel n prompt t input buf h c :
  length input < fuel -> length input <= n -> length buf = LINE_SIZE -> NUL ∉ input ->
  Forall (line_safe d) (file_lines n (text_of input)) -> cli_ok d (cl_mgr c) ->
  exists c', cli_loop ld rs k load run_read others fuel false prompt t input buf h c = Done c' /\ cli_ok d (cl_mgr c').
Proof.
  revert n t input buf h c. induction fuel as [|fuel IH]; intros n t input buf h c Hf Hn Hb Hi Hs Hc; [lia|].
  cbn [cli_loop]. destruct (negb (cl_keep c)); [by exists c|]. unfold read_line.
  destruct (decide (input = [])) as [->|Hne].
  { cbn. eexists. split; [done|]. by apply others_ok. }
  pose proof (read_file_ok buf input Hb Hi Hne) as Hr.
  destruct n as [|n]; [destruct input; [done|cbn in Hn; lia]|]. cbn [file_lines] in Hs.
  assert (exists ch s, text_of input = String ch s) as (ch & s & Hts) by (destruct input; [done|by eexists _, _]).
  rewrite Hts in Hs, Hr. destruct (fgets (LINE_SIZE - 1) (String ch s)) as [line rest] eqn:Hfg.
  destruct Hr as (buf1 & Hrd & Hb1 & Hc1 & Hr1 & Hlt & Hpos). rewrite Hrd. cbn [mbind outcome_bind].
  apply Forall_cons in Hs as [Hsafe Hs].
  destruct (Z.ltb_spec (Z.of_nat (String.length line)) 0); [lia|].
  destruct (Z.eqb_spec (Z.of_nat (String.length line)) 0); [lia|].
  destruct (cut_newline_ok buf1 _ Hc1) as (buf2 & -> & Hb2 & Hc2). cbn [mbind outcome_bind].
  rewrite Hc2. cbn [deref mbind outcome_bind].
  destruct (run_line_ok d _ buf2 (others t c) Hc2 Hsafe) as (c' & -> & Hc'); [by apply others_ok|].
  cbn [mbind outcome_bind]. apply (IH n); [lia|lia|congruence|done| |done].
  by rewrite text_of_chars.
Qed.
Lemma cli_thread_ok d name input buf c :
  cli_ok d (cl_mgr c) -> length buf = LINE_SIZE -> NUL ∉ input -> String.length name <= 51 ->
  Forall (line_safe d) (file_lines (length input) (text_of input)) ->
  exists c', node_cli_thread_entry ld rs k load run_read others (S (length input)) false name input buf c = Done c' /\
    cli_ok d (cl_mgr c').
Proof.
  intros Hc Hb Hi Hn Hs. unfold node_cli_thread_entry.
  assert (String.length ("nos-node(" +:+ name +:+ ")> ") < PROMPT_SIZE) as Hp.
  { rewrite length_chars_of in Hn |- *. rewrite !chars_of_app, !length_app. cbn [length chars_of]. unfold PROMPT_SIZE. lia. }
  destruct (Nat.leb_spec PROMPT_SIZE (String.length ("nos-node(" +:+ name +:+ ")> "))); [lia|].
  by apply (cli_loop_ok d (S (length input)) (length input)); [lia| | | | |].
Qed.
End session.


(** ** Concrete sessions *)

#[local] Existing Instance demo_plugins.
#[local] Existing Instance demo_laws.

Definition demo_cli : cli :=
  Cli demo_started (ipc_static demo_host) [] nos_stats_init true [].

(** The worker wakes up, drains its event descriptor, starts a component, and
    takes the first timer off its heap; in between a component makes a timer
    and starts it. *)
Definition busy_node (t : nat) (n : node) : node :=
  let n := upd_thread 0 read_notify (upd_thread 0 (set_sleeping false) n) in
  if Nat.even t then
    let '(n1, tm) := nos_timer_create true None 0 None (upd_comp 0 (set_status NOS_COMP_ST_ACTIVE) n) in
    (nos_timer_start 5 0 tm 10 false n1).2
  else
    match n_threads n !! 0 with
    | Some T => match live (timer_heap T) with tm :: _ => pop_timer 0 tm n | [] => n end
    | None => n
    end.

Definition busy_threads (t : nat) (c : cli) : cli := set_world (busy_node t (the_node c)) (cl_ipc c) c.

Lemma busy_node_steps t n : rtc thread_step n (busy_node t n).
Proof.
  unfold busy_node. eapply rtc_l; [apply ts_act, (la_sleep 0 false)|]. eapply rtc_l; [apply ts_act, (la_read 0)|].
  set (m := upd_thread 0 read_notify _). clearbody m. rename m into n'. clear n. rename n' into n.
  destruct (Nat.even t).
  - eapply rtc_l; [apply (ts_status 0 NOS_COMP_ST_ACTIVE)|].
    set (n0 := upd_comp 0 _ n). pose proof (as_timer_create true None 0 None n0) as H1.
    destruct (nos_timer_create true None 0 None n0) as [n1 tm].
    eapply rtc_l; [apply ts_act, la_api, H1|]. apply rtc_once, ts_act, la_api, as_timer_start.
  - destruct (n_threads n !! 0) as [T|] eqn:HT; [|done]. destruct (live (timer_heap T)) as [|tm l] eqn:Hl; [done|].
    eapply rtc_once, ts_act, la_pop; done.
Qed.

#[local] Instance busy_laws : OthersLaws busy_threads.
Proof. split; [intros t c; apply busy_node_steps|done]. Qed.

Lemma forallb_elem {A} (f : A -> bool) l x : forallb f l = true -> x ∈ l -> f x = true.
Proof. intros H Hx. rewrite forallb_forall in H. by apply H, list_elem_of_In. Qed.

(** They do run a timer, and take it off again. *)
Example busy_runs :
  (is_running <$> n_timers (busy_node 0 (m_node demo_started)) !! 0) = Some true /\
  (is_running <$> n_timers (busy_node 1 (busy_node 0 (m_node demo_started))) !! 0) = Some false.
Proof. split; by vm_compute. Qed.

Lemma demo_cli_ok : cli_ok demo_manifest (cl_mgr demo_cli).
Proof.
  split; [exact demo_started_ready| |].
  - intros i Hi. cbn [demo_cli cl_mgr] in Hi.
    exact (proj1 (Nat.ltb_lt _ _) (forallb_elem (fun i => String.length ("./" +:+ li_lib_name i) <? LIB_PATH_MAX)
      (live (n_loaded (m_node demo_started))) i ltac:(by vm_compute) Hi)).
  - intros id Hid Hhere e He. cbn [demo_cli cl_mgr] in He. assert (id <> SVC_REMOTE_PING) as Hne.
    { intros ->. specialize (Hhere (SvcDef "U" 113 "B" 9 (Some "/tmp/b"%string))). cbn in Hhere.
      by discriminate Hhere; [do 2 right; left|]. }
    pose proof (forallb_elem (fun id => (id =? SVC_REMOTE_PING)%Z || match svc_lookup id (n_registry (m_node demo_started)) with
      Some e => negb (is_remote e) | None => true end) test_services id ltac:(by vm_compute) Hid) as H.
    cbv beta in H. rewrite He in H. apply Z.eqb_neq in Hne. rewrite Hne in H. by apply negb_true_iff.
Qed.

Definition demo_script : chars := chars_of "perf start 5
unload a
log level 2 debug
reload b
load b
show components
nonsense
quit
show db
".

(** A line is safe when these tests say so. *)
Definition safe_line (l : chars) : bool :=
  negb (bool_decide (chars_of "perf remote" `prefix_of` l)) &&
  (negb (arg_starts "log " l) ||
     (let a := drop 4 l in negb (arg_starts "level" a) ||
        ((6 <=? length a) && match scan_words (drop 6 a) with Done _ => true | _ => false end))).

Lemma demo_here id : (id =? 113)%Z = false -> here demo_manifest id.
Proof.
  intros Hid s Hs <-. cbn in Hs. repeat (apply elem_of_cons in Hs as [->|Hs]; [done|]). by apply elem_of_nil in Hs.
Qed.

Lemma safe_line_ok l : safe_line l = true -> line_safe demo_manifest l.
Proof.
  unfold safe_line. intros [Hr Hlog]%andb_prop. split.
  - intros args ->. change (drop 4 (chars_of "log " ++ args)) with args in Hlog.
    change (arg_starts "log " (chars_of "log " ++ args)) with true in Hlog. cbn [negb orb] in Hlog.
    split; [|intros _; by apply demo_here]. intros Hlev. rewrite Hlev in Hlog. cbn [negb orb] in Hlog.
    apply andb_prop in Hlog as [H1%Nat.leb_le H2]. split; [done|].
    destruct (scan_words (drop 6 args)); [by eexists|done..].
  - intros _. by apply demo_here.
  - intros Hp. by rewrite bool_decide_true in Hr.
Qed.

Lemma demo_script_safe : Forall (line_safe demo_manifest) (file_lines (length demo_script) (text_of demo_script)).
Proof.
  apply Forall_forall. intros l Hl. apply safe_line_ok.
  revert Hl. apply (forallb_elem safe_line). by vm_compute.
Qed.


Lemma dispatch_spec_witness :
  dispatch (chars_of "show stats ipc") (chars_of "show stats ipc" ++ [NUL]) = Some (do_show_stats, Some (chars_of "ipc" ++ [NUL])).
Proof.
  apply (dispatch_spec (chars_of "show stats ipc") (chars_of "show stats ipc" ++ [NUL]) do_show_stats (Some (chars_of "ipc" ++ [NUL])) eq_refl).
  exists (CliCmd "show stats" "Show registered statistics" do_show_stats). split_and!.
  - do 6 right. left.
  - reflexivity.
  - right. exists (chars_of "ipc"), (chars_of "ipc" ++ [NUL]). split_and!; reflexivity.
Defined.

(** ** What goes wrong *)

(** [log level] without an argument reads what an earlier, longer line left
    behind its terminator: on a terminal, typing it after [log level error]
    sets the level again. *)
Lemma log_level_rereads :
  let buf := chars_of "log level" ++ NUL :: chars_of "error" ++ replicate 241 NUL in
  dispatch (chars_of "log level") buf = Some (do_log, Some (drop 4 buf)) /\
  (lg_global ∘ m_log ∘ cl_mgr <$>
     log_command demo_resources (demo_kernel (fun _ => SentAll)) (Some (drop 4 buf)) demo_cli) = Done NOS_LOG_LEVEL_ERROR.
Proof. split; vm_compute; reflexivity. Qed.

(** A test message keeps the flags and the component of the chunk's last
    user: when that was a reply, the message is delivered to the component
    the reply was for, although no service 111 exists. *)
Definition demo_recycled : node :=
  let '(r, n) := compose 40 [(F_flags, NOS_MSG_F_REPLY); (F_dst_component, 2%Z)] [] (m_node demo_started) in
  upd_pool (nos_buffer_release r) n.

Lemma stale_flags_misroute :
  svc_lookup SVC_PING (n_registry demo_recycled) = None /\ queued demo_recycled = [] /\
  length (queued (the_node (perf_start (demo_kernel (fun _ => SentAll)) None
    (set_world demo_recycled (ipc_static demo_host) demo_cli)))) = 1.
Proof. split_and!; vm_compute; reflexivity. Qed.
