(* ===== verification/NodeMain.v ===== *)
(** * Start-up and shutdown of a node (src/core/nos_node_main.c)

    [main] takes the node's definition from the generated manifest, registers
    the statistics, runs the initialisers the manifest lists, makes the
    buffer pool, the management thread with its IPC socket, the worker
    threads with their components and the routes, and starts the command
    line.  When [keep_running] is cleared it stops the threads, waits for
    them, stops and frees the components from the last to the first, and
    gives back the queues, the pool, the database and the log.

    The state of the process is that of the command line (Cli.cli).  The
    initialisers, what the other threads do, and what the operating system
    answers are parameters.  The registration of the embedded
    services (src/infra/timer/nos_timer.c and the ends of nos_log.c and
    nos_kv.c) is here too. *)

From Stdlib Require Import List.
From stdpp Require Import base list sets gmap strings relations pretty.
From S2P Require Import Prelude CString CArray Ring Mem Buffer Service Node LineEdit Timer Scheduler Kv Stats Log Shm Ipc Plugin Post Threads NodeMgr Cli.
Import Registry.
Local Open Scope nat_scope.

(** ** The embedded services

    The log, the database and the timers register a table of operations. *)

Section embedded.
Context {Ops : Type} (g_log_ops g_kv_ops g_timer_ops : Ops).
Abbreviation services := (carr (@Embedded.nos_embedded_service Ops)).

(** [initialized] is the static flag. *)
Definition nos_timer_init (initialized : bool) (r : services) : bool * services :=
  if initialized then (true, r)
  else (true, (Embedded.nos_embedded_service_register "SVC_TIMER" (Some g_timer_ops) r).2).

Definition nos_kv_db_init (r : services) : services :=
  (Embedded.nos_embedded_service_register "SVC_KV_DB" (Some g_kv_ops) r).2.

Definition nos_log_init_register (c : nos_log_context) (r : services) : nos_log_context * services :=
  if lg_initialized c then (c, r)
  else (nos_log_init c, (Embedded.nos_embedded_service_register "SVC_LOG" (Some g_log_ops) r).2).

(** After the three, in the order of the generated manifest, each accessor
    finds its table. *)
Lemma services_found :
  let r := (nos_timer_init false (nos_kv_db_init (nos_log_init_register g_log_ctx Embedded.registry_static).2)).2 in
  Embedded.nos_embedded_service_get "SVC_LOG" r = Some g_log_ops /\
  Embedded.nos_embedded_service_get "SVC_KV_DB" r = Some g_kv_ops /\
  Embedded.nos_embedded_service_get "SVC_TIMER" r = Some g_timer_ops.
Proof. by vm_compute. Qed.
End embedded.

(** ** The process *)

Definition set_the_node (n : node) (c : cli) : cli := set_world n (cl_ipc c) c.
Definition set_stats (s : stats) (c : cli) : cli :=
  Cli (cl_mgr c) (cl_ipc c) (cl_kv c) s (cl_keep c) (cl_out c).
Definition set_kv (db : kv_db) (c : cli) : cli :=
  Cli (cl_mgr c) (cl_ipc c) db (cl_stats c) (cl_keep c) (cl_out c).
Definition set_keep (b : bool) (c : cli) : cli :=
  Cli (cl_mgr c) (cl_ipc c) (cl_kv c) (cl_stats c) b (cl_out c).

Definition set_def (d : nos_node_def) (n : node) : node :=
  Node (n_comps n) (n_timers n) (n_threads n) (Some d) (n_loaded n) (n_mgmt n) (n_workers n)
       (n_worker_count n) (n_registry n) (n_pool n).

(** The process before [main]: everything zero but [keep_running]. *)
Definition process_static (h : shm_host) : cli :=
  Cli (Mgr (Node ∅ ∅ ∅ None (CArr (replicate MAX_COMPONENTS_PER_NODE (Loaded None None "" None)) 0)
                 None [] 0 Registry.registry_static pool_static) [] g_log_ctx)
      (ipc_static h) [] (CArr (replicate NOS_STATS_MAX_ITEMS zero_item) 0) true [].

(** What the start needs besides the loader and [resources]. *)
Record platform := Platform {
  memalign_ok : nat -> bool;
  mgmt_calloc_ok : bool;
  mgmt_eventfd_ok : bool;
  platform_inits : list (cli -> cli);      (* of the manifest, up to NULL *)
}.

Section node_main.
Context `{!Plugins} (ld : loader) (rs : resources) (k : kernel) (pf : platform).

Definition sys_say (level : nos_log_level) (msg : string) (c : cli) : cli :=
  set_mgr (sys_log rs level msg (cl_mgr c)) c.

Definition signal_handler (sig : Z) (c : cli) : cli :=
  set_keep false
    (sys_say NOS_LOG_LEVEL_INFO ("Received signal " +:+ pretty sig +:+ ", initiating graceful shutdown...") c).

(** *** Statistics *)

Definition GAUGE_LOG_DROPPED : nat := 0.
Definition GAUGE_BUFFER_MEM : nat := 1.
Definition GAUGE_SCHEDULER_MEM : nat := 2.

(** [stats_read_log_dropped], [stats_read_buffer_mem] and
    [stats_read_scheduler_mem] *)
Definition stats_read (c : cli) (read_fn : nat) : option Z :=
  if read_fn =? GAUGE_LOG_DROPPED then Some (nos_log_get_dropped_count (m_log (cl_mgr c)))
  else if read_fn =? GAUGE_BUFFER_MEM then Some (nos_buffer_get_total_mem_usage (n_pool (the_node c)))
  else if read_fn =? GAUGE_SCHEDULER_MEM then Some (nos_scheduler_get_total_mem_usage (the_node c))
  else None.

Definition node_register_stats (c : cli) : cli :=
  let gauge module name f s := (nos_stats_register_gauge (Some module) (Some name) (Some f) 0 s).2 in
  set_stats
    (gauge "scheduler"%string "total_memory_bytes"%string GAUGE_SCHEDULER_MEM
      (gauge "buffer"%string "total_memory_bytes"%string GAUGE_BUFFER_MEM
        (gauge "log"%string "dropped_messages"%string GAUGE_LOG_DROPPED
          (nos_ipc_register_stats nos_stats_init)))) c.

(** *** Start *)

(** [calloc] may fail: then the management thread is NULL. *)
Definition node_init_mgmt (c : cli) : cli :=
  let n := the_node c in
  let th := fresh (dom (n_threads n)) in
  let '(mgmt, n) :=
    if mgmt_calloc_ok pf then
      match (nos_scheduler_init_thread (mgmt_eventfd_ok pf) 999 "Mgmt-Master" (Some zero_thread)).2 with
      | Some T => (Some th, set_mgmt (Some th) (upd_threads <[th := T]> n))
      | None => (Some th, n)
      end
    else (None, set_mgmt None n) in
  let '(_, (n, x)) := nos_ipc_init k mgmt (n, cl_ipc c) in
  set_world n x c.

Definition run_inits (c : cli) : cli := foldl (fun c f => f c) c (platform_inits pf).

(** Up to the creation of the threads; [inl] is the end of the process by
    [exit]. *)
Definition main_start (d : nos_node_def) (c : cli) : outcome (Z + cli) :=
  let c := run_inits (node_register_stats (set_the_node (set_def d (the_node c)) c)) in
  let c := sys_say NOS_LOG_LEVEL_INFO ("--- [NOS Node: " +:+ nd_name d +:+ "] Starting ---") c in
  o ← nos_buffer_init_pool (memalign_ok pf) (Some (nd_buffer_pools d)) (n_pool (the_node c));
  match o with
  | None => Done (inl 1%Z)
  | Some (_, p) =>
      let c := node_init_mgmt (set_the_node (upd_pool (fun _ => p) (the_node c)) c) in
      m ← node_init_workers ld rs d (cl_mgr c);
      m ← node_setup_routing rs (nd_name d) m;
      Done (inr (set_mgr m c))
  end.

(** *** Shutdown *)

Definition threads_of (n : node) : list thread_ptr :=
  option_list (n_mgmt n) ++ take (n_worker_count n) (n_workers n).

Definition stop_threads (n : node) : node :=
  foldl (fun n th => nos_scheduler_stop (Some th) n) n (threads_of n).

Definition deinit_threads (n : node) : node :=
  foldl (fun n th => nos_scheduler_deinit_thread (Some th) n) n (threads_of n).

(** [stop], [free] and [dlclose], whatever the component's status. *)
Fixpoint cleanup_components (l : list loaded_comp_info) (m : mgr) : outcome mgr :=
  match l with
  | [] => Done m
  | info :: l =>
      c ← deref (li_comp info);
      C ← deref (n_comps (m_node m) !! c);
      cleanup_components l (free_component c (li_handle info) (on_node (call_stop c C) m))
  end.

(** [free(mgmt_thread); free(worker_threads)] *)
Definition free_threads (n : node) : node :=
  upd_threads (fun ts => foldr delete ts (option_list (n_mgmt n) ++ n_workers n)) n.

(** [joined] is what the threads do until they have ended. *)
Definition main_shutdown (joined : cli -> cli) (c : cli) : outcome cli :=
  let c := sys_say NOS_LOG_LEVEL_INFO "Node shutting down..." c in
  let c := joined (set_the_node (stop_threads (the_node c)) c) in
  m ← cleanup_components (rev (live (n_loaded (the_node c)))) (cl_mgr c);
  let m := on_node (fun n => upd_pool nos_buffer_deinit_pool (deinit_threads n)) m in
  db ← match nos_kv_db_deinit (cl_kv c) with KvRet db => Done db | _ => Fuel end;
  let c := sys_say NOS_LOG_LEVEL_INFO "Shutdown complete." (set_kv db (set_mgr m c)) in
  Done (set_mgr (on_node free_threads (on_log nos_log_deinit (cl_mgr c))) c).

(** *** The program *)

Context (load : nat -> Z) (run_read : nat -> nat -> Z) (others : nat -> cli -> cli).

(** [others] act between the commands, [waited] until a signal or [quit]
    clears [keep_running].  The command line runs in a thread of its own; this
    is the schedule in which it ends first.  [buf] is the uninitialised line
    buffer. *)
Definition node_main (waited joined : cli -> cli) (local : option nos_node_def) (tty : bool) (input buf : chars)
    (c : cli) : outcome (Z * cli) :=
  match local with
  | None => Done ((-1)%Z, sys_say NOS_LOG_LEVEL_ERROR "Local node manifest not found." c)
  | Some d =>
      r ← main_start d c;
      match r with
      | inl code => Done (code, c)
      | inr c =>
          c ← node_cli_thread_entry ld rs k load run_read others (S (length input)) tty (nd_name d) input buf c;
          c ← main_shutdown joined (waited c);
          Done (0%Z, c)
      end
  end.
End node_main.

(** ** Start-up *)

(** The initialisers set up the log, the database and the service
    registry, nothing of the node. *)
Definition init_quiet (f : cli -> cli) : Prop :=
  forall c, the_node (f c) = the_node c /\ m_open (cl_mgr (f c)) = m_open (cl_mgr c).

Lemma run_inits_quiet pf c :
  Forall init_quiet (platform_inits pf) ->
  the_node (run_inits pf c) = the_node c /\ m_open (cl_mgr (run_inits pf c)) = m_open (cl_mgr c).
Proof.
  unfold run_inits. intros Hi. revert c. induction Hi as [|f l Hf _ IH]; intros c; cbn; [done|].
  destruct (IH (f c)) as [-> ->]. apply Hf.
Qed.

(** The machine can start the node. *)
Record machine_ok (rs : resources) (pf : platform) : Prop := {
  mk_memalign i : memalign_ok pf i = true;
  mk_mgmt : mgmt_calloc_ok pf = true;
  mk_mgmt_fd : mgmt_eventfd_ok pf = true;
  mk_workers : workers_calloc_ok rs = true;
  mk_eventfd i : thread_eventfd_ok rs i = true;
  mk_inits : Forall init_quiet (platform_inits pf);
}.

(** The manifest describes a node: the arrays are terminated, the buffer
    sizes are in range and the services have different ids. *)
Record node_def_ok (d : nos_node_def) : Prop := {
  dk_manifest : manifest_ok d;
  dk_pools : Forall (fun '(s, n) => bin_def_ok s n) (nd_buffer_pools d);
  dk_services : NoDup (sd_service_id <$> nd_services d);
  dk_count : length (nd_services d) <= MAX_SERVICES;
  dk_name : String.length (nd_name d) <= 51;
}.

(** A node without threads, timers and components. *)
Definition static_node (d : nos_node_def) (p : pool) : node :=
  Node ∅ ∅ ∅ (Some d) (CArr (replicate MAX_COMPONENTS_PER_NODE (Loaded None None "" None)) 0)
    None [] 0 Registry.registry_static p.

Lemma static_ready d p l : pool_wf p -> manager_ready d (Mgr (static_node d p) [] l).
Proof.
  intros Hp. split; [|done]. split; [split| | |done].
  - split; [by intros th T HT|by intros t x Hx].
  - split; [exact Hp|by intros th T HT|]. intros r Hr. by apply elem_of_nil in Hr.
  - exact registry_static_ok.
  - by intros t x Hx.
  - split.
    + done.
    + cbn. lia.
    + change (NoDup (A := option comp_ptr) []). constructor.
    + intros c. cbn. rewrite lookup_empty. split; [by intros []|by intros ?%elem_of_nil].
    + by intros i ?%elem_of_nil.
    + by intros th a Ha.
    + by intros e c ?%elem_of_nil.
Qed.

Lemma init_pool_ok pf cfg :
  (forall i, memalign_ok pf i = true) -> Forall (fun '(s, n) => bin_def_ok s n) cfg ->
  exists st p, nos_buffer_init_pool (memalign_ok pf) (Some cfg) pool_static = Done (Some (st, p)) /\ pool_wf p.
Proof.
  intros Hm Hc. unfold nos_buffer_init_pool. cbn [g_bin_count pool_static Nat.ltb Nat.leb].
  assert (forall fuel i p, MAX_BINS < fuel + i -> i <= MAX_BINS ->
    exists q, init_bins (memalign_ok pf) fuel i cfg p = Done (Some q)) as Hi.
  { induction fuel as [|fuel IH]; intros i p Hlt Hle; [lia|]. cbn [init_bins].
    destruct (cfg !! i) as [[sz n]|] eqn:Hcf; cbn [default from_option id]; [|by eexists].
    destruct ((sz >? 0)%Z && (i <? MAX_BINS)) eqn:Hg; [|by eexists]. apply andb_prop in Hg as [_ Hg%Nat.ltb_lt].
    pose proof (Forall_lookup_1 _ _ _ _ Hc Hcf) as (_ & Hn & _).
    rewrite Hm, (proj2 (Z.leb_le _ _)) by apply Hn. apply IH; lia. }
  destruct (Hi (S MAX_BINS) 0 pool_static) as [p Hp]; [lia..|]. rewrite Hp. eexists _, p. split; [done|].
  by eapply init_bins_wf; [exact pool_static_wf| |exact Hc|exact Hp].
Qed.

Section start.
Context `{Hpl : Plugins, !PluginLaws} (ld : loader) (rs : resources) (k : kernel) (pf : platform).

Lemma init_mgmt_ok d c :
  mgmt_calloc_ok pf = true -> mgmt_eventfd_ok pf = true -> manager_ready d (cl_mgr c) ->
  let c' := node_init_mgmt k pf c in
  manager_ready d (cl_mgr c') /\ n_registry (the_node c') = n_registry (the_node c) /\
  n_loaded (the_node c') = n_loaded (the_node c) /\ is_Some (n_mgmt (the_node c')) /\ cl_kv c' = cl_kv c.
Proof.
  intros Hc He [Hm Hd]. unfold node_init_mgmt. rewrite Hc. unfold nos_scheduler_init_thread. rewrite He. cbn [snd].
  set (th := fresh (dom (n_threads (the_node c)))).
  assert (comps_of (m_node (cl_mgr c)) th = None) as Hn.
  { unfold comps_of. assert (n_threads (the_node c) !! th = None) as E by (apply not_elem_of_dom, is_fresh).
    unfold the_node in E. by rewrite E. }
  pose proof (mgr_ok_new_thread (cl_mgr c) th 999 "Mgmt-Master" Hn Hm) as Hm1.
  set (n1 := upd_threads <[th := new_thread 999 "Mgmt-Master"]> (the_node c)).
  change (upd_threads <[th := _]> (the_node c)) with n1.
  change (Z.of_nat 999) with 999%Z in *.
  set (n2 := set_mgmt (Some th) n1).
  assert (mgr_ok [] (on_node (fun _ => n2) (cl_mgr c))) as Hm2.
  { pose proof (mgr_ok_dyn _ _ Hm1) as Hdy. destruct Hm1 as [_ _ [? ? ? ? ? ? ?] ?].
    assert (dyn_ok n2) as [] by (apply (dyn_ok_ext n1); try done; apply Hdy). split; [done..|by split|done]. }
  assert (forall n3, same_table n2 n3 -> dyn_ok n3 -> n_mgmt n3 = Some th ->
    forall x, let c' := set_world n3 x c in
    manager_ready d (cl_mgr c') /\ n_registry (the_node c') = n_registry (the_node c) /\
    n_loaded (the_node c') = n_loaded (the_node c) /\ is_Some (n_mgmt (the_node c')) /\ cl_kv c' = cl_kv c) as Hend.
  { intros n3 Hs Hdy Hmg x. split_and!; [split| | | |done].
    - by eapply (mgr_ok_same [] (on_node (fun _ => n2) (cl_mgr c))).
    - change (n_def n3 = Some d). by rewrite (st_def _ _ Hs).
    - change (n_registry n3 = n_registry (the_node c)). by rewrite (st_registry _ _ Hs).
    - change (n_loaded n3 = n_loaded (the_node c)). by rewrite (st_loaded _ _ Hs).
    - change (is_Some (n_mgmt n3)). rewrite Hmg. by eexists. }
  pose proof (mgr_ok_dyn _ _ Hm2) as Hd2. cbn [m_node on_node] in Hd2. unfold nos_ipc_init. cbn [n_mgmt].
  destruct (k_socket k (i_tick (cl_ipc c))) as [fd|]; [|by apply Hend].
  cbv zeta. destruct (negb _); [by apply Hend|]. destruct (negb _); [by apply Hend|].
  unfold nos_scheduler_add_fd. set (a := nos_scheduler_add_fd_ex _ _ _ _ _ _).
  assert (rtc api_step n2 a.2) as Ha by apply rtc_once, as_add_fd.
  destruct (dyn_ok_api _ _ Ha Hd2) as [Hd3 Hs3]. destruct a as [st n3]. apply Hend; [done..|].
  cbn [snd] in Hs3. by rewrite (st_mgmt _ _ Hs3).
Qed.
End start.

Section main_start.
Context `{Hpl : Plugins, !PluginLaws} (ld : loader) (rs : resources) (k : kernel) (pf : platform).

Lemma routes_local d m1 m2 :
  (forall s, s ∈ nd_services d ->
     svc_lookup (sd_service_id s) (n_registry (m_node m2)) = expected_route (m_node m1) (nd_name d) s) ->
  (forall k, k ∉ sd_service_id <$> nd_services d -> svc_lookup k (n_registry (m_node m2)) = None) ->
  forall id, here d id -> not_remote id (m_node m2).
Proof.
  intros Hr Hno id Hhere e He. destruct (decide (id ∈ sd_service_id <$> nd_services d)) as [Hin|Hin].
  - apply list_elem_of_fmap in Hin as (s & -> & Hs). rewrite (Hr s Hs) in He. unfold expected_route in He.
    rewrite (Hhere s Hs eq_refl), String.eqb_refl in He. by repeat case_match; simplify_eq.
  - by rewrite Hno in He.
Qed.

Lemma main_start_ok d h :
  machine_ok rs pf -> node_def_ok d ->
  exists c, main_start ld rs k pf d (process_static h) = Done (inr c) /\ cli_ok d (cl_mgr c).
Proof.
  intros Hm Hd. unfold main_start.
  set (c1 := node_register_stats (set_the_node (set_def d (the_node (process_static h))) (process_static h))).
  destruct (run_inits_quiet pf c1 (mk_inits _ _ Hm)) as [En Eo].
  set (c2 := sys_say rs _ _ (run_inits pf c1)).
  assert (the_node c2 = static_node d pool_static) as En2.
  { unfold c2, sys_say, the_node. cbn [cl_mgr set_mgr]. by rewrite m_node_sys_log. }
  assert (m_open (cl_mgr c2) = []) as Eo2.
  { unfold c2, sys_say. cbn [cl_mgr set_mgr]. by rewrite m_open_sys_log. }
  clearbody c2. rewrite En2. cbn [n_pool static_node].
  destruct (init_pool_ok pf (nd_buffer_pools d) (mk_memalign _ _ Hm) (dk_pools _ Hd)) as (st & p & -> & Hp). cbn [mbind outcome_bind].
  set (c3 := set_the_node (upd_pool (fun _ => p) (static_node d pool_static)) c2).
  assert (cl_mgr c3 = Mgr (static_node d p) [] (m_log (cl_mgr c2))) as E3.
  { unfold c3, set_the_node, set_world, on_node. cbn. by rewrite Eo2. }
  destruct (init_mgmt_ok k pf d c3 (mk_mgmt _ _ Hm) (mk_mgmt_fd _ _ Hm)) as (Hr4 & Hg4 & Hl4 & _ & _);
    [rewrite E3; by apply static_ready|]. set (c4 := node_init_mgmt k pf c3) in *.
  unfold the_node in Hg4, Hl4. rewrite E3 in Hg4, Hl4.
  destruct (startup_ok ld rs d (cl_mgr c4) Hr4 Hg4 (dk_manifest _ Hd) (dk_services _ Hd) (dk_count _ Hd)
    (mk_workers _ _ Hm) (mk_eventfd _ _ Hm)) as (m1 & m2 & -> & Hset & _ & Hr & Hsvc & Hno & Hlibs & _).
  cbn [mbind outcome_bind]. rewrite Hset. cbn [mbind outcome_bind]. eexists. split; [done|]. split; cbn [cl_mgr set_mgr].
  - exact Hr.
  - apply Hlibs. intros i. by rewrite Hl4, elem_of_nil.
  - intros id _. by apply (routes_local d m1).
Qed.
End main_start.

(** ** Shutdown *)

Section shutdown.
Context `{Hpl : Plugins, !PluginLaws} (rs : resources).

(** Every component of the list is stopped, freed and its library closed. *)
Lemma cleanup_ok l m rest :
  (forall i, i ∈ l -> exists c, li_comp i = Some c /\ is_Some (n_comps (m_node m) !! c)) ->
  NoDup (li_comp <$> l) -> m_open m ≡ₚ omap li_handle l ++ rest -> dyn_ok (m_node m) ->
  exists m', cleanup_components l m = Done m' /\
    same_table (upd_comps (fun cs => foldr delete cs (omap li_comp l)) (m_node m)) (m_node m') /\
    dyn_ok (m_node m') /\ m_open m' ≡ₚ rest.
Proof.
  revert m. induction l as [|i l IH]; intros m Hl Hnd Ho Hd; cbn [cleanup_components].
  { exists m. split_and!; [done| |done|done]. by split. }
  destruct (Hl i ltac:(left)) as (c & Hc & [C HC]). rewrite Hc. cbn [deref mbind outcome_bind]. rewrite HC.
  cbn [deref mbind outcome_bind]. rewrite fmap_cons in Hnd. apply NoDup_cons in Hnd as [Hni Hnd].
  destruct (call_stop_ok c C (m_node m) Hd) as [Hd1 Hs1].
  set (m1 := free_component c (li_handle i) (on_node (call_stop c C) m)).
  assert (m_node m1 = upd_comps (delete c) (call_stop c C (m_node m))) as E1
    by (unfold m1, free_component; by destruct (li_handle i)).
  assert (m_open m1 ≡ₚ omap li_handle l ++ rest) as Ho1.
  { unfold m1, free_component. cbn [omap list_omap] in Ho. destruct (li_handle i) as [hd|]; [|exact Ho].
    by apply remove_one_perm. }
  destruct (IH m1) as (m' & Hm' & Hs' & Hd' & Ho'); [|done|done|rewrite E1; by apply dyn_ok_comps|].
  { intros j Hj. destruct (Hl j ltac:(by right)) as (c' & Hc' & HC'). exists c'. split; [done|].
    rewrite E1. cbn. rewrite (st_comps _ _ Hs1), lookup_delete_ne; [done|]. intros ->. apply Hni.
    rewrite Hc, <-Hc'. by apply list_elem_of_fmap_2. }
  exists m'. split_and!; [done| |done|done]. etrans; [|exact Hs']. rewrite E1.
  cbn [omap list_omap]. rewrite Hc. destruct Hs1 as [S1 S2 S3 S4 S5 S6 S7 S8]. split; try done.
  cbn. rewrite S1. clear. induction (omap li_comp l) as [|x xs IH]; cbn; [done|].
  rewrite IH. apply delete_delete.
Qed.

Lemma foldr_delete_None {A} (cs : gmap nat A) l c :
  foldr delete cs l !! c = None <-> c ∈ l \/ cs !! c = None.
Proof.
  induction l as [|x l IH]; cbn; [rewrite elem_of_nil; naive_solver|]. rewrite elem_of_cons.
  destruct (decide (c = x)) as [->|Hne]; [rewrite lookup_delete_eq; naive_solver|].
  rewrite lookup_delete_ne by done. rewrite IH. naive_solver.
Qed.

(** Releasing the queues touches no component. *)
Lemma deinit_thread_table th n :
  n_comps (nos_scheduler_deinit_thread th n) = n_comps n /\
  n_mgmt (nos_scheduler_deinit_thread th n) = n_mgmt n /\ n_workers (nos_scheduler_deinit_thread th n) = n_workers n.
Proof.
  unfold nos_scheduler_deinit_thread. destruct th as [th|]; [|done]. destruct (n_threads n !! th); [|done].
  by destruct (flush_queue _ _ _).
Qed.

Lemma deinit_threads_table n :
  n_comps (deinit_threads n) = n_comps n /\ n_mgmt (deinit_threads n) = n_mgmt n /\
  n_workers (deinit_threads n) = n_workers n.
Proof.
  unfold deinit_threads. generalize (threads_of n). intros l. revert n.
  induction l as [|th l IH]; intros n; cbn [foldl]; [done|].
  destruct (deinit_thread_table (Some th) n) as (E1 & E2 & E3).
  destruct (IH (nos_scheduler_deinit_thread (Some th) n)) as (-> & -> & ->). done.
Qed.

Lemma stop_threads_ok n : dyn_ok n -> dyn_ok (stop_threads n) /\ same_table n (stop_threads n).
Proof.
  unfold stop_threads. generalize (threads_of n). intros l. revert n. induction l as [|th l IH]; intros n Hd; cbn; [done|].
  set (n1 := upd_thread th (fun T => notify (set_stop true T)) n).
  assert (same_table n n1) as Hs by by apply same_table_thread.
  assert (dyn_ok n1) as Hd1.
  { destruct Hd as [[Hw Hq Hr] Hh]. split; [split|].
    - apply (timers_wf_ext n); [done| |done]. by apply (upd_thread_keeps timer_heap).
    - apply (queues_ok_ext n); [done| |done]. by apply (upd_thread_keeps msg_queue).
    - done.
    - by apply (timers_hosted_same n). }
  destruct (IH n1 Hd1) as [? ?]. split; [done|]. by etrans.
Qed.

(** What the threads do until they have ended: steps of their loops; pointers
    into the database are given back. *)
Record joins (joined : cli -> cli) : Prop := {
  jn_node c : rtc thread_step (the_node c) (the_node (joined c));
  jn_open c : m_open (cl_mgr (joined c)) = m_open (cl_mgr c);
  jn_kv c : forallb (fun t => forallb (fun b => b_readers b =? 0) (kt_buckets t)) (cl_kv (joined c)) = true;
}.

(** Nothing is left of the node. *)
Record torn_down (c : cli) : Prop := {
  td_comps : n_comps (the_node c) = ∅;
  td_open : m_open (cl_mgr c) = [];
  td_threads th : th ∈ option_list (n_mgmt (the_node c)) ++ n_workers (the_node c) ->
    n_threads (the_node c) !! th = None;
  td_pool : g_bin_count (n_pool (the_node c)) = 0;
  td_kv : cl_kv c = [];
  td_log : lg_initialized (m_log (cl_mgr c)) = false;
}.

Lemma cli_ok_sys_say d level msg c : cli_ok d (cl_mgr c) -> cli_ok d (cl_mgr (sys_say rs level msg c)).
Proof. unfold sys_say, sys_log. cbn [cl_mgr set_mgr]. destruct (log_found rs); [apply cli_ok_log|done]. Qed.

Lemma cli_ok_node d c c' :
  rtc thread_step (the_node c) (the_node c') -> m_open (cl_mgr c') = m_open (cl_mgr c) ->
  cli_ok d (cl_mgr c) -> cli_ok d (cl_mgr c').
Proof.
  intros Hs Ho Hc. pose proof (cli_ok_threads d _ _ Hs Hc) as H'. unfold the_node in H'.
  destruct (cl_mgr c') as [n o l]. cbn in *. subst o. destruct H' as [[[] ?] ? ?].
  split; [split; [by split|done]|done..].
Qed.

Lemma main_shutdown_ok d joined c :
  joins joined -> cli_ok d (cl_mgr c) -> exists c', main_shutdown rs joined c = Done c' /\ torn_down c'.
Proof.
  intros Hj Hc. unfold main_shutdown. set (c1 := sys_say rs _ _ c).
  assert (cli_ok d (cl_mgr c1)) as Hc1 by by apply cli_ok_sys_say. set (c2 := set_the_node (stop_threads (the_node c1)) c1).
  assert (cli_ok d (cl_mgr c2)) as Hc2.
  { destruct (stop_threads_ok (the_node c1)) as [Hd Hs]; [apply (mgr_ok_dyn [] _ (proj1 (co_ready _ _ Hc1)))|].
    by apply cli_ok_same. }
  clearbody c2. pose proof (cli_ok_node d c2 (joined c2) (jn_node _ Hj c2) (jn_open _ Hj c2) Hc2) as Hc3.
  pose proof (jn_kv _ Hj c2) as Hkv. set (c3 := joined c2) in *. clearbody c3.
  destruct Hc3 as [[Hm _] _ _]. pose proof Hm as [_ _ Ht Ho]. set (l := rev (live (n_loaded (the_node c3)))).
  assert (l ≡ₚ live (n_loaded (the_node c3))) as Hl by (symmetry; apply Permutation_rev).
  destruct (cleanup_ok l (cl_mgr c3) []) as (m & -> & Hs & _ & Hopen).
  - intros i Hi. rewrite Hl in Hi.
    destruct (to_entry _ _ Ht i Hi) as (c' & th & Hc' & _). exists c'. split; [done|]. apply (to_live _ _ Ht).
    rewrite <-Hc'. by apply list_elem_of_fmap_2.
  - rewrite Hl. exact (to_nodup _ _ Ht).
  - by rewrite app_nil_r, Hl, Ho.
  - exact (mgr_ok_dyn _ _ Hm).
  - cbn [mbind outcome_bind]. unfold nos_kv_db_deinit. rewrite Hkv. cbn [mbind outcome_bind].
    destruct (deinit_threads_table (m_node m)) as (E1 & E2 & E3).
    eexists. split; [done|]. split; unfold the_node; cbn [cl_mgr set_mgr sys_say set_kv on_node on_log m_node m_open m_log];
      rewrite ?m_node_sys_log, ?m_open_sys_log; cbn [m_node m_open on_node cl_mgr set_mgr set_kv].
    + cbn [n_comps free_threads upd_threads upd_pool]. rewrite E1, (st_comps _ _ Hs). cbn.
      apply map_eq. intros x. rewrite lookup_empty, foldr_delete_None.
      destruct (n_comps (m_node (cl_mgr c3)) !! x) eqn:Hx; [left|by right].
      assert (Some x ∈ loaded_comps (m_node (cl_mgr c3))) as Hin by (apply (to_live _ _ Ht); by rewrite Hx).
      apply list_elem_of_fmap in Hin as (i & Hi & Hin). apply list_elem_of_omap. exists i. by rewrite Hl.
    + by apply Permutation_nil_r.
    + intros th Hth. cbn [n_threads free_threads upd_threads upd_pool n_mgmt n_workers] in *.
      apply foldr_delete_None. by left.
    + done.
    + done.
    + unfold nos_log_deinit. by case_match.
Qed.
End shutdown.


(** ** A concrete process *)

#[local] Existing Instance demo_plugins.
#[local] Existing Instance demo_laws.
#[local] Existing Instance busy_laws.

Definition demo_platform : platform :=
  Platform (fun _ => true) true true [fun c => set_mgr (on_log nos_log_init (cl_mgr c)) c].

Lemma demo_machine_ok : machine_ok demo_resources demo_platform.
Proof. by split; [..|repeat constructor]. Qed.

#[local] Instance waiting_laws : OthersLaws (fun _ => busy_threads 2).
Proof. split; [intros _ c; exact (others_node (others := busy_threads) 2 c)|done]. Qed.

Lemma demo_def_ok : node_def_ok demo_manifest.
Proof.
  split; [exact demo_manifest_ok| | | |cbn; lia].
  - repeat constructor; by vm_compute.
  - apply (bool_decide_unpack _). by vm_compute.
  - cbn. unfold MAX_SERVICES. lia.
Qed.

(** The last pointer into a table is given back. *)
Definition demo_joined (c : cli) : cli :=
  let c := busy_threads 1 c in
  set_kv (map (fun t => set_buckets (map (set_readers 0) (kt_buckets t)) t) (cl_kv c)) c.

Lemma demo_joins : joins demo_joined.
Proof.
  split; [intros c; exact (others_node (others := busy_threads) 1 c)|done|]. intros c. cbn. apply forallb_forall. intros t (t' & <- & _)%in_map_iff.
  apply forallb_forall. cbn. by intros b (b' & <- & _)%in_map_iff.
Qed.

