(* ===== verification/Api.v ===== *)
(** * The API of components (include/nos_api.h, include/nos_log_api.h)

    Components reach the log, the database and the timers through tables of
    operations ([nos_log_ops_t], [nos_kv_ops_t], [nos_timer_ops_t]) that are
    registered under a name as [void *].  An accessor looks the name up, casts
    the address to the type it expects and keeps it in a static variable, one
    in each translation unit; the macros call through it.

    Here an address carries the type of its table, and a cast to another type
    has no result.  [api_well_typed]: no cast goes wrong in any order of
    start-up, registrations and accesses.  [api_calls_direct]: after the
    start-up, whatever is registered later, a macro does what the function
    behind it does. *)

From stdpp Require Import base list gmap strings.
From S2P Require Import Prelude CString CArray Mem Buffer Service Node Timer Scheduler Kv Log NodeMain.
Local Open Scope nat_scope.

(** ** The tables of operations *)

Record nos_log_ops := LogOps {
  op_log : nos_log_level -> Z -> string -> nos_log_context -> nos_log_context;
  op_set_filter_level : nos_log_level -> nos_log_context -> nos_log_context;
  op_set_comp_level : string -> Z -> nos_log_level -> nos_log_context -> nos_log_context;
}.

Record nos_kv_ops := KvOps {
  op_table_create : nat -> bool -> option string -> nat -> nat -> nat -> kv_db -> option (kv_db * option nat);
  op_put : nos_kv_table -> option (list Z) -> option (list Z) -> nat -> kv_res (nos_status * nos_kv_table * list kv_sub);
  op_get : nos_kv_table -> option (list Z) -> nat -> kv_res (nos_status * option (list Z * nat));
  op_get_ptr : nos_kv_table -> option (list Z) -> kv_res (nos_status * nos_kv_table * option (list Z * nat));
  op_release_ptr : option nat -> nos_kv_table -> nos_kv_table;
  op_del : nos_kv_table -> option (list Z) -> kv_res (nos_status * nos_kv_table);
  op_subscribe : nos_kv_table -> option (list Z) -> option nat -> nat -> kv_res (nos_status * nos_kv_table);
  op_unsubscribe : nos_kv_table -> option (list Z) -> option nat -> nat -> kv_res (nos_status * nos_kv_table);
}.

Record nos_timer_ops := TimerOps {
  op_create : bool -> option nat -> nat -> option nat -> node -> node * option nat;
  op_start : Z -> nat -> option nat -> Z -> bool -> node -> nos_status * node;
  op_stop : nat -> option nat -> node -> nos_status * node;
  op_delete : (nat -> nat -> node -> node) -> option nat -> node -> node;
}.

Definition g_log_ops : nos_log_ops := LogOps nos_log_impl nos_set_level_impl nos_set_comp_level_impl.

Definition g_kv_ops : nos_kv_ops :=
  KvOps nos_kv_table_create nos_kv_put nos_kv_get nos_kv_get_ptr nos_kv_release_ptr nos_kv_del
        nos_kv_subscribe nos_kv_unsubscribe.

Definition g_timer_ops : nos_timer_ops := TimerOps nos_timer_create nos_timer_start nos_timer_stop nos_timer_delete.

(** A [void *ops]: the object it points to. *)
Inductive service_ops := SvcLog (o : nos_log_ops) | SvcKv (o : nos_kv_ops) | SvcTimer (o : nos_timer_ops).

Definition cast_log (a : service_ops) : option nos_log_ops := match a with SvcLog o => Some o | _ => None end.
Definition cast_kv (a : service_ops) : option nos_kv_ops := match a with SvcKv o => Some o | _ => None end.
Definition cast_timer (a : service_ops) : option nos_timer_ops := match a with SvcTimer o => Some o | _ => None end.

(** ** Accessors *)

(** The registry, the flags of the initialisers, and the static [cache] of
    each accessor by translation unit. *)
Record api := Api {
  ap_services : carr (Embedded.nos_embedded_service service_ops);
  ap_log : nos_log_context;
  ap_timer_init : bool;
  ap_cache : gmap (nat * string) service_ops;
}.

Definition api_static : api := Api Embedded.registry_static g_log_ctx false ∅.

Definition set_cache (c : gmap (nat * string) service_ops) (s : api) : api :=
  Api (ap_services s) (ap_log s) (ap_timer_init s) c.

(** The body of the three accessors in unit [u]; no result when the cast is
    to the wrong type. *)
Definition get_ops {A} (cast : service_ops -> option A) (name : string) (u : nat) (s : api)
    : option (option A * api) :=
  let '(o, c) := Embedded.cached_get name (ap_cache s !! (u, name)) (ap_services s) in
  let s' := set_cache (match c with Some a => <[(u, name) := a]> (ap_cache s) | None => ap_cache s end) s in
  match o with
  | None => Some (None, s')
  | Some a => f ← cast a; Some (Some f, s')
  end.

Definition _nos_get_log_ops : nat -> api -> option (option nos_log_ops * api) := get_ops cast_log "SVC_LOG".
Definition _nos_get_timer_ops : nat -> api -> option (option nos_timer_ops * api) := get_ops cast_timer "SVC_TIMER".
Definition _nos_get_kv_ops : nat -> api -> option (option nos_kv_ops * api) := get_ops cast_kv "SVC_KV_DB".

(** [ops ? ops->f(...) : d] *)
Definition through {O R} (get : nat -> api -> option (option O * api)) (u : nat) (s : api) (f : O -> R) (d : R)
    : option (R * api) :=
  '(o, s') ← get u s; Some (match o with Some o => f o | None => d end, s').

(** ** The macros *)

Definition nos_timer_create_auto u s calloc_ok cb arg free_cb (n : node) :=
  through _nos_get_timer_ops u s (fun o => op_create o calloc_ok cb arg free_cb n) (n, None).
Definition nos_timer_start_auto u s now self timer interval periodic (n : node) :=
  through _nos_get_timer_ops u s (fun o => op_start o now self timer interval periodic n) (NOS_ERR, n).
Definition nos_timer_stop_auto u s self timer (n : node) :=
  through _nos_get_timer_ops u s (fun o => op_stop o self timer n) (NOS_ERR, n).
Definition nos_timer_delete_auto u s free_arg timer (n : node) :=
  through _nos_get_timer_ops u s (fun o => op_delete o free_arg timer n) n.

Definition nos_kv_table_create_auto u s fuel calloc_ok name ks vs cap db :=
  through _nos_get_kv_ops u s (fun o => op_table_create o fuel calloc_ok name ks vs cap db) (Some (db, None)).
Definition nos_kv_put_auto u s t k v len :=
  through _nos_get_kv_ops u s (fun o => op_put o t k v len) (KvRet (NOS_ERR, t, [])).
Definition nos_kv_get_auto u s t k len :=
  through _nos_get_kv_ops u s (fun o => op_get o t k len) (KvRet (NOS_ERR, None)).
Definition nos_kv_subscribe_auto u s t k cb arg :=
  through _nos_get_kv_ops u s (fun o => op_subscribe o t k cb arg) (KvRet (NOS_ERR, t)).
Definition nos_kv_unsubscribe_auto u s t k cb arg :=
  through _nos_get_kv_ops u s (fun o => op_unsubscribe o t k cb arg) (KvRet (NOS_ERR, t)).

(** The log macros act on the context of the process. *)
Definition nos_log_raw u level id msg (s : api) : option api :=
  '(c, s') ← through _nos_get_log_ops u s (fun o => op_log o level id msg (ap_log s)) (ap_log s);
  Some (Api (ap_services s') c (ap_timer_init s') (ap_cache s')).

(** ** Everything that happens to it *)

Inductive api_call :=
  | CLogInit | CKvInit | CTimerInit
  | CRegister (name : string) (o : option service_ops)
  | CGetLog (u : nat) | CGetKv (u : nat) | CGetTimer (u : nat)
  | CLog (u : nat) (level : nos_log_level) (id : Z) (msg : string).

Definition set_services r (s : api) : api := Api r (ap_log s) (ap_timer_init s) (ap_cache s).

Definition api_step (c : api_call) (s : api) : option api :=
  match c with
  | CLogInit =>
      let '(l, r) := nos_log_init_register (SvcLog g_log_ops) (ap_log s) (ap_services s) in
      Some (Api r l (ap_timer_init s) (ap_cache s))
  | CKvInit => Some (set_services (nos_kv_db_init (SvcKv g_kv_ops) (ap_services s)) s)
  | CTimerInit =>
      let '(b, r) := nos_timer_init (SvcTimer g_timer_ops) (ap_timer_init s) (ap_services s) in
      Some (Api r (ap_log s) b (ap_cache s))
  | CRegister name o => Some (set_services (Embedded.nos_embedded_service_register name o (ap_services s)).2 s)
  | CGetLog u => snd <$> _nos_get_log_ops u s
  | CGetKv u => snd <$> _nos_get_kv_ops u s
  | CGetTimer u => snd <$> _nos_get_timer_ops u s
  | CLog u level id msg => nos_log_raw u level id msg s
  end.

Fixpoint api_run (l : list api_call) (s : api) : option api :=
  match l with
  | [] => Some s
  | c :: l => s' ← api_step c s; api_run l s'
  end.

(** ** Well-typedness *)

(** The type a name stands for. *)
Definition fits (name : string) (a : service_ops) : Prop :=
  match a with
  | SvcLog _ => name <> "SVC_KV_DB" /\ name <> "SVC_TIMER"
  | SvcKv _ => name <> "SVC_LOG" /\ name <> "SVC_TIMER"
  | SvcTimer _ => name <> "SVC_LOG" /\ name <> "SVC_KV_DB"
  end.

(** Whoever registers a table under one of the three names gives it the type
    of the name. *)
Definition call_typed (c : api_call) : Prop :=
  match c with CRegister name (Some a) => fits name a | _ => True end.

Definition found (name : string) (s : api) : option service_ops := Embedded.nos_embedded_service_get name (ap_services s).

Record api_ok (s : api) : Prop := {
  ao_registry : Embedded.registry_ok (ap_services s);
  ao_typed name a : found name s = Some a -> fits name a;
  ao_cache u name a : ap_cache s !! (u, name) = Some a -> found name s = Some a;
}.

Lemma api_static_ok : api_ok api_static.
Proof.
  split; [apply Embedded.embedded_static_ok|done|]. intros u name a H. cbn in H. by rewrite lookup_empty in H.
Qed.

(** What a registration does to what the names stand for. *)
Lemma register_found name o (r : carr (Embedded.nos_embedded_service service_ops)) n a :
  Embedded.registry_ok r ->
  let r' := (Embedded.nos_embedded_service_register name o r).2 in
  Embedded.registry_ok r' /\
  (Embedded.nos_embedded_service_get n r = Some a -> Embedded.nos_embedded_service_get n r' = Some a) /\
  (Embedded.nos_embedded_service_get n r' = Some a ->
     Embedded.nos_embedded_service_get n r = Some a \/ n = name /\ o = Some a).
Proof.
  intros Hr r'. subst r'. pose proof (Embedded.nos_embedded_service_register_spec name o r Hr) as H.
  destruct (Embedded.nos_embedded_service_register name o r) as [st r']. unfold Embedded.register_post in H.
  destruct st; cbn in *; try (destruct H as (_ & -> & _); by auto).
  destruct H as (Hr' & Ho & Hn). split; [done|]. destruct (decide (n = name)) as [->|Hne]; [|rewrite Ho by done; by auto].
  case_decide as He; rewrite Hn; [by auto|]. split; [|by auto]. intros Hg. exfalso. apply He.
  unfold Embedded.nos_embedded_service_get, carr_find in Hg. apply bind_Some in Hg as (i & Hi & _).
  apply find_idx_Some in Hi as (e & Hi & Hq & _). apply Exists_exists. exists e.
  split; [by eapply list_elem_of_lookup_2|by apply String.eqb_eq].
Qed.

Lemma register_ok name o s l b :
  api_ok s -> (forall a, o = Some a -> fits name a) ->
  api_ok (Api (Embedded.nos_embedded_service_register name o (ap_services s)).2 l b (ap_cache s)).
Proof.
  intros [Hr Ht Hc] Ho. split.
  - by apply (register_found name o _ name (SvcLog g_log_ops)).
  - intros n a Hf. apply (register_found name o _ n a Hr) in Hf as [Hf|[-> Hf]]; [by apply Ht|by apply Ho].
  - intros u n a Hu. by apply (register_found name o _ n a Hr), (Hc u).
Qed.

(** An accessor finds what the name stands for. *)
Lemma get_ops_found {A} (cast : service_ops -> option A) name u s :
  api_ok s -> (forall a, fits name a -> is_Some (cast a)) ->
  exists s', get_ops cast name u s = Some (found name s ≫= cast, s') /\ api_ok s' /\
    (forall n, found n s' = found n s) /\ ap_log s' = ap_log s.
Proof.
  intros [Hr Ht Hc] Hcast. unfold get_ops, Embedded.cached_get.
  destruct (ap_cache s !! (u, name)) as [a|] eqn:Ha.
  - pose proof (Hc u name a Ha) as Hf. rewrite Hf. destruct (Hcast a (Ht _ _ Hf)) as [f Hca]. cbn. rewrite Hca. cbn.
    eexists. split; [done|]. split; [|done]. split; [done..|]. cbn. by rewrite insert_id.
  - fold (found name s). destruct (found name s) as [a|] eqn:Hf; cbn.
    + destruct (Hcast a (Ht _ _ Hf)) as [f Hca]. rewrite Hca. cbn. eexists. split; [done|]. split; [|done].
      split; [done..|]. cbn. intros v n b. destruct (decide ((u, name) = (v, n))) as [E|Hne].
      * rewrite E, lookup_insert_eq. injection E as <- <-. by intros [= <-].
      * rewrite lookup_insert_ne by done. apply Hc.
    + eexists. split; [done|]. by split; [split|].
Qed.

Lemma fits_log a : fits "SVC_LOG" a -> is_Some (cast_log a).
Proof. destruct a; cbn; [by eexists|by intros []..]. Qed.
Lemma fits_kv a : fits "SVC_KV_DB" a -> is_Some (cast_kv a).
Proof. destruct a; cbn; [by intros []|by eexists|by intros []]. Qed.
Lemma fits_timer a : fits "SVC_TIMER" a -> is_Some (cast_timer a).
Proof. destruct a; cbn; [by intros []..|by eexists]. Qed.

Lemma log_raw_ok u level id msg s :
  api_ok s -> exists s', nos_log_raw u level id msg s = Some s' /\ api_ok s' /\ (forall n, found n s' = found n s) /\
    ap_log s' = match found "SVC_LOG" s ≫= cast_log with Some o => op_log o level id msg (ap_log s) | None => ap_log s end.
Proof.
  intros Hok. destruct (get_ops_found cast_log "SVC_LOG" u s Hok fits_log) as (s' & Hg & [Hr Ht Hc] & Hf & _).
  unfold nos_log_raw, through, _nos_get_log_ops. rewrite Hg. cbn. eexists. split; [done|]. by split; [split|].
Qed.

Lemma api_call_ok c s :
  api_ok s -> call_typed c ->
  exists s', api_step c s = Some s' /\ api_ok s' /\ forall n a, found n s = Some a -> found n s' = Some a.
Proof.
  intros Hok Hc. pose proof (ao_registry s Hok) as Hr.
  assert (forall name o n a, found n s = Some a ->
    Embedded.nos_embedded_service_get n (Embedded.nos_embedded_service_register name o (ap_services s)).2 = Some a) as Hm
    by (intros name o n a; by apply register_found).
  destruct c as [| | |name o|u|u|u|u level id msg]; cbn [api_step].
  - unfold nos_log_init_register. destruct (lg_initialized (ap_log s)); (eexists; split; [done|]); (split; [|first [by auto|exact (Hm _ _)]]).
    + by destruct Hok.
    + by apply register_ok; [|intros a [= <-]].
  - eexists. split; [done|]. split; [|by apply Hm]. by apply register_ok; [|intros a [= <-]].
  - unfold nos_timer_init. destruct (ap_timer_init s); (eexists; split; [done|]); (split; [|first [by auto|exact (Hm _ _)]]).
    + by destruct Hok.
    + by apply register_ok; [|intros a [= <-]].
  - eexists. split; [done|]. split; [|by apply Hm]. apply register_ok; [done|]. by intros a ->.
  - destruct (get_ops_found cast_log "SVC_LOG" u s Hok fits_log) as (s' & Hg & Hok' & Hf & _).
    unfold _nos_get_log_ops. rewrite Hg. exists s'. split_and!; [done..|]. intros n a. by rewrite Hf.
  - destruct (get_ops_found cast_kv "SVC_KV_DB" u s Hok fits_kv) as (s' & Hg & Hok' & Hf & _).
    unfold _nos_get_kv_ops. rewrite Hg. exists s'. split_and!; [done..|]. intros n a. by rewrite Hf.
  - destruct (get_ops_found cast_timer "SVC_TIMER" u s Hok fits_timer) as (s' & Hg & Hok' & Hf & _).
    unfold _nos_get_timer_ops. rewrite Hg. exists s'. split_and!; [done..|]. intros n a. by rewrite Hf.
  - destruct (log_raw_ok u level id msg s Hok) as (s' & Hg & Hok' & Hf & _).
    exists s'. split_and!; [done..|]. intros n a. by rewrite Hf.
Qed.

Lemma api_run_ok l s :
  api_ok s -> Forall call_typed l ->
  exists s', api_run l s = Some s' /\ api_ok s' /\ forall n a, found n s = Some a -> found n s' = Some a.
Proof.
  revert s. induction l as [|c l IH]; intros s Hok Hl; [by exists s|]. apply Forall_cons_iff in Hl as [Hc Hl].
  destruct (api_call_ok c s Hok Hc) as (s1 & H1 & Hok1 & Hm1). destruct (IH s1 Hok1 Hl) as (s2 & H2 & Hok2 & Hm2).
  exists s2. cbn [api_run]. rewrite H1. cbn. split_and!; [done..|]. auto.
Qed.

(** C8. The untyped service tables are used type-correctly: in every order of
    start-up, registrations, accesses and log calls in which whoever
    registers one of the three names gives it a table of its type, no
    accessor casts an address to a wrong type, in any translation unit and
    with any state of the caches; each returns NULL or the table the name
    stands for. *)
Theorem api_well_typed calls :
  Forall call_typed calls ->
  exists s, api_run calls api_static = Some s /\
    (forall name a, found name s = Some a -> fits name a) /\
    forall u,
      (exists s', _nos_get_log_ops u s = Some (found "SVC_LOG" s ≫= cast_log, s')) /\
      (exists s', _nos_get_kv_ops u s = Some (found "SVC_KV_DB" s ≫= cast_kv, s')) /\
      (exists s', _nos_get_timer_ops u s = Some (found "SVC_TIMER" s ≫= cast_timer, s')) /\
      forall level id msg, is_Some (nos_log_raw u level id msg s).
Proof.
  intros Hl. destruct (api_run_ok calls api_static api_static_ok Hl) as (s & Hr & Hok & _).
  exists s. split_and!; [done|apply Hok|]. intros u. split_and!.
  - destruct (get_ops_found cast_log "SVC_LOG" u s Hok fits_log) as (s' & Hg & _). by exists s'.
  - destruct (get_ops_found cast_kv "SVC_KV_DB" u s Hok fits_kv) as (s' & Hg & _). by exists s'.
  - destruct (get_ops_found cast_timer "SVC_TIMER" u s Hok fits_timer) as (s' & Hg & _). by exists s'.
  - intros level id msg. destruct (log_raw_ok u level id msg s Hok) as (s' & Hg & _). by exists s'.
Qed.

(** The order of the generated manifest. *)
Definition start_calls : list api_call := [CLogInit; CKvInit; CTimerInit].

Lemma through_direct {O R} {get : nat -> api -> option (option O * api)} {u s s' o} :
  get u s = Some (Some o, s') -> forall (f : O -> R) d, fst <$> through get u s f d = Some (f o).
Proof. intros H f d. unfold through. by rewrite H. Qed.

Lemma run_app l1 l2 s : api_run (l1 ++ l2) s = api_run l1 s ≫= api_run l2.
Proof.
  revert s. induction l1 as [|c l1 IH]; intros s; [done|]. cbn. destruct (api_step c s); [|done]. apply IH.
Qed.

Lemma started :
  exists s, api_run start_calls api_static = Some s /\ api_ok s /\ found "SVC_LOG" s = Some (SvcLog g_log_ops) /\
    found "SVC_KV_DB" s = Some (SvcKv g_kv_ops) /\ found "SVC_TIMER" s = Some (SvcTimer g_timer_ops).
Proof.
  pose proof (services_found (SvcLog g_log_ops) (SvcKv g_kv_ops) (SvcTimer g_timer_ops)) as H. cbv zeta in H.
  destruct (api_run_ok start_calls api_static api_static_ok) as (s & Hr & Hok & _); [by repeat constructor|].
  exists s. split; [done|]. split; [done|].
  cbn [start_calls api_run api_step mbind option_bind] in Hr. unfold nos_log_init_register, nos_timer_init in *.
  change (lg_initialized (ap_log api_static)) with false in Hr. change (lg_initialized g_log_ctx) with false in H.
  cbn [ap_timer_init set_services ap_services ap_log ap_cache snd fst api_static] in Hr, H. injection Hr as <-. exact H.
Qed.

(** C40. Calling through the tables is calling the functions: after the
    start-up, whatever was registered, looked up or logged since, each macro
    a component uses gives what the function of the engine gives. *)
Theorem api_calls_direct calls u :
  Forall call_typed calls ->
  exists s, api_run (start_calls ++ calls) api_static = Some s /\
    (forall fuel ok name ks vs cap db, fst <$> nos_kv_table_create_auto u s fuel ok name ks vs cap db =
       Some (nos_kv_table_create fuel ok name ks vs cap db)) /\
    (forall t k v len, fst <$> nos_kv_put_auto u s t k v len = Some (nos_kv_put t k v len)) /\
    (forall t k len, fst <$> nos_kv_get_auto u s t k len = Some (nos_kv_get t k len)) /\
    (forall t k cb arg, fst <$> nos_kv_subscribe_auto u s t k cb arg = Some (nos_kv_subscribe t k cb arg)) /\
    (forall t k cb arg, fst <$> nos_kv_unsubscribe_auto u s t k cb arg = Some (nos_kv_unsubscribe t k cb arg)) /\
    (forall ok cb arg free n, fst <$> nos_timer_create_auto u s ok cb arg free n = Some (nos_timer_create ok cb arg free n)) /\
    (forall now self t iv p n, fst <$> nos_timer_start_auto u s now self t iv p n = Some (nos_timer_start now self t iv p n)) /\
    (forall self t n, fst <$> nos_timer_stop_auto u s self t n = Some (nos_timer_stop self t n)) /\
    (forall free t n, fst <$> nos_timer_delete_auto u s free t n = Some (nos_timer_delete free t n)) /\
    (forall level id msg, ap_log <$> nos_log_raw u level id msg s = Some (nos_log_impl level id msg (ap_log s))).
Proof.
  intros Hl. destruct started as (s0 & H0 & Hok0 & F1 & F2 & F3).
  destruct (api_run_ok calls s0 Hok0 Hl) as (s & Hr & Hok & Hm). exists s.
  apply Hm in F1, F2, F3. split; [by rewrite run_app, H0|].
  destruct (get_ops_found cast_kv "SVC_KV_DB" u s Hok fits_kv) as (sk & K & _). rewrite F2 in K.
  destruct (get_ops_found cast_timer "SVC_TIMER" u s Hok fits_timer) as (st & T & _). rewrite F3 in T.
  split_and!; intros; first
    [ exact (through_direct K _ _) | exact (through_direct T _ _)
    | destruct (log_raw_ok u level id msg s Hok) as (s' & -> & _ & _ & E); cbn; by rewrite E, F1 ].
Qed.

(** A component registers a service of its own and one that is taken. *)
Definition demo_calls : list api_call :=
  [CGetKv 1; CRegister "MY_SVC" (Some (SvcLog g_log_ops)); CLog 2 NOS_LOG_LEVEL_WARN 3 "hello";
   CRegister "SVC_KV_DB" (Some (SvcKv g_kv_ops)); CTimerInit; CGetTimer 1].

Lemma demo_calls_typed : Forall call_typed demo_calls.
Proof. by repeat constructor. Qed.

Lemma api_well_typed_witness :
  Forall call_typed (CGetKv 0 :: start_calls ++ demo_calls) /\
  exists s, api_run (CGetKv 0 :: start_calls ++ demo_calls) api_static = Some s /\
    (forall name a, found name s = Some a -> fits name a) /\
    forall u,
      (exists s', _nos_get_log_ops u s = Some (found "SVC_LOG" s ≫= cast_log, s')) /\
      (exists s', _nos_get_kv_ops u s = Some (found "SVC_KV_DB" s ≫= cast_kv, s')) /\
      (exists s', _nos_get_timer_ops u s = Some (found "SVC_TIMER" s ≫= cast_timer, s')) /\
      forall level id msg, is_Some (nos_log_raw u level id msg s).
Proof.
  assert (Forall call_typed (CGetKv 0 :: start_calls ++ demo_calls)) as H
    by (constructor; [done|apply Forall_app; split; [by repeat constructor|exact demo_calls_typed]]).
  split; [exact H|]. exact (api_well_typed _ H).
Defined.

Lemma api_calls_direct_witness :
  exists s, api_run (start_calls ++ demo_calls) api_static = Some s /\
    forall t k v len, fst <$> nos_kv_put_auto 5 s t k v len = Some (nos_kv_put t k v len).
Proof.
  destruct (api_calls_direct demo_calls 5 demo_calls_typed) as (s & Hr & _ & Hp & _). exists s. by split.
Defined.
