(* ===== verification/Components.v ===== *)
(** * The sample components (src/components)

    Five models and two pairs of ping and pong.  A component's state is its
    private context; its handlers act on the node through the API: logging,
    posting and answering messages, timers, the key-value database.  The
    handlers are what the functions [run_init], [run_start], [run_msg] and
    [run_stop] of the other files stand for.  Reading a payload behind the
    end of its chunk, or notifying a subscriber that was freed, is [Undef].

    The service ids come from a generated header, the text of the
    measurements from the formatting of floating-point numbers: both are
    parameters. *)

From stdpp Require Import base list sets gmap strings relations pretty.
From S2P Require Import Prelude CString CArray Ring Mem Buffer Service Node Timer Scheduler Kv Log Refs Ipc Plugin Post.
Import Registry.
Local Open Scope Z_scope.

(** ** What handlers act on *)

Record env (X : Type) := Env {
  v_node : node;
  v_ipc : X;
  v_log : nos_log_context;
  v_kv : kv_db;
}.
Arguments Env {X} _ _ _ _.
Arguments v_node {X} _.
Arguments v_ipc {X} _.
Arguments v_log {X} _.
Arguments v_kv {X} _.

(** Which embedded services are registered, what allocations and the clock
    answer, and the generated ids. *)
Record setting := Setting {
  log_service : bool;
  kv_service : bool;
  timer_service : bool;
  calloc_ok : bool;
  clock_ns : Z;
  clock_ms : Z;
  SVC_MGMT : Z;
  SVC_ROUTING_V4 : Z;
  report : Z -> Z -> Z -> list string;   (* elapsed time, count, payload *)
  kv_fuel : nat;
}.

(** [int] values as the database stores them. *)
Definition int_bytes (v : Z) : list Z := le_bytes 4 (u32 v).
Definition bytes_int (bs : list Z) : Z := i32 (le_val bs).

(** [char key[32] = {0}; strncpy(key, name, 31)] *)
Definition name_key (name : string) : list Z := cstr_field 32 (strncpy_field 32 name).

Section components.
Context {X : Type} `{!IpcTransport X} (s : setting).

Abbreviation world := (env X).

Definition on_nodes (f : node -> X -> node * X) (v : world) : world :=
  let '(n, x) := f (v_node v) (v_ipc v) in Env n x (v_log v) (v_kv v).
Definition on_kv (db : kv_db) (v : world) : world := Env (v_node v) (v_ipc v) (v_log v) db.

(** [nos_log_debug], [nos_log_info], [nos_log_warn] *)
Definition comp_log (level : nos_log_level) (C : nos_component) (msg : string) (v : world) : world :=
  if log_service s then Env (v_node v) (v_ipc v) (nos_log_impl level (c_id C) msg (v_log v)) (v_kv v) else v.
Definition info := comp_log NOS_LOG_LEVEL_INFO.
Definition debug := comp_log NOS_LOG_LEVEL_DEBUG.
Definition warn := comp_log NOS_LOG_LEVEL_WARN.

(** Composing, sending and releasing a message. *)
Definition post_msg (size : Z) (fs : list (msg_field * Z)) (payload : list Z) (v : world) : world :=
  on_nodes (fun n x => let '(_, n, x) := post size fs payload n x in (n, x)) v.

(** The header of the message being handled. *)
Definition header (r : buf_ref) (v : world) : outcome nos_service_msg := deref (buf_msg r (n_pool (v_node v))).

(** The chunk's bytes behind the header. *)
Definition payload_room (r : buf_ref) (p : pool) : Z :=
  match get_buf r p with
  | Some b => Z.of_nat (length (b_raw b)) - b_data b - Z.of_nat MSG_SIZE
  | None => 0
  end.

(** The [i]-th word of the payload.  Nothing checks that the payload lies in
    the chunk. *)
Definition payload_word (i : nat) (r : buf_ref) (v : world) : outcome Z :=
  b ← deref (get_buf r (n_pool (v_node v)));
  if payload_room r (n_pool (v_node v)) <? Z.of_nat (4 * i + 4) then Undef
  else Done (mem_read 4 (Z.to_nat (b_data b) + MSG_SIZE + 4 * i) (b_raw b)).

(** A table operation through the registered service; a chain of the
    database that does not end, or a lock nobody gives up, does not return. *)
Definition kv_done {A} (r : kv_res A) : outcome A :=
  match r with KvRet a => Done a | KvBlocked => Fuel | KvStuck => Fuel end.

Definition table_create (name : string) (ks mv cap : nat) (v : world) : outcome (option nat * world) :=
  if kv_service s then
    '(db, t) ← match nos_kv_table_create (kv_fuel s) (calloc_ok s) (Some name) ks mv cap (v_kv v) with
               | Some r => Done r | None => Fuel end;
    Done (t, on_kv db v)
  else Done (None, v).

(** *** Model 1: heartbeat and observer *)

Record comp_ctx1 := Ctx1 { heartbeat_timer : option timer_ptr; comp2_state_table : option nat }.

Definition on_comp2_state_change (C : nos_component) (val : list Z) (v : world) : world :=
  if decide (length val = 4%nat) then
    info C ("DETECTED: Comp-2 state changed to " +:+ pretty (bytes_int val) +:+ " via KV Sub/Notify!") v
  else v.

Definition heartbeat_callback (C : nos_component) (v : world) : world :=
  post_msg 32 [(F_magic, NOS_IPC_MAGIC); (F_dst_service, SVC_ROUTING_V4 s); (F_src_component, c_id C);
               (F_msg_code, 1001); (F_payload_len, 0)] []
    (debug C "Timer callback: sending heartbeat to Comp-2" v).

(** The reply models 1 and 4 send to the management service; its payload
    length is not assigned. *)
Definition mgmt_reply (C : nos_component) : list (msg_field * Z) :=
  [(F_magic, NOS_IPC_MAGIC); (F_dst_service, SVC_MGMT s); (F_src_component, c_id C); (F_msg_code, 1002)].

Definition received (prefix : string) (m : nos_service_msg) : string :=
  prefix +:+ pretty (src_component m) +:+ ", Code " +:+ pretty (msg_code m).

Definition on_msg1 (C : nos_component) (r : buf_ref) (v : world) : outcome world :=
  m ← header r v;
  let v := info C (received "Received msg from Comp " m) v in
  Done (if msg_code m =? 1001
        then post_msg 64 (mgmt_reply C) [] (info C "Replying to MGMT Service" v) else v).

Definition init1 (C : nos_component) (v : world) : nos_status * option comp_ctx1 * world :=
  if calloc_ok s then (NOS_OK, Some (Ctx1 None None), debug C "Initialized via Auto-Injection API" v)
  else (NOS_ERR, None, v).

(** The callbacks the components register, and their argument: the
    component's address. *)
Definition CB_HEARTBEAT : nat := 10.
Definition CB_STATE_CHANGE : nat := 11.

Definition create_heartbeat (self : comp_ptr) (v : world) : option timer_ptr * world :=
  if timer_service s then
    let '(n, t) := nos_timer_create (calloc_ok s) (Some CB_HEARTBEAT) self None (v_node v) in
    (t, on_nodes (fun _ x => (n, x)) v)
  else (None, v).

Definition start_heartbeat (self : comp_ptr) (C : nos_component) (t : option timer_ptr) (v : world) : world :=
  match t with
  | None => v
  | Some _ =>
      info C "Heartbeat timer object created and started (10s)"
        (if timer_service s then
           on_nodes (fun n x => ((nos_timer_start (clock_ms s) self t 10000 true n).2, x)) v
         else v)
  end.

Definition subscribe_state (self : comp_ptr) (C : nos_component) (h : option nat) (v : world) : outcome world :=
  match h with
  | None => Done v
  | Some h =>
      t ← deref (v_kv v !! h);
      '(st, t') ← kv_done (nos_kv_subscribe t (Some (name_key "Comp-2")) (Some CB_STATE_CHANGE) self);
      let v := on_kv (<[h := t']> (v_kv v)) v in
      Done (if decide (st = NOS_OK) then info C "Subscribed to Comp-2 state changes in KV DB" v
            else warn C "Failed to subscribe to Comp-2 state (might not exist yet)" v)
  end.

Definition start1 (self : comp_ptr) (C : nos_component) (ctx : option comp_ctx1) (v : world)
    : outcome (option comp_ctx1 * world) :=
  _ ← deref ctx;
  let '(t, v) := create_heartbeat self v in
  let v := start_heartbeat self C t v in
  '(h, v) ← table_create "CompStates" 32 4 128 v;
  v ← subscribe_state self C h v;
  Done (Some (Ctx1 t h), v).

(** [free_arg] of the timer is NULL. *)
Definition stop1 (self : comp_ptr) (ctx : option comp_ctx1) (v : world) : outcome (option comp_ctx1 * world) :=
  match ctx with
  | None => Done (None, v)
  | Some c =>
      let v := match heartbeat_timer c with
               | Some t =>
                   if timer_service s then
                     on_nodes (fun n x => (nos_timer_delete (fun _ _ n => n) (Some t) n, x)) v
                   else v
               | None => v
               end in
      v ← match comp2_state_table c with
          | None => Done v
          | Some h =>
              if kv_service s then
                t ← deref (v_kv v !! h);
                '(_, t') ← kv_done (nos_kv_unsubscribe t (Some (name_key "Comp-2")) (Some CB_STATE_CHANGE) self);
                Done (on_kv (<[h := t']> (v_kv v)) v)
              else Done v
          end;
      Done (None, v)
  end.

(** *** Model 2: a counter kept in the database *)

Record comp_ctx2 := Ctx2 { state_table : option nat; test_table : option nat; local_counter : Z }.

(** What a put calls: model 1's observer, whose argument is the address of its
    component. *)
Definition notify_sub (val : list Z) (v : world) (sub : kv_sub) : outcome world :=
  if decide (sub.1 = CB_STATE_CHANGE /\ length val = 4%nat) then
    C ← deref (n_comps (v_node v) !! sub.2); Done (on_comp2_state_change C val v)
  else Done v.

Fixpoint notify_subs (val : list Z) (subs : list kv_sub) (v : world) : outcome world :=
  match subs with
  | [] => Done v
  | sub :: subs => v ← notify_sub val v sub; notify_subs val subs v
  end.

Definition kv_put (h : option nat) (key val : list Z) (v : world) : outcome world :=
  match h with
  | None => Done v
  | Some h =>
      t ← deref (v_kv v !! h);
      '(_, t', subs) ← kv_done (nos_kv_put t (Some key) (Some val) (length val));
      notify_subs val subs (on_kv (<[h := t']> (v_kv v)) v)
  end.

(** The counter is an [int]: at its largest value the increment is
    undefined. *)
Definition count_up (c : Z) : outcome Z := if c =? 2 ^ 31 - 1 then Undef else Done (c + 1).

Definition on_msg2 (C : nos_component) (ctx : option comp_ctx2) (v : world)
    : outcome (option comp_ctx2 * world) :=
  match ctx with
  | None => Done (None, v)
  | Some c =>
      k ← count_up (local_counter c);
      v ← kv_put (state_table c) (name_key (c_name C)) (int_bytes k) v;
      v ← kv_put (test_table c) (int_bytes k) (int_bytes k) v;
      Done (Some (Ctx2 (state_table c) (test_table c) k),
            info C ("Msg received, counter: " +:+ pretty k +:+ ". Data synced to KV DB.") v)
  end.

(** The counter an earlier instance left, or a first entry. *)
Definition recover2 (C : nos_component) (h : option nat) (v : world) : outcome (Z * world) :=
  match h with
  | None => Done (0, v)
  | Some i =>
      t ← deref (v_kv v !! i);
      '(st, r) ← kv_done (nos_kv_get t (Some (name_key (c_name C))) 4);
      match st, r with
      | NOS_OK, Some (val, _) =>
          let k := bytes_int (bytes_put 0 val (int_bytes 0)) in
          Done (k, info C ("State recovered from KV DB: counter = " +:+ pretty k) v)
      | _, _ => v ← kv_put h (name_key (c_name C)) (int_bytes 0) v; Done (0, v)
      end
  end.

Definition init2 (C : nos_component) (v : world) : outcome (nos_status * option comp_ctx2 * world) :=
  if calloc_ok s then
    '(h, v) ← table_create "CompStates" 32 4 128 v;
    '(h2, v) ← table_create "TestData" 4 4 1024 v;
    '(k, v) ← recover2 C h v;
    Done (NOS_OK, Some (Ctx2 h h2 k),
          debug C "Component instance with multiple KV tables initialized" v)
  else Done (NOS_ERR, None, v).

(** [free(self->priv); self->priv = NULL] *)
Definition stop2 (ctx : option comp_ctx2) : option comp_ctx2 := None.

(** *** Model 3: log load *)

Fixpoint spam (C : nos_component) (i n : nat) (v : world) : world :=
  match n with
  | O => v
  | S n => spam C (S i) n (debug C ("Spam message #" +:+ pretty (Z.of_nat i) +:+ " for stress testing") v)
  end.

Definition init3 (C : nos_component) (v : world) : nos_status * world :=
  (NOS_OK, debug C "Model 3 (Infrastructure Helper) initialized" v).

Definition on_msg3 (C : nos_component) (r : buf_ref) (v : world) : outcome world :=
  m ← header r v;
  if msg_code m =? 3002 then
    log_count ← (if payload_len m >=? 4 then payload_word 0 r v else Done 2000);
    Done (info C "Spam Logging Complete"
            (spam C 0 (Z.to_nat log_count)
               (info C ("Starting Spam Logging: " +:+ pretty log_count +:+ " messages") v)))
  else Done v.

(** *** Models 4 and 5: counters *)

Definition received_total (k : Z) (m : nos_service_msg) : string :=
  "RECEIVED (Total: " +:+ pretty k +:+ "): From Component " +:+ pretty (src_component m) +:+
  ", MsgCode " +:+ pretty (msg_code m).

(** The counter is the private context. *)
Definition count_msg (C : nos_component) (ctx : option Z) (r : buf_ref) (v : world)
    : outcome (Z * nos_service_msg * world) :=
  m ← header r v; c ← deref ctx; k ← count_up c;
  Done (k, m, info C (received_total k m) v).

(** The answer is sent and its buffer kept. *)
Definition on_msg4 (C : nos_component) (ctx : option Z) (r : buf_ref) (v : world)
    : outcome (option Z * world) :=
  '(k, m, v) ← count_msg C ctx r v;
  Done (Some k,
    if msg_code m =? 1001 then
      on_nodes (fun n x =>
        match compose 64 (mgmt_reply C) [] n with
        | (None, n) => (n, x)
        | (Some r, n) => let '(_, n, x) := nos_service_msg_send (Some r) n x in (n, x)
        end) (info C "Auto-replying to MGMT Service" v)
    else v).

Definition on_msg5 (C : nos_component) (ctx : option Z) (r : buf_ref) (v : world)
    : outcome (option Z * world) :=
  '(k, _, v) ← count_msg C ctx r v; Done (Some k, v).

Definition init_counter (text : string) (C : nos_component) (v : world) : option Z * world :=
  (if calloc_ok s then Some 0 else None, debug C text v).

(** *** Ping and pong in one node *)

Record ping_ctx := PingCtx { start_time_ns : Z; target_count : Z; current_count : Z }.

Definition ping_fields (C : nos_component) (service code : Z) : list (msg_field * Z) :=
  [(F_magic, NOS_IPC_MAGIC); (F_dst_service, service); (F_src_component, c_id C); (F_msg_code, code);
   (F_payload_len, 0)].

Definition send_ping (C : nos_component) (v : world) : world := post_msg 32 (ping_fields C 112 2001) [] v.

Definition say_all (C : nos_component) (l : list string) (v : world) : world := foldl (fun v t => info C t v) v l.

Definition on_msg_ping (C : nos_component) (ctx : option ping_ctx) (r : buf_ref) (v : world)
    : outcome (option ping_ctx * world) :=
  m ← header r v;
  if msg_code m =? 3001 then
    _ ← deref ctx;
    target ← (if payload_len m >=? 4 then payload_word 0 r v else Done 100000);
    let v := info C ("Specialized Perf Test Started: " +:+ pretty target +:+ " iterations") v in
    Done (Some (PingCtx (clock_ns s) target 0), send_ping C v)
  else if msg_code m =? 2002 then
    c ← deref ctx;
    let k := u32 (current_count c + 1) in
    Done (Some (PingCtx (start_time_ns c) (target_count c) k),
      if k <? target_count c then send_ping C v
      else say_all C ("Specialized Perf Test Complete!"%string ::
                      report s (u64 (clock_ns s - start_time_ns c)) (target_count c) 0) v)
  else Done (ctx, v).

Definition on_msg_pong (C : nos_component) (r : buf_ref) (v : world) : outcome world :=
  m ← header r v;
  Done (if msg_code m =? 2001 then post_msg 32 (ping_fields C 111 2002) [] v else v).

(** *** Ping and pong across nodes *)

Record rping_ctx := RPingCtx {
  rp_start_ns : Z;
  rp_target : Z;
  rp_current : Z;
  rp_payload : Z;
  rp_sweep_count : nat;
  rp_sweep_index : nat;
  rp_sweep_sizes : list Z;      (* uint32_t[8] *)
}.

Definition sweep_defaults : list Z := [32; 64; 128; 256; 512; 1024; 2048; 4096].

(** A message with a payload of [len] bytes: the size asked for is a
    [uint32_t], and nothing checks that the payload fits what was got. *)
Definition compose_large (len : Z) (fs : list (msg_field * Z)) (bytes : nat -> outcome (list Z)) (n : node)
    : outcome (option buf_ref * node) :=
  match nos_buffer_alloc (u32 (Z.of_nat MSG_SIZE + len)) 0 (n_pool n) with
  | (p, None) => Done (None, upd_pool (fun _ => p) n)
  | (p, Some r) =>
      if payload_room r p <? len then Undef
      else
        bs ← bytes (Z.to_nat len);
        Done (Some r, upd_pool (fun _ => put_payload bs r (fill fs r p)) n)
  end.

Definition rping_fields (C : nos_component) (seq len : Z) : list (msg_field * Z) :=
  [(F_magic, NOS_IPC_MAGIC); (F_version, NOS_IPC_VERSION); (F_dst_service, 114); (F_src_component, c_id C);
   (F_msg_code, 2001); (F_seq, seq); (F_flags, NOS_MSG_F_NEED_REPLY); (F_payload_len, len)].

Definition rsend_ping (C : nos_component) (c : rping_ctx) (v : world) : outcome world :=
  '(o, n) ← compose_large (rp_payload c) (rping_fields C (u32 (rp_current c + 1)) (rp_payload c))
              (fun k => Done (replicate k 0xA5)) (v_node v);
  Done (on_nodes (fun _ x =>
    match o with
    | None => (n, x)
    | Some r => let '(_, n, x) := nos_service_msg_send (Some r) n x in
                (upd_pool (nos_buffer_release (Some r)) n, x)
    end) v).

Definition start_one_test (C : nos_component) (payload_size : Z) (c : rping_ctx) (v : world)
    : outcome (option rping_ctx * world) :=
  let c := RPingCtx (clock_ns s) (rp_target c) 0 payload_size (rp_sweep_count c) (rp_sweep_index c)
             (rp_sweep_sizes c) in
  v ← rsend_ping C c
        (info C ("Cross-Process Perf Test Started: " +:+ pretty (rp_target c) +:+ " iterations, payload " +:+
                 pretty payload_size +:+ " bytes") v);
  Done (Some c, v).

Definition set_target (target : Z) (c : rping_ctx) : rping_ctx :=
  RPingCtx (rp_start_ns c) target (rp_current c) (rp_payload c) 0 0 (rp_sweep_sizes c).
Definition set_sweep (count index : nat) (sizes : list Z) (c : rping_ctx) : rping_ctx :=
  RPingCtx (rp_start_ns c) (rp_target c) (rp_current c) (rp_payload c) count index sizes.
Definition set_current (k : Z) (c : rping_ctx) : rping_ctx :=
  RPingCtx (rp_start_ns c) (rp_target c) k (rp_payload c) (rp_sweep_count c) (rp_sweep_index c) (rp_sweep_sizes c).

Definition rping_start (C : nos_component) (c : rping_ctx) (m : nos_service_msg) (r : buf_ref) (v : world)
    : outcome (option rping_ctx * world) :=
  target ← (if payload_len m >=? 4 then payload_word 0 r v else Done 100000);
  requested ← (if payload_len m >=? 8 then payload_word 1 r v else Done 0);
  let c := set_target target c in
  if requested =? 2 ^ 32 - 1 then
    start_one_test C (default 0 (sweep_defaults !! 0%nat))
      (set_sweep (length sweep_defaults) 0 sweep_defaults c)
      (info C ("Cross-Process Perf Sweep Started: " +:+ pretty target +:+ " iterations per payload") v)
  else start_one_test C requested c v.

(** The end of a test: the next size of a sweep, if any. *)
Definition rping_complete (C : nos_component) (c : rping_ctx) (v : world)
    : outcome (option rping_ctx * world) :=
  let v := say_all C ("Cross-Process Perf Test Complete!"%string ::
                      report s (u64 (clock_ns s - rp_start_ns c)) (rp_target c) (rp_payload c)) v in
  if (0 <? rp_sweep_count c)%nat && (S (rp_sweep_index c) <? rp_sweep_count c)%nat then
    let c := set_sweep (rp_sweep_count c) (S (rp_sweep_index c)) (rp_sweep_sizes c) c in
    size ← deref (rp_sweep_sizes c !! rp_sweep_index c);
    start_one_test C size c v
  else Done (Some (set_sweep 0 0 (rp_sweep_sizes c) c), v).

Definition rping_pong (C : nos_component) (c : rping_ctx) (v : world) : outcome (option rping_ctx * world) :=
  let k := u32 (rp_current c + 1) in
  let c := set_current k c in
  let v := if k mod 1000 =? 0
           then info C ("Progress: " +:+ pretty k +:+ "/" +:+ pretty (rp_target c)) v else v in
  if k <? rp_target c then v ← rsend_ping C c v; Done (Some c, v)
  else rping_complete C c v.

Definition on_msg_rping (C : nos_component) (ctx : option rping_ctx) (r : buf_ref) (v : world)
    : outcome (option rping_ctx * world) :=
  m ← header r v;
  if msg_code m =? 3001 then c ← deref ctx; rping_start C c m r v
  else if msg_code m =? 2002 then c ← deref ctx; rping_pong C c v
  else Done (ctx, v).

Definition rpong_fields (C : nos_component) (m : nos_service_msg) : list (msg_field * Z) :=
  [(F_magic, NOS_IPC_MAGIC); (F_version, NOS_IPC_VERSION); (F_dst_service, 0); (F_src_component, c_id C);
   (F_msg_code, 2002); (F_seq, seq_no m); (F_flags, 0); (F_payload_len, payload_len m)].

(** The first [k] bytes of the payload of [req]. *)
Definition read_payload (req : buf_ref) (n : node) (k : nat) : outcome (list Z) :=
  b ← deref (get_buf req (n_pool n));
  if payload_room req (n_pool n) <? Z.of_nat k then Undef
  else Done (take k (drop (Z.to_nat (b_data b) + MSG_SIZE) (b_raw b))).

(** The answer carries the request's payload back. *)
Definition on_msg_rpong (C : nos_component) (req : buf_ref) (v : world) : outcome world :=
  m ← header req v;
  if msg_code m =? 2001 then
    '(o, n) ← compose_large (payload_len m) (rpong_fields C m) (read_payload req (v_node v)) (v_node v);
    Done (on_nodes (fun _ x =>
      match o with
      | None => (n, x)
      | Some r =>
          let '(_, n, x) := nos_service_reply (nos_service_get_reply_ctx (Some req) (n_pool n)) (Some r) n x in
          (upd_pool (nos_buffer_release (Some r)) n, x)
      end) v)
  else Done v.

(** *** The contexts of ping and remote ping *)

Definition init_ping : option ping_ctx := if calloc_ok s then Some (PingCtx 0 0 0) else None.

Definition init_rping : option rping_ctx :=
  if calloc_ok s then Some (RPingCtx 0 0 0 0 0 0 (replicate 8 0)) else None.

(** [free(self->priv)]: the component goes with it. *)
Definition stop_ping (ctx : option ping_ctx) : option ping_ctx := None.
Definition stop_rping (ctx : option rping_ctx) : option rping_ctx := None.

(** *** Components by model *)

Inductive instance :=
  | Model1 (ctx : option comp_ctx1)
  | Model2 (ctx : option comp_ctx2)
  | Model3
  | Model4 (ctx : option Z)
  | Model5 (ctx : option Z)
  | Ping (ctx : option ping_ctx)
  | Pong
  | RPing (ctx : option rping_ctx)
  | RPong.

(** The entry points of a component, as numbered in its callbacks. *)
Definition CB_INIT : nat := 1.
Definition CB_START : nat := 2.
Definition CB_STOP : nat := 3.
Definition CB_ON_MSG : nat := 4.

(** What [nos_export_component] assigns: always [on_msg], the others as
    stated; what is not assigned stays. *)
Definition exports (init start stop : bool) (c : comp_ptr) (n : node) : nos_status * node :=
  (NOS_OK, upd_comp c (fun C => Comp (c_id C) (c_name C) (c_status C)
     (if init then Some CB_INIT else c_init C) (if start then Some CB_START else c_start C)
     (if stop then Some CB_STOP else c_stop C) (Some CB_ON_MSG)) n).

Definition export1 := exports true true true.
Definition export2 := exports true true true.
Definition export3 := exports true false false.
Definition export4 := exports true true false.
Definition export5 := exports true true false.
Definition export_ping := exports true false true.
Definition export_pong := exports false false false.
Definition export_rping := exports true false true.
Definition export_rpong := exports false false false.

Definition nos_export_component (i : instance) : comp_ptr -> node -> nos_status * node :=
  match i with
  | Model1 _ => export1 | Model2 _ => export2 | Model3 => export3 | Model4 _ => export4 | Model5 _ => export5
  | Ping _ => export_ping | Pong => export_pong | RPing _ => export_rping | RPong => export_rpong
  end.

(** The call of [on_msg]. *)
Definition comp_on_msg (i : instance) (C : nos_component) (r : buf_ref) (v : world)
    : outcome (instance * world) :=
  match i with
  | Model1 ctx => v ← on_msg1 C r v; Done (Model1 ctx, v)
  | Model2 ctx => '(ctx, v) ← on_msg2 C ctx v; Done (Model2 ctx, v)
  | Model3 => v ← on_msg3 C r v; Done (Model3, v)
  | Model4 ctx => '(ctx, v) ← on_msg4 C ctx r v; Done (Model4 ctx, v)
  | Model5 ctx => '(ctx, v) ← on_msg5 C ctx r v; Done (Model5 ctx, v)
  | Ping ctx => '(ctx, v) ← on_msg_ping C ctx r v; Done (Ping ctx, v)
  | Pong => v ← on_msg_pong C r v; Done (Pong, v)
  | RPing ctx => '(ctx, v) ← on_msg_rping C ctx r v; Done (RPing ctx, v)
  | RPong => v ← on_msg_rpong C r v; Done (RPong, v)
  end.
End components.

(** The exports are lawful: they fill in callbacks of their component. *)
Lemma export_lawful i c n : exports_to c n (nos_export_component i c n).2.
Proof. destruct i; by eexists. Qed.

(** ** References *)

Section refs.
Context {X : Type} `{!IpcTransport X, !IpcLaws X} (s : setting).

(** Neither the node nor the IPC layer changed. *)
Definition same_net (v v' : env X) : Prop := v_node v' = v_node v /\ v_ipc v' = v_ipc v.

#[export] Instance same_net_preorder : PreOrder same_net.
Proof. split; [by intros v; split|]. intros a b c [] []. split; congruence. Qed.

Lemma same_net_log level C msg v : same_net v (comp_log s level C msg v).
Proof. unfold comp_log. by destruct (log_service s). Qed.

Lemma same_net_kv db v : same_net v (on_kv db v).
Proof. done. Qed.

(** The subscribers of the observer are there. *)
Definition subs_live (subs : list kv_sub) (v : env X) : Prop :=
  forall sub, sub ∈ subs -> sub.1 = CB_STATE_CHANGE -> is_Some (n_comps (v_node v) !! sub.2).

Lemma same_net_notify val subs v v' : notify_subs s val subs v = Done v' -> same_net v v' /\ v_kv v' = v_kv v.
Proof.
  revert v. induction subs as [|sub subs IH]; intros v H; cbn in H; [by injection H as ->|].
  apply bind_Done in H as (v1 & H1 & H2). destruct (IH v1 H2) as [Hn Hk]. rewrite Hk.
  assert (same_net v v1 /\ v_kv v1 = v_kv v) as [Hn1 Hk1]; [|split; [by etrans|done]].
  unfold notify_sub in H1. case_decide; [|by injection H1 as ->]. inv_done.
  unfold on_comp2_state_change, info, comp_log. by repeat case_match.
Qed.

Lemma notify_done val subs v : subs_live subs v -> exists v', notify_subs s val subs v = Done v'.
Proof.
  revert v. induction subs as [|sub subs IH]; intros v Hl; cbn; [by eexists|].
  assert (exists v1, notify_sub s val v sub = Done v1) as [v1 E].
  { unfold notify_sub. case_decide as Hd; [|by eexists]. destruct Hd as [Hd _].
    destruct (Hl sub ltac:(by left) Hd) as [C ->]. by eexists. }
  rewrite E. cbn. apply IH. destruct (same_net_notify val [sub] v v1) as [[Hn _] _]; [cbn; by rewrite E|].
  intros sub' Hs. rewrite Hn. apply Hl. by right.
Qed.

Lemma same_net_foldl {A} (f : env X -> A -> env X) l v : (forall v a, same_net v (f v a)) -> same_net v (foldl f v l).
Proof.
  intros Hf. revert v. induction l as [|a l IH]; intros v; cbn; [done|]. etrans; [apply Hf|apply IH].
Qed.

Lemma same_net_put h key val v v' : kv_put s h key val v = Done v' -> same_net v v'.
Proof.
  unfold kv_put. destruct h as [h|]; [|by intros [= ->]]. intros H. inv_done.
  etrans; [apply same_net_kv|]. by eapply same_net_notify.
Qed.

Lemma same_net_spam C i n v : same_net v (spam s C i n v).
Proof. revert i v. induction n as [|n IH]; intros i v; cbn; [done|]. etrans; [apply same_net_log|apply IH]. Qed.

(** [v'] has the references of [v] and those of [leaked]. *)
Definition holds_more (leaked held : list buf_ref) (v : env X) : Prop :=
  ipc_refs (leaked ++ held) (v_node v) (v_ipc v).

Lemma same_net_holds held v v' : same_net v v' -> holds_more [] held v -> holds_more [] held v'.
Proof. unfold holds_more. by intros [-> ->]. Qed.

Lemma post_msg_holds held size fs payload v :
  req_ok size 0 -> holds_more [] held v -> holds_more [] held (post_msg size fs payload v).
Proof.
  intros Hs Hh. pose proof (post_refs held (v_node v) (v_ipc v) size fs payload Hh Hs) as Hp.
  unfold post_msg, on_nodes, holds_more. by destruct (post size fs payload (v_node v) (v_ipc v)) as [[b n] x].
Qed.

Lemma compose_large_refs held n x len fs bytes o n' :
  ipc_refs held n x -> compose_large len fs bytes n = Done (o, n') ->
  ipc_refs (option_list o ++ held) n' x.
Proof.
  intros Hh Hc. assert (req_ok (u32 (Z.of_nat MSG_SIZE + len)) 0) as Hr.
  { pose proof (u32_range (Z.of_nat MSG_SIZE + len)). unfold req_ok. lia. }
  pose proof (ipc_refs_alloc held n x _ 0 Hh Hr) as Ha. unfold compose_large in Hc.
  destruct (nos_buffer_alloc _ 0 (n_pool n)) as [p [r|]].
  - destruct (payload_room r p <? len); [done|]. inv_done.
    apply (put_payload_refs (r :: held) (upd_pool (fill fs r) (upd_pool (fun _ => p) n))); [left|].
    apply fill_refs; [left|done].
  - subst p. inv_done. by destruct n.
Qed.

Lemma rsend_ping_holds held C c v v' :
  rsend_ping C c v = Done v' -> holds_more [] held v -> holds_more [] held v'.
Proof.
  intros Hs Hh. unfold rsend_ping in Hs. apply bind_Done in Hs as ([o n] & Hc & Hs).
  pose proof (compose_large_refs _ _ _ _ _ _ _ _ Hh Hc) as Hr. injection Hs as <-.
  unfold on_nodes, holds_more. destruct o as [r|]; [|done].
  pose proof (msg_send_refs (r :: held) n (v_ipc v) (Some r) Hr) as Hm.
  destruct (nos_service_msg_send (Some r) n (v_ipc v)) as [[st n2] x2].
  apply ipc_refs_release, Hm. intros r' [= <-]. left.
Qed.

Lemma start_one_test_holds held C size c v o v' :
  start_one_test s C size c v = Done (o, v') -> holds_more [] held v -> holds_more [] held v'.
Proof.
  intros H Hh. unfold start_one_test in H. inv_done. eapply rsend_ping_holds; [done|].
  eapply same_net_holds; [apply same_net_log|done].
Qed.

Lemma say_all_net C l v : same_net v (say_all s C l v).
Proof. apply same_net_foldl. intros. apply same_net_log. Qed.

Lemma rping_pong_holds held C c v o v' :
  rping_pong s C c v = Done (o, v') -> holds_more [] held v -> holds_more [] held v'.
Proof.
  intros H Hh. unfold rping_pong in H. cbv zeta in H. set (v1 := if _ mod 1000 =? 0 then _ else v) in H.
  assert (holds_more [] held v1) as Hh1.
  { unfold v1. destruct (u32 (rp_current c + 1) mod 1000 =? 0); [|done]. eapply same_net_holds; [apply same_net_log|done]. }
  destruct (u32 (rp_current c + 1) <? _).
  - inv_done. by eapply rsend_ping_holds.
  - unfold rping_complete in H. cbv zeta in H. set (v2 := say_all _ _ _ _) in H.
    assert (holds_more [] held v2) as Hh2 by (eapply same_net_holds; [apply say_all_net|done]).
    destruct (_ && _); inv_done; [|done]. by eapply start_one_test_holds.
Qed.

Lemma on_msg_rpong_holds held C r v v' :
  on_msg_rpong C r v = Done v' -> holds_more [] held v -> holds_more [] held v'.
Proof.
  intros H Hh. unfold on_msg_rpong in H. apply bind_Done in H as (m & Hm & H).
  destruct (msg_code m =? 2001); [|by injection H as <-].
  apply bind_Done in H as ([o n] & Hc & H).
  pose proof (compose_large_refs _ _ _ _ _ _ _ _ Hh Hc) as Hr. injection H as <-.
  unfold on_nodes, holds_more. destruct o as [r'|]; [|done].
  pose proof (service_reply_refs (r' :: held) n (v_ipc v) (nos_service_get_reply_ctx (Some r) (n_pool n)) (Some r') Hr) as Hm'.
  destruct (nos_service_reply _ _ _ _) as [[st n2] x2].
  apply ipc_refs_release, Hm'. intros r2 [= <-]. left.
Qed.

(** Model 4 keeps the buffer of its answer. *)
Lemma on_msg4_holds held C ctx r v ctx' v' :
  on_msg4 s C ctx r v = Done (ctx', v') -> holds_more [] held v ->
  exists leaked, holds_more leaked held v' /\ (length leaked <= 1)%nat.
Proof.
  intros H Hh. unfold on_msg4 in H. apply bind_Done in H as ([[k m] v1] & Hc & H). injection H as _ <-.
  assert (holds_more [] held v1) as Hh1.
  { unfold count_msg in Hc. inv_done. eapply same_net_holds; [apply same_net_log|done]. }
  destruct (msg_code m =? 1001); [|exists []; split; [done|cbn; lia]]. set (v2 := info s C _ v1).
  assert (holds_more [] held v2) as Hh2 by (eapply same_net_holds; [apply same_net_log|done]).
  assert (req_ok 64 0) as Hr by (unfold req_ok; lia).
  pose proof (compose_refs held (v_node v2) (v_ipc v2) 64 (mgmt_reply s C) [] Hh2 Hr) as Hcr.
  unfold on_nodes. destruct (compose 64 (mgmt_reply s C) [] (v_node v2)) as [[r'|] n]; [|exists []; split; [done|cbn; lia]].
  pose proof (msg_send_refs (r' :: held) n (v_ipc v2) (Some r') Hcr) as Hm.
  destruct (nos_service_msg_send (Some r') n (v_ipc v2)) as [[st n2] x2].
  exists [r']. split; [|cbn; lia]. apply Hm. intros r2 [= <-]. left.
Qed.

Definition is_model4 (i : instance) : bool := match i with Model4 _ => true | _ => false end.

(** A conclusion [holds_more] through changes of log and database. *)
Ltac net := eapply same_net_holds; [|eassumption].

Lemma on_msg_holds held i C r v i' v' :
  is_model4 i = false -> comp_on_msg s i C r v = Done (i', v') ->
  holds_more [] held v -> holds_more [] held v'.
Proof.
  intros Hi H Hh. destruct i as [ctx|ctx| |ctx|ctx|ctx| |ctx|]; [..|]; try done; cbn [comp_on_msg] in H.
  - inv_done. unfold on_msg1 in *. inv_done. case_match; [|net; apply same_net_log].
    apply post_msg_holds; [unfold req_ok; lia|]. net. etrans; apply same_net_log.
  - inv_done. unfold on_msg2 in *. destruct ctx as [c|]; [|by inv_done]. inv_done. net.
    etrans; [by eapply same_net_put|]. etrans; [by eapply same_net_put|]. apply same_net_log.
  - inv_done. unfold on_msg3 in *. inv_done. case_match; inv_done; [|done]. net.
    etrans; [apply same_net_log|]. etrans; [apply same_net_spam|]. apply same_net_log.
  - inv_done. unfold on_msg5, count_msg in *. inv_done. net. apply same_net_log.
  - inv_done. unfold on_msg_ping in *. inv_done. case_match; [inv_done|case_match; inv_done; [|done]].
    + apply post_msg_holds; [unfold req_ok; lia|]. net. apply same_net_log.
    + case_match; [|net; etrans; [apply same_net_log|apply say_all_net]]. apply post_msg_holds; [unfold req_ok; lia|done].
  - inv_done. unfold on_msg_pong in *. inv_done. case_match; [|done].
    apply post_msg_holds; [unfold req_ok; lia|done].
  - inv_done. unfold on_msg_rping in *. inv_done. case_match; [inv_done|case_match; inv_done; [|done]].
    + unfold rping_start in *. inv_done. case_match; eapply start_one_test_holds; [done| |done|done].
      net. apply same_net_log.
    + by eapply rping_pong_holds.
  - inv_done. by eapply on_msg_rpong_holds.
Qed.

(** ** Handlers return *)

(** A payload whose message size does not wrap around. *)
Definition payload_safe (len : Z) : Prop := 0 <= len < 2 ^ 32 - Z.of_nat MSG_SIZE.

Lemma compose_large_done held n x len fs bytes bs :
  ipc_refs held n x -> payload_safe len -> bytes (Z.to_nat len) = Done bs ->
  exists o n', compose_large len fs bytes n = Done (o, n').
Proof.
  intros Hh [H0 H1] Hb. pose proof (ipc_refs_pool _ _ _ Hh) as Hw. unfold compose_large.
  rewrite u32_small by (unfold MSG_SIZE in *; lia). set (size := Z.of_nat MSG_SIZE + len).
  assert (req_ok size 0) as Hr by (unfold req_ok, size, MSG_SIZE in *; lia).
  pose proof (alloc_post_holds _ size 0 Hw Hr) as Ha. pose proof (pool_wf_alloc size 0 _ Hw Hr) as Hw'.
  pose proof (ipc_refs_alloc _ _ _ size 0 Hh Hr) as Hl.
  destruct (nos_buffer_alloc size 0 (n_pool n)) as [p [r|]]; [|by eexists _, _].
  destruct Ha as ((b & _ & _ & Hb' & Hcap) & _). cbn [fst] in *.
  destruct (ipc_refs_live _ _ _ r Hl) as [Hlt _]; [left|].
  assert (len <= payload_room r p) as Hroom.
  { unfold payload_room. rewrite Hb'. cbn [b_raw b_data]. pose proof Hb' as Hg. unfold get_buf in Hg.
    destruct (g_bins p !! ref_bin r) as [bn|] eqn:Hbn; [|done].
    pose proof (bw_buf _ _ (pw_bin _ Hw' _ _ Hlt Hbn) _ _ Hg) as [Hc1 Hr1 _ _ _ _ _]. cbn in Hc1, Hr1.
    rewrite Hr1, <-Hc1. unfold size in Hcap. lia. }
  destruct (Z.ltb_spec (payload_room r p) len); [lia|]. rewrite Hb. cbn. by eexists _, _.
Qed.

Lemma rsend_ping_done held C c v :
  holds_more [] held v -> payload_safe (rp_payload c) -> exists v', rsend_ping C c v = Done v'.
Proof.
  intros Hh Hp. unfold rsend_ping.
  destruct (compose_large_done held (v_node v) (v_ipc v) (rp_payload c)
    (rping_fields C (u32 (rp_current c + 1)) (rp_payload c)) (fun k => Done (replicate k 0xA5)) _ Hh Hp eq_refl) as (o & n' & ->).
  by eexists.
Qed.

Lemma start_one_test_done held C size c v :
  holds_more [] held v -> payload_safe size -> exists o v', start_one_test s C size c v = Done (o, v').
Proof.
  intros Hh Hs. unfold start_one_test. set (c' := RPingCtx _ _ _ _ _ _ _). set (v1 := info s C _ v).
  destruct (rsend_ping_done held C c' v1) as [v2 ->]; [|done|by eexists _, _]. net. apply same_net_log.
Qed.

(** The subscribers of every entry are there. *)
Definition table_live (m : gmap (list Z) (list Z * list kv_sub)) (v : env X) : Prop :=
  forall key x, m !! key = Some x -> subs_live x.2 v.

(** A table of the database that takes keys of [ks] bytes and [int]s, and
    whose subscribers are there. *)
Definition table_ready (ks : nat) (h : option nat) (v : env X) : Prop :=
  forall i, h = Some i -> exists t m, v_kv v !! i = Some t /\ kv_ok t m /\ kt_key_size t = ks /\ kt_max_val t = 4%nat /\
    table_live m v.

(** The name, the sizes and the capacity of a table. *)
Definition shape (t : nos_kv_table) : string * nat * nat * nat :=
  (kt_name t, kt_key_size t, kt_max_val t, kt_capacity t).

Lemma shape_eq t t' : shape t' = shape t ->
  kt_name t' = kt_name t /\ kt_key_size t' = kt_key_size t /\ kt_max_val t' = kt_max_val t.
Proof. by intros [= -> -> -> _]. Qed.

Lemma nos_kv_put_name t key val n st t' subs :
  nos_kv_put t key val n = KvRet (st, t', subs) -> kt_name t' = kt_name t.
Proof.
  unfold nos_kv_put. intros H. destruct key as [key|]; [|congruence].
  destruct (kt_max_val t <? n)%nat; [congruence|]. destruct (wrlock t key); try discriminate H. cbn in H.
  destruct (kv_lookup t key) as [[[[prev i] e]|]| |]; try discriminate H; cbn in H; [by injection H as _ <- _|].
  destruct (last (kt_free t)); by injection H as _ <- _.
Qed.

(** A put changes at most the value of its key. *)
Definition put_of (key val : list Z) (m : gmap (list Z) (list Z * list kv_sub)) : gmap (list Z) (list Z * list kv_sub) :=
  <[key := (val, default [] (snd <$> m !! key))]> m.

Lemma table_live_put key val m m' v v' :
  m' = m \/ m' = put_of key val m -> same_net v v' -> table_live m v -> table_live m' v'.
Proof.
  intros Hm [Hn _] Hl. assert (table_live m' v) as Hl'.
  { destruct Hm as [->| ->]; [done|]. intros k x. unfold put_of. destruct (decide (k = key)) as [->|Hne].
    - rewrite lookup_insert_eq. intros [= <-]. cbn. destruct (m !! key) as [y|] eqn:E; cbn; [by apply (Hl key y)|].
      by intros sub ?%elem_of_nil.
    - rewrite lookup_insert_ne by done. apply Hl. }
  intros k x Hx sub Hs. rewrite Hn. by apply (Hl' k x Hx sub).
Qed.

Lemma kv_put_at i t m key val (v : env X) :
  v_kv v !! i = Some t -> kv_ok t m -> length key = kt_key_size t -> (length val <= kt_max_val t)%nat ->
  subs_live (default [] (snd <$> m !! key)) v ->
  exists v' t' m', kv_put s (Some i) key val v = Done v' /\ v_kv v' = <[i := t']> (v_kv v) /\ same_net v v' /\
    kv_ok t' m' /\ shape t' = shape t /\ (m' = m \/ m' = put_of key val m) /\
    (is_Some (m !! key) \/ (size m < kt_capacity t)%nat -> m' = put_of key val m).
Proof.
  intros Hi Hok Hk Hv Hlive. pose proof (kv_put_step t m key val Hok Hk Hv) as Hp.
  assert (exists st t' subs m', nos_kv_put t (Some key) (Some val) (length val) = KvRet (st, t', subs) /\ kv_ok t' m' /\
    shape t' = shape t /\ subs_live subs v /\ (m' = m \/ m' = put_of key val m) /\
    (is_Some (m !! key) \/ (size m < kt_capacity t)%nat -> m' = put_of key val m))
    as (st & t' & subs & m' & E & Hok' & Hs & Hl & Hor & Hm').
  { unfold put_of in *. destruct (m !! key) as [[v0 subs]|]; cbn in Hlive |- *.
    - destruct Hp as (t' & E & ? & E1 & E2 & E3). eexists NOS_OK, t', subs, _. split_and!; [done..| |done|by right|done].
      unfold shape. by rewrite (nos_kv_put_name _ _ _ _ _ _ _ E), E1, E2, E3.
    - destruct (Nat.eqb_spec (size m) (kt_capacity t)).
      + exists NOS_ERR_BUSY, t, [], m. split_and!; [done..|by left|]. intros [[? ?]|?]; [done|lia].
      + destruct Hp as (t' & E & ? & E1 & E2 & E3). eexists NOS_OK, t', [], _. split_and!; [done..| |done|by right|done].
        unfold shape. by rewrite (nos_kv_put_name _ _ _ _ _ _ _ E), E1, E2, E3. }
  unfold kv_put. rewrite Hi. cbn [deref mbind outcome_bind]. rewrite E. cbn [kv_done mbind outcome_bind].
  destruct (notify_done val subs (on_kv (<[i := t']> (v_kv v)) v) Hl) as [v' Hv'].
  destruct (same_net_notify _ _ _ _ Hv') as [Hn Hkv]. exists v', t', m'. split_and!; done.
Qed.

Lemma kv_put_done ks h key val v :
  table_ready ks h v -> length key = ks -> length val = 4%nat ->
  exists v', kv_put s h key val v = Done v' /\ forall ks' h', table_ready ks' h' v -> table_ready ks' h' v'.
Proof.
  intros Ht Hk Hv. destruct h as [i|]; [|by exists v]. destruct (Ht i eq_refl) as (t & m & Hi & Hok & <- & Hm & Hl).
  destruct (kv_put_at i t m key val v Hi Hok Hk ltac:(lia)) as (v' & t' & m' & -> & Hv' & Hn & Hok' & Hs & Hor & _).
  { destruct (m !! key) as [x|] eqn:E; cbn; [by apply (Hl key x)|]. by intros sub ?%elem_of_nil. }
  apply shape_eq in Hs as (_ & E1 & E2). exists v'. split; [done|]. intros ks' h' Hr j ->. specialize (Hr j eq_refl). rewrite Hv'.
  destruct (decide (i = j)) as [<-|].
  - rewrite list_lookup_insert_eq by (by eapply lookup_lt_Some). destruct Hr as (t2 & m2 & H1 & _ & H3 & H4 & _).
    simplify_eq. exists t', m'. split_and!; [done..|congruence|congruence|]. by eapply table_live_put.
  - rewrite list_lookup_insert_ne by done. destruct Hr as (t2 & m2 & ? & ? & ? & ? & Hl2). exists t2, m2.
    split_and!; [done..|]. by apply (table_live_put [] [] m2 m2 v v'); [left| |].
Qed.

(** A test the node can run: message sizes that do not wrap around. *)
Record sizes_safe (c : rping_ctx) : Prop := {
  ss_payload : payload_safe (rp_payload c);
  ss_sizes : Forall payload_safe (rp_sweep_sizes c);
  ss_count : (rp_sweep_count c <= length (rp_sweep_sizes c))%nat;
}.

(** The payload the header announces lies in the chunk, as it does for every
    message the IPC layer delivers. *)
Definition payload_fits (r : buf_ref) (v : env X) : Prop :=
  forall m, header r v = Done m -> payload_len m <= payload_room r (n_pool (v_node v)).

(** What a handler relies on besides. *)
Definition ready (i : instance) (r : buf_ref) (v : env X) : Prop :=
  match i with
  | Model1 _ | Model3 | Pong => True
  | Model2 ctx => forall c, ctx = Some c ->
      local_counter c <> 2 ^ 31 - 1 /\ table_ready 32 (state_table c) v /\ table_ready 4 (test_table c) v
  | Model4 ctx | Model5 ctx => exists k, ctx = Some k /\ k <> 2 ^ 31 - 1
  | Ping ctx => is_Some ctx
  | RPing ctx => exists c, ctx = Some c /\ sizes_safe c /\
      (forall w, payload_word 1 r v = Done w -> w <> 2 ^ 32 - 1 -> payload_safe w)
  | RPong => forall m, header r v = Done m -> payload_safe (payload_len m)
  end.

Lemma count_up_done k : k <> 2 ^ 31 - 1 -> count_up k = Done (k + 1).
Proof. intros Hk. unfold count_up. by destruct (Z.eqb_spec k (2 ^ 31 - 1)). Qed.

Lemma header_done held r v :
  holds_more [] held v -> r ∈ held -> exists m b, header r v = Done m /\ get_buf r (n_pool (v_node v)) = Some b.
Proof.
  intros Hh Hr. destruct (ipc_refs_live _ _ _ _ Hh Hr) as (_ & b & Hb & _). unfold header.
  rewrite (buf_msg_lookup _ _ _ Hb). by eexists _, b.
Qed.

Lemma payload_word_done held i r v m :
  holds_more [] held v -> r ∈ held -> payload_fits r v -> header r v = Done m ->
  Z.of_nat (4 * i + 4) <= payload_len m -> exists w, payload_word i r v = Done w.
Proof.
  intros Hh Hr Hfit Hm Hi. destruct (header_done held r v Hh Hr) as (_ & b & _ & Hb). unfold payload_word. rewrite Hb.
  cbn [deref mbind outcome_bind]. specialize (Hfit m Hm).
  destruct (Z.ltb_spec (payload_room r (n_pool (v_node v))) (Z.of_nat (4 * i + 4))); [lia|by eexists].
Qed.

Lemma length_name_key name : length (name_key name) = 32%nat.
Proof.
  unfold name_key, cstr_field. rewrite length_take, length_app, length_replicate. lia.
Qed.

Lemma rping_start_done held C c m r v :
  holds_more [] held v -> (4 <= payload_len m -> exists w, payload_word 0 r v = Done w) ->
  (8 <= payload_len m -> exists w, payload_word 1 r v = Done w /\ (w <> 2 ^ 32 - 1 -> payload_safe w)) ->
  exists o v', rping_start s C c m r v = Done (o, v').
Proof.
  intros Hh H0 H1. unfold rping_start.
  assert (exists w, (if payload_len m >=? 4 then payload_word 0 r v else Done 100000) = Done w) as [t ->].
  { rewrite Z.geb_leb. destruct (Z.leb_spec 4 (payload_len m)); [by apply H0|by eexists]. }
  assert (exists w, (if payload_len m >=? 8 then payload_word 1 r v else Done 0) = Done w /\
    (w <> 2 ^ 32 - 1 -> payload_safe w)) as (w & -> & Hws).
  { rewrite Z.geb_leb. destruct (Z.leb_spec 8 (payload_len m)); [by apply H1|].
    exists 0. split; [done|intros _; unfold payload_safe, MSG_SIZE; lia]. }
  cbn [mbind outcome_bind]. destruct (Z.eqb_spec w (2 ^ 32 - 1)).
  - eapply (start_one_test_done held); [net; apply same_net_log|]. cbn. unfold payload_safe, MSG_SIZE. lia.
  - apply (start_one_test_done held); [done|by apply Hws].
Qed.

Lemma rping_pong_done held C c v :
  holds_more [] held v -> sizes_safe c -> exists o v', rping_pong s C c v = Done (o, v').
Proof.
  intros Hh [Hp Hsz Hcnt]. unfold rping_pong. cbv zeta. set (v1 := if _ mod 1000 =? 0 then _ else v).
  assert (holds_more [] held v1) as Hh1.
  { unfold v1. destruct (u32 (rp_current c + 1) mod 1000 =? 0); [|done]. net. apply same_net_log. }
  destruct (u32 (rp_current c + 1) <? _).
  - destruct (rsend_ping_done held C (set_current (u32 (rp_current c + 1)) c) v1 Hh1 Hp) as [v2 ->]. by eexists _, _.
  - unfold rping_complete. cbv zeta. set (v2 := say_all _ _ _ _).
    assert (holds_more [] held v2) as Hh2 by (net; apply say_all_net).
    cbn [rp_sweep_count rp_sweep_index rp_sweep_sizes set_current set_sweep]. destruct (0 <? rp_sweep_count c)%nat; cbn [andb]; [|by eexists _, _].
    destruct (Nat.ltb_spec (S (rp_sweep_index c)) (rp_sweep_count c)); [|by eexists _, _].
    destruct (lookup_lt_is_Some_2 (rp_sweep_sizes c) (S (rp_sweep_index c))) as [sz Hsz']; [lia|].
    rewrite Hsz'. cbn [deref mbind outcome_bind]. apply (start_one_test_done held); [done|]. by eapply Forall_lookup_1 in Hsz.
Qed.

Lemma on_msg_done held i C r v :
  holds_more [] held v -> r ∈ held -> payload_fits r v -> ready i r v ->
  exists i' v', comp_on_msg s i C r v = Done (i', v').
Proof.
  intros Hh Hr Hfit Hi. destruct (header_done held r v Hh Hr) as (m & b & Hm & Hb).
  pose proof (fun k => payload_word_done held k r v m Hh Hr Hfit Hm) as Hword.
  destruct i as [ctx|ctx| |ctx|ctx|ctx| |ctx|]; cbn [comp_on_msg ready] in *.
  - unfold on_msg1. rewrite Hm. by eexists _, _.
  - unfold on_msg2. destruct ctx as [c|]; [|by eexists _, _]. destruct (Hi c eq_refl) as (Hk & Ht & Ht').
    rewrite count_up_done by done. cbn [mbind outcome_bind].
    destruct (kv_put_done 32 _ (name_key (c_name C)) (int_bytes (local_counter c + 1)) v Ht) as (v1 & -> & H1);
      [apply length_name_key|apply length_le_bytes|]. cbn [mbind outcome_bind].
    destruct (kv_put_done 4 _ (int_bytes (local_counter c + 1)) (int_bytes (local_counter c + 1)) v1 (H1 _ _ Ht'))
      as (v2 & -> & _); [apply length_le_bytes..|]. by eexists _, _.
  - unfold on_msg3. rewrite Hm. cbn [mbind outcome_bind]. destruct (msg_code m =? 3002); [|by eexists _, _].
    rewrite Z.geb_leb. destruct (Z.leb_spec 4 (payload_len m)); [|by eexists _, _].
    destruct (Hword 0%nat) as [w ->]; [done|]. by eexists _, _.
  - destruct Hi as (k & -> & Hk). unfold on_msg4, count_msg. rewrite Hm. cbn. rewrite count_up_done by done. by eexists _, _.
  - destruct Hi as (k & -> & Hk). unfold on_msg5, count_msg. rewrite Hm. cbn. rewrite count_up_done by done. by eexists _, _.
  - destruct Hi as [c ->]. unfold on_msg_ping. rewrite Hm. cbn [mbind outcome_bind deref].
    destruct (msg_code m =? 3001); [|destruct (msg_code m =? 2002); by eexists _, _].
    rewrite Z.geb_leb. destruct (Z.leb_spec 4 (payload_len m)); [|by eexists _, _].
    destruct (Hword 0%nat) as [w ->]; [done|]. by eexists _, _.
  - unfold on_msg_pong. rewrite Hm. by eexists _, _.
  - destruct Hi as (c & -> & Hs & Hw). destruct (rping_start_done held C c m r v Hh (Hword 0%nat)) as (o & v1 & H1).
    { intros H8. destruct (Hword 1%nat H8) as [w Hw']. exists w. split; [done|by apply Hw]. }
    destruct (rping_pong_done held C c v Hh Hs) as (o2 & v2 & H2).
    unfold on_msg_rping. rewrite Hm. cbn [mbind outcome_bind deref]. rewrite H1, H2.
    destruct (msg_code m =? 3001); [by eexists _, _|]. destruct (msg_code m =? 2002); by eexists _, _.
  - specialize (Hi m Hm) as Hs. specialize (Hfit m Hm). unfold on_msg_rpong. rewrite Hm. cbn [mbind outcome_bind].
    destruct (msg_code m =? 2001); [|by eexists _, _].
    assert (read_payload r (v_node v) (Z.to_nat (payload_len m)) =
      Done (take (Z.to_nat (payload_len m)) (drop (Z.to_nat (b_data b) + MSG_SIZE) (b_raw b)))) as E.
    { unfold read_payload. rewrite Hb. cbn [deref mbind outcome_bind]. rewrite Z2Nat.id by (destruct Hs; lia).
      by destruct (Z.ltb_spec (payload_room r (n_pool (v_node v))) (payload_len m)); [lia|]. }
    destruct (compose_large_done held (v_node v) (v_ipc v) _ (rpong_fields C m) _ _ Hh Hs E) as (o & n' & ->).
    by eexists _, _.
Qed.
End refs.

(** ** The sweep of the remote ping *)

(** What a PONG does to the context, and the PING it causes: its sequence
    number and payload size. *)
Definition pong_step (c : rping_ctx) : rping_ctx * option (Z * Z) :=
  let k := u32 (rp_current c + 1) in
  let c := set_current k c in
  if k <? rp_target c then (c, Some (u32 (k + 1), rp_payload c))
  else if (S (rp_sweep_index c) <? rp_sweep_count c)%nat then
    match rp_sweep_sizes c !! S (rp_sweep_index c) with
    | Some size => (RPingCtx (rp_start_ns c) (rp_target c) 0 size (rp_sweep_count c) (S (rp_sweep_index c))
                      (rp_sweep_sizes c), Some (1, size))
    | None => (c, None)
    end
  else (set_sweep 0 0 (rp_sweep_sizes c) c, None).

(** The time the test started does not matter. *)
Definition timeless (c : rping_ctx) : rping_ctx :=
  RPingCtx 0 (rp_target c) (rp_current c) (rp_payload c) (rp_sweep_count c) (rp_sweep_index c) (rp_sweep_sizes c).

(** [pong_step] is what the handler does. *)
Lemma rping_pong_step {X} `{!IpcTransport X} s C c (v : env X) o v' :
  rping_pong s C c v = Done (o, v') ->
  exists c' v1, o = Some c' /\ timeless c' = timeless (pong_step c).1 /\ same_net v v1 /\
    match (pong_step c).2 with
    | Some (seq, len) => exists c2, rp_payload c2 = len /\ u32 (rp_current c2 + 1) = seq /\ rsend_ping C c2 v1 = Done v'
    | None => same_net v1 v'
    end.
Proof.
  unfold rping_pong, pong_step. cbv zeta. set (k := u32 (rp_current c + 1)). set (c1 := set_current k c).
  set (v0 := if k mod 1000 =? 0 then _ else v).
  assert (same_net v v0) as H0 by (unfold v0; destruct (k mod 1000 =? 0); [apply same_net_log|done]).
  destruct (k <? rp_target c1).
  - intros H. inv_done. exists c1, v0. split_and!; [done..|]. by exists c1.
  - unfold rping_complete. cbv zeta. set (v1 := say_all _ _ _ _).
    assert (same_net v v1) as H1 by (etrans; [exact H0|apply say_all_net]).
    destruct (Nat.ltb_spec (S (rp_sweep_index c1)) (rp_sweep_count c1)); [|rewrite andb_false_r; intros Hrun; inv_done; by eexists _, v1].
    destruct (Nat.ltb_spec 0 (rp_sweep_count c1)); [|lia]. cbn [andb]. intros Hrun.
    cbn [rp_sweep_sizes rp_sweep_index set_sweep] in Hrun.
    destruct (rp_sweep_sizes c1 !! S (rp_sweep_index c1)) as [size|]; [|by inv_done].
    cbn [deref mbind outcome_bind] in Hrun. unfold start_one_test in Hrun. inv_done.
    eexists _, _. split; [done|]. split; [done|]. split; [etrans; [exact H1|apply same_net_log]|].
    eexists. split; [|split; [|eassumption]]; done.
Qed.

(** [n] answers in a row: the PINGs they cause, and the context. *)
Fixpoint pongs (n : nat) (c : rping_ctx) : list (Z * Z) * rping_ctx :=
  match n with
  | O => ([], c)
  | S n => let '(c, p) := pong_step c in let '(l, c) := pongs n c in (option_list p ++ l, c)
  end.

Lemma pongs_add n m c :
  pongs (n + m) c = let '(l, c1) := pongs n c in let '(l', c2) := pongs m c1 in (l ++ l', c2).
Proof.
  revert c. induction n as [|n IH]; intros c; cbn; [by destruct (pongs m c)|].
  destruct (pong_step c) as [c1 p]. rewrite IH. destruct (pongs n c1) as [l c2]. destruct (pongs m c2).
  by rewrite app_assoc.
Qed.

(** Within one payload size. *)
Lemma pongs_within N k j c :
  rp_target c = Z.of_nat N -> rp_current c = Z.of_nat j -> (j + k < N)%nat -> (Z.of_nat N < 2 ^ 32) ->
  pongs k c = ((fun i => (Z.of_nat i, rp_payload c)) <$> seq (j + 2) k, set_current (Z.of_nat (j + k)) c).
Proof.
  intros Ht. revert j c Ht. induction k as [|k IH]; intros j c Ht Hj Hlt HN; cbn [pongs].
  - rewrite Nat.add_0_r, <-Hj. by destruct c.
  - unfold pong_step. rewrite Hj. cbn [rp_target set_current]. rewrite Ht.
    rewrite u32_small by lia. destruct (Z.ltb_spec (Z.of_nat j + 1) (Z.of_nat N)); [|lia].
    rewrite u32_small by lia. rewrite (IH (S j)); [|done|cbn; lia|lia|done]. cbn. f_equal.
    + f_equal. f_equal. lia.
    + unfold set_current. cbn. f_equal. lia.
Qed.

(** The PINGs of a test with [N] iterations of one size. *)
Definition test_pings (N : nat) (size : Z) : list (Z * Z) := (fun i => (Z.of_nat i, size)) <$> seq 1 N.

Definition sweep_at (N : nat) (t : Z) (i : nat) (size : Z) (sizes : list Z) : rping_ctx :=
  RPingCtx t (Z.of_nat N) 0 size (length sizes) i sizes.

Lemma sweep_from N t n i size sizes :
  (0 < N)%nat -> Z.of_nat N < 2 ^ 32 -> sizes !! i = Some size -> (n + i = length sizes)%nat ->
  exists out c, pongs (n * N) (sweep_at N t i size sizes) = (out, c) /\
    (1, size) :: out = (drop i sizes ≫= test_pings N) /\ rp_sweep_count c = 0%nat.
Proof.
  intros H0 HN. revert i size. induction n as [|n IH]; intros i size Hi Hn.
  { apply lookup_lt_Some in Hi. lia. }
  replace (S n * N)%nat with ((N - 1) + (1 + n * N))%nat by lia. rewrite pongs_add.
  rewrite (pongs_within N (N - 1) 0 (sweep_at N t i size sizes)) by (done || lia). cbn [rp_payload sweep_at].
  rewrite (pongs_add 1). cbn [pongs]. unfold pong_step at 1. cbn [rp_current set_current rp_target sweep_at rp_sweep_index rp_sweep_count rp_sweep_sizes rp_start_ns].
  rewrite u32_small by lia. destruct (Z.ltb_spec (Z.of_nat (0 + (N - 1)) + 1) (Z.of_nat N)); [lia|].
  assert ((1, size) :: ((fun i => (Z.of_nat i, size)) <$> seq (0 + 2) (N - 1)) = test_pings N size) as Ht.
  { unfold test_pings. destruct N as [|N]; [lia|]. cbn. by rewrite Nat.sub_0_r. }
  rewrite (drop_S _ _ _ Hi). cbn [mbind list_bind].
  destruct (Nat.ltb_spec (S i) (length sizes)) as [Hlt|Hge].
  - destruct (lookup_lt_is_Some_2 sizes (S i) Hlt) as [size' Hs]. rewrite Hs. cbn [option_list app].
    destruct (IH (S i) size' Hs ltac:(lia)) as (out & c & Hp & Ho & Hc). unfold sweep_at in Hp. rewrite Hp.
    eexists _, c. split; [done|]. split; [|done]. rewrite <-Ho, <-Ht. cbn. done.
  - assert (n = 0%nat) as -> by lia. cbn [Nat.mul pongs option_list app]. eexists _, _. split; [done|].
    split; [|done]. rewrite drop_ge by lia. cbn. by rewrite app_nil_r, <-Ht, app_nil_r.
Qed.

(** *** The handler's run *)

Lemma pong_step_timeless c c0 :
  timeless c = timeless c0 ->
  (pong_step c).2 = (pong_step c0).2 /\ timeless (pong_step c).1 = timeless (pong_step c0).1.
Proof.
  destruct c, c0. unfold timeless, pong_step. cbn. intros [= -> -> -> -> -> ->]. repeat case_match; done.
Qed.

Lemma sizes_safe_timeless c c0 : timeless c = timeless c0 -> sizes_safe c0 -> sizes_safe c.
Proof. destruct c, c0. unfold timeless. cbn. intros [= -> -> -> -> -> ->] [H1 H2 H3]. by split. Qed.

Lemma pong_step_safe c : sizes_safe c -> sizes_safe (pong_step c).1.
Proof.
  destruct c. unfold pong_step. intros [H1 H2 H3]. cbn in *. repeat case_match; split; cbn; (done || lia || idtac).
  by eapply Forall_lookup_1 in H2.
Qed.

(** The PING it causes has the payload size of the context. *)
Lemma pong_step_payload c seq len : (pong_step c).2 = Some (seq, len) -> len = rp_payload (pong_step c).1.
Proof. unfold pong_step. repeat case_match; cbn; by intros [= _ <-]. Qed.

(** The PINGs one by one. *)
Fixpoint pong_steps (n : nat) (c : rping_ctx) : list (option (Z * Z)) * rping_ctx :=
  match n with
  | O => ([], c)
  | S n => let '(c, p) := pong_step c in let '(l, c) := pong_steps n c in (p :: l, c)
  end.

Lemma pongs_steps n c : pongs n c = ((pong_steps n c).1 ≫= option_list, (pong_steps n c).2).
Proof.
  revert c. induction n as [|n IH]; intros c; cbn; [done|]. destruct (pong_step c) as [c1 p]. rewrite IH.
  by destruct (pong_steps n c1).
Qed.

(** Buffer [r] of pool [p] holds the PING with that number and size. *)
Record is_ping (C : nos_component) (seq len : Z) (r : buf_ref) (p : pool) : Prop := {
  ip_header : exists m, buf_msg r p = Some m /\ magic m = NOS_IPC_MAGIC /\ dst_service m = 114 /\
    src_component m = c_id C /\ msg_code m = 2001 /\ seq_no m = seq /\ flags m = NOS_MSG_F_NEED_REPLY /\
    payload_len m = len;
  ip_payload : exists b, get_buf r p = Some b /\
    take (Z.to_nat len) (drop (Z.to_nat (b_data b) + MSG_SIZE) (b_raw b)) = replicate (Z.to_nat len) 0xA5;
}.

(** From [v] to [v'] that PING was sent: a buffer holding it was handed to
    [nos_service_msg_send], and released.  When the pool has no chunk of that
    size, nothing is. *)
Definition sends_ping {X} `{!IpcTransport X} (C : nos_component) (seq len : Z) (v v' : env X) : Prop :=
  match nos_buffer_alloc (Z.of_nat MSG_SIZE + len) 0 (n_pool (v_node v)) with
  | (_, None) => same_net v v'
  | (p, Some r) => exists p' st n x,
      is_ping C seq len r p' /\ (forall t, t <> r -> get_buf t p' = get_buf t (n_pool (v_node v))) /\
      nos_service_msg_send (Some r) (upd_pool (fun _ => p') (v_node v)) (v_ipc v) = (st, n, x) /\
      v_node v' = upd_pool (nos_buffer_release (Some r)) n /\ v_ipc v' = x
  end.

Definition sends {X} `{!IpcTransport X} (C : nos_component) (v v' : env X) (p : option (Z * Z)) : Prop :=
  match p with Some (seq, len) => sends_ping C seq len v v' | None => same_net v v' end.

(** The bytes written are there. *)
Lemma drop_inserts {A} i (l m : list A) :
  (i + length l <= length m)%nat -> take (length l) (drop i (list_inserts i l m)) = l.
Proof.
  intros Hl. apply list_eq. intros j. destruct (decide (j < length l)%nat).
  - rewrite lookup_take_lt, lookup_drop, list_lookup_inserts by lia. f_equal. lia.
  - rewrite lookup_take_ge, lookup_ge_None_2 by lia. done.
Qed.

Lemma fill_same fs r t p : t <> r -> get_buf t (fill fs r p) = get_buf t p.
Proof.
  intros Hne. revert p. induction fs as [|[f v] fs IH]; intros p; [done|]. rewrite fill_cons, IH.
  unfold buf_set_field. by rewrite get_buf_upd_ne.
Qed.

Lemma fill_size fs r p b :
  get_buf r p = Some b -> exists b', get_buf r (fill fs r p) = Some b' /\ b_data b' = b_data b /\
    length (b_raw b') = length (b_raw b).
Proof.
  revert p b. induction fs as [|[f v] fs IH]; intros p b Hb; [by exists b|]. rewrite fill_cons.
  destruct (IH (buf_set_field f v r p) (write_raw (set_field f v) b)) as (b' & H1 & H2 & H3).
  { unfold buf_set_field. by rewrite get_buf_upd_eq, Hb. }
  exists b'. split_and!; [done|done|]. rewrite H3. cbn. apply length_set_field.
Qed.

(** What [rsend_ping] composes is the PING. *)
Lemma composed_ping C c n p r :
  pool_wf (n_pool n) -> payload_safe (rp_payload c) -> 0 <= c_id C < 2 ^ 32 ->
  nos_buffer_alloc (Z.of_nat MSG_SIZE + rp_payload c) 0 (n_pool n) = (p, Some r) ->
  rp_payload c <= payload_room r p ->
  let seq := u32 (rp_current c + 1) in
  let bs := replicate (Z.to_nat (rp_payload c)) 0xA5 in
  is_ping C seq (rp_payload c) r (put_payload bs r (fill (rping_fields C seq (rp_payload c)) r p)).
Proof.
  intros Hw [H0 H1] Hid Ha Hroom seq bs. set (fs := rping_fields C seq (rp_payload c)).
  assert (req_ok (Z.of_nat MSG_SIZE + rp_payload c) 0) as Hr by (unfold req_ok, MSG_SIZE in *; lia).
  pose proof (u32_range (rp_current c + 1)) as Hseq. fold seq in Hseq.
  assert (in_fields fs) as Hfs.
  { unfold MSG_SIZE in *. unfold fs, rping_fields, in_fields. rewrite !Forall_cons_iff. cbn [field_size].
    unfold NOS_IPC_MAGIC, NOS_IPC_VERSION, NOS_MSG_F_NEED_REPLY. split_and!; (lia || done). }
  split.
  - destruct (compose_header n (Z.of_nat MSG_SIZE + rp_payload c) fs bs r
      (upd_pool (fun _ => put_payload bs r (fill fs r p)) n) Hw Hr ltac:(lia) Hfs) as (m & b & Hm & _ & Hf).
    { unfold compose. by rewrite Ha. }
    exists m. split; [exact Hm|].
    split_and!; [exact (Hf F_magic)|exact (Hf F_dst_service)|exact (Hf F_src_component)|exact (Hf F_msg_code)|
      exact (Hf F_seq)|exact (Hf F_flags)|exact (Hf F_payload_len)].
  - unfold payload_room in Hroom. pose proof (alloc_post_holds _ _ 0 Hw Hr) as Hp. rewrite Ha in Hp.
    destruct Hp as ((b & _ & _ & Hb & _) & _). set (b1 := Buf _ _ _ _ _ _ _ _ _ _) in Hb. rewrite Hb in Hroom.
    destruct (fill_size fs r p b1 Hb) as (b2 & Hb2 & Ed & El).
    exists (write_raw (fun off raw => list_inserts (off + MSG_SIZE) bs raw) b2).
    split; [unfold put_payload; by rewrite get_buf_upd_eq, Hb2|].
    cbn [write_raw b_data b_raw]. rewrite Ed.
    assert (length bs = Z.to_nat (rp_payload c)) as Hbs by (unfold bs; by rewrite length_replicate).
    fold bs. rewrite <-Hbs. apply drop_inserts. rewrite El. cbn [b1 b_raw b_data] in *. lia.
Qed.

Lemma rsend_ping_sends {X} `{!IpcTransport X, !IpcLaws X} held C c (v0 v v' : env X) :
  ipc_refs held (v_node v) (v_ipc v) -> payload_safe (rp_payload c) -> 0 <= c_id C < 2 ^ 32 -> same_net v0 v ->
  rsend_ping C c v = Done v' -> sends_ping C (u32 (rp_current c + 1)) (rp_payload c) v0 v'.
Proof.
  intros Hh Hs Hid [En Ex] H. pose proof (ipc_refs_pool _ _ _ Hh) as Hw. destruct Hs as [H0 H1].
  unfold rsend_ping, compose_large in H. rewrite u32_small in H by (unfold MSG_SIZE in *; lia).
  unfold sends_ping. rewrite <-En, <-Ex.
  assert (req_ok (Z.of_nat MSG_SIZE + rp_payload c) 0) as Hr by (unfold req_ok, MSG_SIZE in *; lia).
  pose proof (alloc_post_holds _ _ 0 Hw Hr) as Hp.
  destruct (nos_buffer_alloc (Z.of_nat MSG_SIZE + rp_payload c) 0 (n_pool (v_node v))) as [p [r|]] eqn:Ha.
  - destruct (Z.ltb_spec (payload_room r p) (rp_payload c)) as [|Hroom]; [done|]. cbn [mbind outcome_bind] in H.
    unfold on_nodes in H. set (p' := put_payload _ r _) in H. exists p'.
    destruct (nos_service_msg_send (Some r) (upd_pool (fun _ => p') (v_node v)) (v_ipc v)) as [[st n] x] eqn:Em.
    injection H as <-. exists st, n, x. split_and!; [|  |done..].
    + by apply (composed_ping C c (v_node v) p r).
    + intros t Ht. unfold p', put_payload. rewrite get_buf_upd_ne, fill_same by done. by apply Hp.
  - destruct Hp as [-> _]. cbn in H. injection H as <-. split; cbn; [by destruct (v_node v)|done].
Qed.

(** The handler called with one PONG after the other, in the worlds [vs]. *)
Fixpoint run_pongs {X} `{!IpcTransport X} (s : setting) (C : nos_component) (c : rping_ctx) (vs : list (env X))
    : outcome (list (env X) * rping_ctx) :=
  match vs with
  | [] => Done ([], c)
  | v :: vs =>
      '(o, v') ← rping_pong s C c v; c ← deref o;
      '(l, c) ← run_pongs s C c vs; Done (v' :: l, c)
  end.

Lemma run_pongs_steps {X} `{!IpcTransport X, !IpcLaws X} s C c c0 (vs : list (env X)) :
  0 <= c_id C < 2 ^ 32 ->
  Forall (fun v => exists held, ipc_refs held (v_node v) (v_ipc v)) vs -> sizes_safe c0 -> timeless c = timeless c0 ->
  exists vs' c', run_pongs s C c vs = Done (vs', c') /\
    timeless c' = timeless (pong_steps (length vs) c0).2 /\
    Forall3 (sends C) vs vs' (pong_steps (length vs) c0).1.
Proof.
  intros Hid. revert c c0. induction vs as [|v vs IH]; intros c c0 Hvs Hs Ht; cbn [run_pongs length pong_steps].
  { exists [], c. split; [done|]. split; [done|constructor]. }
  apply Forall_cons in Hvs as [[held Hv] Hvs].
  destruct (rping_pong_done s held C c v Hv (sizes_safe_timeless _ _ Ht Hs)) as (o & v' & E). rewrite E.
  destruct (rping_pong_step s C c v o v' E) as (c1 & v1 & -> & Ht1 & Hn & Hsend).
  destruct (pong_step_timeless c c0 Ht) as [E1 E2]. rewrite E1 in Hsend. rewrite E2 in Ht1.
  cbn [mbind outcome_bind deref]. pose proof (pong_step_safe c0 Hs) as Hs1.
  assert (sends C v v' (pong_step c0).2) as Hv'.
  { unfold sends. pose proof (pong_step_payload c0) as Hpl. destruct (pong_step c0).2 as [[seq len]|]; [|by etrans].
    destruct Hsend as (c2 & <- & <- & Hsend). apply (rsend_ping_sends held C c2 v v1 v'); try done.
    - by destruct Hn as [-> ->].
    - rewrite (Hpl _ _ eq_refl). apply Hs1. }
  destruct (pong_step c0) as [c2 p]. cbn [fst snd] in *.
  destruct (IH c1 c2 Hvs Hs1 Ht1) as (vs' & c' & -> & Hc' & Hf). cbn [mbind outcome_bind].
  destruct (pong_steps (length vs) c2) as [l c3]. exists (v' :: vs'), c'. split; [done|]. split; [done|].
  by constructor.
Qed.

(** ** The counter of model 2 survives its instance *)

Lemma find_idx_same {A} (p : A -> bool) (l : list A) i x y :
  l !! i = Some x -> p y = p x -> find_idx p (<[i := y]> l) = find_idx p l.
Proof.
  revert i. induction l as [|z l IH]; intros [|i] Hi Hp; simplify_eq/=; [by rewrite Hp|]. by rewrite IH.
Qed.

Lemma int_bytes_back k : - 2 ^ 31 <= k < 2 ^ 31 -> bytes_int (int_bytes k) = k.
Proof.
  intros Hk. unfold bytes_int, int_bytes. pose proof (u32_range k). rewrite le_val_bytes by lia.
  unfold u32. destruct (decide (0 <= k)).
  - rewrite Z.mod_small by lia. by rewrite i32_small by lia.
  - assert (k mod 2 ^ 32 = k + 2 ^ 32) as -> by (symmetry; apply Zmod_unique with (-1); lia).
    rewrite i32_neg by lia. lia.
Qed.

Section recovery.
Context {X : Type} `{!IpcTransport X} (s : setting).
Context (Hkv : kv_service s = true) (Hcalloc : calloc_ok s = true) (Hfuel : (0 < kv_fuel s)%nat).

Definition table_of (name : string) (db : kv_db) : option nat := find_idx (fun t => String.eqb (kt_name t) name) db.

(** Nobody has subscribed to an entry. *)
Definition no_subs (m : gmap (list Z) (list Z * list kv_sub)) : Prop := forall key x, m !! key = Some x -> x.2 = [].

Lemma no_subs_live m key (v : env X) : no_subs m -> subs_live (default [] (snd <$> m !! key)) v.
Proof.
  intros Hn. destruct (m !! key) as [x|] eqn:E; cbn; [rewrite (Hn _ _ E)|]; by intros sub ?%elem_of_nil.
Qed.

Lemma no_subs_put m m' key val : m' = m \/ m' = put_of key val m -> no_subs m -> no_subs m'.
Proof.
  intros [-> | ->] Hn; [done|]. intros k x. unfold put_of. destruct (decide (k = key)) as [->|].
  - rewrite lookup_insert_eq. intros [= <-]. cbn. destruct (m !! key) as [y|] eqn:E; cbn; [by apply (Hn key)|done].
  - rewrite lookup_insert_ne by done. apply Hn.
Qed.

(** The two tables are there, [h] has the counter [k] of component [C], and
    nobody has subscribed. *)
Record counter_at (C : nos_component) (h h2 : nat) (k : Z) (v : env X) : Prop := {
  ca_state : table_of "CompStates" (v_kv v) = Some h;
  ca_test : table_of "TestData" (v_kv v) = Some h2;
  ca_table : exists t m, v_kv v !! h = Some t /\ kv_ok t m /\ kt_key_size t = 32%nat /\ kt_max_val t = 4%nat /\
    (fst <$> m !! name_key (c_name C)) = Some (int_bytes k) /\ no_subs m;
  ca_table2 : exists t m, v_kv v !! h2 = Some t /\ kv_ok t m /\ kt_key_size t = 4%nat /\ kt_max_val t = 4%nat /\ no_subs m;
}.

Lemma counter_at_other C h h2 k (v v' : env X) :
  v_kv v' = v_kv v -> counter_at C h h2 k v -> counter_at C h h2 k v'.
Proof. intros E [H1 H2 H3 H4]. split; by rewrite E. Qed.

Lemma comp_log_kv level C msg (v : env X) : v_kv (comp_log s level C msg v) = v_kv v.
Proof. unfold comp_log. by destruct (log_service s). Qed.

Lemma table_of_put name i t t' (v v' : env X) :
  v_kv v' = <[i := t']> (v_kv v) -> v_kv v !! i = Some t -> shape t' = shape t ->
  table_of name (v_kv v') = table_of name (v_kv v).
Proof.
  intros -> Hi Hs. eapply find_idx_same; [done|]. apply shape_eq in Hs as (E & _). cbn. by rewrite E.
Qed.

(** One message. *)
Lemma on_msg2_counts C h h2 k v :
  counter_at C h h2 k v -> k <> 2 ^ 31 - 1 ->
  exists v', on_msg2 s C (Some (Ctx2 (Some h) (Some h2) k)) v = Done (Some (Ctx2 (Some h) (Some h2) (k + 1)), v') /\
    counter_at C h h2 (k + 1) v'.
Proof.
  intros [H1 H2 (t & m & Ht & Hok & Hks & Hmv & Hm & Hns) (t2 & m2 & Ht2 & Hok2 & Hks2 & Hmv2 & Hns2)] Hk.
  assert (h <> h2) as Hne.
  { intros <-. unfold table_of in *. apply find_idx_Some in H1 as (t1 & ? & E1%String.eqb_eq & _), H2 as (t3 & ? & E2%String.eqb_eq & _).
    simplify_eq. by rewrite E1 in E2. }
  unfold on_msg2. cbn [local_counter state_table test_table]. rewrite count_up_done by done. cbn [mbind outcome_bind].
  destruct (kv_put_at s h t m (name_key (c_name C)) (int_bytes (k + 1)) v Ht Hok) as (v1 & t' & m' & -> & Hv1 & _ & Hok' & Hs & Hor & Hm');
    [by rewrite length_name_key|by rewrite Hmv; unfold int_bytes; rewrite length_le_bytes|by apply no_subs_live|].
  cbn [mbind outcome_bind].
  assert (v_kv v1 !! h2 = Some t2) as Ht2' by (by rewrite Hv1, list_lookup_insert_ne).
  destruct (kv_put_at s h2 t2 m2 (int_bytes (k + 1)) (int_bytes (k + 1)) v1 Ht2' Hok2)
    as (v2 & t2' & m2' & -> & Hv2 & _ & Hok2' & Hs2 & Hor2 & _);
    [by rewrite Hks2; apply length_le_bytes|by rewrite Hmv2; unfold int_bytes; rewrite length_le_bytes|by apply no_subs_live|].
  cbn [mbind outcome_bind]. eexists. split; [done|]. eapply counter_at_other; [apply comp_log_kv|].
  pose proof (shape_eq _ _ Hs) as (_ & E1 & E2). pose proof (shape_eq _ _ Hs2) as (_ & E3 & E4).
  split.
  - by rewrite (table_of_put _ h2 t2 t2' v1 v2 Hv2 Ht2' Hs2), (table_of_put _ h t t' v v1 Hv1 Ht Hs).
  - by rewrite (table_of_put _ h2 t2 t2' v1 v2 Hv2 Ht2' Hs2), (table_of_put _ h t t' v v1 Hv1 Ht Hs).
  - exists t', m'. rewrite Hv2, Hv1, list_lookup_insert_ne, list_lookup_insert_eq by (done || by eapply lookup_lt_Some).
    split_and!; [done..|congruence|congruence| |by eapply no_subs_put].
    destruct (m !! name_key (c_name C)) as [p|] eqn:Ep; [|done].
    rewrite Hm' by (left; by eexists). unfold put_of. by rewrite lookup_insert_eq.
  - exists t2', m2'. rewrite Hv2, list_lookup_insert_eq by (by eapply lookup_lt_Some).
    split_and!; [done..|congruence|congruence|by eapply no_subs_put].
Qed.

(** A run of [n] messages. *)
Fixpoint msgs2 (C : nos_component) (n : nat) (ctx : option comp_ctx2) (v : env X)
    : outcome (option comp_ctx2 * env X) :=
  match n with
  | O => Done (ctx, v)
  | S n => '(ctx, v) ← on_msg2 s C ctx v; msgs2 C n ctx v
  end.

Lemma msgs2_count C h h2 n k v :
  counter_at C h h2 k v -> k + Z.of_nat n < 2 ^ 31 ->
  exists v', msgs2 C n (Some (Ctx2 (Some h) (Some h2) k)) v = Done (Some (Ctx2 (Some h) (Some h2) (k + Z.of_nat n)), v') /\
    counter_at C h h2 (k + Z.of_nat n) v'.
Proof.
  revert k v. induction n as [|n IH]; intros k v Hc Hn; cbn [msgs2].
  - rewrite Z.add_0_r. by exists v.
  - destruct (on_msg2_counts C h h2 k v Hc) as (v1 & -> & Hc1); [lia|]. cbn [mbind outcome_bind].
    destruct (IH (k + 1) v1 Hc1) as (v2 & -> & Hc2); [lia|].
    replace (k + Z.of_nat (S n)) with (k + 1 + Z.of_nat n) by lia. by exists v2.
Qed.
Lemma open_table name ks mv cap h (v : env X) :
  table_of name (v_kv v) = Some h -> (0 < ks)%nat -> (0 < cap)%nat -> table_create s name ks mv cap v = Done (Some h, v).
Proof.
  intros Hh H1 H2. unfold table_create. rewrite Hkv. unfold nos_kv_table_create.
  destruct (Nat.eqb_spec ks 0); [lia|]. destruct (Nat.eqb_spec cap 0); [lia|]. cbn [orb].
  unfold table_of in Hh. rewrite Hh. cbn. by destruct v.
Qed.

Lemma make_table name ks mv cap (v : env X) :
  table_of name (v_kv v) = None -> (0 < ks)%nat -> (0 < cap <= 1024)%nat -> (length (v_kv v) < MAX_TABLES)%nat ->
  table_create s name ks mv cap v =
    Done (Some (length (v_kv v)), on_kv (v_kv v ++ [new_table name ks mv cap 1024]) v).
Proof.
  intros Hh H1 H2 H3. unfold table_create. rewrite Hkv. unfold nos_kv_table_create.
  destruct (Nat.eqb_spec ks 0); [lia|]. destruct (Nat.eqb_spec cap 0); [lia|]. cbn [orb].
  unfold table_of in Hh. rewrite Hh. destruct (Nat.leb_spec MAX_TABLES (length (v_kv v))); [lia|].
  rewrite Hcalloc. cbn [negb]. destruct (kv_fuel s) as [|fuel]; [lia|]. cbn [bucket_count_loop].
  by destruct (Z.ltb_spec 1024 (Z.of_nat cap)); [lia|].
Qed.

(** A new instance takes over. *)
Lemma init2_recovers C h h2 k v :
  counter_at C h h2 k v -> - 2 ^ 31 <= k < 2 ^ 31 ->
  exists v', init2 s C v = Done (NOS_OK, Some (Ctx2 (Some h) (Some h2) k), v') /\ counter_at C h h2 k v'.
Proof.
  intros Hc Hk. pose proof Hc as [H1 H2 (t & m & Ht & Hok & Hks & Hmv & Hm & _) _]. unfold init2. rewrite Hcalloc.
  rewrite (open_table _ _ _ _ h) by (done || lia). cbn [mbind outcome_bind].
  rewrite (open_table _ _ _ _ h2) by (done || lia). cbn [mbind outcome_bind].
  unfold recover2. rewrite Ht. cbn [deref mbind outcome_bind].
  rewrite (kv_get_step t m _ 4 Hok) by (unfold key_ok; by rewrite length_name_key).
  destruct (m !! name_key (c_name C)) as [[val subs]|]; [|done]. injection Hm as ->.
  cbn [kv_done mbind outcome_bind].
  assert (bytes_put 0 (take 4 (int_bytes k)) (int_bytes 0) = int_bytes k) as -> by done.
  rewrite int_bytes_back by done. eexists. split; [done|].
  do 2 (eapply counter_at_other; [apply comp_log_kv|]). done.
Qed.

(** The first instance of all. *)
Lemma first_entry C (db : list nos_kv_table) t t2 (v : env X) :
  table_of "CompStates" db = None -> table_of "TestData" db = None ->
  shape t = ("CompStates"%string, 32%nat, 4%nat, 128%nat) -> kv_ok t ∅ ->
  shape t2 = ("TestData"%string, 4%nat, 4%nat, 1024%nat) -> kv_ok t2 ∅ -> v_kv v = db ++ [t; t2] ->
  exists v', recover2 s C (Some (length db)) v = Done (0, v') /\ counter_at C (length db) (S (length db)) 0 v'.
Proof.
  intros H1 H2 [= Hn Hks Hmv Hcap] Hok [= Hn2 Hks2 Hmv2 _] Hok2 Hv.
  assert (v_kv v !! length db = Some t) as Ht by (by rewrite Hv, lookup_app_r, Nat.sub_diag by lia).
  assert (v_kv v !! S (length db) = Some t2) as Ht2
    by (rewrite Hv, lookup_app_r by lia; by replace (S (length db) - length db)%nat with 1%nat by lia).
  unfold recover2. rewrite Ht. cbn [deref mbind outcome_bind].
  rewrite (kv_get_step t ∅ _ 4 Hok) by (unfold key_ok; by rewrite length_name_key).
  rewrite lookup_empty. cbn [kv_done mbind outcome_bind].
  destruct (kv_put_at s (length db) t ∅ (name_key (c_name C)) (int_bytes 0) v Ht Hok) as (v3 & t' & m' & -> & Hv3 & _ & Hok' & Hs & _ & Hm');
    [by rewrite length_name_key|by rewrite Hmv|by intros sub ?%elem_of_nil|]. cbn [mbind outcome_bind].
  rewrite Hm' in Hok' by (right; rewrite map_size_empty, Hcap; lia). clear Hm' m'.
  eexists. split; [done|]. pose proof (shape_eq _ _ Hs) as (_ & E3 & E4). split.
  - rewrite (table_of_put _ (length db) t t' v v3 Hv3 Ht Hs), Hv. unfold table_of. rewrite find_idx_app_r by done.
    cbn [find_idx]. rewrite Hn. cbn. by rewrite Nat.add_0_r.
  - rewrite (table_of_put _ (length db) t t' v v3 Hv3 Ht Hs), Hv. unfold table_of. rewrite find_idx_app_r by done.
    cbn [find_idx]. rewrite Hn, Hn2. cbn. by rewrite Nat.add_1_r.
  - eexists t', _. rewrite Hv3, list_lookup_insert_eq by (by eapply lookup_lt_Some).
    split_and!; [done..|congruence|congruence|unfold put_of; by rewrite lookup_insert_eq|].
    eapply no_subs_put; [by right|by intros ? ?].
  - exists t2, ∅. rewrite Hv3, list_lookup_insert_ne by lia. split_and!; [done..|by intros ? ?].
Qed.

Lemma init2_first C (v : env X) :
  table_of "CompStates" (v_kv v) = None -> table_of "TestData" (v_kv v) = None ->
  (S (length (v_kv v)) < MAX_TABLES)%nat ->
  exists h h2 v', init2 s C v = Done (NOS_OK, Some (Ctx2 (Some h) (Some h2) 0), v') /\ counter_at C h h2 0 v'.
Proof.
  intros H1 H2 Hl. unfold init2. rewrite Hcalloc, make_table by (done || lia). cbn [mbind outcome_bind].
  assert (kv_ok (new_table "CompStates" 32 4 128 1024) ∅) as Hok by (apply new_table_ok; lia).
  assert (kv_ok (new_table "TestData" 4 4 1024 1024) ∅) as Hok2 by (apply new_table_ok; lia).
  assert (shape (new_table "CompStates" 32 4 128 1024) = ("CompStates"%string, 32%nat, 4%nat, 128%nat)) as Hs by done.
  assert (shape (new_table "TestData" 4 4 1024 1024) = ("TestData"%string, 4%nat, 4%nat, 1024%nat)) as Hs2 by done.
  assert (kt_name (new_table "CompStates" 32 4 128 1024) = "CompStates"%string) as Hn by done.
  generalize dependent (new_table "CompStates" 32 4 128 1024). intros t Hok Hs Hn.
  rewrite make_table.
  2: { unfold table_of. cbn [v_kv on_kv]. rewrite find_idx_app_r by done. cbn [find_idx]. by rewrite Hn. }
  2-4: cbn [v_kv on_kv]; rewrite ?length_app; cbn [length]; lia.
  generalize dependent (new_table "TestData" 4 4 1024 1024). intros t2 Hok2 Hs2. cbn [mbind outcome_bind v_kv on_kv].
  rewrite length_app, Nat.add_1_r, <-app_assoc. cbn [app].
  destruct (first_entry C (v_kv v) t t2 (on_kv (v_kv v ++ [t; t2]) (on_kv (v_kv v ++ [t]) v)) H1 H2 Hs Hok Hs2 Hok2 eq_refl)
    as (v' & -> & Hc).
  cbn [mbind outcome_bind]. eexists _, _, _. split; [done|]. by eapply counter_at_other; [apply comp_log_kv|].
Qed.
End recovery.

(** ** What the components promise *)

(** C26. Handling a message whose payload lies in its chunk: a handler that is
    [ready] (its component was initialised; its counter, an [int], is not at
    its largest value; its tables take the keys and values written and their
    subscribers are live; the payload sizes that remote ping and pong are
    asked for do not wrap the 32-bit size of a buffer) returns, and every
    reference it takes it gives back: the counts of all buffers are exact
    again, for the handled message too.  Model 4 is the exception: it may
    keep one buffer, that of its answer. *)
Theorem handlers_balanced {X} `{!IpcTransport X, !IpcLaws X} s held i C r (v : env X) :
  ipc_refs held (v_node v) (v_ipc v) -> r ∈ held -> payload_fits r v -> ready i r v ->
  exists i' v' leaked, comp_on_msg s i C r v = Done (i', v') /\
    ipc_refs (leaked ++ held) (v_node v') (v_ipc v') /\
    (length leaked <= if is_model4 i then 1 else 0)%nat.
Proof.
  intros Hh Hr Hfit Hi. destruct (on_msg_done s held i C r v Hh Hr Hfit Hi) as (i' & v' & E). exists i', v'.
  destruct (is_model4 i) eqn:H4.
  - destruct i; try done. cbn [comp_on_msg] in E. apply bind_Done in E as ([ctx' v1] & E & [= <- <-]).
    destruct (on_msg4_holds s held C ctx r v ctx' v1 E Hh) as (leaked & ? & ?). exists leaked.
    split; [|done]. cbn [comp_on_msg]. by rewrite E.
  - exists []. split; [done|]. split; [|cbn; lia]. by eapply on_msg_holds.
Qed.

(** C27. The sweep of the remote ping: the start message with [N] iterations
    and payload UINT32_MAX makes the handler issue, over the [8 * N] answers
    to come, whatever happens to the node between them, exactly the PINGs 1
    to [N] of 32 bytes, then of 64, up to 4096 bytes, each in order, and
    leave the sweep.  Issuing a PING hands [nos_service_msg_send] a buffer
    with that number, size and 0xA5 bytes, addressed to service 114, and
    releases it; only when the pool has no chunk for it nothing is sent. *)
Theorem rping_sweep {X} `{!IpcTransport X, !IpcLaws X} s C c0 N m r (v : env X) held vs :
  (0 < N)%nat -> Z.of_nat N < 2 ^ 32 -> 0 <= c_id C < 2 ^ 32 ->
  ipc_refs held (v_node v) (v_ipc v) -> payload_len m >= 8 ->
  payload_word 0 r v = Done (Z.of_nat N) -> payload_word 1 r v = Done (2 ^ 32 - 1) ->
  length vs = (length sweep_defaults * N)%nat ->
  Forall (fun v => exists held, ipc_refs held (v_node v) (v_ipc v)) vs ->
  exists c v' vs' c' ps, rping_start s C c0 m r v = Done (Some c, v') /\ sends C v v' (Some (1, 32)) /\
    run_pongs s C c vs = Done (vs', c') /\ Forall3 (sends C) vs vs' ps /\
    (1, 32) :: (ps ≫= option_list) = (sweep_defaults ≫= test_pings N) /\ rp_sweep_count c' = 0%nat.
Proof.
  intros H0 HN Hid Hh Hlen Hw0 Hw1 Hvs Hrefs.
  destruct (rping_start_done s held C c0 m r v Hh) as (o & v' & E);
    [intros _; by eexists|intros _; by exists (2 ^ 32 - 1)|].
  pose proof E as E'. unfold rping_start in E'. rewrite (proj2 (Z.geb_le _ _)) in E' by lia.
  rewrite (proj2 (Z.geb_le _ _)) in E' by lia.
  rewrite Hw0, Hw1 in E'. cbn [mbind outcome_bind] in E'. rewrite Z.eqb_refl in E'.
  unfold start_one_test in E'. apply bind_Done in E' as (v2 & Es & [= <- <-]).
  set (c := RPingCtx _ _ _ _ _ _ _) in *.
  assert (sizes_safe c) as Hs.
  { split; cbn; [unfold payload_safe, MSG_SIZE; lia| |lia]. unfold payload_safe, MSG_SIZE. repeat constructor; lia. }
  destruct (run_pongs_steps s C c c vs Hid Hrefs Hs eq_refl) as (vs' & c' & Hrun & Hc' & Hf).
  destruct (sweep_from N (clock_ns s) (length sweep_defaults) 0 32 sweep_defaults H0 HN eq_refl eq_refl)
    as (out & c2 & Hp & Ho & Hcnt).
  change (sweep_at N (clock_ns s) 0 32 sweep_defaults) with c in Hp. rewrite pongs_steps, <-Hvs in Hp.
  injection Hp as <- Hc2. exists c, v2, vs', c', (pong_steps (length vs) c).1.
  split; [exact E|]. split; [|split; [exact Hrun|split; [exact Hf|split; [exact Ho|]]]].
  - eapply (rsend_ping_sends held C c v); [|apply Hs|done| |exact Es].
    + eapply (same_net_holds held v); [etrans; apply same_net_log|exact Hh].
    + etrans; apply same_net_log.
  - rewrite <-Hc2 in Hcnt. change (rp_sweep_count (timeless c') = 0%nat). by rewrite Hc'.
Qed.

(** C28. Model 2 keeps its counter in the database: the first instance starts
    at 0, [n] messages count to [n], and the instance that replaces it after
    a crash or a reload goes on from [n], with the same tables. *)
Theorem model2_recovers {X} `{!IpcTransport X} s C n (v : env X) :
  kv_service s = true -> calloc_ok s = true -> (0 < kv_fuel s)%nat ->
  table_of "CompStates" (v_kv v) = None -> table_of "TestData" (v_kv v) = None ->
  (S (length (v_kv v)) < MAX_TABLES)%nat -> Z.of_nat n < 2 ^ 31 ->
  exists c v1 c' v2 v3, init2 s C v = Done (NOS_OK, Some c, v1) /\ local_counter c = 0 /\
    msgs2 s C n (Some c) v1 = Done (Some c', v2) /\ local_counter c' = Z.of_nat n /\
    init2 s C v2 = Done (NOS_OK, Some c', v3).
Proof.
  intros Hkv Hc Hf H1 H2 Hl Hn. destruct (init2_first s Hkv Hc Hf C v H1 H2 Hl) as (h & h2 & v1 & E1 & Hc1).
  destruct (msgs2_count s Hf C h h2 n 0 v1 Hc1 ltac:(lia)) as (v2 & E2 & Hc2).
  destruct (init2_recovers s Hkv Hc Hf C h h2 _ v2 Hc2 ltac:(lia)) as (v3 & E3 & _).
  eexists _, v1, _, v2, v3. split; [exact E1|]. split; [done|]. split; [exact E2|]. split; [done|exact E3].
Qed.

(** ** Concrete inputs *)

Definition demo_k : kernel := demo_kernel (fun _ => SentAll).
#[local] Instance demo_transport : IpcTransport ipc_state := ipc_transport demo_k.
#[local] Instance demo_ipc_laws : IpcLaws ipc_state := ipc_laws 0 demo_k.

Definition demo_setting : setting := Setting true true true true 5 5 1 2 (fun _ _ _ => []) 3.

(** [demo_ref] holds a message with that code and those payload words. *)
Definition demo_world (code : Z) (words : list Z) : env ipc_state :=
  Env (upd_pool (put_payload (u32_bytes words) demo_ref)
        (upd_pool (fill [(F_msg_code, code); (F_payload_len, 4 * Z.of_nat (length words))] demo_ref) demo_alloc))
      (ipc_static demo_host) g_log_ctx [].

Lemma demo_world_refs code words :
  ipc_refs [demo_ref] (v_node (demo_world code words)) (v_ipc (demo_world code words)).
Proof.
  apply put_payload_refs; [by left|]. apply fill_refs; [by left|].
  exact (ipc_static_inv [demo_ref] demo_alloc demo_host demo_alloc_refs).
Qed.

Lemma handlers_balanced_witness :
  exists i' v' leaked, comp_on_msg demo_setting (Model4 (Some 3)) demo_comp demo_ref (demo_world 1001 []) = Done (i', v') /\
    ipc_refs (leaked ++ [demo_ref]) (v_node v') (v_ipc v') /\ (length leaked <= 1)%nat.
Proof.
  apply (handlers_balanced demo_setting [demo_ref] (Model4 (Some 3)) demo_comp demo_ref (demo_world 1001 [])
    (demo_world_refs _ _)); [by left| |by exists 3].
  intros m Hm. vm_compute in Hm. injection Hm as <-. by vm_compute.
Defined.

Definition demo_start : nos_service_msg := Msg 0 0 0 0 0 3001 0 0 8.

Lemma rping_sweep_witness :
  exists c v' vs' c' ps, rping_start demo_setting demo_comp (RPingCtx 0 0 0 0 0 0 (replicate 8 0)) demo_start demo_ref
      (demo_world 3001 [2; 2 ^ 32 - 1]) = Done (Some c, v') /\ sends demo_comp (demo_world 3001 [2; 2 ^ 32 - 1]) v' (Some (1, 32)) /\
    run_pongs demo_setting demo_comp c (replicate 16 (demo_world 2002 [])) = Done (vs', c') /\
    Forall3 (sends demo_comp) (replicate 16 (demo_world 2002 [])) vs' ps /\
    (1, 32) :: (ps ≫= option_list) = (sweep_defaults ≫= test_pings 2) /\ rp_sweep_count c' = 0%nat.
Proof.
  apply (rping_sweep demo_setting demo_comp (RPingCtx 0 0 0 0 0 0 (replicate 8 0)) 2 demo_start demo_ref
    (demo_world 3001 [2; 2 ^ 32 - 1]) [demo_ref] (replicate 16 (demo_world 2002 []))); [lia|lia|by cbn|apply demo_world_refs|done| | |done|].
  - vm_compute. reflexivity.
  - vm_compute. reflexivity.
  - apply Forall_replicate. exists [demo_ref]. apply demo_world_refs.
Defined.

Lemma model2_recovers_witness :
  exists c v1 c' v2 v3, init2 demo_setting demo_comp (demo_world 0 []) = Done (NOS_OK, Some c, v1) /\ local_counter c = 0 /\
    msgs2 demo_setting demo_comp 3 (Some c) v1 = Done (Some c', v2) /\ local_counter c' = 3 /\
    init2 demo_setting demo_comp v2 = Done (NOS_OK, Some c', v3).
Proof.
  apply (model2_recovers demo_setting demo_comp 3 (demo_world 0 [])); [done|done|cbn; lia|done|done|cbn; unfold MAX_TABLES; lia|lia].
Defined.

(** The answer of model 4 to a management message is never released: the
    chunk is lost, here without any queue that holds it. *)
Lemma model4_leaks :
  match on_msg4 demo_setting demo_comp (Some 3) demo_ref (demo_world 1001 []) with
  | Done (_, v') => b_ref_cnt <$> get_buf (BRef 0 0) (n_pool (v_node v')) = Some 1 /\
      queued (v_node v') = [] /\ tx_queued (v_ipc v') = []
  | _ => False
  end.
Proof. vm_compute. done. Qed.

(** A payload size close to 2^32 wraps the size of the buffer around: the
    chunk is small and the payload does not fit. *)
Lemma remote_ping_overflows :
  rping_start demo_setting demo_comp (RPingCtx 0 0 0 0 0 0 (replicate 8 0)) demo_start demo_ref
    (demo_world 3001 [1; 2 ^ 32 - 31]) = Undef.
Proof. vm_compute. reflexivity. Qed.
